(** * OpenGLVideo: the GPU video filter chain of MythTV (libmythtv/openglvideo.cpp)

    A shallow embedding of the filter-stage graph, the capability
    negotiation, the fragment-program generator, the frame uploader and the
    reference-texture ring of [OpenGLVideo], with the properties of the
    specification proved (or refuted) over it.

    Conventions.
    - C++ [uint]/[GLuint] values are [Z] with the 32-bit wrap-around written
      out ([u32]); [int] results of unsigned differences go through [s32].
    - [std::vector<GLuint>] is [list GLuint]; [std::map<OpenGLFilterType,
      OpenGLFilter*>] is a [gmap] whose values are [option OpenGLFilter]
      ([None] is the null pointer), iterated in key order ([pipeline]).
    - Member functions are computations in the state-and-failure monad [M]:
      they thread the [OpenGLVideo] object and yield [None] where the C++
      has undefined behaviour (a null stage pointer dereferenced, [v[0]] on
      an empty vector, signed overflow).
    - The rendering context ([MythRenderOpenGL]), Qt and the headers are not
      part of the sources at hand; what the code needs of them is either a
      parameter ([Consts], [FloatOps]) or a model written from the
      specification (module [GL]). *)

From stdpp Require Import gmap strings list fin_maps sorting.
From Stdlib Require Import ZArith Ascii Lia QArith.
From Stdlib Require String DecimalString.

Local Open Scope Z_scope.

(** ** Machine integers *)

Definition GLuint := Z.

Definition u32 (z : Z) : Z := z mod 2 ^ 32.

(** Conversion of an unsigned 32-bit value to [int], as in
    [int d = a - b] with [a], [b] unsigned. *)
Definition s32 (z : Z) : Z :=
  let m := u32 z in if m <? 2 ^ 31 then m else m - 2 ^ 32.

Definition INT_MAX : Z := 2 ^ 31 - 1.

(** ** Constants of absent headers

    [mythrender_opengl.h] (the [GLFeatures] bits), [videoouttypes.h] (the
    numeric value of [kScan_Interlaced]), [frame.h] ([FMT_YV12]) and the GL
    headers are not among the sources: their values are parameters. *)

Class Consts := {
  kGLExtRect     : Z;
  kGLExtFragProg : Z;
  kGLExtFBufObj  : Z;
  kGLExtPBufObj  : Z;
  kGLNVFence     : Z;
  kGLAppleFence  : Z;
  kGLMesaYCbCr   : Z;
  kGLMaxFeat     : Z;
  kScan_Interlaced_value : Z;
  FMT_YV12       : Z;
  GL_LINEAR        : Z;
  GL_NEAREST       : Z;
  GL_CLAMP_TO_EDGE : Z;
  GL_TEXTURE_2D    : Z;
}.

(** ** Floating point

    [float]/[double] arithmetic and [QString::setNum(x, 'f', prec)] are kept
    abstract: the development never looks inside a floating-point value. *)

Class FloatOps := {
  float   : Type;
  f_of_Z  : Z -> float;
  f_add   : float -> float -> float;
  f_sub   : float -> float -> float;
  f_mul   : float -> float -> float;
  f_div   : float -> float -> float;
  f_neg   : float -> float;
  f_setNum : float -> nat -> string;
}.

(** ** The enumerations *)

(** Modelled from the spec: [OpenGLFilterType] is declared in
    [openglvideo.h], which is absent. The constructors are the four names
    the code uses; their order (the key order of the [std::map], hence the
    pipeline order) is the one of the switch in [FilterToString] and of the
    specification: colourspace conversion before resize and bicubic. *)
Inductive OpenGLFilterType :=
  | kGLFilterNone
  | kGLFilterYUV2RGB
  | kGLFilterResize
  | kGLFilterBicubic.

Inductive DisplayBuffer :=
  | kDefaultBuffer
  | kFrameBufferObject.

Inductive FrameScanType :=
  | kScan_Ignore
  | kScan_Detect
  | kScan_Interlaced
  | kScan_Intr2ndField
  | kScan_Progressive.

Global Instance OpenGLFilterType_eq_dec : EqDecision OpenGLFilterType.
Proof. solve_decision. Defined.

Global Instance DisplayBuffer_eq_dec : EqDecision DisplayBuffer.
Proof. solve_decision. Defined.

Global Instance FrameScanType_eq_dec : EqDecision FrameScanType.
Proof. solve_decision. Defined.

Definition filter_rank (t : OpenGLFilterType) : nat :=
  match t with
  | kGLFilterNone => 0
  | kGLFilterYUV2RGB => 1
  | kGLFilterResize => 2
  | kGLFilterBicubic => 3
  end%nat.

Definition filter_of_rank (n : nat) : option OpenGLFilterType :=
  match n with
  | 0 => Some kGLFilterNone
  | 1 => Some kGLFilterYUV2RGB
  | 2 => Some kGLFilterResize
  | 3 => Some kGLFilterBicubic
  | _ => None
  end%nat.

Global Instance OpenGLFilterType_countable : Countable OpenGLFilterType.
Proof. apply (inj_countable filter_rank filter_of_rank). by intros []. Defined.

(** All keys, in increasing order. *)
Definition all_filter_types : list OpenGLFilterType :=
  [kGLFilterNone; kGLFilterYUV2RGB; kGLFilterResize; kGLFilterBicubic].

(** ** QString operations *)

Module QStr.

Definition nl : string := String (ascii_of_nat 10) EmptyString.

Definition lines (l : list string) : string :=
  foldr (fun s acc => s +:+ nl +:+ acc) EmptyString l.

(** [QString::split(sep)] with the default [KeepEmptyParts]. *)
Fixpoint split (sep : ascii) (s : string) : list string :=
  match s with
  | EmptyString => [EmptyString]
  | String c s' =>
      if Ascii.eqb c sep then EmptyString :: split sep s'
      else match split sep s' with
           | [] => [String c EmptyString]
           | w :: ws => String c w :: ws
           end
  end.

(** [s.section(sep, 0, 0)]: the text before the first separator. *)
Fixpoint section_first (sep : ascii) (s : string) : string :=
  match s with
  | EmptyString => EmptyString
  | String c s' =>
      if Ascii.eqb c sep then EmptyString else String c (section_first sep s')
  end.

(** [s.section(sep, 1)]: the text after the first separator. *)
Fixpoint section_rest (sep : ascii) (s : string) : string :=
  match s with
  | EmptyString => EmptyString
  | String c s' => if Ascii.eqb c sep then s' else section_rest sep s'
  end.

Definition lower_ascii (c : ascii) : ascii :=
  let n := nat_of_ascii c in
  if ((65 <=? n)%nat && (n <=? 90)%nat)%bool then ascii_of_nat (n + 32) else c.

Fixpoint toLower (s : string) : string :=
  match s with
  | EmptyString => EmptyString
  | String c s' => String (lower_ascii c) (toLower s')
  end.

(** [s.contains(sub)]. *)
Fixpoint contains (s sub : string) : bool :=
  String.prefix sub s ||
  match s with
  | EmptyString => false
  | String _ s' => contains s' sub
  end.

(** [s.replace(before, after)] for a non-empty [before]: every occurrence,
    left to right, non-overlapping; replaced text is not scanned again.
    [skip] counts the characters of a match still to be passed over. *)
Fixpoint replace_from (skip : nat) (before after s : string) : string :=
  match s with
  | EmptyString => EmptyString
  | String c s' =>
      match skip with
      | S k => replace_from k before after s'
      | O =>
          if String.prefix before s
          then after +:+ replace_from (String.length before - 1) before after s'
          else String c (replace_from O before after s')
      end
  end.

Definition replace (before after s : string) : string :=
  replace_from O before after s.

End QStr.

Import QStr.

Definition attrib_fast : string :=
  lines ["ATTRIB tex   = fragment.texcoord[0];";
     "PARAM yuv[3] = { program.local[0..2] };"].

Definition var_alpha : string :=
  lines ["TEMP alpha;"].

Definition tex_alpha : string :=
  lines ["TEX alpha, tex, texture[3], %1;"].

Definition tex_fast : string :=
  lines ["TEX res, tex, texture[0], %1;"].

Definition var_fast : string :=
  lines ["TEMP tmp, res;"].

Definition end_fast : string :=
  lines ["DPH tmp.r, res.arbg, yuv[0];";
     "DPH tmp.g, res.arbg, yuv[1];";
     "DPH tmp.b, res.arbg, yuv[2];";
     "MOV tmp.a, res.g;";
     "MOV result.color, tmp;"].

Definition var_deint : string :=
  lines ["TEMP other, current, mov, prev;"].

Definition field_calc : string :=
  lines ["MUL prev, tex.yyyy, %2;";
     "FRC prev, prev;";
     "SUB prev, prev, 0.5;"].

Definition bobdeint_0 : string :=
  field_calc +:+
  lines ["ADD other, tex, {0.0, %3, 0.0, 0.0};";
     "TEX other, other, texture[0], %1;";
     "CMP res, prev, res, other;"].

Definition bobdeint_1 : string :=
  field_calc +:+
  lines ["SUB other, tex, {0.0, %3, 0.0, 0.0};";
     "TEX other, other, texture[0], %1;";
     "CMP res, prev, other, res;"].

Definition deint_end_top : string :=
  lines ["CMP res,  prev, current, other;"].

Definition deint_end_bot : string :=
  lines ["CMP res,  prev, other, current;"].

Definition linearblend_0 : string :=
  lines ["TEX current, tex, texture[1], %1;";
     "TEX prev, tex, texture[2], %1;";
     "ADD other, tex, {0.0, %3, 0.0, 0.0};";
     "TEX other, other, texture[1], %1;";
     "SUB mov, tex, {0.0, %3, 0.0, 0.0};";
     "TEX mov, mov, texture[1], %1;";
     "LRP other, 0.5, other, mov;"] +:+
  field_calc +:+
  deint_end_top.

Definition linearblend_1 : string :=
  lines ["TEX current, tex, texture[1], %1;";
     "SUB other, tex, {0.0, %3, 0.0, 0.0};";
     "TEX other, other, texture[1], %1;";
     "ADD mov, tex, {0.0, %3, 0.0, 0.0};";
     "TEX mov, mov, texture[1], %1;";
     "LRP other, 0.5, other, mov;"] +:+
  field_calc +:+
  deint_end_bot.

Definition kerneldeint_0 : string :=
  lines ["TEX current, tex, texture[1], %1;";
     "TEX prev, tex, texture[2], %1;";
     "MUL other, 0.125, prev;";
     "MAD other, 0.125, current, other;";
     "ADD prev, tex, {0.0, %3, 0.0, 0.0};";
     "TEX prev, prev, texture[1], %1;";
     "MAD other, 0.5, prev, other;";
     "SUB prev, tex, {0.0, %3, 0.0, 0.0};";
     "TEX prev, prev, texture[1], %1;";
     "MAD other, 0.5, prev, other;";
     "ADD prev, tex, {0.0, %4, 0.0, 0.0};";
     "TEX tmp, prev, texture[1], %1;";
     "MAD other, -0.0625, tmp, other;";
     "TEX tmp, prev, texture[2], %1;";
     "MAD other, -0.0625, tmp, other;";
     "SUB prev, tex, {0.0, %4, 0.0, 0.0};";
     "TEX tmp, prev, texture[1], %1;";
     "MAD other, -0.0625, tmp, other;";
     "TEX tmp, prev, texture[2], %1;";
     "MAD other, -0.0625, tmp, other;"] +:+
  field_calc +:+
  deint_end_top.

Definition kerneldeint_1 : string :=
  lines ["TEX current, tex, texture[1], %1;";
     "MUL other, 0.125, res;";
     "MAD other, 0.125, current, other;";
     "ADD prev, tex, {0.0, %3, 0.0, 0.0};";
     "TEX prev, prev, texture[1], %1;";
     "MAD other, 0.5, prev, other;";
     "SUB prev, tex, {0.0, %3, 0.0, 0.0};";
     "TEX prev, prev, texture[1], %1;";
     "MAD other, 0.5, prev, other;";
     "ADD prev, tex, {0.0, %4, 0.0, 0.0};";
     "TEX tmp, prev, texture[1], %1;";
     "MAD other, -0.0625, tmp, other;";
     "TEX tmp, prev, texture[0], %1;";
     "MAD other, -0.0625, tmp, other;";
     "SUB prev, tex, {0.0, %4, 0.0, 0.0};";
     "TEX tmp, prev, texture[1], %1;";
     "MAD other, -0.0625, tmp, other;";
     "TEX tmp, prev, texture[0], %1;";
     "MAD other, -0.0625, tmp, other;"] +:+
  field_calc +:+
  deint_end_bot.

Definition yadif_setup : string :=
  lines ["TEMP a,b,c,e,f,g,h,j,k,l;";
     "TEMP a1,b1,f1,g1,h1,i1,j1,l1,m1,n1;";
     "ALIAS d1 = f;";
     "ALIAS k1 = g;";
     "ALIAS c1 = prev;";
     "ALIAS e1 = mov;";
     "ALIAS p0 = res;";
     "ALIAS p1 = c;";
     "ALIAS p3 = h;";
     "ALIAS spred1 = a;";
     "ALIAS spred2 = b;";
     "ALIAS spred3 = c;";
     "ALIAS spred4 = e;";
     "ALIAS spred5 = f;";
     "ALIAS sscore = g;";
     "ALIAS score1 = h;";
     "ALIAS score2 = j;";
     "ALIAS score3 = k;";
     "ALIAS score4 = l;";
     "ALIAS if1 = a1;";
     "ALIAS if2 = b1;";
     "TEMP p2, p4;";
     "ALIAS diff1 = a;";
     "ALIAS diff2 = b;";
     "TEMP diff0;"].

Definition yadif_spatial_sample : string :=
  lines ["ADD tmp, tex, {%5, %3, 0.0, 0.0};";
     "TEX e1, tmp, texture[1], %1;";
     "ADD tmp, tmp, {%5, 0.0, 0.0, 0.0};";
     "TEX f1, tmp, texture[1], %1;";
     "ADD tmp, tmp, {%5, 0.0, 0.0, 0.0};";
     "TEX g1, tmp, texture[1], %1;";
     "SUB tmp, tmp, {0.0, %4, 0.0, 0.0};";
     "TEX n1, tmp, texture[1], %1;";
     "SUB tmp, tmp, {%5, 0.0, 0.0, 0.0};";
     "TEX m1, tmp, texture[1], %1;";
     "SUB tmp, tmp, {%5, 0.0, 0.0, 0.0};";
     "TEX l1, tmp, texture[1], %1;";
     "SUB tmp, tex, {%5, %3, 0.0, 0.0};";
     "TEX j1, tmp, texture[1], %1;";
     "SUB tmp, tmp, {%5, 0.0, 0.0, 0.0};";
     "TEX i1, tmp, texture[1], %1;";
     "SUB tmp, tmp, {%5, 0.0, 0.0, 0.0};";
     "TEX h1, tmp, texture[1], %1;";
     "ADD tmp, tmp, {0.0, %4, 0.0, 0.0};";
     "TEX a1, tmp, texture[1], %1;";
     "ADD tmp, tmp, {%5, 0.0, 0.0, 0.0};";
     "TEX b1, tmp, texture[1], %1;";
     "ADD tmp, tmp, {%5, 0.0, 0.0, 0.0};";
     "TEX c1, tmp, texture[1], %1;"].

Definition yadif_calc : string :=
  lines ["LRP p0, 0.5, c, h;";
     "MOV p1, f;";
     "LRP p2, 0.5, d, i;";
     "MOV p3, g;";
     "LRP p4, 0.5, e, j;";
     "SUB diff0, d, i;";
     "ABS diff0, diff0;";
     "SUB tmp, a, f;";
     "ABS tmp, tmp;";
     "SUB diff1, b, g;";
     "ABS diff1, diff1;";
     "LRP diff1, 0.5, diff1, tmp;";
     "SUB tmp, k, f;";
     "ABS tmp, tmp;";
     "SUB diff2, g, l;";
     "ABS diff2, diff2;";
     "LRP diff2, 0.5, diff2, tmp;";
     "MAX diff0, diff0, diff1;";
     "MAX diff0, diff0, diff2;";
     "SUB tmp, p0, p1;";
     "SUB other, p4, p3;";
     "MIN spred1, tmp, other;";
     "MAX spred2, tmp, other;";
     "SUB tmp, p2, p1;";
     "SUB other, p2, p3;";
     "MAX spred1, spred1, tmp;";
     "MAX spred1, spred1, other;";
     "MIN spred2, spred2, tmp;";
     "MIN spred2, spred2, other;";
     "MAX spred1, spred2, -spred1;";
     "MAX diff0, diff0, spred1;";
     "LRP spred1, 0.5, d1, k1;";
     "LRP spred2, 0.5, c1, l1;";
     "LRP spred3, 0.5, b1, m1;";
     "LRP spred4, 0.5, e1, j1;";
     "LRP spred5, 0.5, f1, i1;";
     "SUB sscore, c1, j1;";
     "ABS sscore, sscore;";
     "SUB tmp, d1, k1;";
     "ABS tmp, tmp;";
     "ADD sscore, sscore, tmp;";
     "SUB tmp, e1, l1;";
     "ABS tmp, tmp;";
     "ADD sscore, sscore, tmp;";
     "SUB sscore, sscore, 1.0;";
     "SUB score1, b1, k1;";
     "ABS score1, score1;";
     "SUB tmp, c1, l1;";
     "ABS tmp, tmp;";
     "ADD score1, score1, tmp;";
     "SUB tmp, d1, m1;";
     "ABS tmp, tmp;";
     "ADD score1, score1, tmp;";
     "SUB score2, a1, l1;";
     "ABS score2, score2;";
     "SUB tmp, b1, m1;";
     "ABS tmp, tmp;";
     "ADD score2, score2, tmp;";
     "SUB tmp, c1, n1;";
     "ABS tmp, tmp;";
     "ADD score2, score2, tmp;";
     "SUB score3, d1, i1;";
     "ABS score3, score3;";
     "SUB tmp, e1, j1;";
     "ABS tmp, tmp;";
     "ADD score3, score3, tmp;";
     "SUB tmp, f1, k1;";
     "ABS tmp, tmp;";
     "ADD score3, score3, tmp;";
     "SUB score4, e1, h1;";
     "ABS score4, score4;";
     "SUB tmp, f1, i1;";
     "ABS tmp, tmp;";
     "ADD score4, score4, tmp;";
     "SUB tmp, g1, j1;";
     "ABS tmp, tmp;";
     "ADD score4, score4, tmp;";
     "SUB if1, sscore, score1;";
     "SUB if2, score1, score2;";
     "CMP if2, if1, -1.0, if2;";
     "CMP spred1, if1, spred1, spred2;";
     "CMP spred1, if2, spred1, spred3;";
     "CMP sscore, if1, sscore, score1;";
     "CMP sscore, if2, sscore, score2;";
     "SUB if1, sscore, score3;";
     "SUB if2, score3, score4;";
     "CMP if2, if1, -1.0, if2;";
     "CMP spred1, if1, spred1, spred4;";
     "CMP spred1, if2, spred1, spred5;";
     "ADD spred4, p2, diff0;";
     "SUB spred5, p2, diff0;";
     "SUB if1, spred4, spred1;";
     "SUB if2, spred1, spred5;";
     "CMP spred1, if1, spred4, spred1;";
     "CMP spred1, if2, spred5, spred1;"].

Definition yadif_0 : string :=
  yadif_setup +:+
  lines ["TEMP d;";
     "ALIAS i = current;";
     "TEX current, tex, texture[1], %1;";
     "TEX d, tex, texture[2], %1;";
     "ADD tmp, tex, {0.0, %3, 0.0, 0.0};";
     "TEX a, tmp, texture[2], %1;";
     "TEX f, tmp, texture[1], %1;";
     "TEX k, tmp, texture[0], %1;";
     "ADD tmp, tex, {0.0, %4, 0.0, 0.0};";
     "TEX c, tmp, texture[2], %1;";
     "TEX h, tmp, texture[1], %1;";
     "SUB tmp, tex, {0.0, %3, 0.0, 0.0};";
     "TEX b, tmp, texture[2], %1;";
     "TEX g, tmp, texture[1], %1;";
     "TEX l, tmp, texture[0], %1;";
     "SUB tmp, tex, {0.0, %4, 0.0, 0.0};";
     "TEX e, tmp, texture[2], %1;";
     "TEX j, tmp, texture[1], %1;"] +:+
  yadif_spatial_sample +:+
  yadif_calc +:+
  field_calc +:+
  lines ["CMP res, prev, current, spred1;"].

Definition yadif_1 : string :=
  yadif_setup +:+
  lines ["TEMP i;";
     "ALIAS d = current;";
     "TEX current, tex, texture[1], %1;";
     "TEX i, tex, texture[0], %1;";
     "ADD tmp, tex, {0.0, %3, 0.0, 0.0};";
     "TEX a, tmp, texture[2], %1;";
     "TEX f, tmp, texture[1], %1;";
     "TEX k, tmp, texture[0], %1;";
     "ADD tmp, tex, {0.0, %4, 0.0, 0.0};";
     "TEX c, tmp, texture[1], %1;";
     "TEX h, tmp, texture[0], %1;";
     "SUB tmp, tex, {0.0, %3, 0.0, 0.0};";
     "TEX b, tmp, texture[2], %1;";
     "TEX g, tmp, texture[1], %1;";
     "TEX l, tmp, texture[0], %1;";
     "SUB tmp, tex, {0.0, %4, 0.0, 0.0};";
     "TEX e, tmp, texture[1], %1;";
     "TEX j, tmp, texture[0], %1;"] +:+
  yadif_spatial_sample +:+
  yadif_calc +:+
  field_calc +:+
  lines ["CMP res, prev, spred1, current;"].

Definition bicubic : string :=
  lines ["TEMP coord, coord2, cdelta, parmx, parmy, a, b, c, d;";
     "MAD coord.xy, fragment.texcoord[0], {%6, %7}, {0.5, 0.5};";
     "TEX parmx, coord.x, texture[1], 1D;";
     "TEX parmy, coord.y, texture[1], 1D;";
     "MUL cdelta.xz, parmx.rrgg, {-%5, 0, %5, 0};";
     "MUL cdelta.yw, parmy.rrgg, {0, -%3, 0, %3};";
     "ADD coord, fragment.texcoord[0].xyxy, cdelta.xyxw;";
     "ADD coord2, fragment.texcoord[0].xyxy, cdelta.zyzw;";
     "TEX a, coord.xyxy, texture[0], 2D;";
     "TEX b, coord.zwzw, texture[0], 2D;";
     "TEX c, coord2.xyxy, texture[0], 2D;";
     "TEX d, coord2.zwzw, texture[0], 2D;";
     "LRP a, parmy.b, a, b;";
     "LRP c, parmy.b, c, d;";
     "LRP result.color, parmx.b, a, c;"].

(** ** Geometry (Qt value types, by their documented meaning) *)

Record QSize := mkQSize { width : Z; height : Z }.

Record QRect := mkQRect { r_left : Z; r_top : Z; r_width : Z; r_height : Z }.

Definition rect_size (r : QRect) : QSize := mkQSize (r_width r) (r_height r).

Global Instance QSize_eq_dec : EqDecision QSize.
Proof. solve_decision. Defined.

Global Instance QRect_eq_dec : EqDecision QRect.
Proof. solve_decision. Defined.

(** ** The rendering context *)

Module GL.

(** How [UpdateInputFrame] filled a texture buffer. *)
Inductive Packing :=
  | SwsBGRA          (* myth_sws_img_convert to PIX_FMT_BGRA *)
  | SwsUYVY          (* myth_sws_img_convert to PIX_FMT_UYVY422 *)
  | PackInterlaced   (* pack_yv12interlaced *)
  | PackAlpha.       (* pack_yv12alpha *)

(** The pixel formats [CreateVideoTexture] asks for. *)
Inductive TexFormat :=
  | FmtDefault
  | FmtYCbCrMesa
  | FmtRGBA
  | FmtHelper.

Record Texture := mkTexture {
  tex_size    : QSize;
  tex_pbo     : bool;
  tex_type    : Z;
  tex_format  : TexFormat;
  tex_filter  : option (Z * Z);       (* last SetTextureFilters (filter, wrap) *)
  tex_content : option (Packing * Z); (* last UpdateTexture: packing, frame buffer *)
}.

(** Modelled from the spec: [MythRenderOpenGL] is absent. Section 6 lists
    the interface consumed (create/delete texture, framebuffer and fragment
    program, memory-mapped texture buffer, update texture, feature bitmask)
    and section 7 says a failed creation returns a null handle. The context
    keeps the tables of live objects; [failures] scripts the outcome of the
    forthcoming creation calls ([true]: the call fails; exhausted: success);
    [lock_depth] counts the nested [MakeCurrent] acquisitions of section 5. *)
Record Context := mkContext {
  textures     : gmap Z Texture;
  framebuffers : gmap Z Z;
  programs     : gmap Z string;
  failures     : list bool;
  features     : Z;
  lock_depth   : nat;
}.

Definition set_textures (t : gmap Z Texture) (c : Context) : Context :=
  mkContext t (framebuffers c) (programs c) (failures c) (features c) (lock_depth c).

Definition set_framebuffers (f : gmap Z Z) (c : Context) : Context :=
  mkContext (textures c) f (programs c) (failures c) (features c) (lock_depth c).

Definition set_programs (p : gmap Z string) (c : Context) : Context :=
  mkContext (textures c) (framebuffers c) p (failures c) (features c) (lock_depth c).

Definition set_failures (l : list bool) (c : Context) : Context :=
  mkContext (textures c) (framebuffers c) (programs c) l (features c) (lock_depth c).

Definition set_lock_depth (n : nat) (c : Context) : Context :=
  mkContext (textures c) (framebuffers c) (programs c) (failures c) (features c) n.

(** A name that is not in use: one more than the largest live name. *)
Definition max_name (l : list Z) : Z := foldr Z.max 0 l.

Definition fresh_name {A} (m : gmap Z A) : Z := 1 + max_name (fst <$> map_to_list m).

Definition next_outcome (c : Context) : bool * Context :=
  match failures c with
  | [] => (false, c)
  | b :: l => (b, set_failures l c)
  end.

Definition CreateTexture (size : QSize) (use_pbo : bool) (type : Z)
    (fmt : TexFormat) (c : Context) : GLuint * Context :=
  let '(fails, c) := next_outcome c in
  if fails then (0, c)
  else
    let h := fresh_name (textures c) in
    (h, set_textures (<[h := mkTexture size use_pbo type fmt None None]> (textures c)) c).

Definition DeleteTexture (tex : GLuint) (c : Context) : Context :=
  set_textures (delete tex (textures c)) c.

Definition CreateHelperTexture (type : Z) (c : Context) : GLuint * Context :=
  CreateTexture (mkQSize 256 1) false type FmtHelper c.

(** Fails when [tex] is not a live texture. *)
Definition CreateFrameBuffer (tex : GLuint) (c : Context) : bool * GLuint * Context :=
  match textures c !! tex with
  | None => (false, 0, c)
  | Some _ =>
      let '(fails, c) := next_outcome c in
      if fails then (false, 0, c)
      else
        let h := fresh_name (framebuffers c) in
        (true, h, set_framebuffers (<[h := tex]> (framebuffers c)) c)
  end.

Definition DeleteFrameBuffer (fb : GLuint) (c : Context) : Context :=
  set_framebuffers (delete fb (framebuffers c)) c.

Definition CreateFragmentProgram (program : string) (c : Context) : bool * GLuint * Context :=
  let '(fails, c) := next_outcome c in
  if fails then (false, 0, c)
  else
    let h := fresh_name (programs c) in
    (true, h, set_programs (<[h := program]> (programs c)) c).

Definition DeleteFragmentProgram (prog : GLuint) (c : Context) : Context :=
  set_programs (delete prog (programs c)) c.

(** The memory-mapped buffer of a texture: null unless the texture is live.
    The buffer is named by its texture. *)
Definition GetTextureBuffer (tex : GLuint) (c : Context) : option GLuint :=
  match textures c !! tex with
  | Some _ => Some tex
  | None => None
  end.

Definition UpdateTexture (tex : GLuint) (data : Packing * Z) (c : Context) : Context :=
  set_textures
    (alter (fun t => mkTexture (tex_size t) (tex_pbo t) (tex_type t) (tex_format t)
                               (tex_filter t) (Some data)) tex (textures c)) c.

Definition SetTextureFilters (tex : GLuint) (filt wrap : Z) (c : Context) : Context :=
  set_textures
    (alter (fun t => mkTexture (tex_size t) (tex_pbo t) (tex_type t) (tex_format t)
                               (Some (filt, wrap)) (tex_content t)) tex (textures c)) c.

Definition GetFeatures (c : Context) : Z := features c.

(** Section 4.3: the exact size for rectangle textures, else both
    dimensions rounded up to a power of two that is at least 64. *)
Definition pow2_from64 (n : Z) : Z := Z.max 64 (2 ^ Z.log2_up n).

Definition GetTextureSize `{Consts} (type : Z) (size : QSize) : QSize :=
  if bool_decide (type = GL_TEXTURE_2D)
  then mkQSize (pow2_from64 (width size)) (pow2_from64 (height size))
  else size.

(** [OpenGLLocker]: acquired on construction, released at scope exit. *)
Definition MakeCurrent (c : Context) : Context := set_lock_depth (S (lock_depth c)) c.

Definition DoneCurrent (c : Context) : Context := set_lock_depth (Nat.pred (lock_depth c)) c.

End GL.

(** ** Filter stages and the video object *)

Record OpenGLFilter := mkOpenGLFilter {
  fragmentPrograms    : list GLuint;
  numInputs           : Z;
  frameBuffers        : list GLuint;
  frameBufferTextures : list GLuint;
  outputBuffer        : DisplayBuffer;
}.

Definition set_fragmentPrograms (v : list GLuint) (f : OpenGLFilter) : OpenGLFilter :=
  mkOpenGLFilter v (numInputs f) (frameBuffers f) (frameBufferTextures f) (outputBuffer f).

Definition set_frameBuffers (v : list GLuint) (f : OpenGLFilter) : OpenGLFilter :=
  mkOpenGLFilter (fragmentPrograms f) (numInputs f) v (frameBufferTextures f) (outputBuffer f).

Definition set_frameBufferTextures (v : list GLuint) (f : OpenGLFilter) : OpenGLFilter :=
  mkOpenGLFilter (fragmentPrograms f) (numInputs f) (frameBuffers f) v (outputBuffer f).

Definition set_outputBuffer (v : DisplayBuffer) (f : OpenGLFilter) : OpenGLFilter :=
  mkOpenGLFilter (fragmentPrograms f) (numInputs f) (frameBuffers f) (frameBufferTextures f) v.

(** The part of [VideoFrame] that [UpdateInputFrame] reads; [buf] names the
    pixel data (the offsets and pitches go to the packing routines with it). *)
Record VideoFrame := mkVideoFrame {
  frame_width      : Z;
  frame_height     : Z;
  codec            : Z;
  interlaced_frame : bool;
  buf              : Z;
}.

(** The members of [OpenGLVideo] (the colour-space object and the letterbox
    colour, which only rendering reads, are left out); [verbose_log] collects
    the messages passed to [VERBOSE]. *)
Record OpenGLVideo := mkOpenGLVideo {
  gl_context : GL.Context;
  video_dim : QSize;
  actual_video_dim : QSize;
  viewportSize : QSize;
  masterViewportSize : QSize;
  display_visible_rect : QRect;
  display_video_rect : QRect;
  video_rect : QRect;
  frameBufferRect : QRect;
  softwareDeinterlacer : string;
  hardwareDeinterlacer : string;
  hardwareDeinterlacing : bool;
  viewportControl : bool;
  inputTextures : list GLuint;
  referenceTextures : list GLuint;
  inputTextureSize : QSize;
  filters : gmap OpenGLFilterType (option OpenGLFilter);
  currentFrameNum : Z;
  inputUpdated : bool;
  refsNeeded : Z;
  textureRects : bool;
  textureType : Z;
  helperTexture : GLuint;
  defaultUpsize : OpenGLFilterType;
  gl_features : Z;
  using_ycbcrtex : bool;
  using_hardwaretex : bool;
  verbose_log : list string;
}.

Definition set_gl_context (v : GL.Context) (s : OpenGLVideo) : OpenGLVideo :=
  mkOpenGLVideo v (video_dim s) (actual_video_dim s) (viewportSize s)
    (masterViewportSize s) (display_visible_rect s) (display_video_rect s)
    (video_rect s) (frameBufferRect s) (softwareDeinterlacer s) (hardwareDeinterlacer s)
    (hardwareDeinterlacing s) (viewportControl s) (inputTextures s)
    (referenceTextures s) (inputTextureSize s) (filters s) (currentFrameNum s)
    (inputUpdated s) (refsNeeded s) (textureRects s) (textureType s) (helperTexture s)
    (defaultUpsize s) (gl_features s) (using_ycbcrtex s) (using_hardwaretex s)
    (verbose_log s).

Definition set_softwareDeinterlacer (v : string) (s : OpenGLVideo) : OpenGLVideo :=
  mkOpenGLVideo (gl_context s) (video_dim s) (actual_video_dim s) (viewportSize s)
    (masterViewportSize s) (display_visible_rect s) (display_video_rect s)
    (video_rect s) (frameBufferRect s) v (hardwareDeinterlacer s)
    (hardwareDeinterlacing s) (viewportControl s) (inputTextures s)
    (referenceTextures s) (inputTextureSize s) (filters s) (currentFrameNum s)
    (inputUpdated s) (refsNeeded s) (textureRects s) (textureType s) (helperTexture s)
    (defaultUpsize s) (gl_features s) (using_ycbcrtex s) (using_hardwaretex s)
    (verbose_log s).

Definition set_hardwareDeinterlacer (v : string) (s : OpenGLVideo) : OpenGLVideo :=
  mkOpenGLVideo (gl_context s) (video_dim s) (actual_video_dim s) (viewportSize s)
    (masterViewportSize s) (display_visible_rect s) (display_video_rect s)
    (video_rect s) (frameBufferRect s) (softwareDeinterlacer s) v
    (hardwareDeinterlacing s) (viewportControl s) (inputTextures s)
    (referenceTextures s) (inputTextureSize s) (filters s) (currentFrameNum s)
    (inputUpdated s) (refsNeeded s) (textureRects s) (textureType s) (helperTexture s)
    (defaultUpsize s) (gl_features s) (using_ycbcrtex s) (using_hardwaretex s)
    (verbose_log s).

Definition set_hardwareDeinterlacing (v : bool) (s : OpenGLVideo) : OpenGLVideo :=
  mkOpenGLVideo (gl_context s) (video_dim s) (actual_video_dim s) (viewportSize s)
    (masterViewportSize s) (display_visible_rect s) (display_video_rect s)
    (video_rect s) (frameBufferRect s) (softwareDeinterlacer s) (hardwareDeinterlacer s)
    v (viewportControl s) (inputTextures s) (referenceTextures s) (inputTextureSize s)
    (filters s) (currentFrameNum s) (inputUpdated s) (refsNeeded s) (textureRects s)
    (textureType s) (helperTexture s) (defaultUpsize s) (gl_features s)
    (using_ycbcrtex s) (using_hardwaretex s) (verbose_log s).

Definition set_inputTextures (v : list GLuint) (s : OpenGLVideo) : OpenGLVideo :=
  mkOpenGLVideo (gl_context s) (video_dim s) (actual_video_dim s) (viewportSize s)
    (masterViewportSize s) (display_visible_rect s) (display_video_rect s)
    (video_rect s) (frameBufferRect s) (softwareDeinterlacer s) (hardwareDeinterlacer s)
    (hardwareDeinterlacing s) (viewportControl s) v (referenceTextures s)
    (inputTextureSize s) (filters s) (currentFrameNum s) (inputUpdated s) (refsNeeded s)
    (textureRects s) (textureType s) (helperTexture s) (defaultUpsize s) (gl_features s)
    (using_ycbcrtex s) (using_hardwaretex s) (verbose_log s).

Definition set_referenceTextures (v : list GLuint) (s : OpenGLVideo) : OpenGLVideo :=
  mkOpenGLVideo (gl_context s) (video_dim s) (actual_video_dim s) (viewportSize s)
    (masterViewportSize s) (display_visible_rect s) (display_video_rect s)
    (video_rect s) (frameBufferRect s) (softwareDeinterlacer s) (hardwareDeinterlacer s)
    (hardwareDeinterlacing s) (viewportControl s) (inputTextures s) v
    (inputTextureSize s) (filters s) (currentFrameNum s) (inputUpdated s) (refsNeeded s)
    (textureRects s) (textureType s) (helperTexture s) (defaultUpsize s) (gl_features s)
    (using_ycbcrtex s) (using_hardwaretex s) (verbose_log s).

Definition set_inputTextureSize (v : QSize) (s : OpenGLVideo) : OpenGLVideo :=
  mkOpenGLVideo (gl_context s) (video_dim s) (actual_video_dim s) (viewportSize s)
    (masterViewportSize s) (display_visible_rect s) (display_video_rect s)
    (video_rect s) (frameBufferRect s) (softwareDeinterlacer s) (hardwareDeinterlacer s)
    (hardwareDeinterlacing s) (viewportControl s) (inputTextures s)
    (referenceTextures s) v (filters s) (currentFrameNum s) (inputUpdated s)
    (refsNeeded s) (textureRects s) (textureType s) (helperTexture s) (defaultUpsize s)
    (gl_features s) (using_ycbcrtex s) (using_hardwaretex s) (verbose_log s).

Definition set_filters (v : gmap OpenGLFilterType (option OpenGLFilter)) (s : OpenGLVideo) : OpenGLVideo :=
  mkOpenGLVideo (gl_context s) (video_dim s) (actual_video_dim s) (viewportSize s)
    (masterViewportSize s) (display_visible_rect s) (display_video_rect s)
    (video_rect s) (frameBufferRect s) (softwareDeinterlacer s) (hardwareDeinterlacer s)
    (hardwareDeinterlacing s) (viewportControl s) (inputTextures s)
    (referenceTextures s) (inputTextureSize s) v (currentFrameNum s) (inputUpdated s)
    (refsNeeded s) (textureRects s) (textureType s) (helperTexture s) (defaultUpsize s)
    (gl_features s) (using_ycbcrtex s) (using_hardwaretex s) (verbose_log s).

Definition set_currentFrameNum (v : Z) (s : OpenGLVideo) : OpenGLVideo :=
  mkOpenGLVideo (gl_context s) (video_dim s) (actual_video_dim s) (viewportSize s)
    (masterViewportSize s) (display_visible_rect s) (display_video_rect s)
    (video_rect s) (frameBufferRect s) (softwareDeinterlacer s) (hardwareDeinterlacer s)
    (hardwareDeinterlacing s) (viewportControl s) (inputTextures s)
    (referenceTextures s) (inputTextureSize s) (filters s) v (inputUpdated s)
    (refsNeeded s) (textureRects s) (textureType s) (helperTexture s) (defaultUpsize s)
    (gl_features s) (using_ycbcrtex s) (using_hardwaretex s) (verbose_log s).

Definition set_inputUpdated (v : bool) (s : OpenGLVideo) : OpenGLVideo :=
  mkOpenGLVideo (gl_context s) (video_dim s) (actual_video_dim s) (viewportSize s)
    (masterViewportSize s) (display_visible_rect s) (display_video_rect s)
    (video_rect s) (frameBufferRect s) (softwareDeinterlacer s) (hardwareDeinterlacer s)
    (hardwareDeinterlacing s) (viewportControl s) (inputTextures s)
    (referenceTextures s) (inputTextureSize s) (filters s) (currentFrameNum s) v
    (refsNeeded s) (textureRects s) (textureType s) (helperTexture s) (defaultUpsize s)
    (gl_features s) (using_ycbcrtex s) (using_hardwaretex s) (verbose_log s).

Definition set_refsNeeded (v : Z) (s : OpenGLVideo) : OpenGLVideo :=
  mkOpenGLVideo (gl_context s) (video_dim s) (actual_video_dim s) (viewportSize s)
    (masterViewportSize s) (display_visible_rect s) (display_video_rect s)
    (video_rect s) (frameBufferRect s) (softwareDeinterlacer s) (hardwareDeinterlacer s)
    (hardwareDeinterlacing s) (viewportControl s) (inputTextures s)
    (referenceTextures s) (inputTextureSize s) (filters s) (currentFrameNum s)
    (inputUpdated s) v (textureRects s) (textureType s) (helperTexture s)
    (defaultUpsize s) (gl_features s) (using_ycbcrtex s) (using_hardwaretex s)
    (verbose_log s).

Definition set_helperTexture (v : GLuint) (s : OpenGLVideo) : OpenGLVideo :=
  mkOpenGLVideo (gl_context s) (video_dim s) (actual_video_dim s) (viewportSize s)
    (masterViewportSize s) (display_visible_rect s) (display_video_rect s)
    (video_rect s) (frameBufferRect s) (softwareDeinterlacer s) (hardwareDeinterlacer s)
    (hardwareDeinterlacing s) (viewportControl s) (inputTextures s)
    (referenceTextures s) (inputTextureSize s) (filters s) (currentFrameNum s)
    (inputUpdated s) (refsNeeded s) (textureRects s) (textureType s) v (defaultUpsize s)
    (gl_features s) (using_ycbcrtex s) (using_hardwaretex s) (verbose_log s).

Definition set_gl_features (v : Z) (s : OpenGLVideo) : OpenGLVideo :=
  mkOpenGLVideo (gl_context s) (video_dim s) (actual_video_dim s) (viewportSize s)
    (masterViewportSize s) (display_visible_rect s) (display_video_rect s)
    (video_rect s) (frameBufferRect s) (softwareDeinterlacer s) (hardwareDeinterlacer s)
    (hardwareDeinterlacing s) (viewportControl s) (inputTextures s)
    (referenceTextures s) (inputTextureSize s) (filters s) (currentFrameNum s)
    (inputUpdated s) (refsNeeded s) (textureRects s) (textureType s) (helperTexture s)
    (defaultUpsize s) v (using_ycbcrtex s) (using_hardwaretex s) (verbose_log s).

Definition set_verbose_log (v : list string) (s : OpenGLVideo) : OpenGLVideo :=
  mkOpenGLVideo (gl_context s) (video_dim s) (actual_video_dim s) (viewportSize s)
    (masterViewportSize s) (display_visible_rect s) (display_video_rect s)
    (video_rect s) (frameBufferRect s) (softwareDeinterlacer s) (hardwareDeinterlacer s)
    (hardwareDeinterlacing s) (viewportControl s) (inputTextures s)
    (referenceTextures s) (inputTextureSize s) (filters s) (currentFrameNum s)
    (inputUpdated s) (refsNeeded s) (textureRects s) (textureType s) (helperTexture s)
    (defaultUpsize s) (gl_features s) (using_ycbcrtex s) (using_hardwaretex s) v.

(** The object as its constructor leaves it, bound to a context. *)
Definition constructed `{Consts} (c : GL.Context) : OpenGLVideo :=
  mkOpenGLVideo c (mkQSize 0 0) (mkQSize 0 0) (mkQSize 0 0) (mkQSize 0 0)
    (mkQRect 0 0 0 0) (mkQRect 0 0 0 0) (mkQRect 0 0 0 0) (mkQRect 0 0 0 0)
    EmptyString EmptyString false false [] [] (mkQSize 0 0) ∅ 0 false 0
    false GL_TEXTURE_2D 0 kGLFilterResize 0 false false [].

(** ** The monad of member functions *)

Definition M (A : Type) : Type := OpenGLVideo -> option (A * OpenGLVideo).

Global Instance M_ret : MRet M := fun A a s => Some (a, s).

Global Instance M_bind : MBind M := fun A B f m s =>
  match m s with
  | Some (a, s') => f a s'
  | None => None
  end.

(** Read a member. *)
Definition get {A} (f : OpenGLVideo -> A) : M A := fun s => Some (f s, s).

(** Assign members. *)
Definition modify (f : OpenGLVideo -> OpenGLVideo) : M unit := fun s => Some (tt, f s).

(** Undefined behaviour. *)
Definition undefined {A} : M A := fun _ => None.

(** Calls on [gl_context]. *)
Definition gl {A} (op : GL.Context -> A * GL.Context) : M A :=
  fun s => let '(a, c) := op (gl_context s) in Some (a, set_gl_context c s).

Definition gl_ (op : GL.Context -> GL.Context) : M unit :=
  modify (fun s => set_gl_context (op (gl_context s)) s).

Definition VERBOSE (msg : string) : M unit :=
  modify (fun s => set_verbose_log (verbose_log s ++ [msg]) s).

(** [OpenGLLocker ctx_lock(gl_context)] for the rest of a scope. *)
Definition locked {A} (body : M A) : M A :=
  gl_ GL.MakeCurrent;; r ← body; gl_ GL.DoneCurrent;; mret r.

(** [when c body]: [if (c) body;]. *)
Definition when (c : bool) (body : M unit) : M unit := if c then body else mret tt.

(** [filters.count(k)], [filters.size()], [filters.erase(k)]. *)
Definition filters_count (k : OpenGLFilterType) : M bool :=
  get (fun s => bool_decide (is_Some (filters s !! k))).

Definition filters_size : M nat := get (fun s => size (filters s)).

Definition filters_erase (k : OpenGLFilterType) : M unit :=
  modify (fun s => set_filters (delete k (filters s)) s).

(** The keys of the map in iteration order ([begin()] to [end()]). *)
Definition pipeline (m : gmap OpenGLFilterType (option OpenGLFilter)) : list OpenGLFilterType :=
  filter (fun k => is_Some (m !! k)) all_filter_types.

(** [filters[k]->...]: the stage behind the pointer; undefined for a null
    pointer (and for an absent key, where [operator[]] yields one). *)
Definition the_filter (k : OpenGLFilterType) : M OpenGLFilter :=
  fun s => match filters s !! k with
           | Some (Some f) => Some (f, s)
           | _ => None
           end.

(** Write through the pointer [filters[k]]. *)
Definition update_filter (k : OpenGLFilterType) (g : OpenGLFilter -> OpenGLFilter) : M unit :=
  f ← the_filter k;
  modify (fun s => set_filters (<[k := Some (g f)]> (filters s)) s).

Section Model.

Context `{Consts} `{FloatOps}.

(** [gl_features & bit]. *)
Definition has_feature (bit : Z) : M bool :=
  get (fun s => negb (Z.land (gl_features s) bit =? 0)).

(** ** Capability negotiation *)

(** The body of the loop of [ParseOptions] once the token named
    [opengloptions] is found. *)
Definition apply_disable_flags (opts : string) (ret : Z) : Z :=
  let ret := if contains opts "nofence"
             then u32 (u32 (ret - kGLAppleFence) - kGLNVFence) else ret in
  let ret := if contains opts "nopbo" then u32 (ret - kGLExtPBufObj) else ret in
  let ret := if contains opts "nofbo" then u32 (ret - kGLExtFBufObj) else ret in
  let ret := if contains opts "nofrag" then u32 (ret - kGLExtFragProg) else ret in
  let ret := if contains opts "norect" then u32 (ret - kGLExtRect) else ret in
  let ret := if contains opts "noycbcr" then u32 (ret - kGLMesaYCbCr) else ret in
  ret.

Fixpoint ParseOptions_loop (list : list string) (ret : Z) : Z :=
  match list with
  | [] => ret
  | i :: rest =>
      let name := toLower (section_first "=" i) in
      let opts := toLower (section_rest "=" i) in
      if String.eqb name "opengloptions"
      then apply_disable_flags opts ret
      else ParseOptions_loop rest ret
  end.

Definition ParseOptions (options : string) : Z :=
  let ret := u32 (kGLMaxFeat - 1) in
  let list := split "," options in
  match list with
  | [] => ret
  | _ => ParseOptions_loop list ret
  end.

(** [Init], the negotiation step:
    [gl_features = ParseOptions(options) & gl_context->GetFeatures()]. *)
Definition Init_negotiate (options : string) : M unit :=
  modify (fun s =>
    set_gl_features (Z.land (ParseOptions options) (GL.GetFeatures (gl_context s))) s).

(** ** Texture sizes *)

(** [while (w < target) w *= 2;] on [int]: undefined on overflow. *)
Fixpoint double_until (fuel : nat) (w target : Z) : option Z :=
  match fuel with
  | O => None
  | S k =>
      if w <? target
      then if INT_MAX <? 2 * w then None else double_until k (2 * w) target
      else Some w
  end.

Definition GetTextureSize (size : QSize) : M QSize :=
  rects ← get textureRects;
  if rects : bool then mret size
  else
    match double_until 32 64 (width size), double_until 32 64 (height size) with
    | Some w, Some h => mret (mkQSize w h)
    | _, _ => undefined
    end.

(** ** Fragment programs *)

Definition is_bobdeint (deint : string) : bool :=
  String.eqb deint "openglbobdeint" || String.eqb deint "openglonefield" ||
  String.eqb deint "opengldoubleratefieldorder".

Definition is_linearblend (deint : string) : bool :=
  String.eqb deint "opengllinearblend" || String.eqb deint "opengldoubleratelinearblend".

Definition is_kerneldeint (deint : string) : bool :=
  String.eqb deint "openglkerneldeint" || String.eqb deint "opengldoubleratekerneldeint".

Definition is_yadif (deint : string) : bool :=
  String.eqb deint "openglyadif" || String.eqb deint "opengldoublerateyadif".

Definition FilterToString (filt : OpenGLFilterType) : string :=
  match filt with
  | kGLFilterNone => EmptyString
  | kGLFilterYUV2RGB => "master"
  | kGLFilterResize => "resize"
  | kGLFilterBicubic => "bicubic"
  end.

Definition program_header : string :=
  lines ["!!ARBfp1.0"; "OPTION ARB_precision_hint_fastest;"].

(** The [kGLFilterYUV2RGB] case of the switch: the choice of the
    deinterlacing body and of [need_tex]. *)
Definition select_deint (deint : string) (field : FrameScanType) : M (string * bool) :=
  if String.eqb deint EmptyString then mret (EmptyString, true)
  else
    let tmp_field := bool_decide (field = kScan_Intr2ndField) in
    if is_bobdeint deint
    then mret (if tmp_field then bobdeint_1 else bobdeint_0, true)
    else if is_linearblend deint
    then mret (if tmp_field then linearblend_1 else linearblend_0, tmp_field)
    else if is_kerneldeint deint
    then mret (if tmp_field then kerneldeint_1 else kerneldeint_0, tmp_field)
    else if is_yadif deint
    then mret (if tmp_field then yadif_1 else yadif_0, false)
    else VERBOSE "GLVid: Unrecognised OpenGL deinterlacer";; mret (EmptyString, true).

(** The text before the placeholders are filled in. *)
Definition program_template (name : OpenGLFilterType) (deint : string)
    (field : FrameScanType) : M string :=
  match name with
  | kGLFilterYUV2RGB =>
      '(deint_bit, need_tex) ← select_deint deint field;
      mret (program_header +:+ attrib_fast +:+
            (if String.eqb deint EmptyString then EmptyString else var_deint) +:+
            (var_fast +:+ (if need_tex : bool then tex_fast else EmptyString)) +:+
            deint_bit +:+ end_fast)
  | kGLFilterNone | kGLFilterResize => mret program_header
  | kGLFilterBicubic => mret (program_header +:+ bicubic)
  end.

(** The [ret.replace("%n", ...)] lines, in order. *)
Definition fill_placeholders (rects : bool) (inputTextureSize fb_size : QSize)
    (ret : string) : string :=
  let temp := if rects then "RECT" else "2D" in
  let ret := replace "%1" temp ret in
  let lineHeight := f_of_Z 1 in
  let colWidth := f_of_Z 1 in
  let scaled := negb rects && (0 <? height inputTextureSize) in
  let lineHeight :=
    if scaled then f_div lineHeight (f_of_Z (height inputTextureSize)) else lineHeight in
  let colWidth :=
    if scaled then f_div colWidth (f_of_Z (width inputTextureSize)) else colWidth in
  let fieldSize := f_div (f_of_Z 1) (f_mul lineHeight (f_of_Z 2)) in
  let ret := replace "%2" (f_setNum fieldSize 8) ret in
  let ret := replace "%3" (f_setNum lineHeight 8) ret in
  let ret := replace "%4" (f_setNum (f_mul lineHeight (f_of_Z 2)) 8) ret in
  let ret := replace "%5" (f_setNum colWidth 8) ret in
  let ret := replace "%6" (f_setNum (f_of_Z (width fb_size)) 1) ret in
  let ret := replace "%7" (f_setNum (f_of_Z (height fb_size)) 1) ret in
  ret.

Definition GetProgramString (name : OpenGLFilterType) (deint : string)
    (field : FrameScanType) : M string :=
  ret ← program_template name deint field;
  rects ← get textureRects;
  dim ← get video_dim;
  fb_size ← GetTextureSize dim;
  its ← get inputTextureSize;
  let ret := fill_placeholders rects its fb_size ret +:+ "END" in
  VERBOSE (nl +:+ ret +:+ nl);;
  VERBOSE ("GLVid: Created " +:+ FilterToString name +:+ " fragment program " +:+ deint);;
  mret ret.

(** [deint] and [field] default to the null string and to progressive scan
    when the caller leaves them out. *)
Definition AddFragmentProgram (name : OpenGLFilterType) (deint : string)
    (field : FrameScanType) : M GLuint :=
  frag ← has_feature kGLExtFragProg;
  if negb frag then
    VERBOSE "GLVid, Error: Fragment programs not supported";; mret 0
  else
    program ← GetProgramString name deint field;
    '(ok, ret) ← gl (GL.CreateFragmentProgram program);
    if ok : bool then mret ret else mret 0.

(** ** Framebuffers and textures *)

(** The out-parameters [framebuffer] and [texture] are the payload of a
    successful result. *)
Definition AddFrameBuffer (vid_size : QSize) : M (option (GLuint * GLuint)) :=
  fbo ← has_feature kGLExtFBufObj;
  if negb fbo then
    VERBOSE "GLVid, Error: Framebuffer binding not supported.";; mret None
  else
    type ← get textureType;
    texture ← gl (GL.CreateTexture vid_size false type GL.FmtDefault);
    '(ok, framebuffer) ← gl (GL.CreateFrameBuffer texture);
    if ok : bool then mret (Some (framebuffer, texture))
    else gl_ (GL.DeleteTexture texture);; mret None.

(** The loop of [DeleteTextures]; the caller's vector is cleared by the
    assignment that follows each use. *)
Fixpoint DeleteTextures (textures : list GLuint) : M unit :=
  match textures with
  | [] => mret tt
  | t :: rest => gl_ (GL.DeleteTexture t);; DeleteTextures rest
  end.

Fixpoint SetTextureFilters (textures : list GLuint) (filt wrap : Z) : M unit :=
  match textures with
  | [] => mret tt
  | t :: rest => gl_ (GL.SetTextureFilters t filt wrap);; SetTextureFilters rest filt wrap
  end.

(** The reverse walk of [SetFiltering]; [last_filter] counts the stages
    already passed. *)
Fixpoint SetFiltering_loop (rits : list OpenGLFilterType) (last_filter : Z) : M unit :=
  match rits with
  | [] => mret tt
  | rit :: rest =>
      (if last_filter =? 1 then
         f ← the_filter rit;
         SetTextureFilters (frameBufferTextures f) GL_LINEAR GL_CLAMP_TO_EDGE
       else if 1 <? last_filter then
         f ← the_filter rit;
         SetTextureFilters (frameBufferTextures f) GL_NEAREST GL_CLAMP_TO_EDGE
       else mret tt);;
      SetFiltering_loop rest (last_filter + 1)
  end.

Definition SetFiltering : M unit :=
  n ← filters_size;
  inputs ← get inputTextures;
  if (n =? 0)%nat || (n =? 1)%nat then
    SetTextureFilters inputs GL_LINEAR GL_CLAMP_TO_EDGE
  else
    SetTextureFilters inputs GL_NEAREST GL_CLAMP_TO_EDGE;;
    m ← get filters;
    SetFiltering_loop (reverse (pipeline m)) 0.

(** ** Buffer reconciliation *)

(** [for (int i = 0; i < buffers_diff; i++)]: one framebuffer and texture
    more per round; gives up at the first failure. *)
Fixpoint add_buffers (it : OpenGLFilterType) (rounds : nat) : M bool :=
  match rounds with
  | O => mret true
  | S n =>
      dim ← get video_dim;
      r ← AddFrameBuffer dim;
      match r with
      | None => mret false
      | Some (tmp_buf, tmp_tex) =>
          update_filter it (fun f =>
            set_frameBufferTextures (frameBufferTextures f ++ [tmp_tex])
              (set_frameBuffers (frameBuffers f ++ [tmp_buf]) f));;
          add_buffers it n
      end
  end.

(** [for (int i = 0; i > buffers_diff; i--)]: delete and pop the last
    framebuffer and the last texture; [back()] of an empty vector is
    undefined. *)
Fixpoint remove_buffers (it : OpenGLFilterType) (rounds : nat) : M unit :=
  match rounds with
  | O => mret tt
  | S n =>
      filt ← the_filter it;
      match last (frameBuffers filt), last (frameBufferTextures filt) with
      | Some fb, Some tex =>
          gl_ (GL.DeleteFrameBuffer fb);;
          gl_ (GL.DeleteTexture tex);;
          update_filter it (fun f =>
            set_frameBufferTextures (removelast (frameBufferTextures f))
              (set_frameBuffers (removelast (frameBuffers f)) f));;
          remove_buffers it n
      | _, _ => undefined
      end
  end.

(** The walk from [rbegin()] to [rend()]; [false] is the early
    [return false]. *)
Fixpoint OptimiseFilters_loop (its : list OpenGLFilterType) (buffers_needed : Z)
    (last_filter : bool) : M bool :=
  match its with
  | [] => mret true
  | it :: rest =>
      ok ← (if negb last_filter then
              update_filter it (set_outputBuffer kFrameBufferObject);;
              f ← the_filter it;
              let buffers_have := u32 (Z.of_nat (length (frameBuffers f))) in
              let buffers_diff := s32 (buffers_needed - buffers_have) in
              if 0 <? buffers_diff then add_buffers it (Z.to_nat buffers_diff)
              else if buffers_diff <? 0 then
                remove_buffers it (Z.to_nat (- buffers_diff));; mret true
              else mret true
            else
              update_filter it (set_outputBuffer kDefaultBuffer);; mret true);
      if ok : bool then
        f ← the_filter it;
        OptimiseFilters_loop rest (numInputs f) false
      else mret false
  end.

Definition OptimiseFilters : M bool :=
  m ← get filters;
  ok ← OptimiseFilters_loop (reverse (pipeline m)) 1 true;
  if ok : bool then SetFiltering;; mret true else mret false.

(** ** Adding and removing stages *)

Fixpoint DeleteFragmentPrograms (temp : list GLuint) : M unit :=
  match temp with
  | [] => mret tt
  | p :: rest => gl_ (GL.DeleteFragmentProgram p);; DeleteFragmentPrograms rest
  end.

Fixpoint DeleteFrameBuffers (temp : list GLuint) : M unit :=
  match temp with
  | [] => mret tt
  | b :: rest => gl_ (GL.DeleteFrameBuffer b);; DeleteFrameBuffers rest
  end.

Definition RemoveFilter (filter : OpenGLFilterType) : M bool :=
  present ← filters_count filter;
  if negb present then mret true
  else
    VERBOSE ("GLVid: Removing " +:+ FilterToString filter +:+ " filter");;
    f ← the_filter filter;
    DeleteFragmentPrograms (fragmentPrograms f);;
    update_filter filter (set_fragmentPrograms []);;
    f ← the_filter filter;
    DeleteFrameBuffers (frameBuffers f);;
    update_filter filter (set_frameBuffers []);;
    f ← the_filter filter;
    DeleteTextures (frameBufferTextures f);;
    update_filter filter (set_frameBufferTextures []);;
    (* delete filters[filter]; filters[filter] = NULL; *)
    modify (fun s => set_filters (<[filter := None]> (filters s)) s);;
    mret true.

Definition AddFilter (filter : OpenGLFilterType) : M bool :=
  present ← filters_count filter;
  if present : bool then mret true
  else
    fbo ← has_feature kGLExtFBufObj;
    frag ← has_feature kGLExtFragProg;
    n ← filters_size;
    if negb fbo && bool_decide (filter = kGLFilterResize) && negb (n =? 0)%nat then
      VERBOSE "GLVid, Error: GL_EXT_framebuffer_object not available for scaling/resizing filter.";;
      mret false
    else if negb (frag && fbo) && bool_decide (filter = kGLFilterBicubic) then
      VERBOSE "GLVid, Error: Features not available for bicubic filter.";;
      mret false
    else
      when (negb frag && bool_decide (filter = kGLFilterYUV2RGB))
        (VERBOSE "GLVid, Error: GL_ARB_fragment_program not available. for colorspace conversion.");;
      VERBOSE ("GLVid: Creating " +:+ FilterToString filter +:+ " filter.");;
      (* OpenGLFilter *temp = new OpenGLFilter(); temp->numInputs = 1; *)
      let temp := mkOpenGLFilter [] 1 [] [] kDefaultBuffer in
      success ← (if bool_decide (filter = kGLFilterBicubic) then
                   helper ← get helperTexture;
                   when (negb (helper =? 0)) (gl_ (GL.DeleteTexture helper));;
                   type ← get textureType;
                   helper ← gl (GL.CreateHelperTexture type);
                   modify (set_helperTexture helper);;
                   mret (negb (helper =? 0))
                 else mret true);
      '(success, temp) ←
         (if success && negb (bool_decide (filter = kGLFilterNone))
                     && negb (bool_decide (filter = kGLFilterResize)) then
            program ← AddFragmentProgram filter EmptyString kScan_Progressive;
            if program =? 0 then mret (false, temp)
            else mret (success, set_fragmentPrograms (fragmentPrograms temp ++ [program]) temp)
          else mret (success, temp));
      success ← (if success : bool then
                   let temp := set_frameBufferTextures []
                                 (set_frameBuffers [] (set_outputBuffer kDefaultBuffer temp)) in
                   modify (fun s => set_filters (<[filter := Some temp]> (filters s)) s);;
                   ok ← OptimiseFilters;
                   mret (success && ok)
                 else mret success);
      if negb success then
        RemoveFilter filter;;
        filters_erase filter;;
        mret false
      else mret true.

(** ** The resize decision *)

(** [allow] is [true] when the caller leaves it out. *)
Definition CheckResize (deinterlacing allow : bool) : M unit :=
  dim ← get video_dim;
  disp ← get display_video_rect;
  upsize ← get defaultUpsize;
  (* to improve performance on slower cards *)
  let resize_up := ((height dim <? r_height disp) || (width dim <? r_width disp)) && allow in
  (* to ensure deinterlacing works correctly *)
  let resize_down := (r_height disp <? height dim) && deinterlacing && allow in
  if resize_up && bool_decide (upsize = kGLFilterBicubic) then
    RemoveFilter kGLFilterResize;;
    filters_erase kGLFilterResize;;
    AddFilter kGLFilterBicubic;;
    mret tt
  else if (resize_up && bool_decide (upsize = kGLFilterResize)) || resize_down then
    RemoveFilter kGLFilterBicubic;;
    filters_erase kGLFilterBicubic;;
    AddFilter kGLFilterResize;;
    mret tt
  else
    RemoveFilter kGLFilterBicubic;;
    filters_erase kGLFilterBicubic;;
    OptimiseFilters;;
    mret tt.

(** ** Deinterlacer set-up and the reference textures *)

Definition TearDownDeinterlacer : M unit :=
  present ← filters_count kGLFilterYUV2RGB;
  if negb present then mret tt
  else
    tmp ← the_filter kGLFilterYUV2RGB;
    when (length (fragmentPrograms tmp) =? 3)%nat
      (match fragmentPrograms tmp !! 2%nat with
       | Some p =>
           gl_ (GL.DeleteFragmentProgram p);;
           update_filter kGLFilterYUV2RGB (fun f =>
             set_fragmentPrograms (removelast (fragmentPrograms f)) f)
       | None => undefined
       end);;
    tmp ← the_filter kGLFilterYUV2RGB;
    when (length (fragmentPrograms tmp) =? 2)%nat
      (match fragmentPrograms tmp !! 1%nat with
       | Some p =>
           gl_ (GL.DeleteFragmentProgram p);;
           update_filter kGLFilterYUV2RGB (fun f =>
             set_fragmentPrograms (removelast (fragmentPrograms f)) f)
       | None => undefined
       end);;
    refs ← get referenceTextures;
    DeleteTextures refs;;
    modify (set_referenceTextures []);;
    modify (set_refsNeeded 0).

(** [tex_size] is [inputTextureSize] at every call. *)
Definition CreateVideoTexture (size : QSize) (use_pbo : bool) : M GLuint :=
  ycbcr ← get using_ycbcrtex;
  hw ← get using_hardwaretex;
  type ← get textureType;
  tmp_tex ← gl (GL.CreateTexture size use_pbo type
                  (if ycbcr : bool then GL.FmtYCbCrMesa
                   else if hw : bool then GL.FmtRGBA else GL.FmtDefault));
  modify (set_inputTextureSize (GL.GetTextureSize type size));;
  mret tmp_tex.

(** [for (; ref_size > 0; ref_size--)] of [AddDeinterlacer]. *)
Fixpoint create_reference_textures (ref_size : nat) (use_pbo success : bool) : M bool :=
  match ref_size with
  | O => mret success
  | S n =>
      dim ← get actual_video_dim;
      tex ← CreateVideoTexture dim use_pbo;
      if tex =? 0 then create_reference_textures n use_pbo false
      else
        modify (fun s => set_referenceTextures (referenceTextures s ++ [tex]) s);;
        create_reference_textures n use_pbo success
  end.

Definition AddDeinterlacer (deinterlacer : string) : M bool :=
  frag ← has_feature kGLExtFragProg;
  if negb frag then
    VERBOSE "GLVid, Error: GL_ARB_fragment_program not available. for OpenGL deinterlacing.";;
    mret false
  else locked (
    present ← filters_count kGLFilterYUV2RGB;
    current ← get hardwareDeinterlacer;
    if negb present then
      VERBOSE "GLVid, Error: No YUV2RGB filter stage for OpenGL deinterlacing.";;
      mret false
    else if String.eqb current deinterlacer then mret true
    else
      TearDownDeinterlacer;;
      let ref_size := if is_bobdeint deinterlacer then 0%nat else 2%nat in
      modify (set_refsNeeded (Z.of_nat ref_size));;
      use_pbo ← has_feature kGLExtPBufObj;
      success ← create_reference_textures ref_size use_pbo true;
      prog1 ← AddFragmentProgram kGLFilterYUV2RGB deinterlacer kScan_Interlaced;
      prog2 ← AddFragmentProgram kGLFilterYUV2RGB deinterlacer kScan_Intr2ndField;
      success ← (if negb (prog1 =? 0) && negb (prog2 =? 0) then
                   update_filter kGLFilterYUV2RGB (fun f =>
                     set_fragmentPrograms (fragmentPrograms f ++ [prog1]) f);;
                   update_filter kGLFilterYUV2RGB (fun f =>
                     set_fragmentPrograms (fragmentPrograms f ++ [prog2]) f);;
                   mret success
                 else mret false);
      if success : bool then
        deint ← get hardwareDeinterlacing;
        CheckResize deint true;;
        modify (set_hardwareDeinterlacer deinterlacer);;
        mret true
      else
        modify (set_hardwareDeinterlacer EmptyString);;
        TearDownDeinterlacer;;
        mret false).

(** [for (uint i = size - 1; i > 0; i--) v[i] = v[i - 1];] *)
Fixpoint shift_textures (i : nat) (v : list GLuint) : list GLuint :=
  match i with
  | O => v
  | S j =>
      match v !! j with
      | Some x => shift_textures j (<[S j := x]> v)
      | None => v
      end
  end.

Definition RotateTextures : M unit :=
  refs ← get referenceTextures;
  if (length refs <? 2)%nat then mret tt
  else
    needed ← get refsNeeded;
    when (0 <? needed) (modify (set_refsNeeded (needed - 1)));;
    match last refs with
    | None => undefined
    | Some tmp =>
        let refs := shift_textures (length refs - 1) refs in
        inputs ← get inputTextures;
        match inputs with
        | [] => undefined
        | input :: _ =>
            modify (set_referenceTextures (<[0%nat := input]> refs));;
            modify (set_inputTextures (<[0%nat := tmp]> inputs))
        end
    end.

(** ** Frame upload *)

Definition UpdateInputFrame (frame : VideoFrame) (soft_bob : bool) : M unit :=
  locked (
    dim ← get actual_video_dim;
    if negb (frame_width frame =? width dim) || negb (frame_height frame =? height dim) ||
       (frame_width frame <? 1) || (frame_height frame <? 1) ||
       negb (codec frame =? FMT_YV12)
    then mret tt
    else
      deint ← get hardwareDeinterlacing;
      when deint RotateTextures;;
      inputs ← get inputTextures;
      match inputs with
      | [] => undefined
      | input :: _ =>
          mapped ← get (fun s => GL.GetTextureBuffer input (gl_context s));
          match mapped with
          | None => mret tt
          | Some _ =>
              yuv2rgb ← filters_count kGLFilterYUV2RGB;
              ycbcr ← get using_ycbcrtex;
              let packing :=
                if negb yuv2rgb then (if ycbcr : bool then GL.SwsUYVY else GL.SwsBGRA)
                else if interlaced_frame frame && negb soft_bob then GL.PackInterlaced
                else GL.PackAlpha in
              gl_ (GL.UpdateTexture input (packing, buf frame));;
              modify (set_inputUpdated true)
          end
      end).

Definition SetDeinterlacing (deinterlacing : bool) : M unit :=
  current ← get hardwareDeinterlacing;
  if bool_decide (deinterlacing = current) then mret tt
  else
    modify (set_hardwareDeinterlacing deinterlacing);;
    locked (CheckResize deinterlacing true).

Definition SetSoftwareDeinterlacer (filter : string) : M unit :=
  current ← get softwareDeinterlacer;
  when (negb (String.eqb current filter))
    (CheckResize false (negb (String.eqb filter "bobdeint")));;
  modify (set_softwareDeinterlacer filter).

(** [while (!filters.empty()) { RemoveFilter(begin()->first); erase(begin()); }] *)
Fixpoint Teardown_loop (keys : list OpenGLFilterType) : M unit :=
  match keys with
  | [] => mret tt
  | k :: rest => RemoveFilter k;; filters_erase k;; Teardown_loop rest
  end.

Definition Teardown : M unit :=
  helper ← get helperTexture;
  when (negb (helper =? 0)) (gl_ (GL.DeleteTexture helper));;
  modify (set_helperTexture 0);;
  inputs ← get inputTextures;
  DeleteTextures inputs;;
  modify (set_inputTextures []);;
  refs ← get referenceTextures;
  DeleteTextures refs;;
  modify (set_referenceTextures []);;
  m ← get filters;
  Teardown_loop (pipeline m).

(** ** The destination rectangle of a stage ([PrepareFrame], "vertex
    coordinates" to "hardware bobdeint") *)

Record QRectF := mkQRectF { xp : float; yp : float; fw : float; fh : float }.

Definition QRectF_of (r : QRect) : QRectF :=
  mkQRectF (f_of_Z (r_left r)) (f_of_Z (r_top r)) (f_of_Z (r_width r)) (f_of_Z (r_height r)).

Definition setTop (pos : float) (r : QRectF) : QRectF :=
  let diff := f_sub pos (yp r) in
  mkQRectF (xp r) (f_add (yp r) diff) (fw r) (f_sub (fh r) diff).

Definition setBottom (pos : float) (r : QRectF) : QRectF :=
  mkQRectF (xp r) (yp r) (fw r) (f_sub pos (yp r)).

Definition adjust (dx1 dy1 dx2 dy2 : float) (r : QRectF) : QRectF :=
  mkQRectF (f_add (xp r) dx1) (f_add (yp r) dy1)
           (f_add (fw r) (f_sub dx2 dx1)) (f_add (fh r) (f_sub dy2 dy1)).

(** [bob] of the hardware bobdeint block; the condition of the conditional
    expression for [field] is the enumerator [kScan_Interlaced] itself. *)
Definition hardware_bob (display : QRect) (video : QRect) (topfieldfirst : bool)
    (scan : FrameScanType) : float :=
  let bob := f_div (f_div (f_of_Z (r_height display)) (f_of_Z (r_height video)))
                   (f_of_Z 2) in
  let field := if negb (kScan_Interlaced_value =? 0) then f_of_Z (-1) else f_of_Z 1 in
  f_mul bob (if topfieldfirst then field else f_neg field).

Definition vertex_rect (s : OpenGLVideo) (filter : OpenGLFilter) (first : bool)
    (topfieldfirst : bool) (scan : FrameScanType) : QRectF :=
  let to_default := bool_decide (outputBuffer filter = kDefaultBuffer) in
  let display := if to_default then display_video_rect s else frameBufferRect s in
  let visible := if to_default then display_visible_rect s else frameBufferRect s in
  let vrect := QRectF_of display in
  (* invert if first filter *)
  let vrect :=
    if first then
      let vrect := setTop (f_of_Z (r_height visible - r_top display)) vrect in
      setBottom (f_sub (yp vrect) (f_of_Z (r_height display))) vrect
    else vrect in
  (* hardware bobdeint *)
  if to_default && hardwareDeinterlacing s &&
     String.eqb (hardwareDeinterlacer s) "openglbobdeint"
  then
    let bob := hardware_bob display (video_rect s) topfieldfirst scan in
    adjust (f_of_Z 0) bob (f_of_Z 0) bob vrect
  else vrect.

(** ** Sequences of calls on the stage graph *)

Inductive GraphCall :=
  | CallAddFilter (filter : OpenGLFilterType)
  | CallRemoveFilter (filter : OpenGLFilterType).

(** [RemoveFilter(filter)] comes with the [filters.erase(filter)] that
    follows it at every call site. *)
Definition run_call (c : GraphCall) : M unit :=
  match c with
  | CallAddFilter filter => AddFilter filter;; mret tt
  | CallRemoveFilter filter => RemoveFilter filter;; filters_erase filter
  end.



(** ** Sequences of calls on the object *)

Inductive Operation :=
  | DoGraphCall (c : GraphCall)
  | DoOptimiseFilters
  | DoSetFiltering
  | DoCheckResize (deinterlacing allow : bool)
  | DoAddDeinterlacer (deinterlacer : string)
  | DoTearDownDeinterlacer
  | DoRotateTextures
  | DoUpdateInputFrame (frame : VideoFrame) (soft_bob : bool)
  | DoSetDeinterlacing (deinterlacing : bool)
  | DoSetSoftwareDeinterlacer (filter : string)
  | DoTeardown.

Definition run_operation (o : Operation) : M unit :=
  match o with
  | DoGraphCall c => run_call c
  | DoOptimiseFilters => OptimiseFilters;; mret tt
  | DoSetFiltering => SetFiltering
  | DoCheckResize deinterlacing allow => CheckResize deinterlacing allow
  | DoAddDeinterlacer deinterlacer => AddDeinterlacer deinterlacer;; mret tt
  | DoTearDownDeinterlacer => TearDownDeinterlacer
  | DoRotateTextures => RotateTextures
  | DoUpdateInputFrame frame soft_bob => UpdateInputFrame frame soft_bob
  | DoSetDeinterlacing deinterlacing => SetDeinterlacing deinterlacing
  | DoSetSoftwareDeinterlacer filter => SetSoftwareDeinterlacer filter
  | DoTeardown => Teardown
  end.

Fixpoint run_operations (os : list Operation) : M unit :=
  match os with
  | [] => mret tt
  | o :: rest => run_operation o;; run_operations rest
  end.

(** ** Names of the stage types *)

Definition StringToFilter (filter : string) : OpenGLFilterType :=
  if contains filter "master" then kGLFilterYUV2RGB
  else if contains filter "resize" then kGLFilterResize
  else if contains filter "bicubic" then kGLFilterBicubic
  else kGLFilterNone.

(** ** Initialisation *)

(** Modelled from the spec: [MythRenderOpenGL] is absent. Section 6 says the
    context reports the texture target type; [GetTextureType_of] is that
    answer together with the [rect] flag the call hands back. [MMX] is the
    compile-time macro of that name. *)
Class Platform := {
  GetTextureType_of : GL.Context -> Z * bool;
  MMX : bool;
}.

Context `{Platform}.

(** Modelled from the spec: the context keeps the tables of live objects;
    the viewport, the features in use and the fence are not part of them,
    so these three calls leave the context as it is. *)
Definition GL_SetViewPort (size : QSize) (c : GL.Context) : GL.Context := c.

Definition GL_SetFeatures (features : Z) (c : GL.Context) : GL.Context := c.

Definition GL_SetFence (c : GL.Context) : GL.Context := c.

Definition set_viewportSize (v : QSize) (s : OpenGLVideo) : OpenGLVideo :=
  mkOpenGLVideo (gl_context s) (video_dim s) (actual_video_dim s) v
    (masterViewportSize s) (display_visible_rect s) (display_video_rect s)
    (video_rect s) (frameBufferRect s) (softwareDeinterlacer s) (hardwareDeinterlacer s)
    (hardwareDeinterlacing s) (viewportControl s) (inputTextures s)
    (referenceTextures s) (inputTextureSize s) (filters s) (currentFrameNum s)
    (inputUpdated s) (refsNeeded s) (textureRects s) (textureType s) (helperTexture s)
    (defaultUpsize s) (gl_features s) (using_ycbcrtex s) (using_hardwaretex s)
    (verbose_log s).

Definition set_texture_type (v : Z * bool) (s : OpenGLVideo) : OpenGLVideo :=
  mkOpenGLVideo (gl_context s) (video_dim s) (actual_video_dim s) (viewportSize s)
    (masterViewportSize s) (display_visible_rect s) (display_video_rect s)
    (video_rect s) (frameBufferRect s) (softwareDeinterlacer s) (hardwareDeinterlacer s)
    (hardwareDeinterlacing s) (viewportControl s) (inputTextures s)
    (referenceTextures s) (inputTextureSize s) (filters s) (currentFrameNum s)
    (inputUpdated s) (refsNeeded s) v.2 v.1 (helperTexture s)
    (defaultUpsize s) (gl_features s) (using_ycbcrtex s) (using_hardwaretex s)
    (verbose_log s).

Definition set_defaultUpsize (v : OpenGLFilterType) (s : OpenGLVideo) : OpenGLVideo :=
  mkOpenGLVideo (gl_context s) (video_dim s) (actual_video_dim s) (viewportSize s)
    (masterViewportSize s) (display_visible_rect s) (display_video_rect s)
    (video_rect s) (frameBufferRect s) (softwareDeinterlacer s) (hardwareDeinterlacer s)
    (hardwareDeinterlacing s) (viewportControl s) (inputTextures s)
    (referenceTextures s) (inputTextureSize s) (filters s) (currentFrameNum s)
    (inputUpdated s) (refsNeeded s) (textureRects s) (textureType s) (helperTexture s)
    v (gl_features s) (using_ycbcrtex s) (using_hardwaretex s)
    (verbose_log s).

Definition set_using_ycbcrtex (v : bool) (s : OpenGLVideo) : OpenGLVideo :=
  mkOpenGLVideo (gl_context s) (video_dim s) (actual_video_dim s) (viewportSize s)
    (masterViewportSize s) (display_visible_rect s) (display_video_rect s)
    (video_rect s) (frameBufferRect s) (softwareDeinterlacer s) (hardwareDeinterlacer s)
    (hardwareDeinterlacing s) (viewportControl s) (inputTextures s)
    (referenceTextures s) (inputTextureSize s) (filters s) (currentFrameNum s)
    (inputUpdated s) (refsNeeded s) (textureRects s) (textureType s) (helperTexture s)
    (defaultUpsize s) (gl_features s) v (using_hardwaretex s)
    (verbose_log s).

Definition set_using_hardwaretex (v : bool) (s : OpenGLVideo) : OpenGLVideo :=
  mkOpenGLVideo (gl_context s) (video_dim s) (actual_video_dim s) (viewportSize s)
    (masterViewportSize s) (display_visible_rect s) (display_video_rect s)
    (video_rect s) (frameBufferRect s) (softwareDeinterlacer s) (hardwareDeinterlacer s)
    (hardwareDeinterlacing s) (viewportControl s) (inputTextures s)
    (referenceTextures s) (inputTextureSize s) (filters s) (currentFrameNum s)
    (inputUpdated s) (refsNeeded s) (textureRects s) (textureType s) (helperTexture s)
    (defaultUpsize s) (gl_features s) (using_ycbcrtex s) v
    (verbose_log s).

(** [QString::arg] of an unsigned number. *)
Definition number (n : Z) : string :=
  DecimalString.NilZero.string_of_uint (N.to_uint (Z.to_N n)).

Definition SetViewPort (viewPortSize : QSize) : M unit :=
  dim ← get video_dim;
  let w := u32 (Z.max (width viewPortSize) (width dim)) in
  let h := u32 (Z.max (height viewPortSize) (height dim)) in
  modify (set_viewportSize (mkQSize (s32 w) (s32 h)));;
  control ← get viewportControl;
  when control
    (VERBOSE ("GLVid: Viewport: " +:+ number w +:+ "x" +:+ number h);;
     size ← get viewportSize;
     gl_ (GL_SetViewPort size)).

(** The members [Init] assigns from its arguments, from [actual_video_dim]
    to [inputUpdated]. [colourSpace] and [gl_letterbox_colour] are read by
    [PrepareFrame] alone and are not members of the model. *)
Definition Init_members (videoDim : QSize)
    (displayVisibleRect displayVideoRect videoRect : QRect) (viewport_control : bool)
    (s : OpenGLVideo) : OpenGLVideo :=
  let dim := if height videoDim =? 1088 then mkQSize (width videoDim) 1080 else videoDim in
  mkOpenGLVideo (gl_context s) dim videoDim (viewportSize s)
    (mkQSize 1920 1080) displayVisibleRect displayVideoRect videoRect
    (mkQRect 0 0 (width dim) (height dim)) EmptyString (hardwareDeinterlacer s)
    false viewport_control (inputTextures s)
    (referenceTextures s) (mkQSize 0 0) (filters s) (-1)
    false (refsNeeded s) (textureRects s) (textureType s) (helperTexture s)
    (defaultUpsize s) (gl_features s) (using_ycbcrtex s) (using_hardwaretex s)
    (verbose_log s).

Definition tab : string := String (ascii_of_nat 9) EmptyString.

(** [tex = CreateVideoTexture(...); ok = tex && AddFilter(filter);] *)
Definition Init_stage (filter : OpenGLFilterType) (use_pbo : bool) : M (GLuint * bool) :=
  dim ← get actual_video_dim;
  tex ← CreateVideoTexture dim use_pbo;
  ok ← (if tex =? 0 then mret false else AddFilter filter);
  mret (tex, ok).

Definition inputTextures_push_back (tex : GLuint) : M unit :=
  modify (fun s => set_inputTextures (inputTextures s ++ [tex]) s).

(** From [#ifdef MMX] to the end of [Init]. *)
Definition Init_finish (use_pbo : bool) : M bool :=
  CheckResize false true;;
  VERBOSE ("GLVid: Using packed textures with" +:+ (if MMX then EmptyString else "out") +:+
           " mmx and with" +:+ (if use_pbo then EmptyString else "out") +:+ " PBOs");;
  mret true.

(** [Init] from the assignment of the members to the choice of the texture
    type. The result is the pair of the locals [use_pbo] and
    [basic_features]. The calls on [colourSpace] have no counterpart in the
    model. *)
Definition Init_configure (videoDim : QSize)
    (displayVisibleRect displayVideoRect videoRect : QRect)
    (viewport_control : bool) (options : string) (hw_accel : bool) : M (bool * bool) :=
  modify (Init_members videoDim displayVisibleRect displayVideoRect videoRect
                       viewport_control);;
  Init_negotiate options;;
  control ← get viewportControl;
  features ← get gl_features;
  when control (gl_ (GL_SetFeatures features);; gl_ GL_SetFence);;
  visible ← get display_visible_rect;
  SetViewPort (rect_size visible);;
  modify (set_using_hardwaretex hw_accel);;
  using_hw ← get using_hardwaretex;
  pbo ← has_feature kGLExtPBufObj;
  let use_pbo := negb using_hw && pbo in
  basic_features ← has_feature kGLExtFragProg;
  fbo ← has_feature kGLExtFBufObj;
  let full_features := basic_features && fbo in
  ycbcr ← has_feature kGLMesaYCbCr;
  modify (set_using_ycbcrtex (negb using_hw && negb full_features && ycbcr));;
  using_ycbcr ← get using_ycbcrtex;
  let basic_features := if using_ycbcr : bool then false else basic_features in
  when (contains options "openglbicubic")
    (if full_features then modify (set_defaultUpsize kGLFilterBicubic)
     else VERBOSE "GLVid, Error: No OpenGL feature support for Bicubic filter.");;
  upsize ← get defaultUpsize;
  rect ← has_feature kGLExtRect;
  when (negb using_hw && negb (bool_decide (upsize = kGLFilterBicubic)) && rect)
    (modify (fun s => set_texture_type (GetTextureType_of (gl_context s)) s));;
  mret (use_pbo, basic_features).

(** [Init] from [GLuint tex = 0] to the end. *)
Definition Init_graph (use_pbo basic_features : bool) : M bool :=
  using_hw ← get using_hardwaretex;
  using_ycbcr ← get using_ycbcrtex;
  '(tex, ok) ←
    (if basic_features && negb using_hw then Init_stage kGLFilterYUV2RGB use_pbo
     else if using_ycbcr || using_hw then
       '(tex, ok) ← Init_stage kGLFilterResize use_pbo;
       using_ycbcr ← get using_ycbcrtex;
       using_hw ← get using_hardwaretex;
       (if ok && using_ycbcr
        then VERBOSE "GLVid: Using GL_MESA_ycbcr_texture for colorspace conversion."
        else if ok && using_hw
        then VERBOSE "GLVid: Using plain RGBA tex for hw accel."
        else modify (set_using_ycbcrtex false);; modify (set_using_hardwaretex false));;
       mret (tex, ok)
     else mret (0, false));
  (if ok : bool then inputTextures_push_back tex else Teardown);;
  size ← filters_size;
  if (size =? 0)%nat then
    when (negb basic_features)
      (VERBOSE "GLVid, Error: No OpenGL extension available for colorspace conversion.");;
    VERBOSE ("GLVid: OpenGL colour conversion failed." +:+ nl +:+ tab +:+ tab +:+ tab +:+
             "Falling back to software conversion." +:+ nl +:+ tab +:+ tab +:+ tab +:+
             "Any opengl filters will also be disabled.");;
    '(bgra32tex, ok) ← Init_stage kGLFilterResize use_pbo;
    if ok : bool then
      inputTextures_push_back bgra32tex;;
      Init_finish use_pbo
    else
      VERBOSE "GLVid, Error: Fatal error";;
      Teardown;;
      mret false
  else Init_finish use_pbo.

(** A null [glcontext] is [None]; otherwise the object works on the state
    of the context it is given, under [OpenGLLocker] from there on. *)
Definition Init (glcontext : option GL.Context) (videoDim : QSize)
    (displayVisibleRect displayVideoRect videoRect : QRect)
    (viewport_control : bool) (options : string) (hw_accel : bool) : M bool :=
  match glcontext with
  | None => mret false
  | Some c =>
      modify (set_gl_context c);;
      locked (
        '(use_pbo, basic_features) ←
          Init_configure videoDim displayVisibleRect displayVideoRect videoRect
                         viewport_control options hw_accel;
        Init_graph use_pbo basic_features)
  end.

(** [OpenGLVideo::OpenGLVideo()]. The object has no context until [Init]
    ([gl_context(NULL)]); [c] is the state of the context that the model
    keeps in the member meanwhile. *)
Definition OpenGLVideo_new (c : GL.Context) : OpenGLVideo :=
  mkOpenGLVideo c (mkQSize 0 0) (mkQSize 0 0) (mkQSize 0 0) (mkQSize 0 0)
    (mkQRect 0 0 0 0) (mkQRect 0 0 0 0) (mkQRect 0 0 0 0) (mkQRect 0 0 0 0)
    EmptyString EmptyString false false [] [] (mkQSize 0 0) ∅ 0 false 0 false
    GL_TEXTURE_2D 0 kGLFilterResize 0 false false [].

(** ** Rendering *)

(** Modelled from the spec: [MythRenderOpenGL] is absent. Section 6 lists
    the calls consumed (bind framebuffer, set viewport, clear, draw a
    textured quad given texture list, program and source/destination
    rectangles). The context model keeps no picture, so the calls that
    [PrepareFrame] makes are its result, in order. [DrawRect] is always
    called with the same colours and line settings;
    [SetFragmentParams] takes the matrix of [colourSpace], which is not
    part of the model. *)
Inductive GLCall :=
  | SetBackground (r g b a : Z)
  | BindFramebuffer (fb : GLuint)
  | ClearFramebuffer
  | SetViewPortCall (size : QSize)
  | DrawRect (area : QRect)
  | SetFragmentParams (program : GLuint)
  | DrawBitmap (textures : list GLuint) (target : GLuint) (src dst : QRectF)
               (program : GLuint).

(** The conversion of a floating-point value to [int]. *)
Class FloatConv := { f_to_int : float -> Z }.

Context `{FloatConv}.

Definition setCoords (x1 y1 x2 y2 : float) (r : QRectF) : QRectF :=
  mkQRectF x1 y1 (f_sub x2 x1) (f_sub y2 y1).

Definition top (r : QRectF) : float := yp r.

Definition bottom (r : QRectF) : float := f_add (yp r) (fh r).

Definition adjusted (dx1 dy1 dx2 dy2 : float) (r : QRectF) : QRectF :=
  adjust dx1 dy1 dx2 dy2 r.

(** "texture coordinates" to "software bobdeint": the source rectangle of
    a stage. [size] is [filters.size()]. *)
Definition texture_rect (s : OpenGLVideo) (filter : OpenGLFilter) (inputsize : QSize)
    (size : nat) (softwarebob topfieldfirst : bool) (scan : FrameScanType) : QRectF :=
  let to_default := bool_decide (outputBuffer filter = kDefaultBuffer) in
  let actual := softwarebob && to_default in
  let trueheight :=
    f_of_Z (if actual then height (actual_video_dim s) else height (video_dim s)) in
  let trect := QRectF_of (mkQRect 0 0 (width (video_dim s)) (f_to_int trueheight)) in
  (* only apply overscan on last filter *)
  let trect :=
    if to_default then
      setCoords (f_of_Z (r_left (video_rect s))) (f_of_Z (r_top (video_rect s)))
                (f_of_Z (r_left (video_rect s) + r_width (video_rect s)))
                (f_of_Z (r_top (video_rect s) + r_height (video_rect s))) trect
    else trect in
  let trueheight :=
    if negb (textureRects s) && (0 <? height inputsize)
    then f_div trueheight (f_of_Z (height inputsize)) else trueheight in
  (* software bobdeint *)
  if actual then
    let top_field :=
      (bool_decide (scan = kScan_Intr2ndField) && topfieldfirst) ||
      (bool_decide (scan = kScan_Interlaced) && negb topfieldfirst) in
    let bot_field :=
      (bool_decide (scan = kScan_Interlaced) && topfieldfirst) ||
      (bool_decide (scan = kScan_Intr2ndField) && negb topfieldfirst) in
    let first := (size <? 2)%nat in
    let bob := f_div (f_div trueheight (f_of_Z (height (video_dim s)))) (f_of_Z 4) in
    let trect :=
      if (top_field && negb first) || (bot_field && first) then
        let trect := setBottom (f_div (bottom trect) (f_of_Z 2)) trect in
        let trect := setTop (f_div (top trect) (f_of_Z 2)) trect in
        adjust (f_of_Z 0) bob (f_of_Z 0) bob trect
      else trect in
    if (bot_field && negb first) || (top_field && first) then
      let trect :=
        setTop (f_add (f_div trueheight (f_of_Z 2)) (f_div (top trect) (f_of_Z 2))) trect in
      let trect :=
        setBottom (f_add (f_div trueheight (f_of_Z 2)) (f_div (bottom trect) (f_of_Z 2)))
                  trect in
      adjust (f_of_Z 0) (f_neg bob) (f_of_Z 0) (f_neg bob) trect
    else trect
  else trect.

(** "bind correct frame buffer (default onscreen) and set viewport": the
    calls and [target]. [gl_letterbox_colour], which [Init] records for this
    place alone, is the argument [gray]. *)
Definition bind_target (s : OpenGLVideo) (filter : OpenGLFilter) (gray : bool) :
    list GLCall * GLuint :=
  match outputBuffer filter with
  | kDefaultBuffer =>
      (BindFramebuffer 0 ::
       (if viewportControl s then
          (if gray then [SetBackground 127 127 127 127] else []) ++
          [ClearFramebuffer; SetViewPortCall (rect_size (display_visible_rect s))]
        else [SetViewPortCall (masterViewportSize s)]), 0)
  | kFrameBufferObject =>
      match frameBuffers filter with
      | fb :: _ => ([BindFramebuffer fb; SetViewPortCall (rect_size (frameBufferRect s))], fb)
      | [] => ([], 0)
      end
  end.

(** "bind correct textures": [uint textures[4]] and [texture_count];
    writing a fifth entry is undefined. *)
Definition bind_textures (s : OpenGLVideo) (type : OpenGLFilterType)
    (inputs : list GLuint) : option (list GLuint) :=
  let textures := inputs in
  let textures :=
    if negb (bool_decide (referenceTextures s = [])) && hardwareDeinterlacing s &&
       bool_decide (type = kGLFilterYUV2RGB)
    then textures ++ referenceTextures s else textures in
  let textures :=
    if negb (helperTexture s =? 0) && bool_decide (type = kGLFilterBicubic)
    then textures ++ [helperTexture s] else textures in
  if (4 <? length textures)%nat then None else Some textures.

(** "enable fragment program": [fragmentPrograms[prog_ref]], undefined out
    of range. *)
Definition select_program (s : OpenGLVideo) (type : OpenGLFilterType)
    (filter : OpenGLFilter) (topfieldfirst : bool) (scan : FrameScanType) :
    option GLuint :=
  if negb (bool_decide (type = kGLFilterNone)) && negb (bool_decide (type = kGLFilterResize))
  then
    let prog_ref :=
      if bool_decide (type = kGLFilterYUV2RGB) && hardwareDeinterlacing s &&
         (length (fragmentPrograms filter) =? 3)%nat && (refsNeeded s =? 0)
      then
        if bool_decide (scan = kScan_Interlaced) then (if topfieldfirst then 1 else 2)
        else if bool_decide (scan = kScan_Intr2ndField) then (if topfieldfirst then 2 else 1)
        else 0
      else 0 in
    fragmentPrograms filter !! Z.to_nat prog_ref
  else Some 0.

(** The body of the loop for one stage. *)
Definition PrepareFrame_stage (s : OpenGLVideo) (type : OpenGLFilterType)
    (filter : OpenGLFilter) (first : bool) (inputs : list GLuint) (inputsize : QSize)
    (softwarebob topfieldfirst : bool) (scan : FrameScanType) (draw_border gray : bool) :
    option (list GLCall) :=
  let trect :=
    texture_rect s filter inputsize (size (filters s)) softwarebob topfieldfirst scan in
  let vrect := vertex_rect s filter first topfieldfirst scan in
  let '(binding, target) := bind_target s filter gray in
  let border :=
    if draw_border && bool_decide (outputBuffer filter = kDefaultBuffer) then
      let piprectf := adjusted (f_of_Z (-10)) (f_of_Z (-10)) (f_of_Z 10) (f_of_Z 10) vrect in
      [DrawRect (mkQRect (f_to_int (xp piprectf)) (f_to_int (yp piprectf))
                         (f_to_int (fw piprectf)) (f_to_int (fh piprectf)))]
    else [] in
  textures ← bind_textures s type inputs;
  program ← select_program s type filter topfieldfirst scan;
  Some (SetBackground 0 0 0 0 :: binding ++ border ++
        (if bool_decide (type = kGLFilterYUV2RGB) then [SetFragmentParams program] else []) ++
        [DrawBitmap textures target trect vrect program]).

(** [for (it = filters.begin(); it != filters.end(); it++)]: a null stage
    pointer is dereferenced. No member is assigned in the loop. *)
Fixpoint PrepareFrame_loop (s : OpenGLVideo) (its : list OpenGLFilterType) (first : bool)
    (inputs : list GLuint) (inputsize realsize : QSize)
    (softwarebob topfieldfirst : bool) (scan : FrameScanType) (draw_border gray : bool) :
    option (list GLCall) :=
  match its with
  | [] => Some []
  | type :: rest =>
      match filters s !! type with
      | Some (Some filter) =>
          calls ← PrepareFrame_stage s type filter first inputs inputsize
                     softwarebob topfieldfirst scan draw_border gray;
          more ← PrepareFrame_loop s rest false (frameBufferTextures filter) realsize realsize
                     softwarebob topfieldfirst scan draw_border gray;
          Some (calls ++ more)
      | _ => None
      end
  end.

(** A computation that reads the members and does not assign any. *)
Definition reading {A} (f : OpenGLVideo -> option A) : M A :=
  fun s => match f s with
           | Some a => Some (a, s)
           | None => None
           end.

Definition PrepareFrame (topfieldfirst : bool) (scan : FrameScanType)
    (softwareDeinterlacing : bool) (frame : Z) (draw_border gray : bool) :
    M (list GLCall) :=
  inputs ← get inputTextures;
  size ← filters_size;
  if bool_decide (inputs = []) || (size =? 0)%nat then mret []
  else locked (
    deint ← get softwareDeinterlacer;
    (* we need to special case software bobdeint for 1080i *)
    let softwarebob := String.eqb deint "bobdeint" && softwareDeinterlacing in
    inputsize ← get inputTextureSize;
    dim ← get video_dim;
    realsize ← GetTextureSize dim;
    m ← get filters;
    calls ← reading (fun s =>
               PrepareFrame_loop s (pipeline m) true inputs inputsize realsize
                 softwarebob topfieldfirst scan draw_border gray);
    modify (set_currentFrameNum frame);;
    modify (set_inputUpdated false);;
    mret calls).
End Model.

(** * Concrete parameters

    The values of the upstream headers for the constants, and exact rational
    arithmetic for the floating-point interface (which agrees with IEEE
    arithmetic on the dyadic values of the examples below). *)

Definition upstream_consts : Consts := {|
  kGLExtRect     := 0x0002;
  kGLExtFragProg := 0x0004;
  kGLExtFBufObj  := 0x0008;
  kGLExtPBufObj  := 0x0010;
  kGLNVFence     := 0x0020;
  kGLAppleFence  := 0x0040;
  kGLMesaYCbCr   := 0x0080;
  kGLMaxFeat     := 0x4000;
  kScan_Interlaced_value := 1;
  FMT_YV12       := 1;
  GL_LINEAR        := 0x2601;
  GL_NEAREST       := 0x2600;
  GL_CLAMP_TO_EDGE := 0x812F;
  GL_TEXTURE_2D    := 0x0DE1;
|}.

Module Exact.

Definition digits (n : Z) : string :=
  DecimalString.NilZero.string_of_uint (N.to_uint (Z.to_N n)).

Fixpoint zeros (n : nat) : string :=
  match n with
  | O => EmptyString
  | S k => String "0" (zeros k)
  end.

(** [q] rounded to [prec] decimals (ties to even), as ['f'] formatting does. *)
Definition setNum (q : Q) (prec : nat) : string :=
  let scale := 10 ^ Z.of_nat prec in
  let num := Qnum q * scale in
  let den := Z.pos (Qden q) in
  let a := Z.abs num in
  let fl := a / den in
  let twice := 2 * (a mod den) in
  let r := if den <? twice then fl + 1
           else if twice =? den then (if Z.even fl then fl else fl + 1)
           else fl in
  let ip := r / scale in
  let fp := digits (r mod scale) in
  (if (num <? 0) && negb (r =? 0) then "-" else EmptyString) +:+ digits ip +:+
  (if (prec =? 0)%nat then EmptyString
   else "." +:+ zeros (prec - String.length fp) +:+ fp).

Definition ops : FloatOps := {|
  float := Q;
  f_of_Z := inject_Z;
  f_add := Qplus;
  f_sub := Qminus;
  f_mul := Qmult;
  f_div := fun a b => Qred (Qdiv a b);
  f_neg := Qopp;
  f_setNum := setNum;
|}.

End Exact.


(** Conversion to [int] truncates. *)
Definition truncate (q : Q) : Z := Z.quot (Qnum q) (Z.pos (Qden q)).

Definition exact_conv : @FloatConv Exact.ops := @Build_FloatConv Exact.ops truncate.

(** A context that hands out rectangle textures, in a build with MMX. *)
Definition rectangle_platform : Platform :=
  {| GetTextureType_of := fun _ => (0x84F5, true); MMX := true |}.

Module Examples.

#[local] Existing Instance upstream_consts.
#[local] Existing Instance Exact.ops.
#[local] Existing Instance rectangle_platform.
#[local] Existing Instance exact_conv.

(** A 720x480 video shown in a 1920x1080 window, every feature negotiated,
    one input texture, no scripted failure, no stage yet. *)
Definition video_720x480 : OpenGLVideo :=
  mkOpenGLVideo
    (GL.mkContext {[ 100 := GL.mkTexture (mkQSize 720 480) true 0x0DE1 GL.FmtDefault None None ]}
                  ∅ ∅ [] 0x3FFF 0)
    (mkQSize 720 480) (mkQSize 720 480) (mkQSize 1920 1080) (mkQSize 1920 1080)
    (mkQRect 0 0 1920 1080) (mkQRect 0 0 1920 1080) (mkQRect 0 0 720 480)
    (mkQRect 0 0 720 480) EmptyString EmptyString false false [100] []
    (mkQSize 1024 512) ∅ 0 false 0 false 0x0DE1 0 kGLFilterResize 0x3FFF false false [].

(** The state a computation leaves ([s] itself where it is undefined). *)
Definition after {A} (m : M A) (s : OpenGLVideo) : OpenGLVideo :=
  match m s with
  | Some (_, s') => s'
  | None => s
  end.

Definition one_stage : OpenGLVideo := after (AddFilter kGLFilterYUV2RGB) video_720x480.

Definition two_stages : OpenGLVideo := after (AddFilter kGLFilterResize) one_stage.

(** Hardware deinterlacing switched on, no deinterlacer installed yet. *)
Definition deinterlacing_on : OpenGLVideo := set_hardwareDeinterlacing true one_stage.

Definition linearblend_installed : OpenGLVideo :=
  after (AddDeinterlacer "opengllinearblend") deinterlacing_on.

Definition frame_720x480 (data : Z) : VideoFrame := mkVideoFrame 720 480 FMT_YV12 true data.



(** A context with every feature and no live object. *)
Definition empty_context : GL.Context := GL.mkContext ∅ ∅ ∅ [] 0x3FFF 0.

Definition constructed : OpenGLVideo := OpenGLVideo_new empty_context.

End Examples.

Import Examples.

(** * Reasoning about member functions *)

Section Properties.

Context `{Consts} `{FloatOps}.

(** [wp d m Q s]: running [m] from [s] gives a result and a state that
    satisfy [Q]; [d] is what is claimed where the run is undefined
    ([False] for total, [True] for partial correctness). *)
Definition wp (d : Prop) {A} (m : M A) (Q : A -> OpenGLVideo -> Prop)
    (s : OpenGLVideo) : Prop :=
  match m s with
  | Some (a, s') => Q a s'
  | None => d
  end.

Lemma wp_ret d {A} (a : A) Q s : Q a s -> wp d (mret a) Q s.
Proof. intros HQ. exact HQ. Qed.

Lemma wp_bind d {A B} (m : M A) (f : A -> M B) Q s :
  wp d m (fun a s' => wp d (f a) Q s') s -> wp d (m ≫= f) Q s.
Proof.
  unfold wp, mbind, M_bind. destruct (m s) as [[a s']|]; auto.
Qed.

Lemma wp_mono d {A} (m : M A) (Q Q' : A -> OpenGLVideo -> Prop) s :
  wp d m Q s -> (forall a s', Q a s' -> Q' a s') -> wp d m Q' s.
Proof.
  unfold wp. destruct (m s) as [[a s']|]; auto.
Qed.

Lemma wp_conj {A} (m : M A) (Q1 Q2 : A -> OpenGLVideo -> Prop) s :
  wp False m Q1 s -> wp True m Q2 s -> wp False m (fun a s' => Q1 a s' /\ Q2 a s') s.
Proof.
  unfold wp. destruct (m s) as [[a s']|]; auto.
Qed.

Lemma wp_partial {A} (m : M A) Q s : wp False m Q s -> wp True m Q s.
Proof.
  unfold wp. destruct (m s) as [[a s']|]; auto.
Qed.

(** [(a;; b);; c] and [a;; (b;; c)]. *)
Lemma wp_assoc_seq d {A B C} (a : M A) (b : M B) (c : M C) Q s :
  wp d ((a;; b);; c) Q s <-> wp d (a;; b;; c) Q s.
Proof.
  unfold wp, mbind, M_bind. destruct (a s) as [[x s1]|]; [|done].
  done.
Qed.

Lemma wp_get d {A} (f : OpenGLVideo -> A) Q s : Q (f s) s -> wp d (get f) Q s.
Proof. intros HQ. exact HQ. Qed.

Lemma wp_modify d (f : OpenGLVideo -> OpenGLVideo) Q s : Q tt (f s) -> wp d (modify f) Q s.
Proof. intros HQ. exact HQ. Qed.

Lemma wp_gl_ d (op : GL.Context -> GL.Context) Q s :
  Q tt (set_gl_context (op (gl_context s)) s) -> wp d (gl_ op) Q s.
Proof. intros HQ. exact HQ. Qed.

Lemma wp_gl d {A} (op : GL.Context -> A * GL.Context) Q s :
  Q (op (gl_context s)).1 (set_gl_context (op (gl_context s)).2 s) -> wp d (gl op) Q s.
Proof.
  unfold wp, gl. destruct (op (gl_context s)) as [a c]. auto.
Qed.

Lemma wp_VERBOSE d msg Q s :
  Q tt (set_verbose_log (verbose_log s ++ [msg]) s) -> wp d (VERBOSE msg) Q s.
Proof. intros HQ. exact HQ. Qed.

Lemma wp_undefined_partial {A} (Q : A -> OpenGLVideo -> Prop) s : wp True undefined Q s.
Proof. exact I. Qed.

Lemma wp_elim {A} (m : M A) Q s :
  wp False m Q s -> exists a s', m s = Some (a, s') /\ Q a s'.
Proof.
  unfold wp. destruct (m s) as [[a s']|]; [eauto | tauto].
Qed.

Lemma wp_elim_partial {A} (m : M A) Q s a s' :
  wp True m Q s -> m s = Some (a, s') -> Q a s'.
Proof.
  unfold wp. intros Hwp E. rewrite E in Hwp. exact Hwp.
Qed.

Lemma wp_intro d {A} (m : M A) (Q : A -> OpenGLVideo -> Prop) s a s' :
  m s = Some (a, s') -> Q a s' -> wp d m Q s.
Proof.
  unfold wp. intros ->. auto.
Qed.


(** Reduce member reads of an updated object. *)
Ltac st_simpl :=
  cbn [
    gl_context video_dim actual_video_dim viewportSize masterViewportSize
    display_visible_rect display_video_rect video_rect frameBufferRect
    softwareDeinterlacer hardwareDeinterlacer hardwareDeinterlacing viewportControl
    inputTextures referenceTextures inputTextureSize filters currentFrameNum
    inputUpdated refsNeeded textureRects textureType helperTexture defaultUpsize
    gl_features using_ycbcrtex using_hardwaretex verbose_log set_gl_context
    set_softwareDeinterlacer set_hardwareDeinterlacer set_hardwareDeinterlacing
    set_inputTextures set_referenceTextures set_inputTextureSize set_filters
    set_currentFrameNum set_inputUpdated set_refsNeeded set_helperTexture
    set_gl_features set_verbose_log fragmentPrograms numInputs frameBuffers
    frameBufferTextures outputBuffer set_fragmentPrograms set_frameBuffers
    set_frameBufferTextures set_outputBuffer
  ].

Ltac st_simpl_in H :=
  cbn [
    gl_context video_dim actual_video_dim viewportSize masterViewportSize
    display_visible_rect display_video_rect video_rect frameBufferRect
    softwareDeinterlacer hardwareDeinterlacer hardwareDeinterlacing viewportControl
    inputTextures referenceTextures inputTextureSize filters currentFrameNum
    inputUpdated refsNeeded textureRects textureType helperTexture defaultUpsize
    gl_features using_ycbcrtex using_hardwaretex verbose_log set_gl_context
    set_softwareDeinterlacer set_hardwareDeinterlacer set_hardwareDeinterlacing
    set_inputTextures set_referenceTextures set_inputTextureSize set_filters
    set_currentFrameNum set_inputUpdated set_refsNeeded set_helperTexture
    set_gl_features set_verbose_log fragmentPrograms numInputs frameBuffers
    frameBufferTextures outputBuffer set_fragmentPrograms set_frameBuffers
    set_frameBufferTextures set_outputBuffer
  ] in H.

Ltac gl_simpl :=
  cbn [
    GL.textures GL.framebuffers GL.programs GL.failures GL.features GL.lock_depth
    GL.set_textures GL.set_framebuffers GL.set_programs GL.set_failures
    GL.set_lock_depth
  ].

Lemma wp_eq {A} (m : M A) (r : A * OpenGLVideo) s :
  wp False m (fun a s' => (a, s') = r) s -> m s = Some r.
Proof.
  unfold wp. destruct (m s) as [[a s']|]; [congruence | tauto].
Qed.

Lemma wp_the_filter d k f Q s :
  filters s !! k = Some (Some f) -> Q f s -> wp d (the_filter k) Q s.
Proof.
  unfold wp, the_filter. intros ->. auto.
Qed.

Lemma wp_update_filter d k g f Q s :
  filters s !! k = Some (Some f) ->
  Q tt (set_filters (<[k := Some (g f)]> (filters s)) s) ->
  wp d (update_filter k g) Q s.
Proof.
  unfold wp, update_filter, mbind, M_bind, the_filter, modify. intros ->. auto.
Qed.

Lemma wp_the_filter_partial k Q s :
  (forall f, filters s !! k = Some (Some f) -> Q f s) -> wp True (the_filter k) Q s.
Proof.
  unfold wp, the_filter. destruct (filters s !! k) as [[f|]|]; auto.
Qed.

Lemma wp_update_filter_partial k g Q s :
  (forall f, filters s !! k = Some (Some f) ->
             Q tt (set_filters (<[k := Some (g f)]> (filters s)) s)) ->
  wp True (update_filter k g) Q s.
Proof.
  unfold wp, update_filter, mbind, M_bind, the_filter, modify.
  destruct (filters s !! k) as [[f|]|]; auto.
Qed.

(** One step of a computation: a bind, or a primitive at the head. *)
Ltac wp_step :=
  lazymatch goal with
  | |- wp _ (update_filter _ _) _ _ => fail
  | |- wp _ (the_filter _) _ _ => fail
  | |- wp _ (mbind _ _) _ _ => apply wp_bind
  | |- wp _ (mret _) _ _ => apply wp_ret
  | |- wp _ (get _) _ _ => apply wp_get
  | |- wp _ (modify _) _ _ => apply wp_modify
  | |- wp _ (gl_ _) _ _ => apply wp_gl_
  | |- wp _ (gl _) _ _ => apply wp_gl
  | |- wp _ (VERBOSE _) _ _ => apply wp_VERBOSE
  | |- wp _ (filters_count _) _ _ => apply wp_get
  | |- wp _ filters_size _ _ => apply wp_get
  | |- wp _ (filters_erase _) _ _ => apply wp_modify
  | |- wp _ (has_feature _) _ _ => apply wp_get
  | |- wp True undefined _ _ => apply wp_undefined_partial
  | |- wp _ (when ?c _) _ _ => unfold when
  end.

Ltac wp_steps := repeat wp_step.

(** Use a proved specification for the computation at the head. *)
Ltac wp_use lem :=
  lazymatch goal with
  | |- wp _ (mbind _ _) _ _ => apply wp_bind; eapply wp_mono; [eapply lem|]
  | |- wp _ _ _ _ => eapply wp_mono; [eapply lem|]
  end.


(** ** Capability negotiation *)

Lemma negotiate_state options s :
  Init_negotiate options s =
  Some (tt, set_gl_features (Z.land (ParseOptions options) (GL.GetFeatures (gl_context s))) s).
Proof. reflexivity. Qed.

(** C4. For every option string and every feature mask reported by the
    hardware, the mask negotiated by [Init] ([ParseOptions(options) &
    gl_context->GetFeatures()]) is a subset of the hardware mask: ANDing it
    with the hardware mask gives it back, and every bit set in it is set in
    the hardware mask. *)
Theorem negotiated_mask_subset (options : string) (s : OpenGLVideo) :
  exists s',
    Init_negotiate options s = Some (tt, s') /\
    gl_features s' = Z.land (ParseOptions options) (GL.GetFeatures (gl_context s)) /\
    Z.land (gl_features s') (GL.GetFeatures (gl_context s)) = gl_features s' /\
    forall n, Z.testbit (gl_features s') n = true ->
              Z.testbit (GL.GetFeatures (gl_context s)) n = true.
Proof.
  eexists. split; [apply negotiate_state|]. cbn [gl_features set_gl_features].
  split; [reflexivity|]. split.
  - rewrite <- Z.land_assoc, Z.land_diag. reflexivity.
  - intros n Hn. rewrite Z.land_spec in Hn. apply andb_true_iff in Hn. tauto.
Qed.

(** ** Frame upload *)

Lemma locked_release (s : OpenGLVideo) :
  set_gl_context (GL.DoneCurrent (gl_context (set_gl_context (GL.MakeCurrent (gl_context s)) s)))
                 (set_gl_context (GL.MakeCurrent (gl_context s)) s) = s.
Proof. destruct s as [[]]. reflexivity. Qed.

(** C6. A frame whose width or height differs from the configured actual
    video dimensions, or whose pixel format is not YV12, is dropped:
    [UpdateInputFrame] returns and the object (reference ring, [refsNeeded],
    textures, [inputUpdated] and all the rest) is exactly as before. *)
Theorem UpdateInputFrame_mismatch_no_change (frame : VideoFrame) (soft_bob : bool)
    (s : OpenGLVideo) :
  frame_width frame <> width (actual_video_dim s) \/
  frame_height frame <> height (actual_video_dim s) \/
  codec frame <> FMT_YV12 ->
  UpdateInputFrame frame soft_bob s = Some (tt, s).
Proof.
  intros Hbad.
  assert (Hcond :
    negb (frame_width frame =? width (actual_video_dim s)) ||
    negb (frame_height frame =? height (actual_video_dim s)) ||
    (frame_width frame <? 1) || (frame_height frame <? 1) ||
    negb (codec frame =? FMT_YV12) = true).
  { destruct Hbad as [Hw | [Hh | Hc]].
    - apply Z.eqb_neq in Hw. rewrite Hw. reflexivity.
    - apply Z.eqb_neq in Hh. rewrite Hh. rewrite orb_true_r. reflexivity.
    - apply Z.eqb_neq in Hc. rewrite Hc. rewrite !orb_true_r. reflexivity. }
  unfold UpdateInputFrame, locked, mbind, M_bind, gl_, modify, get, mret, M_ret.
  cbn [actual_video_dim set_gl_context].
  rewrite Hcond. f_equal. f_equal. apply locked_release.
Qed.

(** ** Rotation of the reference textures *)

Lemma shift_textures_take (i : nat) (v : list GLuint) :
  (i < length v)%nat ->
  shift_textures i v = take 1 v ++ take i v ++ drop (S i) v.
Proof.
  revert v. induction i as [|j IH]; intros v Hlen.
  - destruct v as [|x v]; [simpl in Hlen; lia|]. reflexivity.
  - cbn [shift_textures].
    destruct (lookup_lt_is_Some_2 v j ltac:(lia)) as [x Hx]. rewrite Hx.
    rewrite IH by (rewrite length_insert; lia).
    rewrite take_insert_ge by lia. rewrite take_insert_ge by lia.
    rewrite drop_insert_ge by lia. rewrite Nat.sub_diag.
    rewrite (take_S_r v j x Hx).
    destruct (lookup_lt_is_Some_2 v (S j) ltac:(lia)) as [y Hy].
    rewrite (drop_S v y (S j) Hy). cbn [insert list_insert].
    rewrite <- !app_assoc. reflexivity.
Qed.

Lemma shift_textures_all (x : GLuint) (v : list GLuint) :
  shift_textures (length (x :: v) - 1) (x :: v) = x :: removelast (x :: v).
Proof.
  rewrite shift_textures_take by (simpl; lia).
  rewrite removelast_firstn_len.
  replace (S (length (x :: v) - 1)) with (length (x :: v)) by (simpl; lia).
  rewrite drop_ge by lia. rewrite app_nil_r.
  replace (length (x :: v) - 1)%nat with (Init.Nat.pred (length (x :: v))) by (simpl; lia).
  reflexivity.
Qed.

Lemma RotateTextures_small s :
  (length (referenceTextures s) < 2)%nat -> RotateTextures s = Some (tt, s).
Proof.
  intros Hlen. unfold RotateTextures, mbind, M_bind, get.
  apply Nat.ltb_lt in Hlen. rewrite Hlen. reflexivity.
Qed.

Lemma RotateTextures_rotates s input rest :
  (2 <= length (referenceTextures s))%nat ->
  inputTextures s = input :: rest ->
  exists tmp,
    last (referenceTextures s) = Some tmp /\
    RotateTextures s =
    Some (tt, set_inputTextures (tmp :: rest)
                (set_referenceTextures (input :: removelast (referenceTextures s))
                   (set_refsNeeded (if 0 <? refsNeeded s then refsNeeded s - 1
                                    else refsNeeded s) s))).
Proof.
  intros Hlen Hin.
  destruct (referenceTextures s) as [|x v] eqn:Hrefs; [simpl in Hlen; lia|].
  destruct (last (x :: v)) as [tmp|] eqn:Hlast.
  2:{ apply last_None in Hlast. discriminate. }
  exists tmp. split; [reflexivity|].
  unfold RotateTextures, mbind, M_bind, get. rewrite Hrefs.
  apply Nat.ltb_ge in Hlen. rewrite Hlen.
  unfold when. destruct (0 <? refsNeeded s) eqn:Hn.
  - cbn [modify mret M_ret]. rewrite Hlast.
    cbn [inputTextures set_refsNeeded]. rewrite Hin.
    rewrite shift_textures_all. destruct s; reflexivity.
  - cbn [modify mret M_ret]. rewrite Hlast. rewrite Hin.
    rewrite shift_textures_all. destruct s; simpl in *; subst; reflexivity.
Qed.

(** C10. [RotateTextures] conserves the texture handles. With at least two
    textures in the ring it rotates the collection "current input texture,
    then ring" by one place: the last ring texture becomes the input and
    the old input the head of the ring, so the new collection is a
    permutation of the old one (nothing dropped, nothing duplicated). With
    fewer than two ring textures nothing changes, [refsNeeded] included. *)
Theorem RotateTextures_conserves_handles (s : OpenGLVideo) :
  (forall input rest,
     (2 <= length (referenceTextures s))%nat ->
     inputTextures s = input :: rest ->
     exists s' tmp body,
       RotateTextures s = Some (tt, s') /\
       input :: referenceTextures s = body ++ [tmp] /\
       inputTextures s' = tmp :: rest /\
       tmp :: referenceTextures s' = tmp :: body /\
       (tmp :: referenceTextures s') ≡ₚ (input :: referenceTextures s)) /\
  ((length (referenceTextures s) < 2)%nat -> RotateTextures s = Some (tt, s)).
Proof.
  split; [|apply RotateTextures_small].
  intros input rest Hlen Hin.
  destruct (RotateTextures_rotates s input rest Hlen Hin) as (tmp & Hlast & Hrun).
  apply last_Some in Hlast. destruct Hlast as [l' Hl'].
  eexists _, tmp, (input :: l'). split; [exact Hrun|].
  cbn [inputTextures referenceTextures set_inputTextures set_referenceTextures set_refsNeeded].
  rewrite Hl'. rewrite removelast_last.
  repeat split.
  rewrite (Permutation_app_comm l' [tmp]). simpl. apply perm_swap.
Qed.


(** ** Removing a stage *)

Definition delete_programs (l : list GLuint) (c : GL.Context) : GL.Context :=
  foldl (fun c p => GL.DeleteFragmentProgram p c) c l.

Definition delete_framebuffers (l : list GLuint) (c : GL.Context) : GL.Context :=
  foldl (fun c b => GL.DeleteFrameBuffer b c) c l.

Definition delete_textures (l : list GLuint) (c : GL.Context) : GL.Context :=
  foldl (fun c t => GL.DeleteTexture t c) c l.

(** What [RemoveFilter] does to the context for a stage [f]. *)
Definition release_stage (f : OpenGLFilter) (c : GL.Context) : GL.Context :=
  delete_textures (frameBufferTextures f)
    (delete_framebuffers (frameBuffers f)
       (delete_programs (fragmentPrograms f) c)).

Lemma set_gl_context_id s : set_gl_context (gl_context s) s = s.
Proof. destruct s. reflexivity. Qed.

Lemma DeleteFragmentPrograms_run l s :
  DeleteFragmentPrograms l s =
  Some (tt, set_gl_context (delete_programs l (gl_context s)) s).
Proof.
  revert s. induction l as [|p l IH]; intros s.
  - cbn. rewrite set_gl_context_id. reflexivity.
  - cbn [DeleteFragmentPrograms]. unfold mbind, M_bind, gl_, modify.
    rewrite IH. reflexivity.
Qed.

Lemma DeleteFrameBuffers_run l s :
  DeleteFrameBuffers l s =
  Some (tt, set_gl_context (delete_framebuffers l (gl_context s)) s).
Proof.
  revert s. induction l as [|p l IH]; intros s.
  - cbn. rewrite set_gl_context_id. reflexivity.
  - cbn [DeleteFrameBuffers]. unfold mbind, M_bind, gl_, modify.
    rewrite IH. reflexivity.
Qed.

Lemma DeleteTextures_run l s :
  DeleteTextures l s =
  Some (tt, set_gl_context (delete_textures l (gl_context s)) s).
Proof.
  revert s. induction l as [|p l IH]; intros s.
  - cbn. rewrite set_gl_context_id. reflexivity.
  - cbn [DeleteTextures]. unfold mbind, M_bind, gl_, modify.
    rewrite IH. reflexivity.
Qed.

Lemma RemoveFilter_absent filter s :
  filters s !! filter = None -> RemoveFilter filter s = Some (true, s).
Proof.
  intros Hk. unfold RemoveFilter, mbind, M_bind, filters_count, get.
  rewrite Hk. rewrite bool_decide_eq_false_2; [reflexivity|].
  intros [x Hx]. discriminate.
Qed.

Lemma RemoveFilter_null filter s :
  filters s !! filter = Some None -> RemoveFilter filter s = None.
Proof.
  intros Hk. unfold RemoveFilter, mbind, M_bind, filters_count, get.
  rewrite Hk. rewrite bool_decide_eq_true_2 by eauto.
  cbn. unfold the_filter. cbn. rewrite Hk. reflexivity.
Qed.

Lemma RemoveFilter_present filter f s :
  filters s !! filter = Some (Some f) ->
  RemoveFilter filter s =
  Some (true,
        set_filters (<[filter := None]> (filters s))
          (set_gl_context (release_stage f (gl_context s))
             (set_verbose_log
                (verbose_log s ++ ["GLVid: Removing " +:+ FilterToString filter +:+ " filter"])
                s))).
Proof.
  intros Hk. apply wp_eq. unfold RemoveFilter.
  wp_steps. st_simpl. rewrite Hk. rewrite bool_decide_eq_true_2 by eauto. cbn [negb].
  wp_steps.
  apply (wp_the_filter _ _ f); [st_simpl; exact Hk|].
  apply wp_bind. eapply wp_intro; [apply DeleteFragmentPrograms_run|].
  apply wp_bind. apply (wp_update_filter _ _ _ f); [st_simpl; exact Hk|].
  apply wp_bind. eapply wp_the_filter; [st_simpl; apply lookup_insert_eq|].
  apply wp_bind. eapply wp_intro; [apply DeleteFrameBuffers_run|].
  apply wp_bind. eapply wp_update_filter; [st_simpl; apply lookup_insert_eq|].
  apply wp_bind. eapply wp_the_filter; [st_simpl; apply lookup_insert_eq|].
  apply wp_bind. eapply wp_intro; [apply DeleteTextures_run|].
  apply wp_bind. eapply wp_update_filter; [st_simpl; apply lookup_insert_eq|].
  wp_steps. st_simpl. rewrite !insert_insert_eq. reflexivity.
Qed.

Lemma delete_programs_other l c :
  GL.textures (delete_programs l c) = GL.textures c /\
  GL.framebuffers (delete_programs l c) = GL.framebuffers c.
Proof.
  unfold delete_programs. revert c. induction l as [|p l IH]; intros c; [done|].
  cbn [foldl]. destruct (IH (GL.DeleteFragmentProgram p c)) as [-> ->]. done.
Qed.

Lemma delete_framebuffers_other l c :
  GL.textures (delete_framebuffers l c) = GL.textures c /\
  GL.programs (delete_framebuffers l c) = GL.programs c.
Proof.
  unfold delete_framebuffers. revert c. induction l as [|p l IH]; intros c; [done|].
  cbn [foldl]. destruct (IH (GL.DeleteFrameBuffer p c)) as [-> ->]. done.
Qed.

Lemma delete_textures_other l c :
  GL.framebuffers (delete_textures l c) = GL.framebuffers c /\
  GL.programs (delete_textures l c) = GL.programs c.
Proof.
  unfold delete_textures. revert c. induction l as [|p l IH]; intros c; [done|].
  cbn [foldl]. destruct (IH (GL.DeleteTexture p c)) as [-> ->]. done.
Qed.

Lemma delete_programs_lookup l c p :
  GL.programs (delete_programs l c) !! p =
  if bool_decide (p ∈ l) then None else GL.programs c !! p.
Proof.
  revert c. induction l as [|q l IH]; intros c.
  - rewrite bool_decide_eq_false_2; [done|]. apply not_elem_of_nil.
  - cbn [delete_programs foldl]. fold (delete_programs l (GL.DeleteFragmentProgram q c)).
    rewrite IH. cbn [GL.DeleteFragmentProgram GL.programs GL.set_programs].
    destruct (decide (p = q)) as [->|Hne].
    + rewrite lookup_delete_eq. rewrite (bool_decide_eq_true_2 (q ∈ q :: l)) by left.
      by destruct (bool_decide _).
    + rewrite lookup_delete_ne by done.
      apply (f_equal (fun b : bool => if b then None else GL.programs c !! p)).
      apply bool_decide_ext. rewrite elem_of_cons. naive_solver.
Qed.

Lemma delete_framebuffers_lookup l c p :
  GL.framebuffers (delete_framebuffers l c) !! p =
  if bool_decide (p ∈ l) then None else GL.framebuffers c !! p.
Proof.
  revert c. induction l as [|q l IH]; intros c.
  - rewrite bool_decide_eq_false_2; [done|]. apply not_elem_of_nil.
  - cbn [delete_framebuffers foldl]. fold (delete_framebuffers l (GL.DeleteFrameBuffer q c)).
    rewrite IH. cbn [GL.DeleteFrameBuffer GL.framebuffers GL.set_framebuffers].
    destruct (decide (p = q)) as [->|Hne].
    + rewrite lookup_delete_eq. rewrite (bool_decide_eq_true_2 (q ∈ q :: l)) by left.
      by destruct (bool_decide _).
    + rewrite lookup_delete_ne by done.
      apply (f_equal (fun b : bool => if b then None else GL.framebuffers c !! p)).
      apply bool_decide_ext. rewrite elem_of_cons. naive_solver.
Qed.

Lemma delete_textures_lookup l c p :
  GL.textures (delete_textures l c) !! p =
  if bool_decide (p ∈ l) then None else GL.textures c !! p.
Proof.
  revert c. induction l as [|q l IH]; intros c.
  - rewrite bool_decide_eq_false_2; [done|]. apply not_elem_of_nil.
  - cbn [delete_textures foldl]. fold (delete_textures l (GL.DeleteTexture q c)).
    rewrite IH. cbn [GL.DeleteTexture GL.textures GL.set_textures].
    destruct (decide (p = q)) as [->|Hne].
    + rewrite lookup_delete_eq. rewrite (bool_decide_eq_true_2 (q ∈ q :: l)) by left.
      by destruct (bool_decide _).
    + rewrite lookup_delete_ne by done.
      apply (f_equal (fun b : bool => if b then None else GL.textures c !! p)).
      apply bool_decide_ext. rewrite elem_of_cons. naive_solver.
Qed.

(** C3 (as the code has it). For a stage type [filter] present in the graph
    with stage [f], [RemoveFilter] returns [true], destroys every fragment
    program, framebuffer and intermediate texture the stage owns (none of
    them is live in the context afterwards) and sets the entry of [filter]
    to the null pointer; the entry itself stays in the mapping until the
    [filters.erase(filter)] that every caller performs next, after which
    the mapping has no entry for [filter]. *)
Theorem RemoveFilter_destroys_and_nulls (filter : OpenGLFilterType) (f : OpenGLFilter)
    (s : OpenGLVideo) :
  filters s !! filter = Some (Some f) ->
  exists s',
    RemoveFilter filter s = Some (true, s') /\
    (forall p, p ∈ fragmentPrograms f -> GL.programs (gl_context s') !! p = None) /\
    (forall b, b ∈ frameBuffers f -> GL.framebuffers (gl_context s') !! b = None) /\
    (forall t, t ∈ frameBufferTextures f -> GL.textures (gl_context s') !! t = None) /\
    filters s' = <[filter := None]> (filters s) /\
    filters s' !! filter = Some None /\
    exists s'',
      filters_erase filter s' = Some (tt, s'') /\
      filters s'' = delete filter (filters s) /\
      filters s'' !! filter = None.
Proof.
  intros Hk. eexists. split; [apply (RemoveFilter_present _ _ _ Hk)|].
  cbn [gl_context filters set_filters set_gl_context set_verbose_log].
  unfold release_stage.
  split; [|split; [|split; [|split; [|split]]]].
  - intros p Hp.
    destruct (delete_textures_other (frameBufferTextures f)
      (delete_framebuffers (frameBuffers f) (delete_programs (fragmentPrograms f) (gl_context s))))
      as [_ ->].
    destruct (delete_framebuffers_other (frameBuffers f)
      (delete_programs (fragmentPrograms f) (gl_context s))) as [_ ->].
    rewrite delete_programs_lookup. by rewrite bool_decide_eq_true_2.
  - intros b Hb.
    destruct (delete_textures_other (frameBufferTextures f)
      (delete_framebuffers (frameBuffers f) (delete_programs (fragmentPrograms f) (gl_context s))))
      as [-> _].
    rewrite delete_framebuffers_lookup. by rewrite bool_decide_eq_true_2.
  - intros t Ht. rewrite delete_textures_lookup. by rewrite bool_decide_eq_true_2.
  - reflexivity.
  - apply lookup_insert_eq.
  - eexists. split; [reflexivity|].
    cbn [filters set_filters]. rewrite delete_insert_eq.
    split; [reflexivity|]. apply lookup_delete_eq.
Qed.


(** ** Fragment-program text *)

Definition recognised (deint : string) : bool :=
  is_bobdeint deint || is_linearblend deint || is_kerneldeint deint || is_yadif deint.

Lemma append_assoc (x y z : string) : (x +:+ y) +:+ z = x +:+ (y +:+ z).
Proof.
  induction x as [|c x IH]; [reflexivity|].
  change (String c ((x +:+ y) +:+ z) = String c (x +:+ (y +:+ z))).
  rewrite IH. reflexivity.
Qed.

Lemma length_append (x y : string) :
  String.length (x +:+ y) = (String.length x + String.length y)%nat.
Proof.
  induction x as [|c x IH]; [reflexivity|].
  change (S (String.length (x +:+ y)) = S (String.length x + String.length y)).
  rewrite IH. reflexivity.
Qed.

Fixpoint percent_free (x : string) : bool :=
  match x with
  | EmptyString => true
  | String c x' => negb (Ascii.eqb c "%") && percent_free x'
  end.

Lemma replace_percent_free (k after x y : string) :
  percent_free x = true ->
  replace (String "%" k) after (x +:+ y) = x +:+ replace (String "%" k) after y.
Proof.
  unfold replace. induction x as [|c x IH]; intros Hx; [reflexivity|].
  cbn [percent_free] in Hx. apply andb_true_iff in Hx. destruct Hx as [Hc Hx].
  change (String c x +:+ y) with (String c (x +:+ y)).
  change (String c x +:+ replace_from 0 (String "%" k) after y)
    with (String c (x +:+ replace_from 0 (String "%" k) after y)).
  assert (Hp : String.prefix (String "%" k) (String c (x +:+ y)) = false).
  { cbn [String.prefix]. destruct (ascii_dec "%" c) as [<-|_]; [discriminate Hc | reflexivity]. }
  cbn [replace_from]. rewrite Hp. rewrite IH by exact Hx. reflexivity.
Qed.

Lemma fill_percent_free rects its fb (x y : string) :
  percent_free x = true ->
  fill_placeholders rects its fb (x +:+ y) = x +:+ fill_placeholders rects its fb y.
Proof.
  intros Hx. unfold fill_placeholders.
  rewrite !replace_percent_free by exact Hx. reflexivity.
Qed.

Lemma double_until_total (target : Z) (fuel : nat) (w : Z) :
  0 < w -> target <= 2 ^ 30 -> target <= w * 2 ^ Z.of_nat fuel ->
  exists r, double_until (S fuel) w target = Some r.
Proof.
  revert w. induction fuel as [|k IH]; intros w Hw Ht Hfuel.
  - cbn [double_until]. rewrite (proj2 (Z.ltb_ge w target)) by (simpl in Hfuel; lia). eauto.
  - cbn [double_until]. fold (double_until (S k)).
    destruct (w <? target) eqn:Hlt; [|eauto].
    apply Z.ltb_lt in Hlt.
    rewrite (proj2 (Z.ltb_ge INT_MAX (2 * w))) by (unfold INT_MAX; lia).
    apply IH; [lia | exact Ht |].
    rewrite Nat2Z.inj_succ, Z.pow_succ_r in Hfuel by lia. lia.
Qed.

Lemma GetTextureSize_defined (size : QSize) (s : OpenGLVideo) :
  textureRects s = true \/ (width size <= 2 ^ 30 /\ height size <= 2 ^ 30) ->
  exists r, GetTextureSize size s = Some (r, s).
Proof.
  intros Hsz. unfold GetTextureSize, mbind, M_bind, get.
  destruct (textureRects s) eqn:Hr; [eexists; reflexivity|].
  destruct Hsz as [Hsz|[Hw Hh]]; [discriminate|].
  destruct (double_until_total (width size) 31 64) as [w Ew]; [lia | exact Hw | lia|].
  destruct (double_until_total (height size) 31 64) as [h Eh]; [lia | exact Hh | lia|].
  rewrite Ew, Eh. eexists; reflexivity.
Qed.

Lemma GetTextureSize_log (size : QSize) (s : OpenGLVideo) (l : list string) :
  GetTextureSize size (set_verbose_log l s) =
  match GetTextureSize size s with
  | Some (r, _) => Some (r, set_verbose_log l s)
  | None => None
  end.
Proof.
  unfold GetTextureSize, mbind, M_bind, get. st_simpl.
  destruct (textureRects s); [reflexivity|].
  destruct (double_until 32 64 (width size)), (double_until 32 64 (height size));
    reflexivity.
Qed.

Lemma GetProgramString_run name deint field s t s1 fb :
  program_template name deint field s = Some (t, s1) ->
  GetTextureSize (video_dim s1) s1 = Some (fb, s1) ->
  GetProgramString name deint field s =
  let text := fill_placeholders (textureRects s1) (inputTextureSize s1) fb t +:+ "END" in
  Some (text,
        set_verbose_log
          ((verbose_log s1 ++ [nl +:+ text +:+ nl]) ++
           ["GLVid: Created " +:+ FilterToString name +:+ " fragment program " +:+ deint]) s1).
Proof.
  intros Ht Hsz. apply wp_eq. unfold GetProgramString.
  apply wp_bind. eapply wp_intro; [exact Ht|].
  wp_steps. eapply wp_intro; [exact Hsz|].
  wp_steps. st_simpl. reflexivity.
Qed.

Lemma select_deint_unknown deint field s :
  String.eqb deint EmptyString = false -> recognised deint = false ->
  select_deint deint field s =
  Some ((EmptyString, true),
        set_verbose_log (verbose_log s ++ ["GLVid: Unrecognised OpenGL deinterlacer"]) s).
Proof.
  unfold recognised, select_deint. intros -> Hrec.
  apply orb_false_iff in Hrec. destruct Hrec as [Hrec ->].
  apply orb_false_iff in Hrec. destruct Hrec as [Hrec ->].
  apply orb_false_iff in Hrec. destruct Hrec as [-> ->].
  reflexivity.
Qed.

(** C8 (as the code has it). For an algorithm name that is neither empty
    nor in the recognised set, [GetProgramString] for the
    colourspace-conversion stage logs the warning, returns a program (the
    size computation must not overflow: rectangle textures, or video
    dimensions of at most 2^30), and the program has no deinterlacing body:
    it is the text generated when no deinterlacer is requested with the
    declaration line [var_deint] ("TEMP other, current, mov, prev;")
    inserted after the attribute block. The two texts are therefore not
    the same. *)
Theorem unknown_deinterlacer_program (deint : string) (field : FrameScanType)
    (s : OpenGLVideo) :
  deint <> EmptyString ->
  recognised deint = false ->
  textureRects s = true \/
    (width (video_dim s) <= 2 ^ 30 /\ height (video_dim s) <= 2 ^ 30) ->
  exists text s1 text0 s2 tail,
    GetProgramString kGLFilterYUV2RGB deint field s = Some (text, s1) /\
    GetProgramString kGLFilterYUV2RGB EmptyString field s = Some (text0, s2) /\
    text0 = program_header +:+ attrib_fast +:+ tail /\
    text = program_header +:+ attrib_fast +:+ var_deint +:+ tail /\
    text <> text0 /\
    "GLVid: Unrecognised OpenGL deinterlacer" ∈ verbose_log s1.
Proof.
  intros Hne Hrec Hsz.
  assert (Heq : String.eqb deint EmptyString = false) by (apply String.eqb_neq; exact Hne).
  destruct (GetTextureSize_defined (video_dim s) s Hsz) as [fb Hfb].
  pose (R := (var_fast +:+ tex_fast) +:+ EmptyString +:+ end_fast).
  pose (tail := fill_placeholders (textureRects s) (inputTextureSize s) fb R +:+ "END").
  assert (Hunknown :
    program_template kGLFilterYUV2RGB deint field s =
    Some (program_header +:+ attrib_fast +:+ var_deint +:+ R,
          set_verbose_log (verbose_log s ++ ["GLVid: Unrecognised OpenGL deinterlacer"]) s)).
  { unfold program_template, mbind, M_bind.
    rewrite (select_deint_unknown _ _ _ Heq Hrec). rewrite Heq. reflexivity. }
  assert (Hnone :
    program_template kGLFilterYUV2RGB EmptyString field s =
    Some (program_header +:+ attrib_fast +:+ R, s)) by reflexivity.
  eexists _, _, _, _, tail.
  split; [|split].
  - eapply GetProgramString_run; [exact Hunknown|]. st_simpl.
    rewrite GetTextureSize_log, Hfb. reflexivity.
  - eapply GetProgramString_run; [exact Hnone | exact Hfb].
  - cbv zeta. st_simpl.
    assert (Hh : percent_free program_header = true) by reflexivity.
    assert (Ha : percent_free attrib_fast = true) by reflexivity.
    assert (Hv : percent_free var_deint = true) by reflexivity.
    rewrite !(fill_percent_free _ _ _ program_header) by exact Hh.
    rewrite !(fill_percent_free _ _ _ attrib_fast) by exact Ha.
    rewrite !(fill_percent_free _ _ _ var_deint) by exact Hv.
    fold R. unfold tail.
    rewrite !append_assoc.
    split; [reflexivity|]. split; [reflexivity|]. split.
    + intros Hsame.
      apply (f_equal (fun x => String.length x)) in Hsame.
      rewrite !length_append in Hsame.
      change (String.length var_deint) with 32%nat in Hsame. lia.
    + rewrite !elem_of_app. left. left. right. apply list_elem_of_In. left. reflexivity.
Qed.

(** ** The hardware bob shift *)

(** C9 (what the code computes). The vertical shift applied for the
    hardware bob deinterlacer does not depend on the scan phase: the
    conditional for [field] tests the constant [kScan_Interlaced], not the
    [scan] argument, so both fields of a frame get the same signed shift;
    only [topfieldfirst] selects the sign. *)
Theorem hardware_bob_ignores_scan (display video : QRect) (topfieldfirst : bool)
    (scan1 scan2 : FrameScanType) :
  hardware_bob display video topfieldfirst scan1 =
  hardware_bob display video topfieldfirst scan2.
Proof. reflexivity. Qed.

Lemma vertex_rect_ignores_scan s filter first topfieldfirst scan1 scan2 :
  vertex_rect s filter first topfieldfirst scan1 =
  vertex_rect s filter first topfieldfirst scan2.
Proof. reflexivity. Qed.


(** ** What the stage-graph functions leave alone

    [AddFilter], [RemoveFilter], [OptimiseFilters] and what they call write
    the context, the stage map, the log and [helperTexture] only. *)

Definition outside_graph (s : OpenGLVideo) : OpenGLVideo :=
  set_helperTexture 0
    (set_verbose_log []
       (set_filters ∅ (set_gl_context (GL.mkContext ∅ ∅ ∅ [] 0 0) s))).

Definition graph_frame (s s' : OpenGLVideo) : Prop :=
  outside_graph s' = outside_graph s.

Lemma outside_graph_gl_context c s : outside_graph (set_gl_context c s) = outside_graph s.
Proof. reflexivity. Qed.

Lemma outside_graph_filters m s : outside_graph (set_filters m s) = outside_graph s.
Proof. reflexivity. Qed.

Lemma outside_graph_verbose_log l s : outside_graph (set_verbose_log l s) = outside_graph s.
Proof. reflexivity. Qed.

Lemma outside_graph_helperTexture h s : outside_graph (set_helperTexture h s) = outside_graph s.
Proof. reflexivity. Qed.

Lemma graph_frame_refl s : graph_frame s s.
Proof. reflexivity. Qed.

Lemma graph_frame_trans s1 s2 s3 : graph_frame s1 s2 -> graph_frame s2 s3 -> graph_frame s1 s3.
Proof. unfold graph_frame. congruence. Qed.

Lemma graph_frame_fields s s' :
  graph_frame s s' ->
  video_dim s' = video_dim s /\
  actual_video_dim s' = actual_video_dim s /\
  viewportSize s' = viewportSize s /\
  masterViewportSize s' = masterViewportSize s /\
  display_visible_rect s' = display_visible_rect s /\
  display_video_rect s' = display_video_rect s /\
  video_rect s' = video_rect s /\
  frameBufferRect s' = frameBufferRect s /\
  softwareDeinterlacer s' = softwareDeinterlacer s /\
  hardwareDeinterlacer s' = hardwareDeinterlacer s /\
  hardwareDeinterlacing s' = hardwareDeinterlacing s /\
  viewportControl s' = viewportControl s /\
  inputTextures s' = inputTextures s /\
  referenceTextures s' = referenceTextures s /\
  inputTextureSize s' = inputTextureSize s /\
  currentFrameNum s' = currentFrameNum s /\
  inputUpdated s' = inputUpdated s /\
  refsNeeded s' = refsNeeded s /\
  textureRects s' = textureRects s /\
  textureType s' = textureType s /\
  defaultUpsize s' = defaultUpsize s /\
  gl_features s' = gl_features s /\
  using_ycbcrtex s' = using_ycbcrtex s /\
  using_hardwaretex s' = using_hardwaretex s.
Proof.
  unfold graph_frame, outside_graph. intros E.
  injection E. intros. repeat split; assumption.
Qed.

Ltac frame :=
  unfold graph_frame in *;
  repeat progress
    (rewrite ?outside_graph_gl_context, ?outside_graph_filters,
             ?outside_graph_verbose_log, ?outside_graph_helperTexture in *);
  congruence.

(** ** Well-formed stage graphs *)

(** A stage whose two buffer vectors go in pairs and whose counts fit the
    [int] arithmetic of [OptimiseFilters]. *)
Definition stage_wf (f : OpenGLFilter) : Prop :=
  length (frameBuffers f) = length (frameBufferTextures f) /\
  Z.of_nat (length (frameBuffers f)) < 2 ^ 31 /\
  0 <= numInputs f < 2 ^ 31.

(** No null entry, every stage well formed. *)
Definition graph_wf (m : gmap OpenGLFilterType (option OpenGLFilter)) : Prop :=
  forall k o, m !! k = Some o -> exists f, o = Some f /\ stage_wf f.

Lemma AddFrameBuffer_spec (vid_size : QSize) (s : OpenGLVideo) :
  wp False (AddFrameBuffer vid_size)
     (fun _ s' => graph_frame s s' /\ filters s' = filters s /\
                  helperTexture s' = helperTexture s) s.
Proof.
  unfold AddFrameBuffer. wp_steps.
  destruct (negb _).
  - wp_steps. st_simpl. split; [frame|done].
  - wp_steps.
    destruct (GL.CreateTexture _ _ _ _ _) as [tex c1]. cbn [fst snd].
    wp_steps. st_simpl.
    destruct (GL.CreateFrameBuffer tex c1) as [[ok fb] c2]. cbn [fst snd].
    destruct ok; wp_steps; st_simpl; (split; [frame|done]).
Qed.

Lemma SetTextureFilters_spec (l : list GLuint) (filt wrap : Z) (s : OpenGLVideo) :
  wp False (SetTextureFilters l filt wrap)
     (fun _ s' => graph_frame s s' /\ filters s' = filters s /\
                  helperTexture s' = helperTexture s) s.
Proof.
  revert s. induction l as [|t l IH]; intros s; cbn [SetTextureFilters].
  - wp_steps. done.
  - wp_steps. wp_use IH. intros _ s' (Hf & Hm & Hh). st_simpl_in Hm. st_simpl_in Hh.
    split; [frame|done].
Qed.

Lemma SetFiltering_loop_spec (rits : list OpenGLFilterType) (n : Z) (s : OpenGLVideo) :
  (forall k, k ∈ rits -> exists f, filters s !! k = Some (Some f)) ->
  wp False (SetFiltering_loop rits n)
     (fun _ s' => graph_frame s s' /\ filters s' = filters s /\
                  helperTexture s' = helperTexture s) s.
Proof.
  revert n s. induction rits as [|k rits IH]; intros n s Hall; cbn [SetFiltering_loop].
  - wp_steps. done.
  - destruct (Hall k ltac:(left)) as [f Hf].
    assert (Hstep : wp False
      (if n =? 1
       then f ← the_filter k; SetTextureFilters (frameBufferTextures f) GL_LINEAR GL_CLAMP_TO_EDGE
       else if 1 <? n
            then f ← the_filter k;
                 SetTextureFilters (frameBufferTextures f) GL_NEAREST GL_CLAMP_TO_EDGE
            else mret ())
      (fun _ s' => graph_frame s s' /\ filters s' = filters s /\
                   helperTexture s' = helperTexture s) s).
    { destruct (n =? 1); [|destruct (1 <? n)].
      - apply wp_bind. eapply wp_the_filter; [exact Hf|]. apply SetTextureFilters_spec.
      - apply wp_bind. eapply wp_the_filter; [exact Hf|]. apply SetTextureFilters_spec.
      - wp_steps. done. }
    apply wp_bind. eapply wp_mono; [exact Hstep|].
    intros _ s1 (Hf1 & Hm1 & Hh1).
    eapply wp_mono; [apply IH|].
    + intros k' Hk'. rewrite Hm1. apply Hall. by right.
    + intros _ s2 (Hf2 & Hm2 & Hh2). split; [frame|]. split; congruence.
Qed.

Lemma elem_of_pipeline m k : k ∈ pipeline m <-> is_Some (m !! k).
Proof.
  unfold pipeline. rewrite list_elem_of_filter. split; [tauto|].
  intros Hk. split; [exact Hk|]. destruct k; set_solver.
Qed.

Lemma SetFiltering_spec (s : OpenGLVideo) :
  graph_wf (filters s) ->
  wp False SetFiltering
     (fun _ s' => graph_frame s s' /\ filters s' = filters s /\
                  helperTexture s' = helperTexture s) s.
Proof.
  intros Hwf. unfold SetFiltering. wp_steps.
  destruct (_ || _).
  - apply SetTextureFilters_spec.
  - wp_use SetTextureFilters_spec. intros _ s1 (Hf1 & Hm1 & Hh1).
    wp_steps. eapply wp_mono; [apply SetFiltering_loop_spec|].
    + intros k Hk. rewrite elem_of_reverse, elem_of_pipeline in Hk.
      destruct Hk as [o Ho]. destruct (Hwf k o) as (f & -> & _); [congruence|].
      exists f. exact Ho.
    + intros _ s2 (Hf2 & Hm2 & Hh2). split; [frame|]. split; congruence.
Qed.

(** ** Buffer reconciliation, one stage *)

Definition with_buffers (fb fbt : list GLuint) (f : OpenGLFilter) : OpenGLFilter :=
  set_frameBufferTextures fbt (set_frameBuffers fb f).

Lemma with_buffers_same f : with_buffers (frameBuffers f) (frameBufferTextures f) f = f.
Proof. destruct f. reflexivity. Qed.

Lemma add_buffers_spec (it : OpenGLFilterType) (rounds : nat) (s : OpenGLVideo)
    (f : OpenGLFilter) :
  filters s !! it = Some (Some f) ->
  wp False (add_buffers it rounds)
     (fun ok s' =>
        graph_frame s s' /\ helperTexture s' = helperTexture s /\
        exists l1 l2,
          length l1 = length l2 /\ (length l1 <= rounds)%nat /\
          (ok = true -> length l1 = rounds) /\
          filters s' =
          <[it := Some (with_buffers (frameBuffers f ++ l1) (frameBufferTextures f ++ l2) f)]>
            (filters s)) s.
Proof.
  revert s f. induction rounds as [|n IH]; intros s f Hit; cbn [add_buffers].
  - wp_steps. split; [frame|]. split; [done|]. exists [], [].
    rewrite !app_nil_r, with_buffers_same, insert_id by exact Hit. done.
  - wp_steps. wp_use AddFrameBuffer_spec. intros r s1 (Hf1 & Hm1 & Hh1).
    destruct r as [[tmp_buf tmp_tex]|].
    + apply wp_bind. eapply wp_update_filter; [rewrite Hm1; exact Hit|].
      eapply wp_mono; [eapply IH|].
      * st_simpl. apply lookup_insert_eq.
      * intros ok s2 (Hf2 & Hh2 & l1 & l2 & Hlen & Hle & Hok & Hm2).
        st_simpl_in Hm2. st_simpl_in Hh2.
        split; [frame|]. split; [congruence|].
        exists (tmp_buf :: l1), (tmp_tex :: l2).
        split; [simpl; lia|]. split; [simpl; lia|].
        split; [intros Ht; simpl; rewrite Hok by exact Ht; reflexivity|].
        rewrite Hm2, Hm1, insert_insert_eq. unfold with_buffers. st_simpl.
        rewrite <- !app_assoc. reflexivity.
    + wp_steps. split; [frame|]. split; [done|]. exists [], [].
      rewrite !app_nil_r, with_buffers_same, Hm1, insert_id by exact Hit.
      split; [done|]. split; [simpl; lia|]. split; [discriminate|done].
Qed.

Lemma removelast_take {A} (l : list A) : removelast l = take (length l - 1) l.
Proof.
  rewrite removelast_firstn_len. f_equal. lia.
Qed.

Lemma remove_buffers_spec (it : OpenGLFilterType) (rounds : nat) (s : OpenGLVideo)
    (f : OpenGLFilter) :
  filters s !! it = Some (Some f) ->
  (rounds <= length (frameBuffers f))%nat ->
  (rounds <= length (frameBufferTextures f))%nat ->
  wp False (remove_buffers it rounds)
     (fun _ s' =>
        graph_frame s s' /\ helperTexture s' = helperTexture s /\
        filters s' =
        <[it := Some (with_buffers
                        (take (length (frameBuffers f) - rounds) (frameBuffers f))
                        (take (length (frameBufferTextures f) - rounds) (frameBufferTextures f))
                        f)]> (filters s)) s.
Proof.
  revert s f. induction rounds as [|n IH]; intros s f Hit Hfb Hfbt; cbn [remove_buffers].
  - wp_steps. split; [frame|]. split; [done|].
    rewrite !Nat.sub_0_r, !firstn_all, with_buffers_same, insert_id by exact Hit. done.
  - apply wp_bind. eapply wp_the_filter; [exact Hit|].
    destruct (last (frameBuffers f)) as [fb|] eqn:Hl1.
    2:{ apply last_None in Hl1. rewrite Hl1 in Hfb. simpl in Hfb. lia. }
    destruct (last (frameBufferTextures f)) as [tex|] eqn:Hl2.
    2:{ apply last_None in Hl2. rewrite Hl2 in Hfbt. simpl in Hfbt. lia. }
    wp_steps. eapply wp_update_filter; [st_simpl; exact Hit|].
    eapply wp_mono; [eapply IH|].
    + st_simpl. apply lookup_insert_eq.
    + st_simpl. rewrite removelast_take, length_take. lia.
    + st_simpl. rewrite removelast_take, length_take. lia.
    + intros _ s2 (Hf2 & Hh2 & Hm2). st_simpl_in Hm2. st_simpl_in Hh2.
      split; [frame|]. split; [done|].
      rewrite Hm2, insert_insert_eq. unfold with_buffers. st_simpl.
      rewrite !removelast_take, !length_take, !take_take.
      unfold set_frameBufferTextures, set_frameBuffers. st_simpl.
      do 2 f_equal. f_equal; f_equal; lia.
Qed.


(** ** Buffer reconciliation, the whole walk *)

Definition count (l : list GLuint) : Z := Z.of_nat (length l).

(** What the walk of [OptimiseFilters] may have done to a stage [f],
    giving [f']: [n] is the number of buffers wanted of it, [last] says
    that it is the stage walked first (the last of the pipeline), [ok] is
    the result of the walk. *)
Definition reconciled_stage (last ok : bool) (n : Z) (f f' : OpenGLFilter) : Prop :=
  numInputs f' = numInputs f /\
  fragmentPrograms f' = fragmentPrograms f /\
  stage_wf f' /\
  (frameBuffers f `prefix_of` frameBuffers f' \/
   frameBuffers f' `prefix_of` frameBuffers f) /\
  (frameBufferTextures f `prefix_of` frameBufferTextures f' \/
   frameBufferTextures f' `prefix_of` frameBufferTextures f) /\
  if last then
    frameBuffers f' = frameBuffers f /\
    frameBufferTextures f' = frameBufferTextures f /\
    outputBuffer f' = kDefaultBuffer
  else
    (outputBuffer f' = kFrameBufferObject \/ f' = f) /\
    Z.min (count (frameBuffers f)) n <= count (frameBuffers f') <=
      Z.max (count (frameBuffers f)) n /\
    (ok = true ->
     count (frameBuffers f') = n /\ outputBuffer f' = kFrameBufferObject).

Fixpoint loop_post (m m' : gmap OpenGLFilterType (option OpenGLFilter)) (ok : bool)
    (its : list OpenGLFilterType) (needed : Z) (last : bool) : Prop :=
  match its with
  | [] => True
  | k :: rest =>
      exists f f',
        m !! k = Some (Some f) /\ m' !! k = Some (Some f') /\
        reconciled_stage last ok needed f f' /\
        loop_post m m' ok rest (numInputs f) false
  end.

Lemma reconciled_stage_weaken last ok n f f' :
  reconciled_stage last true n f f' -> reconciled_stage last ok n f f'.
Proof.
  unfold reconciled_stage. intros (? & ? & ? & ? & ? & Hl).
  repeat (split; [assumption|]).
  destruct last; [assumption|].
  destruct Hl as (? & ? & Hok). repeat (split; [assumption|]).
  intros _. apply Hok. reflexivity.
Qed.

Lemma reconciled_stage_untouched n f :
  stage_wf f -> reconciled_stage false false n f f.
Proof.
  intros Hwf. unfold reconciled_stage.
  repeat (split; [done|]).
  split; [by left|]. split; [by left|].
  split; [by right|]. split; [lia|discriminate].
Qed.

Lemma loop_post_ext m1 m2 m' ok its needed last :
  (forall k, k ∈ its -> m1 !! k = m2 !! k) ->
  loop_post m1 m' ok its needed last -> loop_post m2 m' ok its needed last.
Proof.
  revert needed last. induction its as [|k rest IH]; intros needed last Hagree; [done|].
  cbn [loop_post]. intros (f & f' & Hf & Hf' & Hr & Hrest).
  exists f, f'. rewrite <- (Hagree k) by left.
  repeat (split; [assumption|]).
  apply IH; [|exact Hrest]. intros k' Hk'. apply Hagree. by right.
Qed.

Lemma loop_post_untouched m m' its needed :
  (forall k, k ∈ its -> exists f, m !! k = Some (Some f) /\ stage_wf f /\
                                  m' !! k = Some (Some f)) ->
  loop_post m m' false its needed false.
Proof.
  revert needed. induction its as [|k rest IH]; intros needed Hall; [done|].
  cbn [loop_post]. destruct (Hall k ltac:(left)) as (f & Hf & Hwf & Hf').
  exists f, f. repeat (split; [assumption|]).
  split; [by apply reconciled_stage_untouched|].
  apply IH. intros k' Hk'. apply Hall. by right.
Qed.

Lemma u32_small z : 0 <= z < 2 ^ 32 -> u32 z = z.
Proof. intros Hz. unfold u32. apply Z.mod_small. exact Hz. Qed.

Lemma s32_difference a b :
  0 <= a < 2 ^ 31 -> 0 <= b < 2 ^ 31 -> s32 (a - b) = a - b.
Proof.
  intros Ha Hb. unfold s32, u32.
  destruct (Z_lt_le_dec (a - b) 0) as [Hneg|Hpos].
  - replace ((a - b) mod 2 ^ 32) with (a - b + 2 ^ 32).
    + rewrite (proj2 (Z.ltb_ge _ _)) by lia. lia.
    + apply (Z.mod_unique_pos _ _ (-1)); lia.
  - rewrite (Z.mod_small (a - b)) by lia.
    rewrite (proj2 (Z.ltb_lt _ _)) by lia. reflexivity.
Qed.

(** The first half of an iteration: the stage [it] itself. *)
Definition reconcile_stage (it : OpenGLFilterType) (buffers_needed : Z)
    (last_filter : bool) : M bool :=
  if negb last_filter then
    update_filter it (set_outputBuffer kFrameBufferObject);;
    f ← the_filter it;
    let buffers_have := u32 (Z.of_nat (length (frameBuffers f))) in
    let buffers_diff := s32 (buffers_needed - buffers_have) in
    if 0 <? buffers_diff then add_buffers it (Z.to_nat buffers_diff)
    else if buffers_diff <? 0 then
      remove_buffers it (Z.to_nat (- buffers_diff));; mret true
    else mret true
  else
    update_filter it (set_outputBuffer kDefaultBuffer);; mret true.

Lemma OptimiseFilters_loop_unfold it rest buffers_needed last_filter :
  OptimiseFilters_loop (it :: rest) buffers_needed last_filter =
  (ok ← reconcile_stage it buffers_needed last_filter;
   if ok : bool then
     f ← the_filter it;
     OptimiseFilters_loop rest (numInputs f) false
   else mret false).
Proof. reflexivity. Qed.

Lemma reconcile_stage_spec it needed last s f :
  filters s !! it = Some (Some f) -> stage_wf f -> 0 <= needed < 2 ^ 31 ->
  wp False (reconcile_stage it needed last)
     (fun ok s' =>
        graph_frame s s' /\ helperTexture s' = helperTexture s /\
        (last = true \/ needed <= count (frameBuffers f) -> ok = true) /\
        exists f', filters s' = <[it := Some f']> (filters s) /\
                   reconciled_stage last ok needed f f') s.
Proof.
  intros Hit (Hlen & Hbound & Hin) Hneeded. unfold reconcile_stage.
  destruct last; cbn [negb].
  - apply wp_bind. eapply wp_update_filter; [exact Hit|]. wp_steps.
    split; [frame|]. split; [done|]. split; [done|].
    eexists. split; [st_simpl; reflexivity|].
    unfold reconciled_stage, stage_wf. st_simpl. repeat (split; [done|]).
    split; [by left|]. split; [by left|]. done.
  - apply wp_bind. eapply wp_update_filter; [exact Hit|].
    apply wp_bind. eapply wp_the_filter; [st_simpl; apply lookup_insert_eq|].
    st_simpl. cbv zeta.
    rewrite u32_small by lia. rewrite s32_difference by lia.
    set (f0 := set_outputBuffer kFrameBufferObject f).
    set (s0 := set_filters (<[it := Some f0]> (filters s)) s).
    assert (Hit0 : filters s0 !! it = Some (Some f0)) by apply lookup_insert_eq.
    destruct (0 <? needed - Z.of_nat (length (frameBuffers f))) eqn:Hpos;
      [|destruct (needed - Z.of_nat (length (frameBuffers f)) <? 0) eqn:Hneg].
    + apply Z.ltb_lt in Hpos.
      eapply wp_mono; [apply (add_buffers_spec _ _ _ _ Hit0)|].
      intros ok s' (Hf' & Hh' & l1 & l2 & Hl & Hle & Hok & Hm').
      split; [subst s0; frame|]. split; [exact Hh'|].
      split; [intros [Hl'|Hge]; [discriminate|unfold count in Hge; lia]|].
      eexists. split; [rewrite Hm'; subst s0; st_simpl; apply insert_insert_eq|].
      unfold reconciled_stage, stage_wf, with_buffers, count. subst f0. st_simpl.
      rewrite !length_app. split; [done|]. split; [done|].
      split; [repeat split; lia|].
      split; [left; by apply prefix_app_r|]. split; [left; by apply prefix_app_r|].
      split; [by left|]. split; [lia|].
      intros ->. specialize (Hok eq_refl). split; [lia|done].
    + apply Z.ltb_ge in Hpos. apply Z.ltb_lt in Hneg.
      apply wp_bind. eapply wp_mono; [apply (remove_buffers_spec _ _ _ _ Hit0)|].
      * subst f0. st_simpl. lia.
      * subst f0. st_simpl. lia.
      * intros _ s' (Hf' & Hh' & Hm'). wp_steps.
        split; [subst s0; frame|]. split; [exact Hh'|]. split; [done|].
        eexists. split; [rewrite Hm'; subst s0; st_simpl; apply insert_insert_eq|].
        unfold reconciled_stage, stage_wf, with_buffers, count. subst f0. st_simpl.
        rewrite !length_take. split; [done|]. split; [done|].
        split; [repeat split; lia|].
        split; [right; apply prefix_take|]. split; [right; apply prefix_take|].
        split; [by left|]. split; [lia|].
        intros _. split; [lia|done].
    + apply Z.ltb_ge in Hpos. apply Z.ltb_ge in Hneg. wp_steps.
      split; [subst s0; frame|]. split; [done|]. split; [done|].
      eexists. split; [subst s0; st_simpl; reflexivity|].
      unfold reconciled_stage, stage_wf, count. subst f0. st_simpl.
      repeat (split; [done|]).
      split; [by left|]. split; [by left|].
      split; [by left|]. split; [lia|].
      intros _. split; [lia|done].
Qed.

(** No stage of the walk is short of buffers. *)
Fixpoint no_growth (m : gmap OpenGLFilterType (option OpenGLFilter))
    (its : list OpenGLFilterType) (needed : Z) (last : bool) : Prop :=
  match its with
  | [] => True
  | k :: rest =>
      exists f, m !! k = Some (Some f) /\
                (last = true \/ needed <= count (frameBuffers f)) /\
                no_growth m rest (numInputs f) false
  end.

Lemma no_growth_ext m1 m2 its needed last :
  (forall k, k ∈ its -> m1 !! k = m2 !! k) ->
  no_growth m1 its needed last -> no_growth m2 its needed last.
Proof.
  revert needed last. induction its as [|k rest IH]; intros needed last Hagree; [done|].
  cbn [no_growth]. intros (f & Hf & Hn & Hrest).
  exists f. rewrite <- (Hagree k) by left.
  repeat (split; [assumption|]).
  apply IH; [|exact Hrest]. intros k' Hk'. apply Hagree. by right.
Qed.

Lemma OptimiseFilters_loop_spec its :
  forall needed last s,
    NoDup its ->
    (forall k, k ∈ its -> exists f, filters s !! k = Some (Some f) /\ stage_wf f) ->
    0 <= needed < 2 ^ 31 ->
    wp False (OptimiseFilters_loop its needed last)
       (fun ok s' =>
          graph_frame s s' /\ helperTexture s' = helperTexture s /\
          (forall k, k ∉ its -> filters s' !! k = filters s !! k) /\
          (no_growth (filters s) its needed last -> ok = true) /\
          loop_post (filters s) (filters s') ok its needed last) s.
Proof.
  induction its as [|it rest IH]; intros needed last s Hnd Hall Hneeded.
  - cbn [OptimiseFilters_loop]. wp_steps. done.
  - rewrite OptimiseFilters_loop_unfold.
    destruct (Hall it ltac:(left)) as (f & Hit & Hwf).
    apply NoDup_cons in Hnd. destruct Hnd as [Hnotin Hnd].
    apply wp_bind. eapply wp_mono; [apply (reconcile_stage_spec _ _ _ _ _ Hit Hwf Hneeded)|].
    intros ok1 s1 (Hf1 & Hh1 & Hng1 & f1 & Hm1 & Hr1).
    assert (Hit1 : filters s1 !! it = Some (Some f1)) by (rewrite Hm1; apply lookup_insert_eq).
    assert (Hother : forall k, k ≠ it -> filters s1 !! k = filters s !! k).
    { intros k Hk. rewrite Hm1. by apply lookup_insert_ne. }
    destruct ok1.
    + apply wp_bind. eapply wp_the_filter; [exact Hit1|].
      eapply wp_mono; [apply IH|].
      * exact Hnd.
      * intros k Hk. rewrite Hother by (intros ->; contradiction). apply Hall. by right.
      * destruct Hr1 as (-> & _). apply Hwf.
      * intros ok s' (Hf' & Hh' & Hsame & Hng & Hpost).
        split; [frame|]. split; [congruence|]. split.
        { intros k Hk. apply not_elem_of_cons in Hk. destruct Hk as [Hne Hk].
          rewrite Hsame by exact Hk. by apply Hother. }
        split.
        { cbn [no_growth]. intros (g & Hg & _ & Hrest). apply Hng.
          assert (g = f) as -> by congruence.
          destruct Hr1 as (-> & _).
          apply (no_growth_ext (filters s)); [|exact Hrest].
          intros k Hk. symmetry. apply Hother. intros ->. contradiction. }
        cbn [loop_post]. exists f, f1.
        split; [exact Hit|]. split; [rewrite Hsame by exact Hnotin; exact Hit1|].
        split; [by apply reconciled_stage_weaken|].
        destruct Hr1 as (Hin1 & _). rewrite <- Hin1.
        apply (loop_post_ext (filters s1)); [|exact Hpost].
        intros k Hk. apply Hother. intros ->. contradiction.
    + wp_steps. split; [exact Hf1|]. split; [exact Hh1|]. split.
      { intros k Hk. apply not_elem_of_cons in Hk. destruct Hk as [Hne Hk]. by apply Hother. }
      split.
      { cbn [no_growth]. intros (g & Hg & Hn & _). apply Hng1.
        assert (g = f) as -> by congruence. exact Hn. }
      cbn [loop_post]. exists f, f1.
      repeat (split; [assumption|]).
      apply loop_post_untouched. intros k Hk.
      destruct (Hall k ltac:(by right)) as (g & Hg & Hgwf).
      exists g. split; [exact Hg|]. split; [exact Hgwf|].
      rewrite Hother by (intros ->; contradiction). exact Hg.
Qed.


(** ** The pipeline order *)

Lemma NoDup_pipeline m : NoDup (pipeline m).
Proof.
  unfold pipeline. apply NoDup_filter.
  unfold all_filter_types. compute_done.
Qed.

Lemma NoDup_reverse_pipeline m : NoDup (reverse (pipeline m)).
Proof. rewrite reverse_Permutation. apply NoDup_pipeline. Qed.


Lemma loop_post_lookup m m' ok its needed last k :
  loop_post m m' ok its needed last -> k ∈ its ->
  exists f f' n l,
    m !! k = Some (Some f) /\ m' !! k = Some (Some f') /\ reconciled_stage l ok n f f'.
Proof.
  revert needed last. induction its as [|k0 rest IH]; intros needed last Hpost Hk.
  - by apply elem_of_nil in Hk.
  - cbn [loop_post] in Hpost. destruct Hpost as (f & f' & Hf & Hf' & Hr & Hrest).
    apply elem_of_cons in Hk. destruct Hk as [->|Hk].
    + exists f, f', needed, last. done.
    + eapply IH; eassumption.
Qed.

Lemma loop_post_wf m m' ok its needed last :
  loop_post m m' ok its needed last ->
  (forall k, k ∉ its -> m' !! k = m !! k) ->
  graph_wf m -> graph_wf m'.
Proof.
  intros Hpost Hsame Hwf k o Ho.
  destruct (decide (k ∈ its)) as [Hin|Hnotin].
  - destruct (loop_post_lookup _ _ _ _ _ _ _ Hpost Hin)
      as (f & f' & n & l & _ & Hf' & Hr).
    exists f'. split; [congruence|]. apply Hr.
  - rewrite Hsame in Ho by exact Hnotin. exact (Hwf k o Ho).
Qed.

Lemma loop_post_keys m m' ok its needed last :
  loop_post m m' ok its needed last ->
  (forall k, k ∉ its -> m' !! k = m !! k) ->
  forall k, is_Some (m' !! k) <-> is_Some (m !! k).
Proof.
  intros Hpost Hsame k.
  destruct (decide (k ∈ its)) as [Hin|Hnotin].
  - destruct (loop_post_lookup _ _ _ _ _ _ _ Hpost Hin)
      as (f & f' & n & l & Hf & Hf' & _).
    rewrite Hf, Hf'. split; eauto.
  - by rewrite Hsame.
Qed.

Lemma OptimiseFilters_spec (s : OpenGLVideo) :
  graph_wf (filters s) ->
  wp False OptimiseFilters
     (fun ok s' =>
        graph_frame s s' /\ helperTexture s' = helperTexture s /\
        (forall k, filters s !! k = None -> filters s' !! k = None) /\
        (no_growth (filters s) (reverse (pipeline (filters s))) 1 true -> ok = true) /\
        loop_post (filters s) (filters s') ok (reverse (pipeline (filters s))) 1 true) s.
Proof.
  intros Hwf. unfold OptimiseFilters. wp_steps.
  wp_use OptimiseFilters_loop_spec.
  - apply NoDup_reverse_pipeline.
  - intros k Hk. rewrite elem_of_reverse, elem_of_pipeline in Hk.
    destruct Hk as [o Ho]. destruct (Hwf k o Ho) as (f & -> & Hf). eauto.
  - lia.
  - intros ok s1 (Hf1 & Hh1 & Hsame & Hng & Hpost).
    assert (Hnone : forall k, filters s !! k = None -> filters s1 !! k = None).
    { intros k Hk. rewrite Hsame; [exact Hk|].
      rewrite elem_of_reverse, elem_of_pipeline, Hk. by intros [? ?]. }
    destruct ok.
    + wp_use SetFiltering_spec.
      * eapply loop_post_wf; eassumption.
      * intros _ s2 (Hf2 & Hm2 & Hh2). wp_steps.
        split; [frame|]. split; [congruence|]. rewrite Hm2. done.
    + wp_steps. done.
Qed.

(** ** The reconciliation invariant, as the specification words it *)

(** Every stage that has a downstream neighbour renders to a framebuffer
    object and holds as many (framebuffer, texture) pairs as the neighbour
    has inputs; the last stage renders to the default buffer. *)
Definition reconciled (m : gmap OpenGLFilterType (option OpenGLFilter)) : Prop :=
  forall i k f,
    pipeline m !! i = Some k -> m !! k = Some (Some f) ->
    match pipeline m !! S i with
    | Some k' =>
        exists g, m !! k' = Some (Some g) /\
                  outputBuffer f = kFrameBufferObject /\
                  count (frameBuffers f) = numInputs g /\
                  count (frameBufferTextures f) = numInputs g
    | None => outputBuffer f = kDefaultBuffer
    end.




(** ** Adding a stage *)

(** The size computation of [GetTextureSize] does not overflow. *)
Definition sizes_ok (s : OpenGLVideo) : Prop :=
  textureRects s = true \/
  (width (video_dim s) <= 2 ^ 30 /\ height (video_dim s) <= 2 ^ 30).

Lemma sizes_ok_frame s s' : graph_frame s s' -> sizes_ok s -> sizes_ok s'.
Proof.
  intros Hf. apply graph_frame_fields in Hf.
  unfold sizes_ok. destruct Hf as (-> & Hrest).
  assert (textureRects s' = textureRects s) as -> by tauto. done.
Qed.

Lemma select_deint_spec deint field s :
  wp False (select_deint deint field)
     (fun _ s' => graph_frame s s' /\ filters s' = filters s /\
                  helperTexture s' = helperTexture s /\ gl_context s' = gl_context s) s.
Proof.
  unfold select_deint.
  repeat (match goal with |- context [if ?c then _ else _] => destruct c end;
          [wp_steps; done|]).
  wp_steps. split; [frame|done].
Qed.

Lemma program_template_spec name deint field s :
  wp False (program_template name deint field)
     (fun _ s' => graph_frame s s' /\ filters s' = filters s /\
                  helperTexture s' = helperTexture s /\ gl_context s' = gl_context s) s.
Proof.
  unfold program_template. destruct name; try (wp_steps; done).
  wp_use select_deint_spec. intros [deint_bit need_tex] s' Hs'. wp_steps. exact Hs'.
Qed.

Lemma GetProgramString_spec name deint field s :
  sizes_ok s ->
  wp False (GetProgramString name deint field)
     (fun _ s' => graph_frame s s' /\ filters s' = filters s /\
                  helperTexture s' = helperTexture s /\ gl_context s' = gl_context s) s.
Proof.
  intros Hsz. unfold GetProgramString.
  wp_use program_template_spec. intros t s1 (Hf1 & Hm1 & Hh1 & Hc1).
  wp_steps.
  destruct (GetTextureSize_defined (video_dim s1) s1 (sizes_ok_frame _ _ Hf1 Hsz)) as [fb Hfb].
  eapply wp_intro; [exact Hfb|]. wp_steps. st_simpl.
  split; [frame|done].
Qed.

Lemma AddFragmentProgram_spec name deint field s :
  sizes_ok s ->
  wp False (AddFragmentProgram name deint field)
     (fun _ s' => graph_frame s s' /\ filters s' = filters s /\
                  helperTexture s' = helperTexture s) s.
Proof.
  intros Hsz. unfold AddFragmentProgram. wp_steps.
  destruct (negb _).
  - wp_steps. st_simpl. split; [frame|done].
  - wp_use GetProgramString_spec; [exact Hsz|].
    intros program s1 (Hf1 & Hm1 & Hh1 & Hc1). wp_steps.
    destruct (GL.CreateFragmentProgram program (gl_context s1)) as [[ok ret] c].
    cbn [fst snd]. destruct ok; wp_steps; st_simpl; (split; [frame|done]).
Qed.

Lemma graph_wf_insert m k f :
  graph_wf m -> stage_wf f -> graph_wf (<[k := Some f]> m).
Proof.
  intros Hwf Hf k' o. rewrite lookup_insert. case_decide as Hk.
  - intros [= <-]. eauto.
  - apply Hwf.
Qed.

Lemma graph_wf_delete m k : graph_wf m -> graph_wf (delete k m).
Proof.
  intros Hwf k' o. rewrite lookup_delete. case_decide as Hk; [done|]. apply Hwf.
Qed.

(** A stage as [AddFilter] builds it: one input, no buffer yet. *)
Definition fresh_stage (temp : OpenGLFilter) : Prop :=
  numInputs temp = 1 /\ frameBuffers temp = [] /\ frameBufferTextures temp = [] /\
  outputBuffer temp = kDefaultBuffer.

Lemma fresh_stage_wf temp : fresh_stage temp -> stage_wf temp.
Proof.
  intros (Hn & Hb & Ht & _). unfold stage_wf. rewrite Hn, Hb, Ht. simpl. lia.
Qed.

Lemma AddFilter_present filter s :
  is_Some (filters s !! filter) -> AddFilter filter s = Some (true, s).
Proof.
  intros Hk. unfold AddFilter, mbind, M_bind, filters_count, get.
  rewrite bool_decide_eq_true_2 by exact Hk. reflexivity.
Qed.

(** The outcomes of [AddFilter] for an absent stage type: given up before
    the stage is entered (nothing of the graph changes), or entered and
    reconciled, and taken out again when reconciliation fails. *)
Definition AddFilter_outcome (filter : OpenGLFilterType)
    (m : gmap OpenGLFilterType (option OpenGLFilter)) (b : bool)
    (m' : gmap OpenGLFilterType (option OpenGLFilter)) : Prop :=
  (b = false /\ m' = m) \/
  exists temp m2,
    fresh_stage temp /\
    let m1 := <[filter := Some temp]> m in
    loop_post m1 m2 b (reverse (pipeline m1)) 1 true /\
    (forall k, m1 !! k = None -> m2 !! k = None) /\
    (no_growth m1 (reverse (pipeline m1)) 1 true -> b = true) /\
    m' = if b then m2 else delete filter m2.

Lemma AddFilter_spec filter s :
  filters s !! filter = None -> graph_wf (filters s) -> sizes_ok s ->
  wp False (AddFilter filter)
     (fun b s' => graph_frame s s' /\ AddFilter_outcome filter (filters s) b (filters s')) s.
Proof.
  intros Habsent Hwf Hsz. unfold AddFilter. wp_steps.
  rewrite bool_decide_eq_false_2 by (rewrite Habsent; by intros [? ?]).
  wp_steps.
  destruct (_ && _ && _).
  { wp_steps. st_simpl. split; [frame|]. left. done. }
  destruct (_ && _).
  { wp_steps. st_simpl. split; [frame|]. left. done. }
  apply wp_bind.
  apply (wp_mono _ _ (fun _ s1 => graph_frame s s1 /\ filters s1 = filters s)).
  { destruct (_ && _); wp_steps; (split; [frame|done]). }
  intros _ s1 (Hf1 & Hm1). wp_steps.
  (* the helper texture of the bicubic stage *)
  apply (wp_mono _ _ (fun _ s2 => graph_frame s s2 /\ filters s2 = filters s)).
  { destruct (bool_decide (filter = kGLFilterBicubic)).
    - wp_steps. destruct (negb _); wp_steps.
      + destruct (GL.CreateHelperTexture _ _) as [h c]. cbn [fst snd]. wp_steps. st_simpl.
        split; [frame|done].
      + destruct (GL.CreateHelperTexture _ _) as [h c]. cbn [fst snd]. wp_steps. st_simpl.
        split; [frame|done].
    - wp_steps. st_simpl. split; [frame|done]. }
  intros success s2 (Hf2 & Hm2). st_simpl_in Hm2.
  (* the fragment program *)
  apply wp_bind.
  apply (wp_mono _ _ (fun r s3 => graph_frame s s3 /\ filters s3 = filters s /\
                                   fresh_stage r.2)).
  { destruct (_ && _ && _).
    - wp_use AddFragmentProgram_spec; [eapply sizes_ok_frame; [|exact Hsz]; frame|].
      intros program s3 (Hf3 & Hm3 & _).
      destruct (program =? 0); wp_steps; (split; [frame|]); (split; [congruence|]);
        cbn; done.
    - wp_steps. split; [frame|]. split; [done|]. cbn. done. }
  intros [success' temp] s3 (Hf3 & Hm3 & Htemp). cbn [snd] in Htemp.
  destruct success'.
  - (* entered in the map, then reconciled *)
    wp_steps. st_simpl.
    set (temp' := set_frameBufferTextures [] (set_frameBuffers [] (set_outputBuffer kDefaultBuffer temp))).
    assert (Htemp' : fresh_stage temp').
    { destruct Htemp as (Hn & _). unfold fresh_stage, temp'. st_simpl. done. }
    set (s4 := set_filters (<[filter := Some temp']> (filters s3)) s3).
    assert (Hm4 : filters s4 = <[filter := Some temp']> (filters s)).
    { unfold s4. st_simpl. by rewrite Hm3. }
    wp_use OptimiseFilters_spec.
    { rewrite Hm4. apply graph_wf_insert; [exact Hwf | by apply fresh_stage_wf]. }
    intros ok s5 (Hf5 & _ & Hnone & Hng & Hpost). rewrite Hm4 in Hnone, Hng, Hpost.
    wp_steps. cbn [andb negb]. destruct ok; cbn [negb].
    + wp_steps. split; [unfold s4 in Hf5; frame|].
      right. exists temp', (filters s5). done.
    + (* roll back *)
      assert (Hin : filter ∈ reverse (pipeline (<[filter := Some temp']> (filters s)))).
      { rewrite elem_of_reverse, elem_of_pipeline, lookup_insert_eq. eauto. }
      destruct (loop_post_lookup _ _ _ _ _ _ _ Hpost Hin) as (f & f' & n & l & _ & Hf' & _).
      wp_steps. eapply wp_intro; [apply (RemoveFilter_present _ _ _ Hf')|].
      wp_steps. st_simpl. split; [unfold s4 in Hf5; frame|].
      right. exists temp', (filters s5).
      split; [done|]. cbv zeta. repeat (split; [done|]).
      by rewrite delete_insert_eq.
  - (* nothing entered: RemoveFilter and erase find nothing *)
    wp_steps. cbn [negb]. wp_steps.
    eapply wp_intro; [apply RemoveFilter_absent; rewrite Hm3; exact Habsent|].
    wp_steps. st_simpl. split; [frame|]. left.
    split; [done|]. rewrite Hm3. apply delete_id. exact Habsent.
Qed.


(** ** Order of the pipeline *)

Definition rank_lt (k k' : OpenGLFilterType) : Prop :=
  (filter_rank k < filter_rank k')%nat.









(** ** The invariant of the graphs that [AddFilter] and [RemoveFilter] build *)

(** Every stage has one input, at most one buffer pair, and exactly one
    when a later stage exists. *)
Definition small_stage (f : OpenGLFilter) : Prop :=
  stage_wf f /\ numInputs f = 1 /\ count (frameBuffers f) <= 1.

Definition graph_inv (m : gmap OpenGLFilterType (option OpenGLFilter)) : Prop :=
  (forall k o, m !! k = Some o -> exists f, o = Some f /\ small_stage f) /\
  (forall k k' f, m !! k = Some (Some f) -> is_Some (m !! k') -> rank_lt k k' ->
                  count (frameBuffers f) = 1).



















(** ** Sequences of graph calls keep the invariant *)

Lemma RemoveFilter_erase_spec filter s :
  graph_wf (filters s) ->
  wp False (RemoveFilter filter;; filters_erase filter)
     (fun _ s' => graph_frame s s' /\ filters s' = delete filter (filters s)) s.
Proof.
  intros Hwf. destruct (filters s !! filter) as [[f|]|] eqn:Hk.
  - wp_steps. eapply wp_intro; [apply (RemoveFilter_present _ _ _ Hk)|].
    wp_steps. st_simpl. split; [frame|]. apply delete_insert_eq.
  - destruct (Hwf _ _ Hk) as (? & [=] & _).
  - wp_steps. eapply wp_intro; [apply (RemoveFilter_absent _ _ Hk)|].
    wp_steps. st_simpl. split; [frame|done].
Qed.






(** ** Adding a stage and removing it again *)



(** ** Runs in which no creation call fails *)

(** Nothing is scripted to fail in the context. *)
Definition calm (s : OpenGLVideo) : Prop := GL.failures (gl_context s) = [].

Definition feature_on (bit : Z) (s : OpenGLVideo) : Prop :=
  negb (Z.land (gl_features s) bit =? 0) = true.

(** Full feature support: framebuffer objects and fragment programs. *)
Definition full_features (s : OpenGLVideo) : Prop :=
  feature_on kGLExtFBufObj s /\ feature_on kGLExtFragProg s.

(** [calm] and the negotiated features carry over. *)
Definition still (s s' : OpenGLVideo) : Prop :=
  calm s' /\ gl_features s' = gl_features s.

Lemma max_name_nonneg l : 0 <= GL.max_name l.
Proof. induction l as [|x l IH]; simpl; lia. Qed.

Lemma fresh_name_pos {A} (m : gmap Z A) : 0 < GL.fresh_name m.
Proof. unfold GL.fresh_name. pose proof (max_name_nonneg (map_to_list m).*1). lia. Qed.

Lemma CreateTexture_calm size pbo type fmt c :
  GL.failures c = [] ->
  exists tex c',
    GL.CreateTexture size pbo type fmt c = (tex, c') /\ 0 < tex /\
    GL.failures c' = [] /\ is_Some (GL.textures c' !! tex).
Proof.
  intros Hc. unfold GL.CreateTexture, GL.next_outcome. rewrite Hc.
  eexists _, _. split; [reflexivity|]. split; [apply fresh_name_pos|].
  split; [exact Hc|]. gl_simpl. rewrite lookup_insert_eq. eauto.
Qed.

Lemma AddFrameBuffer_calm vid_size s :
  calm s -> feature_on kGLExtFBufObj s ->
  wp True (AddFrameBuffer vid_size) (fun r s' => still s s' /\ is_Some r) s.
Proof.
  intros Hc Hfbo. unfold AddFrameBuffer. wp_steps.
  unfold feature_on in Hfbo. rewrite Hfbo. cbn [negb]. wp_steps.
  destruct (CreateTexture_calm vid_size false (textureType s) GL.FmtDefault _ Hc)
    as (tex & c1 & -> & Hpos & Hc1 & [t Ht]).
  cbn [fst snd]. wp_steps. st_simpl.
  unfold GL.CreateFrameBuffer, GL.next_outcome. rewrite Ht, Hc1. cbn [fst snd].
  wp_steps. split; [|eauto]. split; [exact Hc1|reflexivity].
Qed.

Ltac still_here :=
  split; [first [assumption | unfold calm in *; st_simpl; assumption] | reflexivity].

Lemma still_refl s : calm s -> still s s.
Proof. intros Hc. split; [exact Hc|reflexivity]. Qed.

Lemma still_trans s1 s2 s3 : still s1 s2 -> still s2 s3 -> still s1 s3.
Proof. intros [_ E1] [Hc E2]. split; [exact Hc|congruence]. Qed.

Lemma feature_on_still bit s s' : still s s' -> feature_on bit s -> feature_on bit s'.
Proof. intros [_ E]. unfold feature_on. by rewrite E. Qed.

Lemma add_buffers_calm it rounds s :
  calm s -> feature_on kGLExtFBufObj s ->
  wp True (add_buffers it rounds) (fun ok s' => still s s' /\ ok = true) s.
Proof.
  revert s. induction rounds as [|n IH]; intros s Hc Hfbo; cbn [add_buffers].
  - wp_steps. split; [still_here|done].
  - wp_steps. wp_use AddFrameBuffer_calm; [exact Hc | exact Hfbo|].
    intros r s1 (Hs1 & [[tmp_buf tmp_tex] ->]).
    apply wp_bind. apply wp_update_filter_partial. intros f Hf.
    eapply wp_mono; [apply IH|].
    + apply Hs1.
    + eapply (feature_on_still _ s1); [split; [apply Hs1|reflexivity]|].
      by eapply feature_on_still.
    + intros ok s2 (Hs2 & ->). split; [|done].
      eapply still_trans; [exact Hs1|]. destruct Hs2 as [? E]. split; [done|exact E].
Qed.

Lemma remove_buffers_calm it rounds s :
  calm s -> wp True (remove_buffers it rounds) (fun _ s' => still s s') s.
Proof.
  revert s. induction rounds as [|n IH]; intros s Hc; cbn [remove_buffers].
  - wp_steps. still_here.
  - apply wp_bind. apply wp_the_filter_partial. intros f Hf.
    destruct (last (frameBuffers f)); [|apply wp_undefined_partial].
    destruct (last (frameBufferTextures f)); [|apply wp_undefined_partial].
    wp_steps. apply wp_update_filter_partial. intros f' Hf'.
    eapply wp_mono; [apply IH; exact Hc|].
    intros _ s2 [Hc2 E]. split; [exact Hc2|exact E].
Qed.

Lemma reconcile_stage_calm it needed last s :
  calm s -> feature_on kGLExtFBufObj s ->
  wp True (reconcile_stage it needed last) (fun ok s' => still s s' /\ ok = true) s.
Proof.
  intros Hc Hfbo. unfold reconcile_stage. destruct last; cbn [negb].
  - apply wp_bind. apply wp_update_filter_partial. intros f Hf. wp_steps.
    split; [still_here|done].
  - apply wp_bind. apply wp_update_filter_partial. intros f Hf.
    apply wp_bind. apply wp_the_filter_partial. intros f' Hf'. cbv zeta.
    destruct (0 <? _); [|destruct (_ <? 0)].
    + eapply wp_mono; [apply add_buffers_calm; [exact Hc|exact Hfbo]|].
      intros ok s' ([Hc' E] & ->). split; [split; [exact Hc'|exact E]|done].
    + apply wp_bind. eapply wp_mono; [apply remove_buffers_calm; exact Hc|].
      intros _ s' [Hc' E]. wp_steps. split; [split; [exact Hc'|exact E]|done].
    + wp_steps. split; [still_here|done].
Qed.

Lemma OptimiseFilters_loop_calm its needed last s :
  calm s -> feature_on kGLExtFBufObj s ->
  wp True (OptimiseFilters_loop its needed last) (fun ok s' => still s s' /\ ok = true) s.
Proof.
  revert needed last s. induction its as [|it rest IH]; intros needed last s Hc Hfbo.
  - cbn [OptimiseFilters_loop]. wp_steps. split; [still_here|done].
  - rewrite OptimiseFilters_loop_unfold.
    wp_use reconcile_stage_calm; [exact Hc | exact Hfbo|].
    intros ok s1 (Hs1 & ->).
    apply wp_bind. apply wp_the_filter_partial. intros f Hf.
    eapply wp_mono; [apply IH; [apply Hs1 | by eapply feature_on_still]|].
    intros ok s2 (Hs2 & ->). split; [cbv beta in *; eapply still_trans; eassumption|done].
Qed.

Lemma SetTextureFilters_calm l filt wrap s :
  calm s -> wp True (SetTextureFilters l filt wrap) (fun _ s' => still s s') s.
Proof.
  revert s. induction l as [|t l IH]; intros s Hc; cbn [SetTextureFilters].
  - wp_steps. still_here.
  - wp_steps. eapply wp_mono; [apply IH; exact Hc|].
    intros _ s' [Hc' E]. split; [exact Hc'|exact E].
Qed.

Lemma SetFiltering_loop_calm rits n s :
  calm s -> wp True (SetFiltering_loop rits n) (fun _ s' => still s s') s.
Proof.
  revert n s. induction rits as [|k rits IH]; intros n s Hc; cbn [SetFiltering_loop].
  - wp_steps. still_here.
  - apply wp_bind.
    apply (wp_mono _ _ (fun _ s' => still s s')).
    + destruct (n =? 1); [|destruct (1 <? n)].
      * apply wp_bind. apply wp_the_filter_partial. intros f Hf.
        by apply SetTextureFilters_calm.
      * apply wp_bind. apply wp_the_filter_partial. intros f Hf.
        by apply SetTextureFilters_calm.
      * wp_steps. still_here.
    + intros ? s1 Hs1. eapply wp_mono; [apply IH; apply Hs1|].
      intros ? s2 Hs2. cbv beta in *; eapply still_trans; eassumption.
Qed.

Lemma SetFiltering_calm s :
  calm s -> wp True SetFiltering (fun _ s' => still s s') s.
Proof.
  intros Hc. unfold SetFiltering. wp_steps. destruct (_ || _).
  - by apply SetTextureFilters_calm.
  - wp_use SetTextureFilters_calm; [exact Hc|]. intros ? s1 Hs1. wp_steps.
    eapply wp_mono; [apply SetFiltering_loop_calm; apply Hs1|].
    intros ? s2 Hs2. cbv beta in *; eapply still_trans; eassumption.
Qed.

Lemma OptimiseFilters_calm s :
  calm s -> feature_on kGLExtFBufObj s ->
  wp True OptimiseFilters (fun ok s' => still s s' /\ ok = true) s.
Proof.
  intros Hc Hfbo. unfold OptimiseFilters. wp_steps.
  wp_use OptimiseFilters_loop_calm; [exact Hc | exact Hfbo|].
  intros ok s1 (Hs1 & ->).
  wp_use SetFiltering_calm; [apply Hs1|]. intros ? s2 Hs2. wp_steps.
  split; [cbv beta in *; eapply still_trans; eassumption|done].
Qed.

Lemma GetTextureSize_partial size s :
  wp True (GetTextureSize size) (fun _ s' => s' = s) s.
Proof.
  unfold GetTextureSize. wp_steps. destruct (textureRects s); [wp_steps; done|].
  destruct (double_until 32 64 (width size)), (double_until 32 64 (height size));
    try apply wp_undefined_partial.
  wp_steps. done.
Qed.

Lemma GetProgramString_partial name deint field s :
  wp True (GetProgramString name deint field)
     (fun _ s' => gl_context s' = gl_context s /\ gl_features s' = gl_features s) s.
Proof.
  unfold GetProgramString. apply wp_bind.
  eapply wp_mono; [apply wp_partial, program_template_spec|].
  intros t s1 (Hf1 & _ & _ & Hc1). wp_steps.
  eapply wp_mono; [apply GetTextureSize_partial|]. intros fb ? ->.
  wp_steps. st_simpl. split; [exact Hc1|]. apply graph_frame_fields in Hf1. tauto.
Qed.

Lemma AddFragmentProgram_calm name deint field s :
  calm s -> feature_on kGLExtFragProg s ->
  wp True (AddFragmentProgram name deint field)
     (fun p s' => still s s' /\ (p =? 0) = false) s.
Proof.
  intros Hc Hfrag. unfold AddFragmentProgram. wp_steps.
  unfold feature_on in Hfrag. rewrite Hfrag. cbn [negb].
  wp_use GetProgramString_partial. intros program s1 (Hctx & Hfeat).
  wp_steps. rewrite Hctx. unfold GL.CreateFragmentProgram, GL.next_outcome.
  unfold calm in Hc. rewrite Hc. cbn [fst snd]. wp_steps. st_simpl.
  split; [split; [exact Hc|exact Hfeat]|].
  apply Z.eqb_neq. pose proof (fresh_name_pos (GL.programs (gl_context s))). lia.
Qed.







Lemma AddFilter_calm filter s :
  calm s -> full_features s -> filters s !! filter = None ->
  wp True (AddFilter filter) (fun b s' => still s s' /\ b = true) s.
Proof.
  intros Hc [Hfbo Hfrag] Habsent. unfold AddFilter. wp_steps.
  rewrite bool_decide_eq_false_2 by (rewrite Habsent; by intros [? ?]).
  wp_steps.
  pose proof Hfbo as Hfbo'. pose proof Hfrag as Hfrag'.
  unfold feature_on in Hfbo', Hfrag'. rewrite Hfbo', Hfrag'. cbn [negb andb].
  wp_steps.
  (* the helper texture *)
  apply (wp_mono _ _ (fun success s2 => still s s2 /\ success = true)).
  { destruct (bool_decide (filter = kGLFilterBicubic)).
    - wp_steps.
      apply (wp_mono _ _ (fun _ s1 => still s s1)).
      { match goal with |- context [if ?c then _ else _] => destruct c end;
          wp_steps; still_here. }
      intros ? s1 Hs1. cbv beta in Hs1. wp_steps.
      destruct (CreateTexture_calm (mkQSize 256 1) false (textureType s1) GL.FmtHelper
                  (gl_context s1) (proj1 Hs1)) as (h & c & Hh & Hpos & Hcc & _).
      unfold GL.CreateHelperTexture. rewrite Hh. cbn [fst snd]. wp_steps. st_simpl.
      split; [split; [exact Hcc|apply Hs1]|].
      apply negb_true_iff, Z.eqb_neq. lia.
    - wp_steps. split; [still_here|done]. }
  intros success s2 (Hs2 & ->). cbn [andb].
  (* the fragment program *)
  apply wp_bind.
  apply (wp_mono _ _ (fun r s3 => still s s3 /\ r.1 = true)).
  { destruct (_ && _).
    - wp_use AddFragmentProgram_calm; [apply Hs2 | by eapply feature_on_still|].
      intros program s3 (Hs3 & ->). wp_steps.
      split; [cbv beta in *; eapply still_trans; eassumption|done].
    - wp_steps. done. }
  intros [success temp] s3 (Hs3 & Hsucc). cbn [fst] in Hsucc. subst success.
  wp_steps.
  wp_use OptimiseFilters_calm.
  { unfold calm. st_simpl. apply Hs3. }
  { unfold feature_on. st_simpl. destruct Hs3 as [_ ->]. exact Hfbo. }
  intros ok s4 ([Hc4 E4] & ->). wp_steps. cbn [andb negb]. wp_steps.
  split; [|done]. split; [exact Hc4|]. st_simpl_in E4. destruct Hs3 as [_ E3]. congruence.
Qed.

(** ** Which stages a graph has *)

Lemma AddFilter_outcome_keys filter m b m' :
  m !! filter = None -> graph_wf m -> AddFilter_outcome filter m b m' ->
  graph_wf m' /\
  (forall k, k ≠ filter -> (is_Some (m' !! k) <-> is_Some (m !! k))) /\
  (is_Some (m' !! filter) <-> b = true).
Proof.
  intros Habsent Hwf [[-> ->]|(temp & m2 & Htemp & Hpost & Hnone & _ & ->)].
  { split; [exact Hwf|]. split; [done|]. rewrite Habsent. split; [by intros [? ?]|done]. }
  cbv zeta in Hpost, Hnone.
  assert (Hsame : forall k, k ∉ reverse (pipeline (<[filter := Some temp]> m)) ->
            m2 !! k = <[filter := Some temp]> m !! k).
  { intros k Hk. rewrite elem_of_reverse, elem_of_pipeline in Hk.
    destruct (<[filter := Some temp]> m !! k) eqn:E; [exfalso; apply Hk; eauto|].
    by apply Hnone. }
  pose proof (loop_post_keys _ _ _ _ _ _ Hpost Hsame) as Hkeys.
  assert (Hwf2 : graph_wf m2).
  { eapply loop_post_wf; [exact Hpost | exact Hsame|].
    apply graph_wf_insert; [exact Hwf | by apply fresh_stage_wf]. }
  destruct b.
  - split; [exact Hwf2|]. split.
    + intros k Hk. rewrite Hkeys. by rewrite lookup_insert_ne.
    + rewrite Hkeys, lookup_insert_eq. split; [done|eauto].
  - split; [by apply graph_wf_delete|]. split.
    + intros k Hk. rewrite lookup_delete_ne by done. rewrite Hkeys.
      by rewrite lookup_insert_ne.
    + rewrite lookup_delete_eq. split; [by intros [? ?]|done].
Qed.

(** [AddFilter] as [CheckResize] uses it: the stage is there afterwards if
    it was there before or if nothing fails. *)
Lemma AddFilter_ensures filter s :
  graph_wf (filters s) -> sizes_ok s ->
  wp False (AddFilter filter)
     (fun _ s' =>
        graph_frame s s' /\ graph_wf (filters s') /\
        (forall k, k ≠ filter -> (is_Some (filters s' !! k) <-> is_Some (filters s !! k))) /\
        (is_Some (filters s !! filter) \/ (calm s /\ full_features s) ->
         is_Some (filters s' !! filter))) s.
Proof.
  intros Hwf Hsz. destruct (filters s !! filter) as [o|] eqn:Hk.
  - eapply wp_intro; [apply AddFilter_present; rewrite Hk; eauto|].
    split; [frame|]. split; [exact Hwf|]. split; [done|]. rewrite Hk. eauto.
  - pose proof (AddFilter_spec filter s Hk Hwf Hsz) as Htotal.
    unfold wp in Htotal |- *.
    destruct (AddFilter filter s) as [[b s']|] eqn:Hrun; [|done].
    destruct Htotal as (Hf & Hout).
    destruct (AddFilter_outcome_keys _ _ _ _ Hk Hwf Hout) as (Hwf' & Hkeys & Hnew).
    split; [exact Hf|]. split; [exact Hwf'|]. split; [exact Hkeys|].
    intros [[? ?]|[Hc Hfull]]; [done|].
    pose proof (AddFilter_calm filter s Hc Hfull Hk) as Hcalm.
    unfold wp in Hcalm. rewrite Hrun in Hcalm. destruct Hcalm as [_ ->]. by apply Hnew.
Qed.



(** ** Textures that the stage graph does not own

    A live texture that is neither the helper texture nor an intermediate
    texture of a stage keeps its content through every stage-graph call. *)

Definition content_of (h : GLuint) (c : GL.Context) : option (option (GL.Packing * Z)) :=
  GL.tex_content <$> (GL.textures c !! h).

Definition live_with (h : GLuint) (d : option (GL.Packing * Z)) (c : GL.Context) : Prop :=
  0 < h /\ content_of h c = Some d.

Definition unowned (h : GLuint) (s : OpenGLVideo) : Prop :=
  h ≠ helperTexture s /\
  forall k f, filters s !! k = Some (Some f) -> h ∉ frameBufferTextures f.

Definition kept (h : GLuint) (d : option (GL.Packing * Z)) (s : OpenGLVideo) : Prop :=
  live_with h d (gl_context s) /\ unowned h s.

(** The result of a graph call run from [s]. *)
Definition keeps (s s' : OpenGLVideo) : Prop :=
  graph_frame s s' /\ forall h d, kept h d s -> kept h d s'.

Lemma keeps_refl s : keeps s s.
Proof. split; [apply graph_frame_refl|auto]. Qed.

Lemma keeps_trans s1 s2 s3 : keeps s1 s2 -> keeps s2 s3 -> keeps s1 s3.
Proof.
  intros [Hf1 Hk1] [Hf2 Hk2]. split; [by eapply graph_frame_trans|auto].
Qed.

Lemma max_name_ge l k : k ∈ l -> k <= GL.max_name l.
Proof.
  induction l as [|x l IH]; intros Hk; [by apply elem_of_nil in Hk|].
  apply elem_of_cons in Hk. cbn [GL.max_name foldr]. fold (GL.max_name l).
  destruct Hk as [->|Hk]; [lia|]. specialize (IH Hk). lia.
Qed.

Lemma fresh_name_fresh {A} (m : gmap Z A) : m !! GL.fresh_name m = None.
Proof.
  destruct (m !! GL.fresh_name m) as [v|] eqn:E; [|done].
  exfalso. apply elem_of_map_to_list in E.
  assert (Hin : GL.fresh_name m ∈ (map_to_list m).*1).
  { apply list_elem_of_fmap. exists (GL.fresh_name m, v). done. }
  apply max_name_ge in Hin. unfold GL.fresh_name in Hin at 1. lia.
Qed.

Lemma CreateTexture_keeps size pbo type fmt c tex c' h d :
  GL.CreateTexture size pbo type fmt c = (tex, c') ->
  live_with h d c -> live_with h d c' /\ tex ≠ h.
Proof.
  unfold GL.CreateTexture, live_with, content_of. intros Hrun [Hpos Hc].
  destruct (GL.next_outcome c) as [fails c1] eqn:Hout.
  assert (Ht : GL.textures c1 = GL.textures c).
  { unfold GL.next_outcome in Hout. destruct (GL.failures c); injection Hout as _ <-; done. }
  destruct fails; injection Hrun as <- <-.
  - rewrite Ht. split; [done|lia].
  - gl_simpl. rewrite Ht.
    assert (Hne : GL.fresh_name (GL.textures c) ≠ h).
    { intros <-. rewrite fresh_name_fresh in Hc. discriminate. }
    rewrite lookup_insert_ne by done. done.
Qed.

Lemma CreateFrameBuffer_textures tex c :
  GL.textures (GL.CreateFrameBuffer tex c).2 = GL.textures c.
Proof.
  unfold GL.CreateFrameBuffer, GL.next_outcome.
  destruct (GL.textures c !! tex); [|done].
  destruct (GL.failures c) as [|[] l]; done.
Qed.

Lemma DeleteTexture_keeps t c h d :
  t ≠ h -> live_with h d c -> live_with h d (GL.DeleteTexture t c).
Proof.
  unfold live_with, content_of. intros Hne [Hpos Hc]. split; [done|].
  cbn [GL.DeleteTexture GL.textures GL.set_textures]. by rewrite lookup_delete_ne.
Qed.

Lemma SetTextureFilters_keeps_gl t filt wrap c h d :
  live_with h d c -> live_with h d (GL.SetTextureFilters t filt wrap c).
Proof.
  unfold live_with, content_of. intros [Hpos Hc]. split; [done|].
  cbn [GL.SetTextureFilters GL.textures GL.set_textures].
  rewrite lookup_alter. case_decide as Ht; [|done]. subst t.
  destruct (GL.textures c !! h); [|done]. done.
Qed.

Ltac unowned_here :=
  match goal with
  | Hu : unowned _ _ |- unowned _ _ =>
      destruct Hu as [? ?]; split; st_simpl; assumption
  end.

Lemma AddFrameBuffer_keeps vid_size s :
  wp True (AddFrameBuffer vid_size)
     (fun r s' =>
        graph_frame s s' /\ filters s' = filters s /\ helperTexture s' = helperTexture s /\
        forall h d, live_with h d (gl_context s) ->
                    live_with h d (gl_context s') /\
                    forall fb tex, r = Some (fb, tex) -> tex ≠ h) s.
Proof.
  unfold AddFrameBuffer. wp_steps. destruct (negb _).
  - wp_steps. st_simpl. split; [frame|]. split; [done|]. split; [done|].
    intros h d Hl. split; [done|discriminate].
  - wp_steps.
    destruct (GL.CreateTexture _ _ _ _ _) as [tex c1] eqn:Hct. cbn [fst snd].
    wp_steps. st_simpl.
    pose proof (CreateFrameBuffer_textures tex c1) as Hfbt.
    destruct (GL.CreateFrameBuffer tex c1) as [[ok fb] c2]. cbn [fst snd] in *.
    destruct ok; wp_steps; st_simpl; (split; [frame|]); (split; [done|]); (split; [done|]);
      intros h d Hl; destruct (CreateTexture_keeps _ _ _ _ _ _ _ _ _ Hct Hl) as [Hl1 Hne].
    + split; [|intros ? ? [= _ <-]; exact Hne].
      unfold live_with, content_of in *. by rewrite Hfbt.
    + split; [|discriminate]. apply DeleteTexture_keeps; [exact Hne|].
      unfold live_with, content_of in *. by rewrite Hfbt.
Qed.

Lemma unowned_update it f f' h s :
  filters s !! it = Some (Some f) ->
  (h ∉ frameBufferTextures f -> h ∉ frameBufferTextures f') ->
  unowned h s -> unowned h (set_filters (<[it := Some f']> (filters s)) s).
Proof.
  intros Hit Hg [Hh Hs]. split; [exact Hh|]. st_simpl.
  intros k f''. rewrite lookup_insert. case_decide as Hk.
  - subst k. intros [= <-]. apply Hg. by eapply Hs.
  - apply Hs.
Qed.

Lemma add_buffers_keeps it rounds s :
  wp True (add_buffers it rounds) (fun _ s' => keeps s s') s.
Proof.
  revert s. induction rounds as [|n IH]; intros s; cbn [add_buffers].
  - wp_steps. apply keeps_refl.
  - wp_steps. wp_use AddFrameBuffer_keeps. intros r s1 (Hf1 & Hm1 & Hh1 & Hl1).
    destruct r as [[tmp_buf tmp_tex]|]; [|wp_steps].
    + apply wp_bind. apply wp_update_filter_partial. intros f Hf.
      eapply wp_mono; [apply IH|]. intros ? s2 Hk2. cbv beta in Hk2.
      eapply keeps_trans; [|exact Hk2]. split; [frame|].
      intros h d [Hl Hu]. destruct (Hl1 h d Hl) as [Hl' Hne]. split; [exact Hl'|].
      eapply unowned_update; [exact Hf| |].
      * st_simpl. intros Hnotin. rewrite not_elem_of_app. split; [exact Hnotin|].
        rewrite list_elem_of_singleton. intros ->. by apply (Hne tmp_buf tmp_tex).
      * destruct Hu as [Hu1 Hu2]. split; [congruence|]. by rewrite Hm1.
    + split; [exact Hf1|]. intros h d [Hl Hu]. destruct (Hl1 h d Hl) as [Hl' _].
      split; [exact Hl'|]. destruct Hu as [Hu1 Hu2]. split; [congruence|]. by rewrite Hm1.
Qed.

Lemma elem_of_removelast (l : list GLuint) x : x ∈ removelast l -> x ∈ l.
Proof.
  rewrite removelast_take. intros Hx. by eapply (subseteq_take _ _ x).
Qed.

Lemma remove_buffers_keeps it rounds s :
  wp True (remove_buffers it rounds) (fun _ s' => keeps s s') s.
Proof.
  revert s. induction rounds as [|n IH]; intros s; cbn [remove_buffers].
  - wp_steps. apply keeps_refl.
  - apply wp_bind. apply wp_the_filter_partial. intros f Hf.
    destruct (last (frameBuffers f)) as [fb|]; [|apply wp_undefined_partial].
    destruct (last (frameBufferTextures f)) as [tex|] eqn:Hlast; [|apply wp_undefined_partial].
    wp_steps. apply wp_update_filter_partial. intros f' Hf'. st_simpl_in Hf'.
    assert (f' = f) as -> by congruence.
    eapply wp_mono; [apply IH|]. intros ? s2 Hk2. cbv beta in Hk2.
    eapply keeps_trans; [|exact Hk2]. split; [frame|].
    intros h d [Hl Hu]. split.
    + st_simpl. apply DeleteTexture_keeps.
      * intros ->. destruct Hu as [_ Hu]. apply (Hu _ _ Hf).
        apply last_Some_elem_of. exact Hlast.
      * st_simpl. exact Hl.
    + apply (unowned_update it f _ h
               (set_gl_context _ (set_gl_context _ s))); [exact Hf| |unowned_here].
      st_simpl. intros Hnotin Hin. apply Hnotin. by apply elem_of_removelast.
Qed.

Lemma reconcile_stage_keeps it needed last s :
  wp True (reconcile_stage it needed last) (fun _ s' => keeps s s') s.
Proof.
  assert (Hout : forall o f, filters s !! it = Some (Some f) ->
            keeps s (set_filters (<[it := Some (set_outputBuffer o f)]> (filters s)) s)).
  { intros o f Hf. split; [frame|]. intros h d [Hl Hu]. split; [exact Hl|].
    eapply unowned_update; [exact Hf|done|exact Hu]. }
  unfold reconcile_stage. destruct last; cbn [negb].
  - apply wp_bind. apply wp_update_filter_partial. intros f Hf. wp_steps. by apply Hout.
  - apply wp_bind. apply wp_update_filter_partial. intros f Hf.
    apply wp_bind. apply wp_the_filter_partial. intros f' Hf'. cbv zeta.
    destruct (0 <? _); [|destruct (_ <? 0)].
    + eapply wp_mono; [apply add_buffers_keeps|]. intros ? s' Hk. cbv beta in Hk.
      eapply keeps_trans; [by apply Hout|exact Hk].
    + apply wp_bind. eapply wp_mono; [apply remove_buffers_keeps|].
      intros ? s' Hk. cbv beta in Hk. wp_steps.
      eapply keeps_trans; [by apply Hout|exact Hk].
    + wp_steps. by apply Hout.
Qed.

Lemma OptimiseFilters_loop_keeps its needed last s :
  wp True (OptimiseFilters_loop its needed last) (fun _ s' => keeps s s') s.
Proof.
  revert needed last s. induction its as [|it rest IH]; intros needed last s.
  - cbn [OptimiseFilters_loop]. wp_steps. apply keeps_refl.
  - rewrite OptimiseFilters_loop_unfold.
    wp_use reconcile_stage_keeps. intros ok s1 Hk1.
    destruct ok; [|wp_steps; exact Hk1].
    apply wp_bind. apply wp_the_filter_partial. intros f Hf.
    eapply wp_mono; [apply IH|]. intros ? s2 Hk2. cbv beta in Hk2.
    eapply keeps_trans; eassumption.
Qed.

Lemma SetTextureFilters_keeps l filt wrap s :
  wp True (SetTextureFilters l filt wrap) (fun _ s' => keeps s s') s.
Proof.
  revert s. induction l as [|t l IH]; intros s; cbn [SetTextureFilters].
  - wp_steps. apply keeps_refl.
  - wp_steps. eapply wp_mono; [apply IH|]. intros ? s2 Hk2. cbv beta in Hk2.
    eapply keeps_trans; [|exact Hk2]. split; [frame|].
    intros h d [Hl Hu]. split; [|unowned_here].
    st_simpl. by apply SetTextureFilters_keeps_gl.
Qed.

Lemma SetFiltering_loop_keeps rits n s :
  wp True (SetFiltering_loop rits n) (fun _ s' => keeps s s') s.
Proof.
  revert n s. induction rits as [|k rits IH]; intros n s; cbn [SetFiltering_loop].
  - wp_steps. apply keeps_refl.
  - apply wp_bind.
    apply (wp_mono _ _ (fun _ s' => keeps s s')).
    + destruct (n =? 1); [|destruct (1 <? n)].
      * apply wp_bind. apply wp_the_filter_partial. intros f Hf.
        apply SetTextureFilters_keeps.
      * apply wp_bind. apply wp_the_filter_partial. intros f Hf.
        apply SetTextureFilters_keeps.
      * wp_steps. apply keeps_refl.
    + intros ? s1 Hk1. eapply wp_mono; [apply IH|].
      intros ? s2 Hk2. cbv beta in *. eapply keeps_trans; eassumption.
Qed.

Lemma SetFiltering_keeps s : wp True SetFiltering (fun _ s' => keeps s s') s.
Proof.
  unfold SetFiltering. wp_steps. destruct (_ || _).
  - apply SetTextureFilters_keeps.
  - wp_use SetTextureFilters_keeps. intros ? s1 Hk1. wp_steps.
    eapply wp_mono; [apply SetFiltering_loop_keeps|].
    intros ? s2 Hk2. cbv beta in *. eapply keeps_trans; eassumption.
Qed.

Lemma OptimiseFilters_keeps s : wp True OptimiseFilters (fun _ s' => keeps s s') s.
Proof.
  unfold OptimiseFilters. wp_steps.
  wp_use OptimiseFilters_loop_keeps. intros ok s1 Hk1.
  destruct ok; [|wp_steps; exact Hk1].
  wp_use SetFiltering_keeps. intros ? s2 Hk2. wp_steps.
  cbv beta in *. eapply keeps_trans; eassumption.
Qed.


Lemma content_of_programs p c h :
  content_of h (GL.set_programs p c) = content_of h c.
Proof. reflexivity. Qed.

Lemma GetProgramString_keeps name deint field s :
  wp True (GetProgramString name deint field)
     (fun _ s' => keeps s s' /\ gl_context s' = gl_context s /\ filters s' = filters s /\
                  helperTexture s' = helperTexture s) s.
Proof.
  unfold GetProgramString. apply wp_bind.
  eapply wp_mono; [apply wp_partial, program_template_spec|].
  intros t s1 (Hf1 & Hm1 & Hh1 & Hc1). wp_steps.
  eapply wp_mono; [apply GetTextureSize_partial|]. intros fb ? ->.
  wp_steps. split; [|st_simpl; done]. split; [frame|].
  intros h d [Hl [Hu1 Hu2]]. split; [st_simpl; by rewrite Hc1|].
  split; st_simpl; [congruence|by rewrite Hm1].
Qed.

Lemma AddFragmentProgram_keeps name deint field s :
  wp True (AddFragmentProgram name deint field)
     (fun _ s' => keeps s s' /\ filters s' = filters s /\
                  helperTexture s' = helperTexture s /\
                  GL.textures (gl_context s') = GL.textures (gl_context s)) s.
Proof.
  unfold AddFragmentProgram. wp_steps. destruct (negb _).
  - wp_steps. st_simpl. split; [|done]. split; [frame|]. intros h d [Hl Hu].
    split; [exact Hl|unowned_here].
  - wp_use GetProgramString_keeps. intros program s1 (Hk1 & Hc1 & Hm1 & Hh1). wp_steps.
    assert (Ht : GL.textures (GL.CreateFragmentProgram program (gl_context s1)).2 =
                 GL.textures (gl_context s)).
    { rewrite Hc1. unfold GL.CreateFragmentProgram, GL.next_outcome.
      destruct (GL.failures (gl_context s)) as [|[] l]; reflexivity. }
    destruct (GL.CreateFragmentProgram program (gl_context s1)) as [[ok ret] c].
    cbn [fst snd] in *.
    assert (Hall : keeps s (set_gl_context c s1) /\
                   filters (set_gl_context c s1) = filters s /\
                   helperTexture (set_gl_context c s1) = helperTexture s /\
                   GL.textures (gl_context (set_gl_context c s1)) = GL.textures (gl_context s)).
    { st_simpl. split; [|done]. destruct Hk1 as [Hf1 _]. split; [frame|].
      intros h d [Hl Hu]. split.
      - st_simpl. unfold live_with, content_of in *. by rewrite Ht.
      - destruct Hu as [Hu1 Hu2]. split; st_simpl; [congruence|]. by rewrite Hm1. }
    destruct ok; wp_steps; exact Hall.
Qed.

Lemma delete_textures_content l c h :
  h ∉ l -> content_of h (delete_textures l c) = content_of h c.
Proof.
  intros Hh. unfold content_of. rewrite delete_textures_lookup.
  by rewrite bool_decide_eq_false_2.
Qed.

Lemma release_stage_content f c h :
  h ∉ frameBufferTextures f -> content_of h (release_stage f c) = content_of h c.
Proof.
  intros Hh. unfold release_stage. rewrite delete_textures_content by exact Hh.
  unfold content_of.
  destruct (delete_framebuffers_other (frameBuffers f)
              (delete_programs (fragmentPrograms f) c)) as [-> _].
  destruct (delete_programs_other (fragmentPrograms f) c) as [-> _]. done.
Qed.

Lemma unowned_delete k h s :
  unowned h s -> unowned h (set_filters (delete k (filters s)) s).
Proof.
  intros [Hu1 Hu2]. split; [exact Hu1|]. st_simpl. intros k' f.
  rewrite lookup_delete. case_decide; [done|]. apply Hu2.
Qed.

Lemma RemoveFilter_erase_keeps filter s :
  wp True (RemoveFilter filter;; filters_erase filter) (fun _ s' => keeps s s') s.
Proof.
  destruct (filters s !! filter) as [[f|]|] eqn:Hk.
  - wp_steps. eapply wp_intro; [apply (RemoveFilter_present _ _ _ Hk)|].
    wp_steps. split; [frame|]. intros h d [[Hpos Hl] Hu]. split.
    + st_simpl. split; [exact Hpos|]. rewrite release_stage_content; [exact Hl|].
      destruct Hu as [_ Hu]. by eapply Hu.
    + st_simpl. rewrite delete_insert_eq.
      apply (unowned_delete filter h
               (set_gl_context _ (set_verbose_log _ s))). unowned_here.
  - unfold wp, mbind, M_bind. by rewrite (RemoveFilter_null _ _ Hk).
  - wp_steps. eapply wp_intro; [apply (RemoveFilter_absent _ _ Hk)|].
    wp_steps. split; [frame|]. intros h d [Hl Hu]. split; [exact Hl|].
    by apply unowned_delete.
Qed.

Lemma unowned_insert_fresh k temp h s :
  frameBufferTextures temp = [] ->
  unowned h s -> unowned h (set_filters (<[k := Some temp]> (filters s)) s).
Proof.
  intros Ht [Hu1 Hu2]. split; [exact Hu1|]. st_simpl. intros k' f.
  rewrite lookup_insert. case_decide.
  - intros [= <-]. rewrite Ht. apply not_elem_of_nil.
  - apply Hu2.
Qed.

Lemma AddFilter_keeps filter s :
  wp True (AddFilter filter) (fun _ s' => keeps s s') s.
Proof.
  unfold AddFilter. wp_steps.
  destruct (bool_decide _); [wp_steps; apply keeps_refl|].
  wp_steps.
  assert (Hlog : forall l, keeps s (set_verbose_log l s)).
  { intros l. split; [frame|]. intros h d [Hl Hu]. split; [exact Hl|unowned_here]. }
  destruct (_ && _ && _); [wp_steps; apply Hlog|].
  destruct (_ && _); [wp_steps; apply Hlog|].
  apply wp_bind.
  apply (wp_mono _ _ (fun _ s1 => keeps s s1)).
  { destruct (_ && _); wp_steps; [apply Hlog|apply keeps_refl]. }
  intros ? s1 Hk1. cbv beta in Hk1. wp_steps.
  (* the helper texture *)
  apply (wp_mono _ _ (fun _ s2 => keeps s s2)).
  { assert (Hlog1 : forall l, keeps s (set_verbose_log l s1)).
    { intros l. eapply keeps_trans; [exact Hk1|]. split; [frame|].
      intros h d [Hl Hu]. split; [exact Hl|unowned_here]. }
    destruct (bool_decide (filter = kGLFilterBicubic)); [|wp_steps; apply Hlog1].
    wp_steps.
    apply (wp_mono _ _ (fun _ s2 => keeps s s2)).
    { match goal with |- context [if ?c then _ else _] => destruct c end;
        wp_steps; [|apply Hlog1].
      eapply keeps_trans; [exact Hk1|]. split; [frame|].
      intros h d [Hl Hu]. split; [|unowned_here]. st_simpl.
      apply DeleteTexture_keeps; [|exact Hl]. destruct Hu as [Hu _]. st_simpl_in Hu. congruence. }
    intros ? s2 Hk2. cbv beta in Hk2. wp_steps.
    unfold GL.CreateHelperTexture.
    destruct (GL.CreateTexture _ _ _ _ _) as [helper c] eqn:Hct. cbn [fst snd].
    wp_steps. st_simpl. eapply keeps_trans; [exact Hk2|]. split; [frame|].
    intros h d [Hl Hu]. destruct (CreateTexture_keeps _ _ _ _ _ _ _ _ _ Hct Hl) as [Hl' Hne].
    split; [exact Hl'|]. destruct Hu as [_ Hu]. split; st_simpl; [congruence|exact Hu]. }
  intros success s2 Hk2. cbv beta in Hk2.
  (* the fragment program *)
  apply wp_bind.
  apply (wp_mono _ _ (fun r s3 => keeps s s3 /\ frameBufferTextures r.2 = [] \/
                                   keeps s s3 /\ r.1 = false)).
  { destruct (_ && _ && _).
    - wp_use AddFragmentProgram_keeps. intros program s3 (Hk3 & _).
      destruct (program =? 0); wp_steps.
      + right. split; [eapply keeps_trans; eassumption|done].
      + left. split; [eapply keeps_trans; eassumption|done].
    - wp_steps. left. done. }
  intros [success' temp] s3 Hcases. cbn [fst snd] in Hcases.
  assert (Hk3 : keeps s s3) by (destruct Hcases as [[? _]|[? _]]; assumption).
  destruct success'.
  - wp_steps. st_simpl.
    wp_use OptimiseFilters_keeps. intros ok s5 Hk5. wp_steps. cbn [andb].
    assert (Hk5' : keeps s s5).
    { eapply keeps_trans; [exact Hk3|]. eapply keeps_trans; [|exact Hk5].
      split; [frame|]. intros h d [Hl Hu]. split; [exact Hl|].
      by apply unowned_insert_fresh. }
    destruct ok; cbn [negb]; [wp_steps; exact Hk5'|].
    rewrite <- wp_assoc_seq. apply wp_bind.
    eapply wp_mono; [apply RemoveFilter_erase_keeps|]. intros ? s6 Hk6. cbv beta in Hk6.
    wp_steps. eapply keeps_trans; eassumption.
  - wp_steps. cbn [negb]. rewrite <- wp_assoc_seq. apply wp_bind.
    eapply wp_mono; [apply RemoveFilter_erase_keeps|]. intros ? s6 Hk6. cbv beta in Hk6.
    wp_steps. eapply keeps_trans; eassumption.
Qed.

Lemma CheckResize_keeps deinterlacing allow s :
  wp True (CheckResize deinterlacing allow) (fun _ s' => keeps s s') s.
Proof.
  unfold CheckResize. wp_steps.
  destruct (_ && bool_decide _); [|destruct (_ || _)].
  - rewrite <- wp_assoc_seq. apply wp_bind.
    eapply wp_mono; [apply RemoveFilter_erase_keeps|]. intros ? s1 Hk1. cbv beta in Hk1.
    wp_use AddFilter_keeps. intros ? s2 Hk2. wp_steps. eapply keeps_trans; eassumption.
  - rewrite <- wp_assoc_seq. apply wp_bind.
    eapply wp_mono; [apply RemoveFilter_erase_keeps|]. intros ? s1 Hk1. cbv beta in Hk1.
    wp_use AddFilter_keeps. intros ? s2 Hk2. wp_steps. eapply keeps_trans; eassumption.
  - rewrite <- wp_assoc_seq. apply wp_bind.
    eapply wp_mono; [apply RemoveFilter_erase_keeps|]. intros ? s1 Hk1. cbv beta in Hk1.
    wp_use OptimiseFilters_keeps. intros ? s2 Hk2. wp_steps. eapply keeps_trans; eassumption.
Qed.


(** ** Installing a deinterlacer: the reference textures *)

Definition stage_textures (s : OpenGLVideo) (k : OpenGLFilterType) :
    option (option (list GLuint)) :=
  match filters s !! k with
  | Some (Some f) => Some (Some (frameBufferTextures f))
  | Some None => Some None
  | None => None
  end.

(** What every step of [AddDeinterlacer] and [TearDownDeinterlacer] leaves
    as it is: the input textures, the deinterlacing switch and the textures
    that the stage graph owns. *)
Definition carried (s s' : OpenGLVideo) : Prop :=
  inputTextures s' = inputTextures s /\
  hardwareDeinterlacing s' = hardwareDeinterlacing s /\
  helperTexture s' = helperTexture s /\
  forall k, stage_textures s' k = stage_textures s k.

(** No handle of a texture that is not live is held by the stage graph. *)
Definition no_dangling (s : OpenGLVideo) : Prop :=
  forall h, 0 < h -> GL.textures (gl_context s) !! h = None -> unowned h s.

Lemma carried_refl s : carried s s.
Proof. by repeat split. Qed.

Lemma carried_trans s1 s2 s3 : carried s1 s2 -> carried s2 s3 -> carried s1 s3.
Proof.
  intros (? & ? & ? & Hk1) (? & ? & ? & Hk2). repeat split; congruence.
Qed.

Lemma unowned_carried h s s' : carried s s' -> unowned h s -> unowned h s'.
Proof.
  intros (_ & _ & Hh & Hk) [Hu1 Hu2]. split; [congruence|].
  intros k f Hf. specialize (Hk k). unfold stage_textures in Hk. rewrite Hf in Hk.
  destruct (filters s !! k) as [[f0|]|] eqn:Hf0; try discriminate.
  cbn in Hk. injection Hk as Hk. rewrite Hk. by eapply Hu2.
Qed.

Lemma carried_same_filters s s' :
  inputTextures s' = inputTextures s ->
  hardwareDeinterlacing s' = hardwareDeinterlacing s ->
  helperTexture s' = helperTexture s ->
  filters s' = filters s -> carried s s'.
Proof. intros ? ? ? Hm. repeat split; try done. intros k. unfold stage_textures. by rewrite Hm. Qed.

Lemma carried_update k f g s :
  filters s !! k = Some (Some f) ->
  frameBufferTextures (g f) = frameBufferTextures f ->
  carried s (set_filters (<[k := Some (g f)]> (filters s)) s).
Proof.
  intros Hf Hg. repeat split. intros k'. unfold stage_textures. st_simpl.
  rewrite lookup_insert. case_decide; [subst k'|done]. rewrite Hf. cbn. by rewrite Hg.
Qed.

(** One [DeleteFragmentProgram(tmp->fragmentPrograms[i]); pop_back();] of
    [TearDownDeinterlacer]. *)
Definition settled (s s' : OpenGLVideo) : Prop :=
  carried s s' /\ GL.textures (gl_context s') = GL.textures (gl_context s) /\
  referenceTextures s' = referenceTextures s /\ refsNeeded s' = refsNeeded s.

Lemma settled_refl s : settled s s.
Proof. split; [apply carried_refl|done]. Qed.

Lemma settled_trans s1 s2 s3 : settled s1 s2 -> settled s2 s3 -> settled s1 s3.
Proof.
  intros (? & ? & ? & ?) (? & ? & ? & ?).
  split; [by eapply carried_trans|]. repeat split; congruence.
Qed.

Lemma pop_program_spec tmp n i s :
  wp True (when (length (fragmentPrograms tmp) =? n)%nat
             (match fragmentPrograms tmp !! i with
              | Some p =>
                  gl_ (GL.DeleteFragmentProgram p);;
                  update_filter kGLFilterYUV2RGB (fun f =>
                    set_fragmentPrograms (removelast (fragmentPrograms f)) f)
              | None => undefined
              end))
     (fun _ s' => settled s s') s.
Proof.
  unfold when. destruct (_ =? _)%nat; [|wp_steps; apply settled_refl].
  destruct (fragmentPrograms tmp !! i) as [p|]; [|wp_steps; done].
  wp_steps. apply wp_update_filter_partial. intros f Hf. st_simpl_in Hf.
  eapply settled_trans
    with (s2 := set_gl_context (GL.DeleteFragmentProgram p (gl_context s)) s).
  - split; [by apply carried_same_filters|]. done.
  - split; [|done].
    by apply (carried_update kGLFilterYUV2RGB f
                (fun f => set_fragmentPrograms (removelast (fragmentPrograms f)) f)).
Qed.

Lemma TearDownDeinterlacer_spec s :
  wp True TearDownDeinterlacer
     (fun _ s' =>
        if bool_decide (is_Some (filters s !! kGLFilterYUV2RGB)) then
          carried s s' /\ referenceTextures s' = [] /\ refsNeeded s' = 0 /\
          forall h, GL.textures (gl_context s') !! h =
                    if bool_decide (h ∈ referenceTextures s) then None
                    else GL.textures (gl_context s) !! h
        else s' = s) s.
Proof.
  unfold TearDownDeinterlacer. wp_steps.
  destruct (bool_decide _); cbn [negb]; [|wp_steps; done].
  apply wp_bind, wp_the_filter_partial. intros tmp _.
  wp_use pop_program_spec. intros ? s1 H1. cbv beta in H1.
  apply wp_bind, wp_the_filter_partial. intros tmp2 _.
  wp_use pop_program_spec. intros ? s2 H2. cbv beta in H2.
  pose proof (settled_trans _ _ _ H1 H2) as (Hc & Ht & Hr & Hn).
  wp_steps. eapply wp_intro; [apply DeleteTextures_run|]. wp_steps. st_simpl.
  split; [|split; [done|split; [done|]]].
  - eapply carried_trans; [exact Hc|]. by apply carried_same_filters.
  - intros h. rewrite delete_textures_lookup, Hr, Ht. done.
Qed.

Lemma CreateTexture_cases size pbo type fmt c :
  ((GL.CreateTexture size pbo type fmt c).1 = 0 /\
   GL.textures (GL.CreateTexture size pbo type fmt c).2 = GL.textures c) \/
  (0 < (GL.CreateTexture size pbo type fmt c).1 /\
   GL.textures c !! (GL.CreateTexture size pbo type fmt c).1 = None /\
   GL.textures (GL.CreateTexture size pbo type fmt c).2 =
   <[(GL.CreateTexture size pbo type fmt c).1 := GL.mkTexture size pbo type fmt None None]>
     (GL.textures c)).
Proof.
  unfold GL.CreateTexture.
  destruct (GL.next_outcome c) as [fails c1] eqn:Hout.
  assert (Ht : GL.textures c1 = GL.textures c).
  { unfold GL.next_outcome in Hout. destruct (GL.failures c); injection Hout as _ <-; done. }
  destruct fails; cbn [fst snd]; [by left|right]. gl_simpl. rewrite Ht.
  split; [apply fresh_name_pos|]. split; [apply fresh_name_fresh|done].
Qed.

Lemma CreateVideoTexture_spec d size use_pbo s :
  wp d (CreateVideoTexture size use_pbo)
     (fun tex s' =>
        carried s s' /\ referenceTextures s' = referenceTextures s /\
        refsNeeded s' = refsNeeded s /\
        ((tex = 0 /\ GL.textures (gl_context s') = GL.textures (gl_context s)) \/
         (0 < tex /\ GL.textures (gl_context s) !! tex = None /\
          exists t, GL.tex_content t = None /\
                    GL.textures (gl_context s') = <[tex := t]> (GL.textures (gl_context s))))) s.
Proof.
  unfold CreateVideoTexture. wp_steps. st_simpl.
  split; [by apply carried_same_filters|]. split; [done|]. split; [done|].
  match goal with |- context [GL.CreateTexture ?a ?b ?c ?e ?f] =>
    destruct (CreateTexture_cases a b c e f) as [[H1 H2]|(H1 & H2 & H3)] end.
  - by left.
  - right. split; [done|]. split; [done|]. eexists. split; [|exact H3]. done.
Qed.

Lemma create_reference_textures_carried n use_pbo success s :
  wp True (create_reference_textures n use_pbo success)
     (fun b s' => carried s s' /\ refsNeeded s' = refsNeeded s /\
                  (success = false -> b = false)) s.
Proof.
  revert success s. induction n as [|n IH]; intros success s; cbn [create_reference_textures].
  - wp_steps. split; [apply carried_refl|done].
  - wp_steps. wp_use (CreateVideoTexture_spec True). intros tex s1 (Hc1 & _ & Hn1 & _).
    destruct (tex =? 0).
    + wp_use IH. intros b s2 (Hc2 & Hn2 & Hb). cbv beta.
      split; [by eapply carried_trans|]. split; [congruence|auto].
    + wp_steps. wp_use IH. intros b s2 (Hc2 & Hn2 & Hb). cbv beta.
      split; [|split; [st_simpl_in Hn2; congruence|auto]].
      eapply carried_trans; [exact Hc1|]. eapply carried_trans; [|exact Hc2].
      by apply carried_same_filters.
Qed.

Lemma create_reference_textures_two use_pbo s :
  wp True (create_reference_textures 2 use_pbo true)
     (fun b s' =>
        carried s s' /\ refsNeeded s' = refsNeeded s /\
        (b = true ->
         exists r1 r2 t1 t2,
           referenceTextures s' = referenceTextures s ++ [r1; r2] /\
           0 < r1 /\ 0 < r2 /\ r1 ≠ r2 /\
           GL.textures (gl_context s) !! r1 = None /\
           GL.textures (gl_context s) !! r2 = None /\
           GL.tex_content t1 = None /\ GL.tex_content t2 = None /\
           GL.textures (gl_context s') = <[r2 := t2]> (<[r1 := t1]> (GL.textures (gl_context s))))) s.
Proof.
  cbn [create_reference_textures]. wp_steps.
  wp_use (CreateVideoTexture_spec True). intros r1 s1 (Hc1 & Hr1 & Hn1 & Hcase1).
  destruct (r1 =? 0) eqn:Hz1.
  { wp_steps. wp_use (CreateVideoTexture_spec True). intros r2 s2 (Hc2 & Hr2 & Hn2 & _).
    assert (carried s s2) by (by eapply carried_trans).
    destruct (r2 =? 0); wp_steps; st_simpl.
    - split; [done|]. split; [congruence|done].
    - split; [|split; [congruence|done]].
      eapply carried_trans; [eassumption|]. by apply carried_same_filters. }
  apply Z.eqb_neq in Hz1.
  destruct Hcase1 as [[? _]|(Hp1 & Hf1 & t1 & Ht1 & Hm1)]; [done|].
  wp_steps. st_simpl.
  set (s1' := set_referenceTextures _ s1).
  assert (Hc1' : carried s s1').
  { eapply carried_trans; [exact Hc1|]. by apply carried_same_filters. }
  wp_use (CreateVideoTexture_spec True). intros r2 s2 (Hc2 & Hr2 & Hn2 & Hcase2).
  assert (Hc2' : carried s s2) by (by eapply carried_trans).
  destruct (r2 =? 0) eqn:Hz2; wp_steps; st_simpl.
  { split; [done|]. split; [subst s1'; st_simpl_in Hn2; congruence|done]. }
  apply Z.eqb_neq in Hz2.
  destruct Hcase2 as [[? _]|(Hp2 & Hf2 & t2 & Ht2 & Hm2)]; [done|].
  subst s1'. st_simpl_in Hr2. st_simpl_in Hn2. st_simpl_in Hf2. st_simpl_in Hm2.
  split; [|split; [congruence|]].
  { eapply carried_trans; [exact Hc2'|]. by apply carried_same_filters. }
  intros _. exists r1, r2, t1, t2. rewrite Hr2, Hr1, <- app_assoc.
  rewrite Hm1 in Hf2. apply lookup_insert_None in Hf2 as [Hf2 Hne].
  repeat split; try done. by rewrite Hm2, Hm1.
Qed.


(** The input texture and the two reference textures, with what each of
    them holds. *)
Definition ring_state (input : GLuint) (rest : list GLuint) (r1 r2 : GLuint)
    (c0 c1 c2 : option (GL.Packing * Z)) (s : OpenGLVideo) : Prop :=
  inputTextures s = input :: rest /\ referenceTextures s = [r1; r2] /\
  NoDup [input; r1; r2] /\
  live_with input c0 (gl_context s) /\ live_with r1 c1 (gl_context s) /\
  live_with r2 c2 (gl_context s).

Lemma live_with_textures h d c c' :
  GL.textures c' = GL.textures c -> live_with h d c -> live_with h d c'.
Proof. unfold live_with, content_of. by intros ->. Qed.

Lemma AddDeinterlacer_installs deinterlacer input rest c0 s :
  inputTextures s = input :: rest ->
  live_with input c0 (gl_context s) ->
  unowned input s ->
  input ∉ referenceTextures s ->
  no_dangling s ->
  (forall h, h ∈ referenceTextures s -> unowned h s) ->
  is_bobdeint deinterlacer = false ->
  hardwareDeinterlacer s ≠ deinterlacer ->
  wp True (AddDeinterlacer deinterlacer)
     (fun b s0 =>
        b = true ->
        exists r1 r2,
          ring_state input rest r1 r2 c0 None None s0 /\ refsNeeded s0 = 2 /\
          hardwareDeinterlacing s0 = hardwareDeinterlacing s) s.
Proof.
  intros Hin Hlive Hun Hnotref Hdang Hrefs Hbob Hother.
  unfold AddDeinterlacer. wp_steps.
  destruct (negb _); [wp_steps; discriminate|].
  unfold locked. wp_steps. st_simpl.
  set (sa := set_gl_context (GL.MakeCurrent (gl_context s)) s).
  destruct (bool_decide (is_Some (filters s !! kGLFilterYUV2RGB))) eqn:Hpresent;
    cbn [negb]; [|wp_steps; discriminate].
  destruct (String.eqb (hardwareDeinterlacer s) deinterlacer) eqn:Hsame.
  { apply String.eqb_eq in Hsame. done. }
  rewrite Hbob.
  wp_use TearDownDeinterlacer_spec. intros ? sb Hb. cbv beta in Hb.
  subst sa. st_simpl_in Hb. rewrite Hpresent in Hb.
  destruct Hb as (Hcb & Hrb & _ & Htb).
  change (GL.textures (GL.MakeCurrent (gl_context s))) with (GL.textures (gl_context s)) in Htb.
  wp_steps. st_simpl.
  wp_use create_reference_textures_two.
  intros success sd (Hcd & Hnd & Hd). st_simpl_in Hcd. st_simpl_in Hnd. st_simpl_in Hd.
  wp_use AddFragmentProgram_keeps. intros prog1 se ([Hfe _] & Hme & Hhe & Hte).
  wp_use AddFragmentProgram_keeps. intros prog2 sf ([Hff _] & Hmf & Hhf & Htf).
  apply wp_bind.
  apply (wp_mono _ _ (fun b sg => (b = true -> success = true) /\ settled sf sg /\
                                  graph_frame sf sg)).
  { destruct (_ && _); [|wp_steps; split; [discriminate|split; [apply settled_refl|frame]]].
    apply wp_bind, wp_update_filter_partial. intros f1 Hf1.
    apply wp_bind, wp_update_filter_partial. intros f2 Hf2. wp_steps.
    split; [done|]. split; [|frame].
    pose proof (carried_update kGLFilterYUV2RGB f1
                  (fun f => set_fragmentPrograms (fragmentPrograms f ++ [prog1]) f)
                  sf Hf1 eq_refl) as C1.
    pose proof (carried_update kGLFilterYUV2RGB f2
                  (fun f => set_fragmentPrograms (fragmentPrograms f ++ [prog2]) f)
                  _ Hf2 eq_refl) as C2.
    split; [exact (carried_trans _ _ _ C1 C2)|done]. }
  intros success' sg (Hsucc & (Hcg & Htg & Hrg & Hng) & Hfg).
  destruct success'; [|wp_steps; st_simpl];
    [|wp_use TearDownDeinterlacer_spec; intros; wp_steps; discriminate].
  specialize (Hsucc eq_refl). subst success.
  destruct (Hd eq_refl) as (r1 & r2 & t1 & t2 & Hrd & Hp1 & Hp2 & Hne & Hf1 & Hf2 &
                            Ht1 & Ht2 & Htd).
  st_simpl_in Hrd. st_simpl_in Hf1. st_simpl_in Hf2. st_simpl_in Htd.
  rewrite Hrb in Hrd. cbn [app] in Hrd.
  (* the state before the resize decision *)
  destruct (graph_frame_fields _ _ Hfe) as
    (_ & _ & _ & _ & _ & _ & _ & _ & _ & _ & Hde & _ & Hie & Hre & _ & _ & _ & Hne' & _).
  destruct (graph_frame_fields _ _ Hff) as
    (_ & _ & _ & _ & _ & _ & _ & _ & _ & _ & Hdf & _ & Hif & Hrf & _ & _ & _ & Hnf & _).
  assert (Hcarried : carried s sg).
  { apply (carried_trans s (set_gl_context (GL.MakeCurrent (gl_context s)) s) sg);
      [by apply carried_same_filters|].
    eapply carried_trans; [exact Hcb|].
    eapply carried_trans.
    { apply (carried_same_filters sb (set_refsNeeded (Z.of_nat 2) sb)); done. }
    eapply carried_trans; [exact Hcd|].
    eapply carried_trans; [apply (carried_same_filters sd se); done|].
    eapply carried_trans; [apply (carried_same_filters se sf); done|]. exact Hcg. }
  assert (Htex : GL.textures (gl_context sg) =
                 <[r2 := t2]> (<[r1 := t1]> (GL.textures (gl_context sb)))).
  { rewrite Htg, Htf, Hte. exact Htd. }
  assert (Hb1 : GL.textures (gl_context sb) !! input = GL.textures (gl_context s) !! input).
  { rewrite Htb. by rewrite bool_decide_eq_false_2. }
  assert (Hi1 : input ≠ r1).
  { intros ->. destruct Hlive as [_ Hl]. unfold content_of in Hl.
    rewrite <- Hb1, Hf1 in Hl. discriminate. }
  assert (Hi2 : input ≠ r2).
  { intros ->. destruct Hlive as [_ Hl]. unfold content_of in Hl.
    rewrite <- Hb1, Hf2 in Hl. discriminate. }
  assert (Hfresh : forall r, 0 < r -> GL.textures (gl_context sb) !! r = None -> unowned r sg).
  { intros r Hp Hn. apply (unowned_carried r s sg Hcarried).
    rewrite Htb in Hn. case_bool_decide as Hr; [by apply Hrefs|].
    apply Hdang; [exact Hp|]. exact Hn. }
  assert (Hk0 : kept input c0 sg).
  { split; [|by apply (unowned_carried input s sg Hcarried)].
    destruct Hlive as [Hp Hl]. split; [exact Hp|]. unfold content_of in *.
    rewrite Htex, lookup_insert_ne, lookup_insert_ne, Hb1 by done. exact Hl. }
  assert (Hk1 : kept r1 None sg).
  { split; [|by apply Hfresh]. split; [exact Hp1|]. unfold content_of.
    rewrite Htex, lookup_insert_ne, lookup_insert_eq by done. cbn. by rewrite Ht1. }
  assert (Hk2 : kept r2 None sg).
  { split; [|by apply Hfresh]. split; [exact Hp2|]. unfold content_of.
    rewrite Htex, lookup_insert_eq. cbn. by rewrite Ht2. }
  wp_steps. wp_use CheckResize_keeps. intros ? sh [Hfh Hkh]. wp_steps. st_simpl.
  intros _. exists r1, r2.
  destruct (graph_frame_fields _ _ Hfh) as
    (_ & _ & _ & _ & _ & _ & _ & _ & _ & _ & Hdh & _ & Hih & Hrh & _ & _ & _ & Hnh & _).
  destruct Hcarried as (Hig & Hdg & _).
  split; [|split; [rewrite Hnh, Hng, Hnf, Hne'; exact Hnd|congruence]].
  split; [st_simpl; congruence|].
  split; [st_simpl; rewrite Hrh, Hrg, Hrf, Hre; exact Hrd|].
  split.
  { repeat constructor; set_solver. }
  destruct (Hkh _ _ Hk0) as [Hl0 _]. destruct (Hkh _ _ Hk1) as [Hl1 _].
  destruct (Hkh _ _ Hk2) as [Hl2 _].
  repeat split; (eapply live_with_textures; [|eassumption]); reflexivity.
Qed.


(** ** Uploads with the reference textures in place *)

(** The frame passes the checks at the head of [UpdateInputFrame]. *)
Definition accepted (s : OpenGLVideo) (frame : VideoFrame) : Prop :=
  frame_width frame = width (actual_video_dim s) /\
  frame_height frame = height (actual_video_dim s) /\
  1 <= frame_width frame /\ 1 <= frame_height frame /\
  codec frame = FMT_YV12.

(** What [UpdateInputFrame] hands to [UpdateTexture] for the frame. *)
Definition uploaded (s : OpenGLVideo) (u : VideoFrame * bool) : GL.Packing * Z :=
  (if negb (bool_decide (is_Some (filters s !! kGLFilterYUV2RGB))) then
     (if using_ycbcrtex s then GL.SwsUYVY else GL.SwsBGRA)
   else if interlaced_frame u.1 && negb u.2 then GL.PackInterlaced
   else GL.PackAlpha,
   buf u.1).

Definition upload (u : VideoFrame * bool) : Operation := DoUpdateInputFrame u.1 u.2.

Definition texture_contents (s : OpenGLVideo) (l : list GLuint) :
    list (option (option (GL.Packing * Z))) :=
  (fun h => content_of h (gl_context s)) <$> l.

Lemma UpdateTexture_here h d data c :
  live_with h d c -> live_with h (Some data) (GL.UpdateTexture h data c).
Proof.
  unfold live_with, content_of, GL.UpdateTexture. intros [Hp Hl]. split; [exact Hp|].
  gl_simpl. rewrite lookup_alter_eq. destruct (GL.textures c !! h); [done|discriminate].
Qed.

Lemma UpdateTexture_other h h' d data c :
  h' ≠ h -> live_with h' d c -> live_with h' d (GL.UpdateTexture h data c).
Proof.
  unfold live_with, content_of, GL.UpdateTexture. intros Hne [Hp Hl]. split; [exact Hp|].
  gl_simpl. by rewrite lookup_alter_ne.
Qed.

Lemma UpdateInputFrame_rotates frame soft_bob input rest r1 r2 c0 c1 c2 s :
  hardwareDeinterlacing s = true ->
  accepted s frame ->
  ring_state input rest r1 r2 c0 c1 c2 s ->
  exists s',
    UpdateInputFrame frame soft_bob s = Some (tt, s') /\
    ring_state r2 rest input r1 (Some (uploaded s (frame, soft_bob))) c0 c1 s' /\
    refsNeeded s' = (if 0 <? refsNeeded s then refsNeeded s - 1 else refsNeeded s) /\
    hardwareDeinterlacing s' = true /\
    actual_video_dim s' = actual_video_dim s /\
    filters s' = filters s /\
    using_ycbcrtex s' = using_ycbcrtex s.
Proof.
  intros Hd (Hw & Hh & Hw1 & Hh1 & Hc) (Hin & Href & Hnd & Hl0 & Hl1 & Hl2).
  cut (wp False (UpdateInputFrame frame soft_bob)
         (fun _ s' =>
            ring_state r2 rest input r1 (Some (uploaded s (frame, soft_bob))) c0 c1 s' /\
            refsNeeded s' = (if 0 <? refsNeeded s then refsNeeded s - 1 else refsNeeded s) /\
            hardwareDeinterlacing s' = true /\
            actual_video_dim s' = actual_video_dim s /\
            filters s' = filters s /\
            using_ycbcrtex s' = using_ycbcrtex s) s).
  { intros HW. destruct (wp_elim _ _ _ HW) as ([] & s' & Hrun & HQ). eauto. }
  unfold UpdateInputFrame, locked. wp_steps. st_simpl.
  rewrite Hw, Hh, !Z.eqb_refl, Hc, Z.eqb_refl. cbn [negb orb].
  rewrite <- Hw, <- Hh.
  destruct (frame_width frame <? 1) eqn:E1; [apply Z.ltb_lt in E1; lia|].
  destruct (frame_height frame <? 1) eqn:E2; [apply Z.ltb_lt in E2; lia|].
  cbn [orb]. wp_steps. st_simpl. rewrite Hd. unfold when.
  set (sa := set_gl_context (GL.MakeCurrent (gl_context s)) s).
  destruct (RotateTextures_rotates sa input rest) as (tmp & Hlast & Hrun).
  { subst sa. st_simpl. rewrite Href. simpl. lia. }
  { exact Hin. }
  subst sa. st_simpl_in Hlast. rewrite Href in Hlast. injection Hlast as <-.
  eapply wp_intro; [exact Hrun|]. st_simpl. rewrite Href. cbn [removelast].
  wp_steps. st_simpl. wp_steps. st_simpl.
  assert (Hr2 : is_Some (GL.textures (gl_context s) !! r2)).
  { destruct Hl2 as [_ Hl2]. unfold content_of in Hl2.
    destruct (GL.textures (gl_context s) !! r2); [eauto|discriminate]. }
  unfold GL.GetTextureBuffer, GL.MakeCurrent. gl_simpl.
  destruct Hr2 as [t2 ->]. wp_steps. st_simpl.
  apply NoDup_cons in Hnd as [Hn0 Hnd]. apply NoDup_cons in Hnd as [Hn1 _].
  assert (input ≠ r1 /\ input ≠ r2 /\ r1 ≠ r2) as (N1 & N2 & N3) by set_solver.
  split; [|done]. split; [done|]. split; [done|].
  split; [repeat constructor; set_solver|].
  split; [|split].
  - eapply live_with_textures; [|eapply UpdateTexture_here; exact Hl2]. reflexivity.
  - eapply live_with_textures; [|eapply UpdateTexture_other; [|exact Hl0]]; done.
  - eapply live_with_textures; [|eapply UpdateTexture_other; [|exact Hl1]]; done.
Qed.


Lemma accepted_same s s' frame :
  actual_video_dim s' = actual_video_dim s -> accepted s frame -> accepted s' frame.
Proof. unfold accepted. by intros ->. Qed.

Lemma uploaded_same s s' u :
  filters s' = filters s -> using_ycbcrtex s' = using_ycbcrtex s ->
  uploaded s' u = uploaded s u.
Proof. unfold uploaded. by intros -> ->. Qed.

Lemma countdown_step (n k : Z) :
  0 <= n -> 0 <= k ->
  Z.max 0 ((if 0 <? n then n - 1 else n) - k) = Z.max 0 (n - (k + 1)).
Proof. intros Hn Hk. destruct (0 <? n) eqn:E; [|apply Z.ltb_ge in E]; lia. Qed.

Lemma uploads_rotate (uploads : list (VideoFrame * bool)) :
  forall input rest r1 r2 c0 c1 c2 s,
    hardwareDeinterlacing s = true ->
    Forall (fun u => accepted s u.1) uploads ->
    ring_state input rest r1 r2 c0 c1 c2 s ->
    0 <= refsNeeded s ->
    exists s' input' r1' r2' h0 h1 h2,
      run_operations (upload <$> uploads) s = Some (tt, s') /\
      ring_state input' rest r1' r2' h0 h1 h2 s' /\
      [h0; h1; h2] = take 3 (reverse (Some ∘ uploaded s <$> uploads) ++ [c0; c1; c2]) /\
      refsNeeded s' = Z.max 0 (refsNeeded s - Z.of_nat (length uploads)).
Proof.
  induction uploads as [|[frame soft_bob] uploads IH];
    intros input rest r1 r2 c0 c1 c2 s Hd Hacc Hring Hn.
  - exists s, input, r1, r2, c0, c1, c2. split; [reflexivity|]. split; [exact Hring|]. split; [reflexivity|].
    cbn [length Z.of_nat]. lia.
  - apply Forall_cons in Hacc as [Ha Hacc]. cbn [fst] in Ha.
    destruct (UpdateInputFrame_rotates frame soft_bob _ _ _ _ _ _ _ _ Hd Ha Hring)
      as (s1 & Hrun & Hring1 & Hn1 & Hd1 & Hdim1 & Hm1 & Hy1).
    destruct (IH r2 rest input r1 (Some (uploaded s (frame, soft_bob))) c0 c1 s1)
      as (s' & input' & r1' & r2' & h0 & h1 & h2 & Hrun' & Hring' & Hhist & Hn').
    { exact Hd1. }
    { eapply Forall_impl; [exact Hacc|]. intros u. by apply accepted_same. }
    { exact Hring1. }
    { rewrite Hn1. destruct (0 <? refsNeeded s) eqn:E; [apply Z.ltb_lt in E|]; lia. }
    exists s', input', r1', r2', h0, h1, h2. split; [|split; [exact Hring'|split]].
    + cbn [fmap list_fmap run_operations]. unfold mbind, M_bind.
      change (run_operation (upload (frame, soft_bob)) s)
        with (UpdateInputFrame frame soft_bob s).
      rewrite Hrun. exact Hrun'.
    + rewrite Hhist. rewrite fmap_cons, reverse_cons, <- app_assoc.
      change ([(Some ∘ uploaded s) (frame, soft_bob)] ++ [c0; c1; c2])
        with ([Some (uploaded s (frame, soft_bob)); c0; c1] ++ [c2]).
      rewrite app_assoc.
      rewrite (take_app_le _ [c2]) by (rewrite length_app; simpl; lia).
      do 3 f_equal. apply list_fmap_ext. intros ? u _. cbn.
      f_equal. by apply uploaded_same.
    + rewrite Hn', Hn1. cbn [length].
      rewrite countdown_step by lia. f_equal. lia.
Qed.

(** ** [refsNeeded] is never negative *)

Lemma RotateTextures_counter s :
  0 <= refsNeeded s -> wp True RotateTextures (fun _ s' => 0 <= refsNeeded s') s.
Proof.
  intros Hn. unfold RotateTextures. wp_steps.
  destruct (_ <? _)%nat; [wp_steps; exact Hn|]. wp_steps.
  destruct (0 <? refsNeeded s) eqn:E; wp_steps.
  - apply Z.ltb_lt in E. destruct (last _); wp_steps. st_simpl.
    destruct (inputTextures s); wp_steps. st_simpl. lia.
  - destruct (last _); wp_steps.
    destruct (inputTextures s); wp_steps. st_simpl. lia.
Qed.

Lemma UpdateInputFrame_counter frame soft_bob s :
  0 <= refsNeeded s ->
  wp True (UpdateInputFrame frame soft_bob) (fun _ s' => 0 <= refsNeeded s') s.
Proof.
  intros Hn. unfold UpdateInputFrame, locked. wp_steps.
  match goal with |- context [if ?c then _ else _] => destruct c end;
    [wp_steps; exact Hn|].
  wp_steps.
  apply (wp_mono _ _ (fun _ s1 => 0 <= refsNeeded s1)).
  { st_simpl. destruct (hardwareDeinterlacing s); [|wp_steps; exact Hn].
    apply RotateTextures_counter. exact Hn. }
  intros ? s1 Hn1. cbv beta in Hn1. wp_steps.
  destruct (inputTextures s1); wp_steps.
  destruct (GL.GetTextureBuffer _ _); wp_steps; exact Hn1.
Qed.

Lemma keeps_counter s s' : keeps s s' -> refsNeeded s' = refsNeeded s.
Proof.
  intros [Hf _]. apply graph_frame_fields in Hf. tauto.
Qed.

Lemma TearDownDeinterlacer_counter s :
  0 <= refsNeeded s -> wp True TearDownDeinterlacer (fun _ s' => 0 <= refsNeeded s') s.
Proof.
  intros Hn. eapply wp_mono; [apply TearDownDeinterlacer_spec|].
  intros ? s'. cbv beta. destruct (bool_decide _).
  - intros (_ & _ & -> & _). done.
  - by intros ->.
Qed.

Lemma AddDeinterlacer_counter deinterlacer s :
  0 <= refsNeeded s ->
  wp True (AddDeinterlacer deinterlacer) (fun _ s' => 0 <= refsNeeded s') s.
Proof.
  intros Hn. unfold AddDeinterlacer. wp_steps.
  destruct (negb _); [wp_steps; exact Hn|].
  unfold locked. wp_steps. st_simpl.
  destruct (negb _); [wp_steps; exact Hn|].
  destruct (String.eqb _ _); [wp_steps; exact Hn|].
  wp_use TearDownDeinterlacer_counter; [exact Hn|]. intros ? sb _. wp_steps.
  wp_use create_reference_textures_carried. intros success sd (_ & Hnd & _).
  st_simpl_in Hnd.
  assert (Hd : 0 <= refsNeeded sd) by (rewrite Hnd; lia).
  wp_use AddFragmentProgram_keeps. intros prog1 se (Hke & _).
  wp_use AddFragmentProgram_keeps. intros prog2 sf (Hkf & _).
  apply keeps_counter in Hke, Hkf.
  apply wp_bind.
  apply (wp_mono _ _ (fun _ sg => 0 <= refsNeeded sg)).
  { destruct (_ && _); [|wp_steps; lia].
    apply wp_bind, wp_update_filter_partial. intros f1 Hf1.
    apply wp_bind, wp_update_filter_partial. intros f2 Hf2. wp_steps. st_simpl. lia. }
  intros success' sg Hg. cbv beta in Hg. destruct success'; wp_steps.
  - wp_use CheckResize_keeps. intros ? sh Hkh. apply keeps_counter in Hkh.
    wp_steps. st_simpl. lia.
  - wp_use TearDownDeinterlacer_counter; [exact Hg|]. intros ? sh Hh. cbv beta in Hh.
    wp_steps. exact Hh.
Qed.

Lemma Teardown_loop_keeps keys s :
  wp True (Teardown_loop keys) (fun _ s' => keeps s s') s.
Proof.
  revert s. induction keys as [|k keys IH]; intros s; cbn [Teardown_loop].
  - wp_steps. apply keeps_refl.
  - rewrite <- wp_assoc_seq. apply wp_bind.
    eapply wp_mono; [apply RemoveFilter_erase_keeps|]. intros ? s1 Hk1. cbv beta in Hk1.
    eapply wp_mono; [apply IH|]. intros ? s2 Hk2. cbv beta in Hk2.
    eapply keeps_trans; eassumption.
Qed.

Lemma Teardown_counter s :
  0 <= refsNeeded s -> wp True Teardown (fun _ s' => 0 <= refsNeeded s') s.
Proof.
  intros Hn. unfold Teardown. wp_steps.
  apply (wp_mono _ _ (fun _ s1 => refsNeeded s1 = refsNeeded s)).
  { destruct (negb _); wp_steps; done. }
  intros ? s1 H1. cbv beta in H1. wp_steps.
  eapply wp_intro; [apply DeleteTextures_run|]. wp_steps.
  eapply wp_intro; [apply DeleteTextures_run|]. wp_steps.
  eapply wp_mono; [apply Teardown_loop_keeps|]. intros ? s2 Hk2.
  apply keeps_counter in Hk2. rewrite Hk2. st_simpl. lia.
Qed.

Lemma run_operation_counter o s :
  0 <= refsNeeded s -> wp True (run_operation o) (fun _ s' => 0 <= refsNeeded s') s.
Proof.
  intros Hn. destruct o as [[filter|filter]| | | | | | | | | |]; cbn [run_operation run_call].
  - wp_use AddFilter_keeps. intros ? s1 Hk. apply keeps_counter in Hk. wp_steps. lia.
  - eapply wp_mono; [apply RemoveFilter_erase_keeps|].
    intros ? s1 Hk. apply keeps_counter in Hk. cbv beta. lia.
  - wp_use OptimiseFilters_keeps. intros ? s1 Hk. apply keeps_counter in Hk. wp_steps. lia.
  - eapply wp_mono; [apply SetFiltering_keeps|].
    intros ? s1 Hk. apply keeps_counter in Hk. cbv beta. lia.
  - eapply wp_mono; [apply CheckResize_keeps|].
    intros ? s1 Hk. apply keeps_counter in Hk. cbv beta. lia.
  - wp_use AddDeinterlacer_counter; [exact Hn|]. intros ? s1 H1. wp_steps. exact H1.
  - by apply TearDownDeinterlacer_counter.
  - by apply RotateTextures_counter.
  - by apply UpdateInputFrame_counter.
  - unfold SetDeinterlacing. wp_steps. destruct (bool_decide _); wp_steps; [exact Hn|].
    unfold locked. wp_steps. wp_use CheckResize_keeps. intros ? s1 Hk.
    apply keeps_counter in Hk. wp_steps. st_simpl. st_simpl_in Hk. lia.
  - unfold SetSoftwareDeinterlacer. wp_steps.
    apply (wp_mono _ _ (fun _ s1 => 0 <= refsNeeded s1)).
    { destruct (negb _); [|wp_steps; exact Hn].
      eapply wp_mono; [apply CheckResize_keeps|].
      intros ? s1 Hk. apply keeps_counter in Hk. cbv beta. lia. }
    intros ? s1 H1. cbv beta in H1. wp_steps. exact H1.
  - by apply Teardown_counter.
Qed.

Lemma run_operations_counter os s :
  0 <= refsNeeded s -> wp True (run_operations os) (fun _ s' => 0 <= refsNeeded s') s.
Proof.
  revert s. induction os as [|o os IH]; intros s Hn; cbn [run_operations].
  - wp_steps. exact Hn.
  - wp_use run_operation_counter; [exact Hn|]. intros ? s1 H1. cbv beta in H1. by apply IH.
Qed.


(** What the input texture and the reference textures hold, most recent
    first, after the uploads: the uploads in reverse, then what the input
    texture held when the deinterlacer was installed, then the two blank
    reference textures. *)
Definition history (s0 : OpenGLVideo) (c0 : option (GL.Packing * Z))
    (uploads : list (VideoFrame * bool)) : list (option (GL.Packing * Z)) :=
  reverse (Some ∘ uploaded s0 <$> uploads) ++ [c0; None; None].

(** The frames that the reference textures hold, first to last. *)
Definition ring_frames (s : OpenGLVideo) : list (GL.Packing * Z) :=
  omap (fun h => match content_of h (gl_context s) with
                 | Some (Some data) => Some data
                 | _ => None
                 end) (referenceTextures s).

Lemma take_three_split {A} (l : list A) a b c :
  [a; b; c] = take 3 l -> take 1 l = [a] /\ take 2 (drop 1 l) = [b; c].
Proof.
  destruct l as [|x [|y [|z l]]]; cbn; intros E; try discriminate.
  injection E as -> -> ->. done.
Qed.

Lemma ring_frames_contents s (l : list (option (GL.Packing * Z))) :
  texture_contents s (referenceTextures s) = Some <$> l -> ring_frames s = omap id l.
Proof.
  unfold ring_frames, texture_contents.
  generalize (referenceTextures s). intros refs. revert l.
  induction refs as [|h refs IH]; intros [|x l] E; try discriminate; [done|].
  cbn in E. injection E as Eh El. cbn. rewrite Eh. rewrite (IH _ El).
  destruct x; reflexivity.
Qed.

(** C7 (as the code has it). A deinterlacer other than the three bob ones
    is installed by [AddDeinterlacer] on an object whose first input texture
    is live and is not held by the ring or the stage graph; hardware
    deinterlacing is on. After N accepted uploads: every upload returns;
    the input texture holds the last upload and the two reference textures
    hold, most recent first, the two entries that follow it in the history
    "uploads in reverse, then the content of the input texture at
    installation, then blank, blank" (so the ring holds the uploads N-1 and
    N-2, and the first rotation brings in whatever the input texture held
    before); [refsNeeded] is max(0, 2 - N), zero from the second upload on;
    and no sequence of operations run from an object with a non-negative
    [refsNeeded] leaves it negative. *)
Theorem reference_ring_history (deinterlacer : string) (input : GLuint)
    (rest : list GLuint) (c0 : option (GL.Packing * Z))
    (uploads : list (VideoFrame * bool)) (s s0 : OpenGLVideo) :
  inputTextures s = input :: rest ->
  live_with input c0 (gl_context s) ->
  unowned input s ->
  input ∉ referenceTextures s ->
  no_dangling s ->
  (forall h, h ∈ referenceTextures s -> unowned h s) ->
  is_bobdeint deinterlacer = false ->
  hardwareDeinterlacer s ≠ deinterlacer ->
  hardwareDeinterlacing s = true ->
  AddDeinterlacer deinterlacer s = Some (true, s0) ->
  Forall (fun u => accepted s0 u.1) uploads ->
  exists s',
    run_operations (upload <$> uploads) s0 = Some (tt, s') /\
    texture_contents s' (take 1 (inputTextures s')) =
      Some <$> take 1 (history s0 c0 uploads) /\
    length (referenceTextures s') = 2%nat /\
    texture_contents s' (referenceTextures s') =
      Some <$> take 2 (drop 1 (history s0 c0 uploads)) /\
    ring_frames s' = omap id (take 2 (drop 1 (history s0 c0 uploads))) /\
    refsNeeded s' = Z.max 0 (2 - Z.of_nat (length uploads)) /\
    forall os s1 s2,
      0 <= refsNeeded s1 -> run_operations os s1 = Some (tt, s2) -> 0 <= refsNeeded s2.
Proof.
  intros Hin Hlive Hun Hnotref Hdang Hrefs Hbob Hother Hd Hrun Hacc.
  pose proof (wp_elim_partial _ _ _ _ _
                (AddDeinterlacer_installs deinterlacer input rest c0 s
                   Hin Hlive Hun Hnotref Hdang Hrefs Hbob Hother) Hrun eq_refl)
    as (r1 & r2 & Hring & Hn0 & Hd0).
  destruct (uploads_rotate uploads input rest r1 r2 c0 None None s0)
    as (s' & i' & r1' & r2' & h0 & h1 & h2 & Hrun' & Hring' & Hhist & Hn');
    [congruence|exact Hacc|exact Hring|lia|].
  fold (history s0 c0 uploads) in Hhist.
  apply take_three_split in Hhist as [Hh0 Hh12].
  destruct Hring' as (Hin' & Href' & _ & [_ Hl0] & [_ Hl1] & [_ Hl2]).
  assert (Hcontents : texture_contents s' (referenceTextures s') =
                      Some <$> take 2 (drop 1 (history s0 c0 uploads))).
  { rewrite Hh12, Href'. cbn. by rewrite Hl1, Hl2. }
  exists s'. split; [exact Hrun'|]. split; [|split; [|split; [|split; [|split]]]].
  - rewrite Hh0, Hin'. cbn. by rewrite Hl0.
  - by rewrite Href'.
  - exact Hcontents.
  - by apply ring_frames_contents.
  - rewrite Hn', Hn0. reflexivity.
  - intros os s1 s2 Hn1 Hos.
    exact (wp_elim_partial _ _ _ _ _ (run_operations_counter os s1 Hn1) Hos).
Qed.

(** * Further properties of the code *)

(** ** Stage names *)

(** X1. [StringToFilter] reads back the name that [FilterToString] writes, for
    each of the four stage types (the empty name of [kGLFilterNone]
    included). *)
Theorem StringToFilter_FilterToString (filt : OpenGLFilterType) :
  StringToFilter (FilterToString filt) = filt.
Proof. destruct filt; reflexivity. Qed.

(** ** Option strings *)

Fixpoint has_char (c : ascii) (s : string) : bool :=
  match s with
  | EmptyString => false
  | String c' s' => Ascii.eqb c' c || has_char c s'
  end.

Lemma split_single (sep : ascii) (x : string) :
  has_char sep x = false -> split sep x = [x].
Proof.
  induction x as [|c x IH]; [reflexivity|]. cbn [has_char split].
  intros Hx. apply orb_false_iff in Hx as [Hc Hx]. rewrite Hc, (IH Hx). reflexivity.
Qed.

Lemma split_first (sep : ascii) (x y : string) :
  has_char sep x = false -> split sep (x +:+ String sep y) = x :: split sep y.
Proof.
  induction x as [|c x IH]; intros Hx.
  - change (split sep (String sep y) = EmptyString :: split sep y).
    cbn [split]. by rewrite Ascii.eqb_refl.
  - cbn [has_char] in Hx. apply orb_false_iff in Hx as [Hc Hx].
    change (split sep (String c (x +:+ String sep y)) = String c x :: split sep y).
    cbn [split]. rewrite Hc, (IH Hx). reflexivity.
Qed.

Lemma has_char_append (c : ascii) (x y : string) :
  has_char c (x +:+ y) = has_char c x || has_char c y.
Proof.
  induction x as [|c' x IH]; [reflexivity|].
  change (has_char c (String c' (x +:+ y)) = has_char c (String c' x) || has_char c y).
  cbn [has_char]. rewrite IH. by rewrite orb_assoc.
Qed.

Lemma ParseOptions_loop_skip (tokens : list string) (ret : Z) :
  (forall tok, tok ∈ tokens -> toLower (section_first "=" tok) ≠ "opengloptions") ->
  ParseOptions_loop tokens ret = ret.
Proof.
  induction tokens as [|tok tokens IH]; intros Hno; [reflexivity|].
  cbn [ParseOptions_loop].
  destruct (String.eqb _ _) eqn:E.
  - apply String.eqb_eq in E. exfalso. apply (Hno tok); [left|exact E].
  - apply IH. intros t Ht. apply Hno. by right.
Qed.

(** X2. An option string without a token named [opengloptions] (whatever its
    case) disables nothing: [ParseOptions] returns [kGLMaxFeat - 1]. *)
Theorem ParseOptions_no_token (options : string) :
  (forall tok, tok ∈ split "," options ->
               toLower (section_first "=" tok) ≠ "opengloptions") ->
  ParseOptions options = u32 (kGLMaxFeat - 1).
Proof.
  intros Hno. unfold ParseOptions.
  destruct (split "," options) as [|tok tokens] eqn:E; [reflexivity|].
  by apply ParseOptions_loop_skip.
Qed.

Lemma ParseOptions_token (opts : string) (rest : list string) (ret : Z) :
  ParseOptions_loop (("opengloptions=" +:+ opts) :: rest) ret =
  apply_disable_flags (toLower opts) ret.
Proof. reflexivity. Qed.

(** X3. The option string is cut at the commas before the token is looked for,
    so the flags of [opengloptions=...] end at the first comma: what
    follows it is not read. ([opengloptions=nopbo,nofbo] disables the pixel
    buffers only.) *)
Theorem ParseOptions_stops_at_comma (opts more : string) :
  has_char "," opts = false ->
  ParseOptions ("opengloptions=" +:+ opts +:+ "," +:+ more) =
  ParseOptions ("opengloptions=" +:+ opts).
Proof.
  intros Hopts.
  assert (Hc : has_char "," ("opengloptions=" +:+ opts) = false).
  { rewrite has_char_append, Hopts. reflexivity. }
  unfold ParseOptions.
  rewrite <- (append_assoc "opengloptions=" opts ("," +:+ more)).
  change ("," +:+ more) with (String "," more).
  rewrite (split_first "," _ more Hc), (split_single "," _ Hc).
  rewrite !ParseOptions_token. reflexivity.
Qed.

(** The flags of [opengloptions] with the feature bit each one takes away. *)
Definition disable_flags : list (string * Z) :=
  [("nofence", kGLAppleFence); ("nofence", kGLNVFence); ("nopbo", kGLExtPBufObj);
   ("nofbo", kGLExtFBufObj); ("nofrag", kGLExtFragProg); ("norect", kGLExtRect);
   ("noycbcr", kGLMesaYCbCr)].

(** The bits named by the flags that occur in [opts]. *)
Definition disabled (opts : string) : Z :=
  foldl (fun m fb => if contains opts fb.1 then Z.lor m fb.2 else m) 0 disable_flags.

Lemma apply_disable_flags_fold (opts : string) (ret : Z) :
  apply_disable_flags opts ret =
  foldl (fun x fb => if contains opts fb.1 then u32 (x - fb.2) else x) ret disable_flags.
Proof.
  unfold apply_disable_flags, disable_flags. cbn [foldl fst snd].
  destruct (contains opts "nofence"); reflexivity.
Qed.

Lemma ldiff_bounds (n m : Z) :
  0 <= n -> 0 <= Z.ldiff (2 ^ n - 1) m <= 2 ^ n - 1.
Proof.
  intros Hn. assert (0 < 2 ^ n) by (apply Z.pow_pos_nonneg; lia).
  assert (Hones : Z.ones n = 2 ^ n - 1) by (rewrite Z.ones_equiv; lia).
  rewrite <- Hones. set (d := Z.ldiff (Z.ones n) m).
  assert (Hnn : 0 <= d) by (apply Z.ldiff_nonneg; left; lia).
  split; [exact Hnn|].
  destruct (Z.eq_dec d 0) as [->|Hz]; [lia|].
  assert (Hlt : d < 2 ^ n); [|lia].
  apply Z.log2_lt_pow2; [lia|].
  destruct (Z.le_gt_cases n (Z.log2 d)) as [Hle|]; [|lia].
  exfalso.
  assert (Hb : Z.testbit d (Z.log2 d) = true) by (apply Z.bit_log2; lia).
  unfold d in Hb at 1. rewrite Z.ldiff_spec in Hb. apply andb_true_iff in Hb as [Hb _].
  rewrite Z.ones_spec_high in Hb by lia. discriminate.
Qed.

Lemma clear_bit_step (n e m : Z) :
  0 <= e < n -> n <= 32 -> Z.testbit m e = false ->
  u32 (Z.ldiff (2 ^ n - 1) m - 2 ^ e) = Z.ldiff (2 ^ n - 1) (Z.lor m (2 ^ e)).
Proof.
  intros He Hn Hm.
  assert (Hsub : Z.ldiff (2 ^ n - 1) m - 2 ^ e = Z.ldiff (Z.ldiff (2 ^ n - 1) m) (2 ^ e)).
  { apply Z.sub_nocarry_ldiff. apply Z.bits_inj'. intros j Hj.
    rewrite Z.ldiff_spec, Z.bits_0, Z.pow2_bits_eqb by lia.
    destruct (Z.eqb_spec e j) as [<-|]; [|reflexivity].
    rewrite Z.ldiff_spec, Hm.
    change (2 ^ n - 1) with (Z.pred (2 ^ n)). rewrite <- Z.ones_equiv.
    rewrite Z.ones_spec_low by lia. reflexivity. }
  rewrite Hsub, Z.ldiff_ldiff_l. unfold u32. apply Z.mod_small.
  pose proof (ldiff_bounds n (Z.lor m (2 ^ e)) ltac:(lia)).
  assert (2 ^ n <= 2 ^ 32) by (apply Z.pow_le_mono_r; lia). lia.
Qed.

Lemma clear_bits_fold (n : Z) (opts : string) (flags : list (string * Z)) (es : list Z) :
  n <= 32 -> NoDup es -> Forall (fun e => 0 <= e < n) es ->
  flags.*2 = Z.pow 2 <$> es ->
  forall m,
    Forall (fun e => Z.testbit m e = false) es ->
    foldl (fun x fb => if contains opts fb.1 then u32 (x - fb.2) else x)
          (Z.ldiff (2 ^ n - 1) m) flags =
    Z.ldiff (2 ^ n - 1)
            (foldl (fun m fb => if contains opts fb.1 then Z.lor m fb.2 else m) m flags).
Proof.
  intros Hn. revert flags. induction es as [|e es IH]; intros flags Hnd Hes Hflags m Hm.
  - destruct flags; [reflexivity|discriminate].
  - destruct flags as [|[flag bit] flags]; [discriminate|].
    cbn in Hflags. injection Hflags as -> Hflags.
    apply NoDup_cons in Hnd as [Hnotin Hnd].
    apply Forall_cons in Hes as [He Hes]. apply Forall_cons in Hm as [Hme Hm].
    cbn [foldl fst snd]. destruct (contains opts flag).
    + rewrite clear_bit_step by (lia || assumption).
      apply IH; try assumption.
      apply Forall_forall. intros e' He'.
      rewrite Z.lor_spec. rewrite Forall_forall in Hm. rewrite (Hm e' He').
      rewrite Forall_forall in Hes. specialize (Hes e' He').
      rewrite Z.pow2_bits_eqb by lia.
      destruct (Z.eqb_spec e e') as [->|]; [done|reflexivity].
    + by apply IH.
Qed.

(** X4. When the feature constants are distinct single bits below
    [kGLMaxFeat = 2^n] (as in the upstream header), the subtractions of
    [ParseOptions] clear exactly the bits that the flags of the
    [opengloptions] token name and leave every other feature bit set. *)
Theorem ParseOptions_clears_named_bits (n : Z) (es : list Z) (opts : string) :
  n <= 32 -> kGLMaxFeat = 2 ^ n ->
  NoDup es -> Forall (fun e => 0 <= e < n) es ->
  disable_flags.*2 = Z.pow 2 <$> es ->
  has_char "," opts = false ->
  ParseOptions ("opengloptions=" +:+ opts) =
  Z.ldiff (kGLMaxFeat - 1) (disabled (toLower opts)).
Proof.
  intros Hn Hmax Hnd Hes Hbits Hopts.
  assert (Hc : has_char "," ("opengloptions=" +:+ opts) = false).
  { rewrite has_char_append, Hopts. reflexivity. }
  assert (H0n : 0 <= n).
  { destruct es as [|e es]; [discriminate|]. apply Forall_cons in Hes as [? _]. lia. }
  unfold ParseOptions. rewrite (split_single "," _ Hc), ParseOptions_token.
  rewrite apply_disable_flags_fold, Hmax.
  assert (Hfull : u32 (2 ^ n - 1) = Z.ldiff (2 ^ n - 1) 0).
  { rewrite Z.ldiff_0_r. unfold u32. apply Z.mod_small.
    assert (0 < 2 ^ n) by (apply Z.pow_pos_nonneg; lia).
    assert (2 ^ n <= 2 ^ 32) by (apply Z.pow_le_mono_r; lia). lia. }
  rewrite Hfull. unfold disabled.
  apply (clear_bits_fold n _ _ es); try assumption.
  apply Forall_forall. intros e _. apply Z.bits_0.
Qed.

(** ** Texture sizes *)

Lemma double_until_result (fuel : nat) (w target r : Z) :
  0 < w -> double_until fuel w target = Some r ->
  (exists i, 0 <= i /\ r = w * 2 ^ i) /\ target <= r /\ (r = w \/ r < 2 * target).
Proof.
  revert w. induction fuel as [|k IH]; intros w Hw Hrun; [discriminate|].
  cbn [double_until] in Hrun. destruct (w <? target) eqn:Hlt.
  - destruct (INT_MAX <? 2 * w); [discriminate|].
    apply Z.ltb_lt in Hlt.
    destruct (IH (2 * w) ltac:(lia) Hrun) as ((i & Hi & Hr) & Hge & Hmin).
    split; [|split; [exact Hge|]].
    + exists (i + 1). split; [lia|]. rewrite Z.pow_add_r by lia. lia.
    + right. destruct Hmin as [Hmin|Hmin]; lia.
  - injection Hrun as <-. apply Z.ltb_ge in Hlt. split; [|split; [exact Hlt|by left]].
    exists 0. split; [lia|]. lia.
Qed.

Lemma double_until_overflow (fuel : nat) (k target : Z) :
  0 <= k <= 30 -> 2 ^ 30 < target -> double_until fuel (2 ^ k) target = None.
Proof.
  revert k. induction fuel as [|f IH]; intros k Hk Ht; [reflexivity|].
  cbn [double_until].
  assert (Hpow : 2 ^ k <= 2 ^ 30) by (apply Z.pow_le_mono_r; lia).
  rewrite (proj2 (Z.ltb_lt (2 ^ k) target)) by lia.
  destruct (Z.eq_dec k 30) as [->|Hne].
  - reflexivity.
  - assert (H2 : 2 * 2 ^ k = 2 ^ (k + 1)) by (rewrite Z.pow_add_r by lia; lia).
    assert (Hle : 2 ^ (k + 1) <= 2 ^ 30) by (apply Z.pow_le_mono_r; lia).
    rewrite (proj2 (Z.ltb_ge INT_MAX (2 * 2 ^ k))) by (unfold INT_MAX; lia).
    rewrite H2. apply IH; lia.
Qed.

(** X5. [GetTextureSize] returns the size itself for rectangle textures.
    Otherwise each dimension is rounded up to a power of two that is at
    least 64: the result is [64 * 2^i], it is not below the dimension asked
    for, and it is the least such value (64 itself, or less than twice the
    dimension). This holds for dimensions up to 2^30; for a larger one the
    doubling overflows [int] and the call is undefined. *)
Theorem GetTextureSize_rounds_up (size : QSize) (s : OpenGLVideo) :
  (textureRects s = true -> GetTextureSize size s = Some (size, s)) /\
  (textureRects s = false -> width size <= 2 ^ 30 -> height size <= 2 ^ 30 ->
   exists w h i j,
     GetTextureSize size s = Some (mkQSize w h, s) /\
     0 <= i /\ w = 64 * 2 ^ i /\ width size <= w /\ (w = 64 \/ w < 2 * width size) /\
     0 <= j /\ h = 64 * 2 ^ j /\ height size <= h /\ (h = 64 \/ h < 2 * height size)) /\
  (textureRects s = false -> 2 ^ 30 < width size \/ 2 ^ 30 < height size ->
   GetTextureSize size s = None).
Proof.
  unfold GetTextureSize, mbind, M_bind, get, mret, M_ret.
  split; [intros ->; reflexivity|]. split.
  - intros -> Hw Hh.
    destruct (double_until_total (width size) 31 64) as [w Ew]; [lia | exact Hw | lia|].
    destruct (double_until_total (height size) 31 64) as [h Eh]; [lia | exact Hh | lia|].
    rewrite Ew, Eh.
    destruct (double_until_result 32 64 _ _ ltac:(lia) Ew) as ((i & Hi & Hwi) & Hwge & Hwmin).
    destruct (double_until_result 32 64 _ _ ltac:(lia) Eh) as ((j & Hj & Hhj) & Hhge & Hhmin).
    exists w, h, i, j. done.
  - intros -> [Hw|Hh].
    + change 64 with (2 ^ 6). rewrite (double_until_overflow 32 6 (width size)) by lia.
      reflexivity.
    + change 64 with (2 ^ 6). rewrite (double_until_overflow 32 6 (height size)) by lia.
      by destruct (double_until 32 (2 ^ 6) (width size)).
Qed.

(** ** Framebuffers *)

(** X6. [AddFrameBuffer] leaves nothing behind when it fails: the texture and
    framebuffer tables of the context are as before (the texture created
    for a framebuffer that could not be made is deleted again). When it
    succeeds, the texture and the framebuffer are new names, the texture is
    live and the framebuffer is attached to it. (Texture name 0 is not in
    use, as in OpenGL.) *)
Theorem AddFrameBuffer_cleans_up (vid_size : QSize) (s : OpenGLVideo) :
  GL.textures (gl_context s) !! 0 = None ->
  exists r s',
    AddFrameBuffer vid_size s = Some (r, s') /\
    filters s' = filters s /\
    match r with
    | None =>
        GL.textures (gl_context s') = GL.textures (gl_context s) /\
        GL.framebuffers (gl_context s') = GL.framebuffers (gl_context s)
    | Some (framebuffer, texture) =>
        feature_on kGLExtFBufObj s /\
        0 < texture /\ 0 < framebuffer /\
        GL.textures (gl_context s) !! texture = None /\
        GL.framebuffers (gl_context s) !! framebuffer = None /\
        GL.textures (gl_context s') =
          <[texture := GL.mkTexture vid_size false (textureType s) GL.FmtDefault None None]>
            (GL.textures (gl_context s)) /\
        GL.framebuffers (gl_context s') =
          <[framebuffer := texture]> (GL.framebuffers (gl_context s))
    end.
Proof.
  intros Hzero.
  cut (wp False (AddFrameBuffer vid_size) (fun r s' =>
    filters s' = filters s /\
    match r with
    | None =>
        GL.textures (gl_context s') = GL.textures (gl_context s) /\
        GL.framebuffers (gl_context s') = GL.framebuffers (gl_context s)
    | Some (framebuffer, texture) =>
        feature_on kGLExtFBufObj s /\
        0 < texture /\ 0 < framebuffer /\
        GL.textures (gl_context s) !! texture = None /\
        GL.framebuffers (gl_context s) !! framebuffer = None /\
        GL.textures (gl_context s') =
          <[texture := GL.mkTexture vid_size false (textureType s) GL.FmtDefault None None]>
            (GL.textures (gl_context s)) /\
        GL.framebuffers (gl_context s') =
          <[framebuffer := texture]> (GL.framebuffers (gl_context s))
    end) s).
  { intros HW. destruct (wp_elim _ _ _ HW) as (r & s' & Hrun & HQ). eauto. }
  unfold AddFrameBuffer. wp_steps.
  destruct (negb (Z.land (gl_features s) kGLExtFBufObj =? 0)) eqn:Hfbo; cbn [negb];
    [|wp_steps; done].
  wp_steps. st_simpl.
  pose proof (CreateTexture_cases vid_size false (textureType s) GL.FmtDefault (gl_context s))
    as Hcases.
  destruct (GL.CreateTexture vid_size false (textureType s) GL.FmtDefault (gl_context s))
    as [texture c1] eqn:Hct; cbn [fst snd] in *.
  assert (Hfb : GL.framebuffers c1 = GL.framebuffers (gl_context s)).
  { unfold GL.CreateTexture in Hct. destruct (GL.next_outcome (gl_context s)) as [fails c0] eqn:Ho.
    assert (GL.framebuffers c0 = GL.framebuffers (gl_context s)) as <-.
    { unfold GL.next_outcome in Ho. destruct (GL.failures (gl_context s));
        injection Ho as _ <-; done. }
    destruct fails; injection Hct as _ <-; done. }
  destruct Hcases as [[Hz Ht]|(Hp & Hfresh & Ht)].
  - (* no texture: the framebuffer is refused *)
    subst texture. unfold GL.CreateFrameBuffer, GLuint in *. rewrite Ht, Hzero. cbn [fst snd].
    wp_steps. st_simpl. unfold GL.DeleteTexture. gl_simpl.
    rewrite Ht, (delete_id _ _ Hzero). done.
  - 
    unfold GL.CreateFrameBuffer. rewrite Ht, lookup_insert_eq.
    destruct (GL.next_outcome c1) as [fails c2] eqn:Ho2.
    assert (Hc2 : GL.textures c2 = GL.textures c1 /\ GL.framebuffers c2 = GL.framebuffers c1).
    { unfold GL.next_outcome in Ho2. destruct (GL.failures c1); injection Ho2 as _ <-; done. }
    destruct Hc2 as [Ht2 Hfb2].
    destruct fails; cbn [fst snd]; wp_steps; st_simpl.
    + unfold GL.DeleteTexture. gl_simpl. split; [done|].
      rewrite Ht2, Ht, (delete_insert_id _ _ _ Hfresh), Hfb2, Hfb. done.
    + gl_simpl. rewrite Ht2, Ht, Hfb2, Hfb. split; [done|].
      split; [exact Hfbo|]. split; [exact Hp|]. split; [apply fresh_name_pos|].
      split; [exact Hfresh|]. split; [apply fresh_name_fresh|]. done.
Qed.

(** ** Adding a stage *)


(** The stage type cannot be had with the negotiated features: the bicubic
    stage without framebuffer objects and fragment programs, the
    plain-resize stage without framebuffer objects unless it is the first
    stage, the colourspace stage without fragment programs. *)
Definition unsupported (filter : OpenGLFilterType) (s : OpenGLVideo) : Prop :=
  (filter = kGLFilterBicubic /\ ~ full_features s) \/
  (filter = kGLFilterResize /\ ~ feature_on kGLExtFBufObj s /\ filters s ≠ ∅) \/
  (filter = kGLFilterYUV2RGB /\ ~ feature_on kGLExtFragProg s).

Lemma set_filters_id s : set_filters (filters s) s = s.
Proof. by destruct s. Qed.

(** X8. [AddFilter] for a stage type that the features do not support returns
    [false] and only writes to the log: no GL object is created, the graph
    and the helper texture are as before. *)
Theorem AddFilter_unsupported (filter : OpenGLFilterType) (s : OpenGLVideo) :
  filters s !! filter = None -> unsupported filter s ->
  exists log,
    AddFilter filter s = Some (false, set_verbose_log (verbose_log s ++ log) s) /\
    log ≠ [].
Proof.
  intros Habsent Hun.
  cut (wp False (AddFilter filter) (fun b s' =>
         exists log, (b, s') = (false, set_verbose_log (verbose_log s ++ log) s) /\ log ≠ []) s).
  { intros HW. destruct (wp_elim _ _ _ HW) as (b & s' & Hrun & log & [= -> ->] & Hlog). eauto. }
  unfold AddFilter. wp_steps.
  rewrite bool_decide_eq_false_2 by (rewrite Habsent; by intros [? ?]).
  wp_steps.
  destruct Hun as [[-> Hno]|[(-> & Hno & Hne)|[-> Hno]]].
  - (* bicubic *)
    cbn [bool_decide decide_rel andb]. rewrite andb_false_r. cbn [negb andb].
    assert (Hcond : negb (negb (Z.land (gl_features s) kGLExtFragProg =? 0) &&
                          negb (Z.land (gl_features s) kGLExtFBufObj =? 0)) = true).
    { apply negb_true_iff, not_true_is_false. intros Hc. apply Hno.
      apply andb_true_iff in Hc as [? ?]. by split. }
    rewrite Hcond, bool_decide_eq_true_2 by done. cbn [andb].
    wp_steps. eexists. split; [reflexivity|done].
  - (* plain resize, not the first stage *)
    assert (Hfbo : negb (Z.land (gl_features s) kGLExtFBufObj =? 0) = false).
    { apply not_true_is_false. exact Hno. }
    rewrite Hfbo, bool_decide_eq_true_2 by done.
    assert (Hsize : (size (filters s) =? 0)%nat = false).
    { apply Nat.eqb_neq. intros Hz. apply Hne. by apply map_size_empty_iff. }
    rewrite Hsize. cbn [negb andb].
    wp_steps. eexists. split; [reflexivity|done].
  - (* colourspace conversion without fragment programs *)
    assert (Hfrag : negb (Z.land (gl_features s) kGLExtFragProg =? 0) = false).
    { apply not_true_is_false. exact Hno. }
    rewrite Hfrag. cbn [andb negb]. rewrite !andb_false_r.
    rewrite (bool_decide_eq_false_2 (kGLFilterYUV2RGB = kGLFilterBicubic)) by done.
    rewrite (bool_decide_eq_true_2 (kGLFilterYUV2RGB = kGLFilterYUV2RGB)) by done.
    rewrite (bool_decide_eq_false_2 (kGLFilterYUV2RGB = kGLFilterNone)) by done.
    rewrite (bool_decide_eq_false_2 (kGLFilterYUV2RGB = kGLFilterResize)) by done.
    cbn [andb negb]. wp_steps. cbn [andb negb].
    unfold AddFragmentProgram. wp_steps. st_simpl. rewrite Hfrag. cbn [negb].
    wp_steps. cbn [Z.eqb]. wp_steps. cbn [negb]. wp_steps.
    eapply wp_intro; [apply RemoveFilter_absent; st_simpl; exact Habsent|].
    wp_steps. st_simpl. rewrite (delete_id _ _ Habsent).
    eexists. split.
    + rewrite <- !app_assoc.
      rewrite <- (set_filters_id (set_verbose_log _ (set_verbose_log _ (set_verbose_log _ s)))).
      st_simpl. reflexivity.
    + done.
Qed.

(** ** Tearing the object down *)

(** The handles that the stages under [keys] hold in the vector [proj]. *)
Definition stage_handles (proj : OpenGLFilter -> list GLuint)
    (m : gmap OpenGLFilterType (option OpenGLFilter)) (keys : list OpenGLFilterType) :
    list GLuint :=
  concat ((fun k => match m !! k with
                    | Some (Some f) => proj f
                    | _ => []
                    end) <$> keys).

(** Every texture the object holds: the helper texture, the input and the
    reference textures, the intermediate textures of the stages. *)
Definition owned_textures (s : OpenGLVideo) : list GLuint :=
  (if helperTexture s =? 0 then [] else [helperTexture s]) ++
  inputTextures s ++ referenceTextures s ++
  stage_handles frameBufferTextures (filters s) (pipeline (filters s)).

Lemma stage_handles_ext proj m1 m2 keys :
  (forall k, k ∈ keys -> m1 !! k = m2 !! k) ->
  stage_handles proj m1 keys = stage_handles proj m2 keys.
Proof.
  intros Hagree. unfold stage_handles. f_equal. apply list_fmap_ext.
  intros i k Hk. rewrite Hagree; [done|]. by eapply list_elem_of_lookup_2.
Qed.

Lemma release_stage_lookups f c :
  (forall h, GL.textures (release_stage f c) !! h =
             if bool_decide (h ∈ frameBufferTextures f) then None else GL.textures c !! h) /\
  (forall h, GL.framebuffers (release_stage f c) !! h =
             if bool_decide (h ∈ frameBuffers f) then None else GL.framebuffers c !! h) /\
  (forall h, GL.programs (release_stage f c) !! h =
             if bool_decide (h ∈ fragmentPrograms f) then None else GL.programs c !! h).
Proof.
  unfold release_stage. repeat split; intros h.
  - rewrite delete_textures_lookup.
    destruct (delete_framebuffers_other (frameBuffers f)
                (delete_programs (fragmentPrograms f) c)) as [-> _].
    destruct (delete_programs_other (fragmentPrograms f) c) as [-> _]. done.
  - destruct (delete_textures_other (frameBufferTextures f)
                (delete_framebuffers (frameBuffers f)
                   (delete_programs (fragmentPrograms f) c))) as [-> _].
    rewrite delete_framebuffers_lookup.
    destruct (delete_programs_other (fragmentPrograms f) c) as [_ ->]. done.
  - destruct (delete_textures_other (frameBufferTextures f)
                (delete_framebuffers (frameBuffers f)
                   (delete_programs (fragmentPrograms f) c))) as [_ ->].
    destruct (delete_framebuffers_other (frameBuffers f)
                (delete_programs (fragmentPrograms f) c)) as [_ ->].
    apply delete_programs_lookup.
Qed.

Lemma deleted_twice {A} (h : GLuint) (l1 l2 : list GLuint) (x : option A) :
  (if bool_decide (h ∈ l2) then None
   else if bool_decide (h ∈ l1) then None else x) =
  if bool_decide (h ∈ l1 ++ l2) then None else x.
Proof.
  destruct (decide (h ∈ l1)) as [H1|H1], (decide (h ∈ l2)) as [H2|H2].
  - rewrite !bool_decide_eq_true_2; [done|set_solver|done].
  - rewrite (bool_decide_eq_false_2 (h ∈ l2)), !bool_decide_eq_true_2;
      [done|set_solver|done|done].
  - rewrite !bool_decide_eq_true_2; [done|set_solver|done].
  - rewrite !bool_decide_eq_false_2; [done|set_solver|done|done].
Qed.

Lemma Teardown_loop_spec keys :
  forall s,
    NoDup keys ->
    (forall k, k ∈ keys -> exists f, filters s !! k = Some (Some f)) ->
    wp False (Teardown_loop keys)
       (fun _ s' =>
          graph_frame s s' /\ helperTexture s' = helperTexture s /\
          (forall k, filters s' !! k =
                     if bool_decide (k ∈ keys) then None else filters s !! k) /\
          (forall h, GL.textures (gl_context s') !! h =
                     if bool_decide (h ∈ stage_handles frameBufferTextures (filters s) keys)
                     then None else GL.textures (gl_context s) !! h) /\
          (forall h, GL.framebuffers (gl_context s') !! h =
                     if bool_decide (h ∈ stage_handles frameBuffers (filters s) keys)
                     then None else GL.framebuffers (gl_context s) !! h) /\
          (forall h, GL.programs (gl_context s') !! h =
                     if bool_decide (h ∈ stage_handles fragmentPrograms (filters s) keys)
                     then None else GL.programs (gl_context s) !! h)) s.
Proof.
  induction keys as [|k keys IH]; intros s Hnd Hall; cbn [Teardown_loop].
  - wp_steps. split; [frame|]. split; [done|]. by repeat split.
  - apply NoDup_cons in Hnd as [Hk Hnd].
    destruct (Hall k ltac:(left)) as [f Hf].
    apply wp_bind. eapply wp_intro; [apply (RemoveFilter_present _ _ _ Hf)|].
    wp_steps. st_simpl. rewrite delete_insert_eq.
    set (s1 := set_filters _ _).
    assert (Hrest : forall k', k' ∈ keys -> filters s1 !! k' = filters s !! k').
    { intros k' Hk'. subst s1. st_simpl. apply lookup_delete_ne. by intros ->. }
    eapply wp_mono.
    { apply (IH s1 Hnd). intros k' Hk'. rewrite (Hrest k' Hk'). apply Hall. by right. }
    intros ? s' (Hf' & Hh' & Hm' & Ht' & Hb' & Hp'). cbv beta.
    destruct (release_stage_lookups f (gl_context s)) as (Rt & Rb & Rp).
    split; [subst s1; frame|]. split; [subst s1; st_simpl_in Hh'; exact Hh'|].
    split; [|split; [|split]].
    + intros k'. rewrite Hm'. subst s1. st_simpl.
      destruct (decide (k' = k)) as [->|Hne].
      * rewrite lookup_delete_eq, (bool_decide_eq_true_2 (k ∈ k :: keys)) by left.
        by destruct (bool_decide _).
      * rewrite lookup_delete_ne by done.
        apply (f_equal (fun b : bool => if b then None else filters s !! k')).
        apply bool_decide_ext. rewrite elem_of_cons. naive_solver.
    + intros h. rewrite Ht', (stage_handles_ext _ _ (filters s) keys Hrest).
      subst s1. st_simpl. rewrite Rt.
      change (stage_handles ?p (filters s) (k :: keys))
        with (match filters s !! k with Some (Some f) => p f | _ => [] end ++
              stage_handles p (filters s) keys).
      rewrite Hf. apply deleted_twice.
    + intros h. rewrite Hb', (stage_handles_ext _ _ (filters s) keys Hrest).
      subst s1. st_simpl. rewrite Rb.
      change (stage_handles ?p (filters s) (k :: keys))
        with (match filters s !! k with Some (Some f) => p f | _ => [] end ++
              stage_handles p (filters s) keys).
      rewrite Hf. apply deleted_twice.
    + intros h. rewrite Hp', (stage_handles_ext _ _ (filters s) keys Hrest).
      subst s1. st_simpl. rewrite Rp.
      change (stage_handles ?p (filters s) (k :: keys))
        with (match filters s !! k with Some (Some f) => p f | _ => [] end ++
              stage_handles p (filters s) keys).
      rewrite Hf. apply deleted_twice.
Qed.

(** X9. [Teardown] on a graph without null entries returns and releases
    everything the object holds: the stage map, the input and the reference
    vectors are empty and the helper texture is 0 afterwards; every texture
    the object held, and every framebuffer and fragment program of a stage,
    is no longer live in the context; and no other object of the context is
    touched. *)
Theorem Teardown_releases_everything (s : OpenGLVideo) :
  (forall k, filters s !! k ≠ Some None) ->
  exists s',
    Teardown s = Some (tt, s') /\
    filters s' = ∅ /\ inputTextures s' = [] /\ referenceTextures s' = [] /\
    helperTexture s' = 0 /\
    (forall h, GL.textures (gl_context s') !! h =
               if bool_decide (h ∈ owned_textures s) then None
               else GL.textures (gl_context s) !! h) /\
    (forall h, GL.framebuffers (gl_context s') !! h =
               if bool_decide (h ∈ stage_handles frameBuffers (filters s)
                                     (pipeline (filters s)))
               then None else GL.framebuffers (gl_context s) !! h) /\
    (forall h, GL.programs (gl_context s') !! h =
               if bool_decide (h ∈ stage_handles fragmentPrograms (filters s)
                                     (pipeline (filters s)))
               then None else GL.programs (gl_context s) !! h).
Proof.
  intros Hnonull.
  cut (wp False Teardown (fun _ s' =>
    filters s' = ∅ /\ inputTextures s' = [] /\ referenceTextures s' = [] /\
    helperTexture s' = 0 /\
    (forall h, GL.textures (gl_context s') !! h =
               if bool_decide (h ∈ owned_textures s) then None
               else GL.textures (gl_context s) !! h) /\
    (forall h, GL.framebuffers (gl_context s') !! h =
               if bool_decide (h ∈ stage_handles frameBuffers (filters s)
                                     (pipeline (filters s)))
               then None else GL.framebuffers (gl_context s) !! h) /\
    (forall h, GL.programs (gl_context s') !! h =
               if bool_decide (h ∈ stage_handles fragmentPrograms (filters s)
                                     (pipeline (filters s)))
               then None else GL.programs (gl_context s) !! h)) s).
  { intros HW. destruct (wp_elim _ _ _ HW) as ([] & s' & Hrun & HQ). eauto. }
  unfold Teardown. wp_steps.
  apply (wp_mono _ _ (fun _ s1 =>
           s1 = set_gl_context (delete_textures
                                  (if helperTexture s =? 0 then [] else [helperTexture s])
                                  (gl_context s)) s)).
  { destruct (helperTexture s =? 0); cbn [negb]; wp_steps;
      unfold delete_textures; cbn [foldl]; [by rewrite set_gl_context_id|reflexivity]. }
  intros ? s1 ->. wp_steps. st_simpl.
  eapply wp_intro; [apply DeleteTextures_run|]. wp_steps. st_simpl.
  eapply wp_intro; [apply DeleteTextures_run|]. wp_steps. st_simpl.
  eapply wp_mono.
  { apply Teardown_loop_spec; [apply NoDup_pipeline|].
    intros k Hk. st_simpl. apply elem_of_pipeline in Hk as [[f|] Hf]; [eauto|].
    by destruct (Hnonull k). }
  intros ? s' (Hf' & Hh' & Hm' & Ht' & Hb' & Hp'). cbv beta.
  st_simpl_in Hh'. st_simpl_in Hm'. st_simpl_in Ht'. st_simpl_in Hb'. st_simpl_in Hp'.
  apply graph_frame_fields in Hf'. st_simpl_in Hf'.
  split; [|split; [tauto|split; [tauto|split; [exact Hh'|]]]].
  - apply map_eq. intros k. rewrite Hm', lookup_empty.
    case_bool_decide as Hk; [done|].
    destruct (filters s !! k) as [o|] eqn:E; [|done].
    exfalso. apply Hk, elem_of_pipeline. eauto.
  - split; [|split].
    + intros h. rewrite Ht', !delete_textures_lookup. unfold owned_textures.
      rewrite <- !deleted_twice. done.
    + intros h. rewrite Hb'.
      destruct (delete_textures_other (referenceTextures s)
                  (delete_textures (inputTextures s)
                     (delete_textures (if helperTexture s =? 0 then []
                                       else [helperTexture s]) (gl_context s)))) as [-> _].
      destruct (delete_textures_other (inputTextures s)
                  (delete_textures (if helperTexture s =? 0 then []
                                    else [helperTexture s]) (gl_context s))) as [-> _].
      destruct (delete_textures_other (if helperTexture s =? 0 then []
                                       else [helperTexture s]) (gl_context s)) as [-> _].
      done.
    + intros h. rewrite Hp'.
      destruct (delete_textures_other (referenceTextures s)
                  (delete_textures (inputTextures s)
                     (delete_textures (if helperTexture s =? 0 then []
                                       else [helperTexture s]) (gl_context s)))) as [_ ->].
      destruct (delete_textures_other (inputTextures s)
                  (delete_textures (if helperTexture s =? 0 then []
                                    else [helperTexture s]) (gl_context s))) as [_ ->].
      destruct (delete_textures_other (if helperTexture s =? 0 then []
                                       else [helperTexture s]) (gl_context s)) as [_ ->].
      done.
Qed.

(** ** A full turn of the reference ring *)

Lemma run_operations_app (os1 os2 : list Operation) (s : OpenGLVideo) :
  run_operations (os1 ++ os2) s =
  match run_operations os1 s with
  | Some (_, s1) => run_operations os2 s1
  | None => None
  end.
Proof.
  revert s. induction os1 as [|o os1 IH]; intros s; [reflexivity|].
  cbn [app run_operations]. unfold mbind, M_bind.
  destruct (run_operation o s) as [[[] s1]|]; [apply IH|reflexivity].
Qed.

(** One rotation of the list "input texture, then ring". *)
Definition rotr (l : list GLuint) : list GLuint :=
  match last l with
  | Some x => x :: removelast l
  | None => l
  end.

Lemma rotr_drop_take (l : list GLuint) (a : nat) :
  (a < length l)%nat ->
  rotr (drop (S a) l ++ take (S a) l) = drop a l ++ take a l.
Proof.
  intros Ha. destruct (lookup_lt_is_Some_2 l a Ha) as [x Hx].
  rewrite (take_S_r l a x Hx), app_assoc. unfold rotr.
  rewrite last_snoc, removelast_last. by rewrite (drop_S l x a Hx).
Qed.

(** The object with its handles laid out as [l] and [refsNeeded] at [r]. *)
Definition with_handles (l rest : list GLuint) (r : Z) (s : OpenGLVideo) : OpenGLVideo :=
  set_inputTextures (take 1 l ++ rest) (set_referenceTextures (tail l) (set_refsNeeded r s)).

Definition count_down (r : Z) : Z := if 0 <? r then r - 1 else r.

Lemma RotateTextures_with_handles (l rest : list GLuint) (r : Z) (s : OpenGLVideo) :
  (3 <= length l)%nat ->
  RotateTextures (with_handles l rest r s) =
  Some (tt, with_handles (rotr l) rest (count_down r) s).
Proof.
  intros Hlen. destruct l as [|input refs]; [simpl in Hlen; lia|].
  destruct (RotateTextures_rotates (with_handles (input :: refs) rest r s) input rest)
    as (tmp & Hlast & Hrun).
  { unfold with_handles. st_simpl. simpl in *. lia. }
  { reflexivity. }
  rewrite Hrun. unfold with_handles in *. st_simpl. st_simpl_in Hlast.
  cbn [tail take app] in *. unfold rotr.
  destruct refs as [|r1 refs]; [discriminate|].
  change (last (input :: r1 :: refs)) with (last (r1 :: refs)). rewrite Hlast.
  cbn [take tail app]. destruct s; reflexivity.
Qed.

Lemma rotations (j : nat) (l rest : list GLuint) (s : OpenGLVideo) :
  (3 <= length l)%nat -> (j <= length l)%nat ->
  run_operations (replicate j DoRotateTextures) (with_handles l rest (refsNeeded s) s) =
  Some (tt, with_handles (drop (length l - j) l ++ take (length l - j) l) rest
              (Nat.iter j count_down (refsNeeded s)) s).
Proof.
  intros Hlen. induction j as [|j IH]; intros Hj.
  - rewrite Nat.sub_0_r, drop_all, take_ge by lia. reflexivity.
  - rewrite replicate_S_end, run_operations_app, IH by lia.
    cbn [run_operations run_operation]. unfold mbind, M_bind.
    rewrite RotateTextures_with_handles by (rewrite length_app, length_drop, length_take; lia).
    replace (length l - j)%nat with (S (length l - S j)) by lia.
    rewrite rotr_drop_take by lia. reflexivity.
Qed.

(** X10. With [n >= 2] reference textures, [n + 1] calls of [RotateTextures]
    bring every handle back to its place: the input texture and the ring
    are as before the first call. Only [refsNeeded] has moved, one step
    down per call while it was positive. *)
Theorem RotateTextures_full_turn (s : OpenGLVideo) (input : GLuint) (rest : list GLuint) :
  (2 <= length (referenceTextures s))%nat ->
  inputTextures s = input :: rest ->
  run_operations (replicate (S (length (referenceTextures s))) DoRotateTextures) s =
  Some (tt, set_refsNeeded
              (Nat.iter (S (length (referenceTextures s))) count_down (refsNeeded s)) s).
Proof.
  intros Hlen Hin.
  assert (Hs : s = with_handles (input :: referenceTextures s) rest (refsNeeded s) s).
  { unfold with_handles.
    change (take 1 (input :: referenceTextures s) ++ rest) with (input :: rest).
    cbn [tail]. rewrite <- Hin. by destruct s. }
  rewrite Hs at 2.
  rewrite (rotations (S (length (referenceTextures s))) (input :: referenceTextures s) rest s)
    by (simpl; lia).
  cbn [length]. rewrite Nat.sub_diag. cbn [drop take]. rewrite app_nil_r.
  unfold with_handles.
  change (take 1 (input :: referenceTextures s) ++ rest) with (input :: rest).
  cbn [tail]. rewrite <- Hin. by destruct s.
Qed.

(** ** Frame upload *)

Lemma locked_update (input : GLuint) (data : GL.Packing * Z) (s : OpenGLVideo) :
  set_gl_context
    (GL.DoneCurrent (GL.UpdateTexture input data (GL.MakeCurrent (gl_context s))))
    (set_inputUpdated true
       (set_gl_context (GL.UpdateTexture input data (GL.MakeCurrent (gl_context s)))
          (set_gl_context (GL.MakeCurrent (gl_context s)) s))) =
  set_inputUpdated true (set_gl_context (GL.UpdateTexture input data (gl_context s)) s).
Proof. destruct s as [[]]. reflexivity. Qed.

Lemma accepted_condition (frame : VideoFrame) (s : OpenGLVideo) :
  accepted s frame ->
  negb (frame_width frame =? width (actual_video_dim s)) ||
  negb (frame_height frame =? height (actual_video_dim s)) ||
  (frame_width frame <? 1) || (frame_height frame <? 1) ||
  negb (codec frame =? FMT_YV12) = false.
Proof.
  intros (Hw & Hh & Hw1 & Hh1 & Hc).
  rewrite <- Hw, <- Hh, Hc, !Z.eqb_refl.
  rewrite (proj2 (Z.ltb_ge (frame_width frame) 1)) by lia.
  rewrite (proj2 (Z.ltb_ge (frame_height frame) 1)) by lia. reflexivity.
Qed.

(** X11. With hardware deinterlacing off, an accepted frame goes to the first
    input texture and nowhere else: the only changes are the content of
    that texture and [inputUpdated]; the reference textures and
    [refsNeeded] are not touched. *)
Theorem UpdateInputFrame_plain_upload (frame : VideoFrame) (soft_bob : bool)
    (input : GLuint) (rest : list GLuint) (s : OpenGLVideo) :
  hardwareDeinterlacing s = false ->
  accepted s frame ->
  inputTextures s = input :: rest ->
  is_Some (GL.textures (gl_context s) !! input) ->
  UpdateInputFrame frame soft_bob s =
  Some (tt, set_inputUpdated true
              (set_gl_context
                 (GL.UpdateTexture input (uploaded s (frame, soft_bob)) (gl_context s)) s)).
Proof.
  intros Hd Hacc Hin [t Ht]. apply wp_eq.
  unfold UpdateInputFrame, locked. wp_steps. st_simpl.
  rewrite (accepted_condition frame s Hacc). wp_steps. st_simpl. rewrite Hd. cbn [when].
  wp_steps. st_simpl. rewrite Hin. wp_steps. st_simpl.
  unfold GL.GetTextureBuffer, GL.MakeCurrent at 1. gl_simpl. rewrite Ht.
  wp_steps. st_simpl. rewrite locked_update. reflexivity.
Qed.

Lemma RotateTextures_context (c : GL.Context) (s : OpenGLVideo) :
  RotateTextures (set_gl_context c s) =
  match RotateTextures s with
  | Some (_, s1) => Some (tt, set_gl_context c s1)
  | None => None
  end.
Proof.
  unfold RotateTextures, mbind, M_bind, get. st_simpl.
  destruct (_ <? _)%nat; [reflexivity|].
  unfold when, modify, mret, M_ret, undefined. cbv beta. st_simpl.
  destruct (0 <? refsNeeded s); simpl; destruct (last (referenceTextures s)); simpl;
    destruct (inputTextures s); reflexivity.
Qed.

Lemma RotateTextures_same_context (s s1 : OpenGLVideo) :
  RotateTextures s = Some (tt, s1) -> gl_context s1 = gl_context s.
Proof.
  unfold RotateTextures, mbind, M_bind, get. st_simpl.
  destruct (_ <? _)%nat; [by intros [= <-]|].
  unfold when, modify, mret, M_ret, undefined. cbv beta. st_simpl.
  destruct (0 <? refsNeeded s); simpl; destruct (last (referenceTextures s)); simpl;
    destruct (inputTextures s); simpl; try discriminate; by intros [= <-].
Qed.

(** X12. The ring is rotated before the texture buffer is asked for: when the
    texture that the rotation has made the input cannot be mapped, the
    frame is dropped ([inputUpdated] is not set) but the rotation, and the
    step of [refsNeeded] that goes with it, stay. *)
Theorem UpdateInputFrame_unmapped (frame : VideoFrame) (soft_bob : bool)
    (s s1 : OpenGLVideo) (input : GLuint) (rest : list GLuint) :
  hardwareDeinterlacing s = true ->
  accepted s frame ->
  RotateTextures s = Some (tt, s1) ->
  inputTextures s1 = input :: rest ->
  GL.textures (gl_context s) !! input = None ->
  UpdateInputFrame frame soft_bob s = Some (tt, s1).
Proof.
  intros Hd Hacc Hrot Hin Hnone. apply wp_eq.
  unfold UpdateInputFrame, locked. wp_steps. st_simpl.
  rewrite (accepted_condition frame s Hacc). wp_steps. st_simpl. rewrite Hd. cbn [when].
  eapply wp_intro; [rewrite RotateTextures_context, Hrot; reflexivity|].
  pose proof (RotateTextures_same_context s s1 Hrot) as Hctx.
  wp_steps. st_simpl. rewrite Hin. wp_steps. st_simpl.
  unfold GL.GetTextureBuffer, GL.MakeCurrent at 1. gl_simpl.
  rewrite Hnone. wp_steps. st_simpl. f_equal. rewrite <- Hctx.
  destruct s1 as [[]]. reflexivity.
Qed.

(** ** Taking the deinterlacer down *)

(** The fragment programs of the colourspace stage that
    [TearDownDeinterlacer] leaves and those it deletes: it pops the last
    two of three programs, or the last of two; a vector of any other length
    is left alone. *)
Definition deinterlacer_programs_kept (programs : list GLuint) : list GLuint :=
  if (length programs =? 3)%nat || (length programs =? 2)%nat
  then take 1 programs else programs.

Definition deinterlacer_programs_dropped (programs : list GLuint) : list GLuint :=
  if (length programs =? 3)%nat || (length programs =? 2)%nat
  then drop 1 programs else [].

Lemma delete_program_lookup (p h : GLuint) (c : GL.Context) :
  GL.programs (GL.DeleteFragmentProgram p c) !! h =
  if bool_decide (h ∈ [p]) then None else GL.programs c !! h.
Proof. apply (delete_programs_lookup [p] c h). Qed.

(** [TearDownDeinterlacer] with a colourspace stage: what is left, and that
    nothing but the stage map, the context, the ring and [refsNeeded] is
    assigned. *)
Lemma TearDownDeinterlacer_run (s : OpenGLVideo) (f : OpenGLFilter) :
  filters s !! kGLFilterYUV2RGB = Some (Some f) ->
  wp False TearDownDeinterlacer
     (fun _ s' =>
       filters s' =
         <[kGLFilterYUV2RGB :=
             Some (set_fragmentPrograms (deinterlacer_programs_kept (fragmentPrograms f)) f)]>
           (filters s) /\
       referenceTextures s' = [] /\ refsNeeded s' = 0 /\
       inputTextures s' = inputTextures s /\
       hardwareDeinterlacer s' = hardwareDeinterlacer s /\
       (forall h, GL.programs (gl_context s') !! h =
                  if bool_decide (h ∈ deinterlacer_programs_dropped (fragmentPrograms f))
                  then None else GL.programs (gl_context s) !! h) /\
       (forall h, GL.textures (gl_context s') !! h =
                  if bool_decide (h ∈ referenceTextures s) then None
                  else GL.textures (gl_context s) !! h) /\
       GL.framebuffers (gl_context s') = GL.framebuffers (gl_context s) /\
       exists c' m',
         s' = set_refsNeeded 0 (set_referenceTextures [] (set_filters m' (set_gl_context c' s)))) s.
Proof.
  intros Hf. destruct f as [programs n bufs texs out].
  set (f := mkOpenGLFilter programs n bufs texs out) in *.
  change (fragmentPrograms f) with programs.
  unfold TearDownDeinterlacer. wp_steps.
  rewrite Hf, bool_decide_eq_true_2 by eauto. cbn [negb].
  apply wp_bind. eapply wp_the_filter; [exact Hf|].
  assert (Hfinish : forall s0,
    filters s0 =
      <[kGLFilterYUV2RGB :=
          Some (set_fragmentPrograms (deinterlacer_programs_kept programs) f)]>
        (filters s) ->
    GL.textures (gl_context s0) = GL.textures (gl_context s) ->
    GL.framebuffers (gl_context s0) = GL.framebuffers (gl_context s) ->
    (forall h, GL.programs (gl_context s0) !! h =
               if bool_decide (h ∈ deinterlacer_programs_dropped programs)
               then None else GL.programs (gl_context s) !! h) ->
    referenceTextures s0 = referenceTextures s ->
    inputTextures s0 = inputTextures s ->
    hardwareDeinterlacer s0 = hardwareDeinterlacer s ->
    (exists c m, s0 = set_filters m (set_gl_context c s)) ->
    wp False
      (refs ← get referenceTextures; DeleteTextures refs;;
       modify (set_referenceTextures []);; modify (set_refsNeeded 0))
      (fun _ s' =>
         filters s' =
           <[kGLFilterYUV2RGB :=
               Some (set_fragmentPrograms
                       (deinterlacer_programs_kept programs) f)]>
             (filters s) /\
         referenceTextures s' = [] /\ refsNeeded s' = 0 /\
         inputTextures s' = inputTextures s /\
         hardwareDeinterlacer s' = hardwareDeinterlacer s /\
         (forall h, GL.programs (gl_context s') !! h =
                    if bool_decide (h ∈ deinterlacer_programs_dropped programs)
                    then None else GL.programs (gl_context s) !! h) /\
         (forall h, GL.textures (gl_context s') !! h =
                    if bool_decide (h ∈ referenceTextures s) then None
                    else GL.textures (gl_context s) !! h) /\
         GL.framebuffers (gl_context s') = GL.framebuffers (gl_context s) /\
         exists c' m',
           s' = set_refsNeeded 0
                  (set_referenceTextures [] (set_filters m' (set_gl_context c' s))))
      s0).
  { intros s0 Hm Ht Hb Hp Hr Hi Hd (c0 & m0 & Hshape). wp_steps.
    eapply wp_intro; [apply DeleteTextures_run|]. wp_steps. st_simpl.
    do 5 (split; [done|]).
    destruct (delete_textures_other (referenceTextures s0) (gl_context s0)) as [-> ->].
    split; [exact Hp|]. split; [|split; [exact Hb|]].
    - intros h. by rewrite delete_textures_lookup, Ht, Hr.
    - eexists _, m0. rewrite Hshape. st_simpl. reflexivity. }
  subst f. st_simpl.
  destruct programs as [|p0 [|p1 [|p2 [|p3 progs]]]].
  + (* no program *)
    unfold when. cbn [length Nat.eqb]. wp_steps.
    eapply wp_the_filter; [exact Hf|]. st_simpl. cbn [length Nat.eqb].
    apply wp_bind, wp_ret.
    apply Hfinish; try done; [rewrite insert_id; [done|]; exact Hf|].
    exists (gl_context s), (filters s). by destruct s.
  + unfold when. cbn [length Nat.eqb]. wp_steps.
    eapply wp_the_filter; [exact Hf|]. st_simpl. cbn [length Nat.eqb].
    apply wp_bind, wp_ret.
    apply Hfinish; try done; [rewrite insert_id; [done|]; exact Hf|].
    exists (gl_context s), (filters s). by destruct s.
  + (* two programs: the second goes *)
    unfold when. cbn [length Nat.eqb]. wp_steps.
    eapply wp_the_filter; [exact Hf|]. st_simpl. cbn [length Nat.eqb].
    change ([p0; p1] !! 1%nat) with (Some p1). wp_steps.
    eapply wp_update_filter; [st_simpl; exact Hf|]. st_simpl.
    cbn [removelast].
    apply Hfinish; try done.
    - intros h. unfold deinterlacer_programs_dropped. cbn [length Nat.eqb orb drop].
      apply delete_program_lookup.
    - eexists _, _. reflexivity.
  + (* three programs: the third and the second go *)
    unfold when. cbn [length Nat.eqb].
    change ([p0; p1; p2] !! 2%nat) with (Some p2). wp_steps.
    eapply wp_update_filter; [st_simpl; exact Hf|].
    st_simpl. cbn [removelast].
    apply wp_bind. eapply wp_the_filter; [st_simpl; apply lookup_insert_eq|].
    st_simpl. cbn [length Nat.eqb]. change ([p0; p1] !! 1%nat) with (Some p1). wp_steps.
    eapply wp_update_filter; [st_simpl; apply lookup_insert_eq|]. st_simpl.
    cbn [removelast]. rewrite insert_insert_eq.
    apply Hfinish; try done.
    - intros h. st_simpl. unfold deinterlacer_programs_dropped.
      cbn [length Nat.eqb orb drop].
      rewrite delete_program_lookup, delete_program_lookup.
      rewrite (deleted_twice h [p2] [p1]).
      apply (f_equal (fun b : bool => if b then None else GL.programs (gl_context s) !! h)).
      apply bool_decide_ext. set_solver.
    - eexists _, _. by destruct s.
  + (* more than three: none goes *)
    unfold when. cbn [length Nat.eqb]. wp_steps.
    eapply wp_the_filter; [exact Hf|]. st_simpl. cbn [length Nat.eqb].
    apply wp_bind, wp_ret.
    apply Hfinish; try done; [rewrite insert_id; [done|]; exact Hf|].
    exists (gl_context s), (filters s). by destruct s.
Qed.

(** X13. Without a colourspace stage [TearDownDeinterlacer] returns at once:
    nothing changes, the reference textures included. With one, it deletes
    the deinterlacing programs of the stage and every reference texture,
    empties the ring and sets [refsNeeded] to 0; the buffers of the stage,
    the other stages, the input textures and the name in
    [hardwareDeinterlacer] stay as they are. *)
Theorem TearDownDeinterlacer_effect (s : OpenGLVideo) :
  (filters s !! kGLFilterYUV2RGB = None -> TearDownDeinterlacer s = Some (tt, s)) /\
  (forall f,
     filters s !! kGLFilterYUV2RGB = Some (Some f) ->
     exists s',
       TearDownDeinterlacer s = Some (tt, s') /\
       filters s' =
         <[kGLFilterYUV2RGB :=
             Some (set_fragmentPrograms (deinterlacer_programs_kept (fragmentPrograms f)) f)]>
           (filters s) /\
       referenceTextures s' = [] /\ refsNeeded s' = 0 /\
       inputTextures s' = inputTextures s /\
       hardwareDeinterlacer s' = hardwareDeinterlacer s /\
       (forall h, GL.programs (gl_context s') !! h =
                  if bool_decide (h ∈ deinterlacer_programs_dropped (fragmentPrograms f))
                  then None else GL.programs (gl_context s) !! h) /\
       (forall h, GL.textures (gl_context s') !! h =
                  if bool_decide (h ∈ referenceTextures s) then None
                  else GL.textures (gl_context s) !! h) /\
       GL.framebuffers (gl_context s') = GL.framebuffers (gl_context s)).
Proof.
  split.
  - intros Hk. unfold TearDownDeinterlacer, mbind, M_bind, filters_count, get.
    rewrite Hk, bool_decide_eq_false_2 by (by intros [? ?]). reflexivity.
  - intros f Hf.
    destruct (wp_elim _ _ _ (TearDownDeinterlacer_run s f Hf))
      as ([] & s' & Hrun & Hm & Hr & Hn & Hi & Hd & Hp & Ht & Hb & _).
    exists s'. split; [exact Hrun|]. do 7 (split; [assumption|]). exact Hb.
Qed.

(** ** Installing a deinterlacer: the early returns *)

(** X14. [AddDeinterlacer] gives up before anything is touched when fragment
    programs are not available or when there is no colourspace stage: it
    returns [false] and the object is as before but for the one message
    logged.
    When the deinterlacer asked for is the one already installed it returns
    [true] and changes nothing at all. The context lock taken on the way is
    released in each case. *)
Theorem AddDeinterlacer_early_returns (deinterlacer : string) (s : OpenGLVideo) :
  (~ feature_on kGLExtFragProg s ->
   AddDeinterlacer deinterlacer s =
   Some (false,
         set_verbose_log
           (verbose_log s ++
            ["GLVid, Error: GL_ARB_fragment_program not available. for OpenGL deinterlacing."])
           s)) /\
  (feature_on kGLExtFragProg s -> filters s !! kGLFilterYUV2RGB = None ->
   exists msg,
     AddDeinterlacer deinterlacer s =
     Some (false, set_verbose_log (verbose_log s ++ [msg]) s)) /\
  (feature_on kGLExtFragProg s -> is_Some (filters s !! kGLFilterYUV2RGB) ->
   hardwareDeinterlacer s = deinterlacer ->
   AddDeinterlacer deinterlacer s = Some (true, s)).
Proof.
  unfold feature_on. repeat split.
  - intros Hno. apply not_true_is_false in Hno.
    apply wp_eq. unfold AddDeinterlacer. wp_steps. rewrite Hno. cbn [negb]. wp_steps.
    reflexivity.
  - intros Hfrag Hk.
    exists "GLVid, Error: No YUV2RGB filter stage for OpenGL deinterlacing.".
    apply wp_eq. unfold AddDeinterlacer. wp_steps. rewrite Hfrag.
    cbn [negb]. unfold locked. wp_steps. st_simpl.
    rewrite Hk, bool_decide_eq_false_2 by (by intros [? ?]). cbn [negb].
    wp_steps. st_simpl. f_equal. destruct s as [[]]. reflexivity.
  - intros Hfrag Hk <-. apply wp_eq. unfold AddDeinterlacer. wp_steps. rewrite Hfrag.
    cbn [negb]. unfold locked. wp_steps. st_simpl.
    rewrite bool_decide_eq_true_2 by exact Hk. cbn [negb].
    rewrite String.eqb_refl. wp_steps. f_equal. apply locked_release.
Qed.

(** ** Reconciling a reconciled graph *)

(** The walk of [OptimiseFilters] finds every stage as it wants it. *)
Fixpoint settled_walk (m : gmap OpenGLFilterType (option OpenGLFilter))
    (its : list OpenGLFilterType) (needed : Z) (last : bool) : Prop :=
  match its with
  | [] => True
  | k :: rest =>
      exists f, m !! k = Some (Some f) /\ stage_wf f /\
                (if last then outputBuffer f = kDefaultBuffer
                 else outputBuffer f = kFrameBufferObject /\
                      count (frameBuffers f) = needed) /\
                settled_walk m rest (numInputs f) false
  end.

Lemma settled_walk_no_growth m its needed last :
  settled_walk m its needed last -> no_growth m its needed last.
Proof.
  revert needed last. induction its as [|k rest IH]; intros needed last; [done|].
  cbn [settled_walk no_growth]. intros (f & Hf & _ & Hcond & Hrest).
  exists f. split; [exact Hf|]. split; [|by apply IH].
  destruct last; [by left|right]. destruct Hcond as [_ ->]. lia.
Qed.

Lemma settled_walk_fixed m m' its needed last :
  settled_walk m its needed last ->
  loop_post m m' true its needed last ->
  forall k, k ∈ its -> m' !! k = m !! k.
Proof.
  revert needed last. induction its as [|k rest IH]; intros needed last Hs Hp k' Hk'.
  { by apply elem_of_nil in Hk'. }
  cbn [settled_walk loop_post] in Hs, Hp.
  destruct Hs as (g & Hg & Hwf & Hcond & Hsrest).
  destruct Hp as (f & f' & Hf & Hf' & Hr & Hprest).
  rewrite Hg in Hf. injection Hf as <-.
  apply elem_of_cons in Hk' as [->|Hk']; [|by eapply IH].
  rewrite Hf', Hg. do 2 f_equal.
  destruct Hr as (Hn & Hprog & Hwf' & Hpb & Hpt & Hl).
  assert (Hb : frameBuffers f' = frameBuffers g /\
               frameBufferTextures f' = frameBufferTextures g /\
               outputBuffer f' = outputBuffer g).
  { destruct last.
    - destruct Hl as (-> & -> & ->). by rewrite Hcond.
    - destruct Hl as (_ & _ & Hok). destruct (Hok eq_refl) as [Hc ->].
      destruct Hcond as [-> Hcg].
      assert (Hlb : length (frameBuffers f') = length (frameBuffers g)).
      { unfold count in *. lia. }
      assert (Hlt : length (frameBufferTextures f') = length (frameBufferTextures g)).
      { destruct Hwf as [<- _]. destruct Hwf' as [<- _]. exact Hlb. }
      split; [|split; [|done]].
      + destruct Hpb as [Hp|Hp].
        * symmetry. apply (prefix_length_eq _ _ Hp). lia.
        * apply (prefix_length_eq _ _ Hp). lia.
      + destruct Hpt as [Hp|Hp].
        * symmetry. apply (prefix_length_eq _ _ Hp). lia.
        * apply (prefix_length_eq _ _ Hp). lia. }
  destruct Hb as (Hb & Ht & Ho). destruct f', g. cbn in *. congruence.
Qed.

Lemma reconciled_settled_upto m (j : nat) :
  graph_wf m -> reconciled m ->
  forall k needed last,
    pipeline m !! j = Some k ->
    match pipeline m !! S j with
    | Some k' => last = false /\ exists g, m !! k' = Some (Some g) /\ needed = numInputs g
    | None => last = true
    end ->
    settled_walk m (reverse (take (S j) (pipeline m))) needed last.
Proof.
  intros Hwf Hrec. induction j as [|j IH]; intros k needed last Hk Hnext.
  - rewrite (take_S_r _ _ _ Hk), reverse_snoc. cbn [take reverse settled_walk].
    assert (Hin : k ∈ pipeline m) by (by eapply list_elem_of_lookup_2).
    apply elem_of_pipeline in Hin as [o Ho]. destruct (Hwf k o Ho) as (f & -> & Hf).
    exists f. split; [exact Ho|]. split; [exact Hf|]. split; [|done].
    pose proof (Hrec 0%nat k f Hk Ho) as Hr.
    destruct (pipeline m !! 1%nat) as [k'|].
    + destruct Hnext as (-> & g & Hg & ->). destruct Hr as (g' & Hg' & Hout & Hc & _).
      rewrite Hg in Hg'. injection Hg' as <-. done.
    + subst last. exact Hr.
  - rewrite (take_S_r _ _ _ Hk), reverse_snoc. cbn [settled_walk].
    assert (Hin : k ∈ pipeline m) by (by eapply list_elem_of_lookup_2).
    apply elem_of_pipeline in Hin as [o Ho]. destruct (Hwf k o Ho) as (f & -> & Hf).
    exists f. split; [exact Ho|]. split; [exact Hf|]. split.
    + pose proof (Hrec (S j) k f Hk Ho) as Hr.
      destruct (pipeline m !! S (S j)) as [k'|].
      * destruct Hnext as (-> & g & Hg & ->). destruct Hr as (g' & Hg' & Hout & Hc & _).
        rewrite Hg in Hg'. injection Hg' as <-. done.
      * subst last. exact Hr.
    + destruct (lookup_lt_is_Some_2 (pipeline m) j) as [kj Hkj].
      { apply lookup_lt_Some in Hk. lia. }
      apply (IH kj); [exact Hkj|]. rewrite Hk. split; [done|]. eauto.
Qed.

Lemma reconciled_settled m :
  graph_wf m -> reconciled m -> settled_walk m (reverse (pipeline m)) 1 true.
Proof.
  intros Hwf Hrec. destruct (pipeline m) as [|k0 p] eqn:Hp; [done|].
  destruct (lookup_lt_is_Some_2 (pipeline m) (length p)) as [k Hk].
  { rewrite Hp. simpl. lia. }
  pose proof (reconciled_settled_upto m (length p) Hwf Hrec k 1 true Hk) as Hs.
  rewrite (lookup_ge_None_2 (pipeline m) (S (length p))) in Hs by (rewrite Hp; simpl; lia).
  specialize (Hs eq_refl). rewrite Hp in Hs.
  rewrite take_ge in Hs by (simpl; lia). exact Hs.
Qed.

(** X15. Reconciliation is idempotent: on a graph that already satisfies the
    reconciliation invariant, [OptimiseFilters] returns [true] and leaves
    every stage as it is (no buffer is added or freed, no output target
    changes). *)
Theorem OptimiseFilters_idempotent (s : OpenGLVideo) :
  graph_wf (filters s) -> reconciled (filters s) ->
  exists s', OptimiseFilters s = Some (true, s') /\ filters s' = filters s.
Proof.
  intros Hwf Hrec.
  pose proof (reconciled_settled _ Hwf Hrec) as Hs.
  destruct (wp_elim _ _ _ (OptimiseFilters_spec s Hwf))
    as (ok & s' & Hrun & _ & _ & Hnone & Hng & Hpost).
  rewrite (Hng (settled_walk_no_growth _ _ _ _ Hs)) in *.
  exists s'. split; [exact Hrun|].
  apply map_eq. intros k. destruct (filters s !! k) as [o|] eqn:Hk.
  - rewrite <- Hk. apply (settled_walk_fixed _ _ _ _ _ Hs Hpost).
    rewrite elem_of_reverse, elem_of_pipeline. eauto.
  - by apply Hnone.
Qed.

(** ** The texture filtering policy *)

Definition set_filter (filt wrap : Z) (t : GL.Texture) : GL.Texture :=
  GL.mkTexture (GL.tex_size t) (GL.tex_pbo t) (GL.tex_type t) (GL.tex_format t)
               (Some (filt, wrap)) (GL.tex_content t).

Definition filter_textures (l : list GLuint) (filt wrap : Z) (c : GL.Context) : GL.Context :=
  foldl (fun c t => GL.SetTextureFilters t filt wrap c) c l.

(** What a run of [SetFiltering] does to a texture: the filter it is given,
    if any. *)
Definition as_filtered (filt : option Z) (t : GL.Texture) : GL.Texture :=
  match filt with
  | Some filt => set_filter filt GL_CLAMP_TO_EDGE t
  | None => t
  end.

Lemma SetTextureFilters_run l filt wrap s :
  SetTextureFilters l filt wrap s =
  Some (tt, set_gl_context (filter_textures l filt wrap (gl_context s)) s).
Proof.
  revert s. induction l as [|t l IH]; intros s.
  - cbn. by rewrite set_gl_context_id.
  - cbn [SetTextureFilters]. unfold mbind, M_bind, gl_, modify. rewrite IH. reflexivity.
Qed.

Lemma filter_textures_other l filt wrap c :
  GL.framebuffers (filter_textures l filt wrap c) = GL.framebuffers c /\
  GL.programs (filter_textures l filt wrap c) = GL.programs c.
Proof.
  unfold filter_textures. revert c. induction l as [|t l IH]; intros c; [done|].
  cbn [foldl]. destruct (IH (GL.SetTextureFilters t filt wrap c)) as [-> ->]. done.
Qed.

Lemma filter_textures_lookup l filt wrap c h :
  GL.textures (filter_textures l filt wrap c) !! h =
  if bool_decide (h ∈ l) then set_filter filt wrap <$> GL.textures c !! h
  else GL.textures c !! h.
Proof.
  revert c. induction l as [|t l IH]; intros c.
  - rewrite bool_decide_eq_false_2; [done|]. apply not_elem_of_nil.
  - cbn [filter_textures foldl]. fold (filter_textures l filt wrap (GL.SetTextureFilters t filt wrap c)).
    rewrite IH. unfold GL.SetTextureFilters at 1 2. gl_simpl. unfold GLuint in *.
    destruct (decide (h = t)) as [->|Hne].
    + rewrite lookup_alter_eq, (bool_decide_eq_true_2 (t ∈ t :: l)) by left.
      destruct (bool_decide (t ∈ l)), (GL.textures c !! t); reflexivity.
    + rewrite lookup_alter_ne by done.
      apply (f_equal (fun b : bool => if b then set_filter filt wrap <$> GL.textures c !! h
                                      else GL.textures c !! h)).
      apply bool_decide_ext. rewrite elem_of_cons. naive_solver.
Qed.

(** The writes of the walk of [SetFiltering], in order: the textures
    written and the filter they get. *)
Definition stage_fbt (m : gmap OpenGLFilterType (option OpenGLFilter))
    (k : OpenGLFilterType) : list GLuint :=
  match m !! k with
  | Some (Some f) => frameBufferTextures f
  | _ => []
  end.

Fixpoint filtering_writes (m : gmap OpenGLFilterType (option OpenGLFilter))
    (rits : list OpenGLFilterType) (last_filter : Z) : list (list GLuint * Z) :=
  match rits with
  | [] => []
  | k :: rest =>
      (if last_filter =? 1 then [(stage_fbt m k, GL_LINEAR)]
       else if 1 <? last_filter then [(stage_fbt m k, GL_NEAREST)]
       else []) ++ filtering_writes m rest (last_filter + 1)
  end.

Definition apply_writes (ws : list (list GLuint * Z)) (c : GL.Context) : GL.Context :=
  foldl (fun c w => filter_textures w.1 w.2 GL_CLAMP_TO_EDGE c) c ws.

Definition final_filter (h : GLuint) (acc : option Z) (ws : list (list GLuint * Z)) :
    option Z :=
  foldl (fun acc w => if bool_decide (h ∈ w.1) then Some w.2 else acc) acc ws.

Lemma apply_writes_app ws1 ws2 c :
  apply_writes (ws1 ++ ws2) c = apply_writes ws2 (apply_writes ws1 c).
Proof. unfold apply_writes. apply foldl_app. Qed.

Lemma SetFiltering_loop_run (rits : list OpenGLFilterType) :
  forall last_filter s,
    (forall k, k ∈ rits -> exists f, filters s !! k = Some (Some f)) ->
    SetFiltering_loop rits last_filter s =
    Some (tt, set_gl_context
                (apply_writes (filtering_writes (filters s) rits last_filter) (gl_context s))
                s).
Proof.
  induction rits as [|k rits IH]; intros n s Hall.
  - cbn. by rewrite set_gl_context_id.
  - destruct (Hall k ltac:(left)) as [f Hf].
    cbn [SetFiltering_loop filtering_writes]. rewrite apply_writes_app.
    unfold mbind at 1, M_bind at 1.
    assert (Hstep :
      (if n =? 1
       then f ← the_filter k; SetTextureFilters (frameBufferTextures f) GL_LINEAR GL_CLAMP_TO_EDGE
       else if 1 <? n
            then f ← the_filter k;
                 SetTextureFilters (frameBufferTextures f) GL_NEAREST GL_CLAMP_TO_EDGE
            else mret ()) s =
      Some (tt, set_gl_context
                  (apply_writes
                     (if n =? 1 then [(stage_fbt (filters s) k, GL_LINEAR)]
                      else if 1 <? n then [(stage_fbt (filters s) k, GL_NEAREST)] else [])
                     (gl_context s)) s)).
    { unfold stage_fbt. rewrite Hf.
      destruct (n =? 1); [|destruct (1 <? n)].
      - unfold mbind, M_bind, the_filter. rewrite Hf. apply SetTextureFilters_run.
      - unfold mbind, M_bind, the_filter. rewrite Hf. apply SetTextureFilters_run.
      - cbn. by rewrite set_gl_context_id. }
    rewrite Hstep. rewrite IH by (intros k' Hk'; st_simpl; apply Hall; by right).
    st_simpl. reflexivity.
Qed.

Lemma set_filter_twice f1 f2 wrap (x : option GL.Texture) :
  set_filter f2 wrap <$> (as_filtered f1 <$> x) = set_filter f2 wrap <$> x.
Proof. destruct x as [t|]; [|done]. by destruct f1. Qed.

Lemma apply_writes_lookup ws :
  forall c c0 h acc,
    GL.textures c !! h = as_filtered acc <$> GL.textures c0 !! h ->
    GL.textures (apply_writes ws c) !! h =
    as_filtered (final_filter h acc ws) <$> GL.textures c0 !! h.
Proof.
  induction ws as [|[l filt] ws IH]; intros c c0 h acc Hc; [exact Hc|].
  cbn [apply_writes final_filter foldl fst snd].
  apply (IH (filter_textures l filt GL_CLAMP_TO_EDGE c)).
  rewrite filter_textures_lookup. unfold GLuint in *. rewrite Hc. destruct (bool_decide (h ∈ l)); [|done].
  apply set_filter_twice.
Qed.

Lemma apply_writes_other ws c :
  GL.framebuffers (apply_writes ws c) = GL.framebuffers c /\
  GL.programs (apply_writes ws c) = GL.programs c.
Proof.
  revert c. induction ws as [|[l filt] ws IH]; intros c; [done|].
  change (apply_writes ((l, filt) :: ws) c)
    with (apply_writes ws (filter_textures l filt GL_CLAMP_TO_EDGE c)).
  destruct (IH (filter_textures l filt GL_CLAMP_TO_EDGE c)) as [-> ->].
  apply filter_textures_other.
Qed.

Lemma filtering_writes_deep m rits n :
  1 < n -> filtering_writes m rits n = (fun k => (stage_fbt m k, GL_NEAREST)) <$> rits.
Proof.
  revert n. induction rits as [|k rits IH]; intros n Hn; [done|].
  cbn [filtering_writes]. rewrite (proj2 (Z.eqb_neq n 1)) by lia.
  rewrite (proj2 (Z.ltb_lt 1 n)) by lia. rewrite IH by lia. reflexivity.
Qed.

Lemma final_filter_uniform m h filt rits acc :
  final_filter h acc ((fun k => (stage_fbt m k, filt)) <$> rits) =
  if bool_decide (h ∈ stage_handles frameBufferTextures m rits) then Some filt else acc.
Proof.
  revert acc. induction rits as [|k rits IH]; intros acc.
  - rewrite bool_decide_eq_false_2; [done|]. apply not_elem_of_nil.
  - rewrite fmap_cons. cbn [final_filter foldl fst snd].
    fold (final_filter h (if bool_decide (h ∈ stage_fbt m k) then Some filt else acc)
            ((fun k => (stage_fbt m k, filt)) <$> rits)).
    rewrite IH.
    change (stage_handles frameBufferTextures m (k :: rits))
      with (stage_fbt m k ++ stage_handles frameBufferTextures m rits).
    destruct (decide (h ∈ stage_handles frameBufferTextures m rits)) as [Hin|Hin].
    + rewrite !bool_decide_eq_true_2; [done|set_solver|done].
    + rewrite (bool_decide_eq_false_2 _ Hin).
      destruct (decide (h ∈ stage_fbt m k)) as [Hk|Hk].
      * rewrite !bool_decide_eq_true_2; [done|set_solver|done].
      * rewrite !bool_decide_eq_false_2; [done|set_solver|done].
Qed.

Lemma size_pipeline (m : gmap OpenGLFilterType (option OpenGLFilter)) :
  size m = length (pipeline m).
Proof.
  rewrite <- length_map_to_list, <- (length_fmap fst (map_to_list m)).
  apply Permutation_length. apply NoDup_Permutation.
  - apply NoDup_fst_map_to_list.
  - apply NoDup_pipeline.
  - intros k. rewrite elem_of_pipeline, list_elem_of_fmap. split.
    + intros [[k' o] [-> Ho]]. apply elem_of_map_to_list in Ho. cbn. eauto.
    + intros [o Ho]. exists (k, o). split; [done|]. by apply elem_of_map_to_list.
Qed.

(** The filter that [SetFiltering] gives the texture [h]: with at most one
    stage the input textures are filtered linearly; with more, the input
    textures and the intermediate textures of every stage but the last two
    are sampled to the nearest texel, those of the stage before the last
    linearly, and the textures of the last stage are not written. A texture
    that occurs in more than one place ends with the filter written last
    (deeper stages are written later). *)
Definition texture_filter_after (s : OpenGLVideo) (h : GLuint) : option Z :=
  match reverse (pipeline (filters s)) with
  | [] | [_] => if bool_decide (h ∈ inputTextures s) then Some GL_LINEAR else None
  | _ :: k1 :: deeper =>
      if bool_decide (h ∈ stage_handles frameBufferTextures (filters s) deeper)
      then Some GL_NEAREST
      else if bool_decide (h ∈ stage_handles frameBufferTextures (filters s) [k1])
      then Some GL_LINEAR
      else if bool_decide (h ∈ inputTextures s) then Some GL_NEAREST
      else None
  end.

(** X16. [SetFiltering] on a graph without null entries returns and writes the
    filters of the policy [texture_filter_after], with wrap mode
    [GL_CLAMP_TO_EDGE]; it changes nothing else: not the size, format or
    content of a texture, not the stages, framebuffers or programs. *)
Theorem SetFiltering_policy (s : OpenGLVideo) :
  (forall k, filters s !! k ≠ Some None) ->
  exists c',
    SetFiltering s = Some (tt, set_gl_context c' s) /\
    (forall h, GL.textures c' !! h =
               as_filtered (texture_filter_after s h) <$> GL.textures (gl_context s) !! h) /\
    GL.framebuffers c' = GL.framebuffers (gl_context s) /\
    GL.programs c' = GL.programs (gl_context s).
Proof.
  intros Hnonull.
  assert (Hall : forall k, k ∈ reverse (pipeline (filters s)) ->
                           exists f, filters s !! k = Some (Some f)).
  { intros k Hk. rewrite elem_of_reverse, elem_of_pipeline in Hk.
    destruct Hk as [[f|] Hf]; [eauto|]. by destruct (Hnonull k). }
  unfold SetFiltering, mbind, M_bind, filters_size, get. rewrite size_pipeline.
  rewrite <- length_reverse. unfold texture_filter_after.
  destruct (reverse (pipeline (filters s))) as [|k0 [|k1 deeper]] eqn:Hrits.
  - cbn [length Nat.eqb orb]. rewrite SetTextureFilters_run. eexists. split; [reflexivity|].
    split; [|apply filter_textures_other]. intros h. rewrite filter_textures_lookup.
    unfold GLuint in *.
    destruct (bool_decide _), (GL.textures (gl_context s) !! h); reflexivity.
  - cbn [length Nat.eqb orb]. rewrite SetTextureFilters_run. eexists. split; [reflexivity|].
    split; [|apply filter_textures_other]. intros h. rewrite filter_textures_lookup.
    unfold GLuint in *.
    destruct (bool_decide _), (GL.textures (gl_context s) !! h); reflexivity.
  - cbn [length Nat.eqb orb]. rewrite SetTextureFilters_run. st_simpl.
    rewrite Hrits. rewrite SetFiltering_loop_run by (st_simpl; exact Hall).
    st_simpl. eexists. split; [reflexivity|]. split.
    + intros h.
      rewrite (apply_writes_lookup _ _ (gl_context s) h
                 (if bool_decide (h ∈ inputTextures s) then Some GL_NEAREST else None)).
      2:{ rewrite filter_textures_lookup.
          unfold GLuint in *.
    destruct (bool_decide _), (GL.textures (gl_context s) !! h); reflexivity. }
      cbn [filtering_writes app].
      change (0 =? 1) with false. change (1 <? 0) with false.
      change (0 + 1 =? 1) with true. cbn [app].
      change (0 + 1 + 1) with 2. rewrite filtering_writes_deep by lia.
      change (final_filter h ?a ((?l, ?f) :: ?ws))
        with (final_filter h (if bool_decide (h ∈ l) then Some f else a) ws).
      rewrite final_filter_uniform.
      change (stage_handles frameBufferTextures (filters s) [k1])
        with (stage_fbt (filters s) k1 ++ []).
      rewrite app_nil_r. reflexivity.
    + destruct (apply_writes_other
                  (filtering_writes (filters s) (k0 :: k1 :: deeper) 0)
                  (filter_textures (inputTextures s) GL_NEAREST GL_CLAMP_TO_EDGE
                     (gl_context s))) as [-> ->].
      apply filter_textures_other.
Qed.

(** ** The program text has no placeholder left *)

(** Every ['%'] of the text is followed by one of the characters [D]. *)
Fixpoint placeholders_in (D : list ascii) (x : string) : bool :=
  match x with
  | EmptyString => true
  | String c x' =>
      (if Ascii.eqb c "%"
       then match x' with
            | String e _ => bool_decide (e ∈ D)
            | EmptyString => false
            end
       else true) && placeholders_in D x'
  end.

Lemma placeholders_none (x : string) : placeholders_in [] x = percent_free x.
Proof.
  induction x as [|c x IH]; [reflexivity|]. cbn [placeholders_in percent_free].
  rewrite IH. destruct (Ascii.eqb c "%"); [|reflexivity].
  cbn [negb andb]. destruct x; [reflexivity|].
  rewrite bool_decide_eq_false_2; [reflexivity|apply not_elem_of_nil].
Qed.

Lemma placeholders_weaken (D D' : list ascii) (x : string) :
  D ⊆ D' -> placeholders_in D x = true -> placeholders_in D' x = true.
Proof.
  intros Hsub. induction x as [|c x IH]; [done|]. cbn [placeholders_in].
  intros Hx. apply andb_true_iff in Hx as [Hc Hx]. rewrite (IH Hx), andb_true_r.
  destruct (Ascii.eqb c "%"); [|done]. destruct x as [|e x]; [done|].
  apply bool_decide_eq_true in Hc. apply bool_decide_eq_true. by apply Hsub.
Qed.

Lemma placeholders_append (D : list ascii) (x y : string) :
  placeholders_in D x = true -> placeholders_in D y = true ->
  placeholders_in D (x +:+ y) = true.
Proof.
  intros Hx Hy. induction x as [|c x IH]; [exact Hy|].
  change (placeholders_in D (String c (x +:+ y)) = true).
  cbn [placeholders_in] in Hx |- *. apply andb_true_iff in Hx as [Hc Hx].
  rewrite (IH Hx), andb_true_r.
  destruct (Ascii.eqb c "%"); [|done]. destruct x as [|e x]; [discriminate|]. exact Hc.
Qed.

Lemma percent_free_placeholders (D : list ascii) (x : string) :
  percent_free x = true -> placeholders_in D x = true.
Proof.
  intros Hx. rewrite <- placeholders_none in Hx.
  eapply placeholders_weaken; [|exact Hx]. set_solver.
Qed.

Lemma replace_placeholder (D : list ascii) (d : ascii) (after : string) (n : nat) :
  d ≠ "%"%char -> Forall (fun e => e ≠ "%"%char) D ->
  percent_free after = true ->
  forall x, (String.length x <= n)%nat ->
    placeholders_in D x = true ->
    placeholders_in (filter (fun e => e ≠ d) D)
      (replace (String "%" (String d EmptyString)) after x) = true.
Proof.
  intros Hd HD Hafter. unfold replace.
  induction n as [|n IH]; intros x Hlen Hx.
  { destruct x; [reflexivity|simpl in Hlen; lia]. }
  destruct x as [|c x]; [reflexivity|]. cbn [String.length] in Hlen.
  cbn [replace_from].
  destruct (String.prefix (String "%" (String d EmptyString)) (String c x)) eqn:Hp.
  - (* a placeholder: replaced *)
    cbn [String.prefix] in Hp. destruct (ascii_dec "%" c) as [<-|]; [|discriminate].
    destruct x as [|e x]; [discriminate|].
    cbn [String.prefix] in Hp. destruct (ascii_dec d e) as [<-|]; [|discriminate].
    cbn [String.length Nat.sub replace_from].
    apply placeholders_append; [by apply percent_free_placeholders|].
    apply IH; [cbn [String.length] in Hlen; lia|].
    cbn [placeholders_in] in Hx. apply andb_true_iff in Hx as [_ Hx].
    apply andb_true_iff in Hx as [_ Hx]. exact Hx.
  - cbn [placeholders_in] in Hx |- *. apply andb_true_iff in Hx as [Hc Hx].
    rewrite (IH x ltac:(lia) Hx), andb_true_r.
    destruct (Ascii.eqb c "%") eqn:Ec; [|done]. apply Ascii.eqb_eq in Ec. subst c.
    destruct x as [|e x]; [discriminate|]. apply bool_decide_eq_true in Hc.
    assert (He : e ≠ "%"%char) by (rewrite Forall_forall in HD; by apply HD).
    assert (Hed : e ≠ d).
    { intros ->. cbn [String.prefix] in Hp.
      destruct (ascii_dec "%" "%"); [|done]. destruct (ascii_dec d d); [|done].
      destruct x; discriminate. }
    cbn [replace_from].
    assert (Hp' : String.prefix (String "%" (String d EmptyString)) (String e x) = false).
    { cbn [String.prefix]. destruct (ascii_dec "%" e) as [E|]; [by symmetry in E|done]. }
    rewrite Hp'. apply bool_decide_eq_true. apply list_elem_of_filter. done.
Qed.

Definition all_placeholders : list ascii := ["1"; "2"; "3"; "4"; "5"; "6"; "7"]%char.

(** Filling in the seven placeholders leaves no ['%'] in a text whose
    ['%'] all belong to placeholders, when the numbers are written without
    one. *)
Lemma fill_placeholders_percent_free rects its fb (x : string) :
  (forall v prec, percent_free (f_setNum v prec) = true) ->
  placeholders_in all_placeholders x = true ->
  percent_free (fill_placeholders rects its fb x) = true.
Proof.
  intros Hnum Hx. unfold fill_placeholders. rewrite <- placeholders_none.
  assert (HD : forall D, D ⊆ all_placeholders -> Forall (fun e => e ≠ "%"%char) D).
  { intros D HDs. apply Forall_forall. intros e He. apply HDs in He.
    unfold all_placeholders in He. set_solver. }
  assert (Hstep : forall ds d after y,
            (d :: ds) ⊆ all_placeholders ->
            percent_free after = true -> placeholders_in (d :: ds) y = true ->
            placeholders_in ds (replace (String "%" (String d EmptyString)) after y) = true).
  { intros ds d after y HDs Ha Hy.
    apply (placeholders_weaken (filter (fun e => e ≠ d) (d :: ds))).
    { intros e He. apply list_elem_of_filter in He. set_solver. }
    apply (replace_placeholder (d :: ds) d after (String.length y)); try done.
    - assert (Hin : d ∈ all_placeholders) by set_solver.
      unfold all_placeholders in Hin. set_solver.
    - by apply HD. }
  cbv zeta.
  do 6 (apply Hstep; [unfold all_placeholders; set_solver|apply Hnum|]).
  apply Hstep; [unfold all_placeholders; set_solver|by destruct rects|].
  exact Hx.
Qed.

Lemma template_placeholders name deint field s :
  exists body s1,
    program_template name deint field s = Some (program_header +:+ body, s1) /\
    graph_frame s s1 /\
    placeholders_in all_placeholders body = true.
Proof.
  unfold program_template. destruct name.
  - exists EmptyString, s. split; [reflexivity|]. split; [frame|reflexivity].
  - unfold select_deint.
    destruct (String.eqb deint EmptyString).
    { eexists _, s. split; [reflexivity|]. split; [frame|]. vm_compute. reflexivity. }
    destruct (is_bobdeint deint).
    { eexists _, s. split; [reflexivity|]. split; [frame|].
      destruct (bool_decide _); vm_compute; reflexivity. }
    destruct (is_linearblend deint).
    { eexists _, s. split; [reflexivity|]. split; [frame|].
      destruct (bool_decide _); vm_compute; reflexivity. }
    destruct (is_kerneldeint deint).
    { eexists _, s. split; [reflexivity|]. split; [frame|].
      destruct (bool_decide _); vm_compute; reflexivity. }
    destruct (is_yadif deint).
    { eexists _, s. split; [reflexivity|]. split; [frame|].
      destruct (bool_decide _); vm_compute; reflexivity. }
    eexists _, _. split; [reflexivity|]. split; [frame|]. vm_compute. reflexivity.
  - exists EmptyString, s. split; [reflexivity|]. split; [frame|reflexivity].
  - exists bicubic, s. split; [reflexivity|]. split; [frame|]. vm_compute. reflexivity.
Qed.

(** X17. The text [GetProgramString] returns is the fixed header, a body and
    ["END"], with every placeholder of the templates filled in: no ['%'] is
    left, for each stage type, each deinterlacer name and each field, when
    the numbers are written without one. *)
Theorem GetProgramString_text name deint field s :
  sizes_ok s ->
  (forall v prec, percent_free (f_setNum v prec) = true) ->
  exists body s',
    GetProgramString name deint field s = Some (program_header +:+ body +:+ "END", s') /\
    percent_free (program_header +:+ body +:+ "END") = true.
Proof.
  intros Hsz Hnum.
  destruct (template_placeholders name deint field s) as (body & s1 & Ht & Hf & Hbody).
  destruct (GetTextureSize_defined (video_dim s1) s1 (sizes_ok_frame _ _ Hf Hsz)) as [fb Hfb].
  assert (Hfb' : GetTextureSize (video_dim s1) s1 = Some (fb, s1)).
  { rewrite Hfb. reflexivity. }
  rewrite (GetProgramString_run _ _ _ _ _ _ _ Ht Hfb'). cbv zeta.
  rewrite (fill_percent_free _ _ _ program_header body) by reflexivity.
  eexists (fill_placeholders _ _ fb body), _. split.
  { rewrite <- append_assoc. reflexivity. }
  rewrite <- placeholders_none. apply placeholders_append; [reflexivity|].
  apply placeholders_append; [|reflexivity].
  rewrite placeholders_none. by apply fill_placeholders_percent_free.
Qed.

Context `{Platform}.

(** ** The resize decision, as the callers use it *)

Lemma CheckResize_spec (deinterlacing allow : bool) (s : OpenGLVideo) :
  graph_wf (filters s) -> sizes_ok s ->
  let resize_up :=
    ((height (video_dim s) <? r_height (display_video_rect s)) ||
     (width (video_dim s) <? r_width (display_video_rect s))) && allow in
  let resize_down :=
    (r_height (display_video_rect s) <? height (video_dim s)) && deinterlacing && allow in
  wp False (CheckResize deinterlacing allow) (fun _ s' =>
    graph_frame s s' /\ graph_wf (filters s') /\
    (forall k, k ≠ kGLFilterResize -> k ≠ kGLFilterBicubic ->
               (is_Some (filters s' !! k) <-> is_Some (filters s !! k))) /\
    if resize_up && bool_decide (defaultUpsize s = kGLFilterBicubic) then
      filters s' !! kGLFilterResize = None
    else
      filters s' !! kGLFilterBicubic = None /\
      (is_Some (filters s !! kGLFilterResize) -> is_Some (filters s' !! kGLFilterResize)) /\
      (allow = false ->
       is_Some (filters s' !! kGLFilterResize) -> is_Some (filters s !! kGLFilterResize))) s.
Proof.
  intros Hwf Hsz resize_up resize_down.
  assert (Hremove : forall filter,
    wp False (RemoveFilter filter;; filters_erase filter)
       (fun _ s1 => graph_frame s s1 /\ filters s1 = delete filter (filters s)) s).
  { intros filter. apply (RemoveFilter_erase_spec filter s Hwf). }
  unfold CheckResize. wp_steps. fold resize_up. fold resize_down.
  destruct (resize_up && bool_decide (defaultUpsize s = kGLFilterBicubic));
    [|destruct ((resize_up && bool_decide (defaultUpsize s = kGLFilterResize)) || resize_down)
        eqn:Eresize].
  - rewrite <- wp_assoc_seq. apply wp_bind.
    eapply wp_mono; [apply (Hremove kGLFilterResize)|].
    intros ? s1 (Hf1 & Hm1). cbv beta.
    wp_use AddFilter_ensures.
    { rewrite Hm1. by apply graph_wf_delete. }
    { by eapply sizes_ok_frame. }
    intros b s2 (Hf2 & Hwf2 & Hkeys & Hnew). wp_steps.
    split; [by eapply graph_frame_trans|]. split; [exact Hwf2|]. split.
    + intros k Hk1 Hk2. rewrite Hkeys by done. rewrite Hm1. by rewrite lookup_delete_ne.
    + apply eq_None_not_Some. rewrite Hkeys by done. rewrite Hm1, lookup_delete_eq.
      by intros [? ?].
  - rewrite <- wp_assoc_seq. apply wp_bind.
    eapply wp_mono; [apply (Hremove kGLFilterBicubic)|].
    intros ? s1 (Hf1 & Hm1). cbv beta.
    wp_use AddFilter_ensures.
    { rewrite Hm1. by apply graph_wf_delete. }
    { by eapply sizes_ok_frame. }
    intros b s2 (Hf2 & Hwf2 & Hkeys & Hnew). wp_steps.
    split; [by eapply graph_frame_trans|]. split; [exact Hwf2|]. split; [|split].
    + intros k Hk1 Hk2. rewrite Hkeys by done. rewrite Hm1. by rewrite lookup_delete_ne.
    + apply eq_None_not_Some. rewrite Hkeys by done. rewrite Hm1, lookup_delete_eq.
      by intros [? ?].
    + split; [intros Hthere; apply Hnew; left; rewrite Hm1; by rewrite lookup_delete_ne|].
      intros ->. subst resize_up resize_down. by rewrite !andb_false_r in Eresize.
  - rewrite <- wp_assoc_seq. apply wp_bind.
    eapply wp_mono; [apply (Hremove kGLFilterBicubic)|].
    intros ? s1 (Hf1 & Hm1). cbv beta.
    assert (Hwf1 : graph_wf (filters s1)) by (rewrite Hm1; by apply graph_wf_delete).
    wp_use OptimiseFilters_spec; [exact Hwf1|].
    intros ok s2 (Hf2 & _ & Hnone & _ & Hpost). wp_steps.
    assert (Hsame : forall k, k ∉ reverse (pipeline (filters s1)) ->
                              filters s2 !! k = filters s1 !! k).
    { intros k Hk. rewrite elem_of_reverse, elem_of_pipeline in Hk.
      destruct (filters s1 !! k) eqn:E; [exfalso; apply Hk; eauto|]. by apply Hnone. }
    pose proof (loop_post_keys _ _ _ _ _ _ Hpost Hsame) as Hkeys.
    split; [by eapply graph_frame_trans|].
    split; [by eapply loop_post_wf|]. split; [|split].
    + intros k Hk1 Hk2. rewrite Hkeys, Hm1. by rewrite lookup_delete_ne.
    + apply eq_None_not_Some. rewrite Hkeys, Hm1, lookup_delete_eq. by intros [? ?].
    + rewrite Hkeys, Hm1. rewrite lookup_delete_ne by done. done.
Qed.

(** ** Initialisation *)

Ltac init_simpl :=
  cbn [
    gl_context video_dim actual_video_dim viewportSize masterViewportSize
    display_visible_rect display_video_rect video_rect frameBufferRect
    softwareDeinterlacer hardwareDeinterlacer hardwareDeinterlacing viewportControl
    inputTextures referenceTextures inputTextureSize filters currentFrameNum
    inputUpdated refsNeeded textureRects textureType helperTexture defaultUpsize
    gl_features using_ycbcrtex using_hardwaretex verbose_log set_gl_context
    set_softwareDeinterlacer set_hardwareDeinterlacer set_hardwareDeinterlacing
    set_inputTextures set_referenceTextures set_inputTextureSize set_filters
    set_currentFrameNum set_inputUpdated set_refsNeeded set_helperTexture
    set_gl_features set_verbose_log
    set_viewportSize set_texture_type set_defaultUpsize set_using_ycbcrtex
    set_using_hardwaretex Init_members GL_SetViewPort GL_SetFeatures GL_SetFence
  ].

(** An object that holds nothing: as constructed, or after [Teardown]. *)
Definition holds_nothing (s : OpenGLVideo) : Prop :=
  filters s = ∅ /\ inputTextures s = [] /\ referenceTextures s = [] /\ helperTexture s = 0.

(** What [Init] has configured and the graph calls leave alone. *)
Definition same_setup (s s' : OpenGLVideo) : Prop :=
  video_dim s' = video_dim s /\ actual_video_dim s' = actual_video_dim s /\
  display_video_rect s' = display_video_rect s /\ textureRects s' = textureRects s /\
  gl_features s' = gl_features s /\ defaultUpsize s' = defaultUpsize s /\
  inputTextures s' = inputTextures s /\ referenceTextures s' = referenceTextures s.


Lemma same_setup_trans s1 s2 s3 : same_setup s1 s2 -> same_setup s2 s3 -> same_setup s1 s3.
Proof. unfold same_setup. intros (?&?&?&?&?&?&?&?) (?&?&?&?&?&?&?&?). repeat split; congruence. Qed.

Lemma graph_frame_same_setup s s' : graph_frame s s' -> same_setup s s'.
Proof. intros Hf. apply graph_frame_fields in Hf. unfold same_setup. tauto. Qed.

Lemma Init_configure_spec videoDim visible display video control options hw_accel s :
  wp False (Init_configure videoDim visible display video control options hw_accel)
     (fun r s' =>
        filters s' = filters s /\ inputTextures s' = inputTextures s /\
        referenceTextures s' = referenceTextures s /\ helperTexture s' = helperTexture s /\
        gl_context s' = gl_context s /\
        actual_video_dim s' = videoDim /\
        video_dim s' = (if height videoDim =? 1088 then mkQSize (width videoDim) 1080
                        else videoDim) /\
        display_video_rect s' = display /\
        gl_features s' = Z.land (ParseOptions options) (GL.GetFeatures (gl_context s)) /\
        using_hardwaretex s' = hw_accel /\
        using_ycbcrtex s' =
          negb hw_accel &&
          negb (negb (Z.land (gl_features s') kGLExtFragProg =? 0) &&
                negb (Z.land (gl_features s') kGLExtFBufObj =? 0)) &&
          negb (Z.land (gl_features s') kGLMesaYCbCr =? 0) /\
        r.2 = (if using_ycbcrtex s' then false
               else negb (Z.land (gl_features s') kGLExtFragProg =? 0)) /\
        (defaultUpsize s' = defaultUpsize s \/
         (defaultUpsize s' = kGLFilterBicubic /\ contains options "openglbicubic" = true /\
          feature_on kGLExtFBufObj s' /\ feature_on kGLExtFragProg s'))) s.
Proof.
  unfold Init_configure, Init_negotiate, SetViewPort. wp_steps. init_simpl.
  destruct control; wp_steps; init_simpl.
  all: destruct (contains options "openglbicubic"); wp_steps; init_simpl.
  all: try (destruct (negb _ && negb _) eqn:Efull; wp_steps; init_simpl).
  all: try (match goal with |- wp _ (if ?c then _ else _) _ _ =>
              destruct c eqn:Efull; wp_steps; init_simpl end).
  all: try (match goal with |- wp _ (if ?c then _ else _) _ _ =>
              destruct c; wp_steps; init_simpl end).
  all: cbn [fst snd]; rewrite ?Efull; repeat (split; [reflexivity|]).
  all: try (left; reflexivity).
  all: right; split; [reflexivity|]; split; [reflexivity|];
    unfold feature_on; init_simpl; apply andb_true_iff in Efull; tauto.
Qed.


Lemma Init_stage_spec filter use_pbo s :
  holds_nothing s -> sizes_ok s ->
  wp False (Init_stage filter use_pbo)
     (fun r s' =>
        same_setup s s' /\ graph_wf (filters s') /\
        if r.2 then
          0 < r.1 /\ is_Some (filters s' !! filter) /\ kept r.1 None s'
        else filters s' = ∅) s.
Proof.
  intros (Hm & Hin & Href & Hhelp) Hsz.
  unfold Init_stage, CreateVideoTexture. wp_steps. st_simpl.
  match goal with |- context [GL.CreateTexture ?a ?b ?c ?e ?f] =>
    destruct (CreateTexture_cases a b c e f) as [[Ht1 Ht2]|(Ht1 & Ht2 & Ht3)];
    destruct (GL.CreateTexture a b c e f) as [tex c'] end;
    cbn [fst snd] in *.
  - subst tex. cbn [Z.eqb]. wp_steps. st_simpl. cbn [fst snd].
    split; [by repeat split|]. split; [rewrite Hm; by intros ? ? ?|]. exact Hm.
  - assert (Htex : (tex =? 0) = false) by (apply Z.eqb_neq; lia). rewrite Htex.
    set (s1 := set_inputTextureSize _ _).
    assert (Hm1 : filters s1 = ∅) by exact Hm.
    assert (Hsetup1 : same_setup s s1) by (by repeat split).
    assert (Hk1 : kept tex None s1).
    { split; [split; [exact Ht1|]|split].
      - unfold content_of. subst s1. st_simpl. unfold GLuint in *. rewrite Ht3.
        by rewrite lookup_insert_eq.
      - subst s1. st_simpl. rewrite Hhelp. lia.
      - intros k f. rewrite Hm1. by rewrite lookup_empty. }
    eapply wp_mono.
    { apply (wp_conj (AddFilter filter)
               (fun b s' => graph_frame s1 s' /\
                            AddFilter_outcome filter (filters s1) b (filters s'))
               (fun _ s' => keeps s1 s')); [|apply AddFilter_keeps].
      apply (AddFilter_spec filter s1).
      - by rewrite Hm1.
      - rewrite Hm1. by intros ? ? ?.
      - destruct Hsz as [Hr|Hd]; [by left|by right]. }
    intros b s2 [[Hf2 Hout] [_ Hkeeps]]. cbv beta. wp_steps. cbn [fst snd].
    assert (Hnone1 : filters s1 !! filter = None) by (by rewrite Hm1).
    assert (Hwf1 : graph_wf (filters s1)) by (rewrite Hm1; by intros ? ? ?).
    destruct (AddFilter_outcome_keys _ _ _ _ Hnone1 Hwf1 Hout) as (Hwf2 & Hkeys & Hnew).
    split; [eapply same_setup_trans; [exact Hsetup1|by apply graph_frame_same_setup]|].
    split; [exact Hwf2|].
    destruct b.
    + split; [exact Ht1|]. split; [by apply Hnew|]. by apply Hkeeps.
    + apply map_eq. intros k. rewrite lookup_empty. apply eq_None_not_Some.
      destruct (decide (k = filter)) as [->|Hne].
      * intros Hs. apply Hnew in Hs. discriminate.
      * rewrite Hkeys by done. rewrite Hm1, lookup_empty. by intros [? ?].
Qed.

Lemma kept_same h d s s' :
  gl_context s' = gl_context s -> helperTexture s' = helperTexture s ->
  filters s' = filters s -> kept h d s -> kept h d s'.
Proof.
  intros Hc Hh Hm [Hl [Hu1 Hu2]]. split; [by rewrite Hc|].
  split; [by rewrite Hh|]. by rewrite Hm.
Qed.

(** The video is smaller than the area it is shown in, in one direction
    at least: [resize_up] of [CheckResize] when it is allowed. *)
Definition upscaled (s : OpenGLVideo) : bool :=
  (height (video_dim s) <? r_height (display_video_rect s)) ||
  (width (video_dim s) <? r_width (display_video_rect s)).

Lemma Init_finish_spec use_pbo tex filter s :
  graph_wf (filters s) -> sizes_ok s -> kept tex None s ->
  is_Some (filters s !! filter) -> filter = kGLFilterYUV2RGB \/ filter = kGLFilterResize ->
  wp False (Init_finish use_pbo)
     (fun b s' =>
        b = true /\ same_setup s s' /\ graph_wf (filters s') /\ kept tex None s' /\
        (filter = kGLFilterYUV2RGB -> is_Some (filters s' !! kGLFilterYUV2RGB)) /\
        (is_Some (filters s' !! kGLFilterYUV2RGB) \/ is_Some (filters s' !! kGLFilterResize) \/
         (defaultUpsize s = kGLFilterBicubic /\ upscaled s = true))) s.
Proof.
  intros Hwf Hsz Hk Hthere Hfilter. unfold Init_finish. apply wp_bind.
  pose proof (CheckResize_spec false true s Hwf Hsz) as Htotal. cbv zeta in Htotal.
  pose proof (wp_conj _ _ _ _ Htotal (CheckResize_keeps false true s)) as Hboth.
  eapply wp_mono; [exact Hboth|]. clear Htotal Hboth.
  intros [] s1 [(Hf1 & Hwf1 & Hkeys & Hcase) [_ Hkeeps]]. cbv beta.
  wp_steps. st_simpl.
  split; [reflexivity|]. split; [by apply graph_frame_same_setup|]. split; [exact Hwf1|].
  split; [eapply kept_same; [..|by apply Hkeeps]; reflexivity|].
  fold (upscaled s) in Hcase. rewrite andb_true_r in Hcase.
  split; [intros ->; by apply Hkeys|].
  destruct Hfilter as [-> | ->].
  - left. by apply Hkeys.
  - destruct (upscaled s && bool_decide (defaultUpsize s = kGLFilterBicubic)) eqn:E.
    + right. right. apply andb_true_iff in E as [E1 E2].
      apply bool_decide_eq_true in E2. done.
    + right. left. by apply (proj1 (proj2 Hcase)).
Qed.

Lemma size_is_Some `{Countable K} {A} (m : gmap K A) k :
  is_Some (m !! k) -> (size m =? 0)%nat = false.
Proof.
  intros [x Hx]. apply Nat.eqb_neq. intros Hs. apply map_size_empty_iff in Hs.
  subst m. by rewrite lookup_empty in Hx.
Qed.




Lemma Init_stage_calm filter use_pbo s :
  calm s -> full_features s -> filters s !! filter = None ->
  wp True (Init_stage filter use_pbo) (fun r s' => r.2 = true) s.
Proof.
  intros Hc Hfull Habsent. unfold Init_stage, CreateVideoTexture. wp_steps. st_simpl.
  match goal with |- context [GL.CreateTexture ?a ?b ?c ?e ?f] =>
    destruct (CreateTexture_calm a b c e (gl_context s) Hc) as (tex & c' & -> & Hpos & Hc' & _)
  end.
  cbn [fst snd]. wp_steps. st_simpl.
  assert (Htex : (tex =? 0) = false) by (apply Z.eqb_neq; lia). rewrite Htex.
  eapply wp_mono.
  { apply AddFilter_calm; [exact Hc'|exact Hfull|exact Habsent]. }
  intros b s2 [_ ->]. wp_steps. reflexivity.
Qed.

Lemma Init_graph_full_features use_pbo s :
  holds_nothing s ->
  width (video_dim s) <= 2 ^ 30 -> height (video_dim s) <= 2 ^ 30 ->
  calm s -> full_features s -> using_hardwaretex s = false ->
  wp False (Init_graph use_pbo true)
     (fun b s' => b = true /\ is_Some (filters s' !! kGLFilterYUV2RGB)) s.
Proof.
  intros Hnothing Hw Hh Hc Hfull Hhw.
  assert (Hsz : forall s', video_dim s' = video_dim s -> sizes_ok s').
  { intros s' E. right. by rewrite E. }
  pose proof Hnothing as (Hm & _).
  unfold Init_graph. wp_steps. rewrite Hhw. cbn [negb andb].
  pose proof (wp_conj _ _ _ _
                (Init_stage_spec kGLFilterYUV2RGB use_pbo s Hnothing (Hsz s eq_refl))
                (Init_stage_calm kGLFilterYUV2RGB use_pbo s Hc Hfull
                   ltac:(by rewrite Hm))) as Hstage.
  eapply wp_mono; [exact Hstage|]. clear Hstage.
  intros [tex ok] s1 [(Hs1 & Hwf1 & Hres) Hok]. cbn [fst snd] in *. subst ok.
  destruct Hres as (Hpos & Hthere & Hk).
  destruct Hs1 as (Hvd1 & _).
  unfold inputTextures_push_back. wp_steps. st_simpl.
  rewrite (size_is_Some _ _ Hthere).
  wp_use (Init_finish_spec use_pbo tex kGLFilterYUV2RGB).
  - exact Hwf1.
  - by apply Hsz.
  - eapply kept_same; [..|exact Hk]; reflexivity.
  - exact Hthere.
  - by left.
  - intros b s' (-> & _ & _ & _ & Hyuv & _). split; [reflexivity|by apply Hyuv].
Qed.

(** X19. With fragment programs and framebuffer objects both enabled by the
    options and supported by the context, no hardware-decoded frames and no
    creation failing, [Init] returns [true] and the graph has the
    colourspace-conversion stage. *)
Theorem Init_full_features (c : GL.Context) (videoDim : QSize)
    (displayVisibleRect displayVideoRect videoRect : QRect)
    (viewport_control : bool) (options : string) (s : OpenGLVideo) :
  holds_nothing s -> width videoDim <= 2 ^ 30 -> height videoDim <= 2 ^ 30 ->
  GL.failures c = [] ->
  Z.land (Z.land (ParseOptions options) (GL.GetFeatures c)) kGLExtFragProg ≠ 0 ->
  Z.land (Z.land (ParseOptions options) (GL.GetFeatures c)) kGLExtFBufObj ≠ 0 ->
  exists s',
    Init (Some c) videoDim displayVisibleRect displayVideoRect videoRect viewport_control
         options false s = Some (true, s') /\
    is_Some (filters s' !! kGLFilterYUV2RGB).
Proof.
  intros Hnothing Hw Hh Hcalm Hfrag Hfbo.
  cut (wp False (Init (Some c) videoDim displayVisibleRect displayVideoRect videoRect
                      viewport_control options false)
          (fun b s' => b = true /\ is_Some (filters s' !! kGLFilterYUV2RGB)) s).
  { intros Hwp. destruct (wp_elim _ _ _ Hwp) as (b & s' & Hrun & -> & Hyuv). eauto. }
  unfold Init, locked. wp_steps. st_simpl.
  wp_use Init_configure_spec.
  intros [use_pbo basic_features] s1
    (Hm1 & Hin1 & Href1 & Hhelp1 & Hc1 & Had1 & Hvd1 & Hdr1 & Hgf1 & Hhw1 & Hycbcr1 & Hbasic
     & Hup1).
  cbv beta. cbn [fst snd] in Hbasic. st_simpl_in Hgf1. gl_simpl.
  destruct Hnothing as (Hm & Hin & Href & Hhelp).
  assert (Hfrag1 : negb (Z.land (gl_features s1) kGLExtFragProg =? 0) = true).
  { rewrite Hgf1. apply negb_true_iff, Z.eqb_neq. exact Hfrag. }
  assert (Hfbo1 : negb (Z.land (gl_features s1) kGLExtFBufObj =? 0) = true).
  { rewrite Hgf1. apply negb_true_iff, Z.eqb_neq. exact Hfbo. }
  rewrite Hfrag1, Hfbo1 in Hycbcr1. cbn [negb andb] in Hycbcr1.
  rewrite Hycbcr1, Hfrag1 in Hbasic. subst basic_features.
  wp_use (Init_graph_full_features use_pbo s1).
  - st_simpl_in Hm1. st_simpl_in Hin1. st_simpl_in Href1. st_simpl_in Hhelp1.
    repeat split; congruence.
  - rewrite Hvd1. destruct (height videoDim =? 1088); [exact Hw|exact Hw].
  - rewrite Hvd1. destruct (height videoDim =? 1088); [cbn; lia|exact Hh].
  - unfold calm. rewrite Hc1. st_simpl. gl_simpl. exact Hcalm.
  - split; [exact Hfbo1|exact Hfrag1].
  - exact Hhw1.
  - intros b s2 (-> & Hyuv). wp_steps. st_simpl. done.
Qed.

(** ** Switching deinterlacing *)




Context `{!FloatConv}.

(** ** Rendering *)

(** The quads drawn: textures, target and program of each [DrawBitmap]. *)
Definition draws (calls : list GLCall) : list (list GLuint * GLuint * GLuint) :=
  omap (fun c => match c with
                 | DrawBitmap textures target _ _ program => Some (textures, target, program)
                 | _ => None
                 end) calls.

Lemma draws_app c1 c2 : draws (c1 ++ c2) = draws c1 ++ draws c2.
Proof. unfold draws. apply omap_app. Qed.

Lemma draws_binding s filter gray : draws (bind_target s filter gray).1 = [].
Proof.
  unfold bind_target. destruct (outputBuffer filter).
  - destruct (viewportControl s), gray; reflexivity.
  - destruct (frameBuffers filter); reflexivity.
Qed.

(** What a stage draws, given the textures it reads. *)
Definition stage_draw (s : OpenGLVideo) (type : OpenGLFilterType) (filter : OpenGLFilter)
    (inputs : list GLuint) (topfieldfirst : bool) (scan : FrameScanType) (gray : bool) :
    option (list GLuint * GLuint * GLuint) :=
  textures ← bind_textures s type inputs;
  program ← select_program s type filter topfieldfirst scan;
  Some (textures, (bind_target s filter gray).2, program).

Lemma PrepareFrame_stage_draws s type filter first inputs inputsize softwarebob
    topfieldfirst scan draw_border gray :
  match PrepareFrame_stage s type filter first inputs inputsize softwarebob topfieldfirst
          scan draw_border gray with
  | Some calls =>
      exists d, stage_draw s type filter inputs topfieldfirst scan gray = Some d /\
                draws calls = [d]
  | None => stage_draw s type filter inputs topfieldfirst scan gray = None
  end.
Proof.
  unfold PrepareFrame_stage, stage_draw.
  pose proof (draws_binding s filter gray) as Hb.
  destruct (bind_target s filter gray) as [binding target]. cbn [fst snd] in *.
  destruct (bind_textures s type inputs) as [textures|]; [|reflexivity].
  destruct (select_program s type filter topfieldfirst scan) as [program|]; [|reflexivity].
  cbn. eexists. split; [reflexivity|].
  change (SetBackground 0 0 0 0 :: ?l) with ([SetBackground 0 0 0 0] ++ l).
  rewrite !draws_app, Hb.
  destruct (draw_border && _), (bool_decide (type = kGLFilterYUV2RGB)); reflexivity.
Qed.

(** The quads of the stages [its], the first of which reads [inputs]. *)
Fixpoint pipeline_draws (s : OpenGLVideo) (its : list OpenGLFilterType)
    (inputs : list GLuint) (topfieldfirst : bool) (scan : FrameScanType) (gray : bool) :
    option (list (list GLuint * GLuint * GLuint)) :=
  match its with
  | [] => Some []
  | type :: rest =>
      match filters s !! type with
      | Some (Some filter) =>
          d ← stage_draw s type filter inputs topfieldfirst scan gray;
          more ← pipeline_draws s rest (frameBufferTextures filter) topfieldfirst scan gray;
          Some (d :: more)
      | _ => None
      end
  end.

Lemma PrepareFrame_loop_draws s its :
  forall first inputs inputsize realsize softwarebob topfieldfirst scan draw_border gray,
    match PrepareFrame_loop s its first inputs inputsize realsize softwarebob topfieldfirst
            scan draw_border gray with
    | Some calls => pipeline_draws s its inputs topfieldfirst scan gray = Some (draws calls)
    | None => pipeline_draws s its inputs topfieldfirst scan gray = None
    end.
Proof.
  induction its as [|type rest IH]; intros; [reflexivity|].
  cbn [PrepareFrame_loop pipeline_draws].
  destruct (filters s !! type) as [[filter|]|]; [|reflexivity..].
  pose proof (PrepareFrame_stage_draws s type filter first inputs inputsize softwarebob
                topfieldfirst scan draw_border gray) as Hstage.
  destruct (PrepareFrame_stage _ _ _ _ _ _ _ _ _ _ _) as [calls|].
  - destruct Hstage as (d & -> & Hd). cbn.
    specialize (IH false (frameBufferTextures filter) realsize realsize softwarebob
                  topfieldfirst scan draw_border gray).
    destruct (PrepareFrame_loop _ _ _ _ _ _ _ _ _ _ _) as [more|].
    + rewrite IH. cbn. rewrite draws_app, Hd. reflexivity.
    + rewrite IH. reflexivity.
  - rewrite Hstage. reflexivity.
Qed.

Lemma bind_textures_prefix s type inputs textures :
  bind_textures s type inputs = Some textures -> inputs `prefix_of` textures.
Proof.
  unfold bind_textures. cbv zeta.
  destruct (_ && _ && _), (_ && _); destruct (_ <? _)%nat; try discriminate;
    intros [= <-]; rewrite <- ?(assoc_L app); try (by apply prefix_app_r); done.
Qed.

Lemma bind_textures_defined s type inputs :
  (length inputs + length (referenceTextures s) <= 3)%nat ->
  is_Some (bind_textures s type inputs).
Proof.
  intros Hlen. unfold bind_textures. cbv zeta.
  assert (Hfits : forall l : list GLuint, (length l <= 4)%nat -> (4 <? length l)%nat = false).
  { intros l Hl. apply Nat.ltb_ge. exact Hl. }
  destruct (_ && _ && _), (_ && _); rewrite Hfits; eauto;
    rewrite ?length_app; cbn [length]; lia.
Qed.

Lemma select_program_defined s type filter topfieldfirst scan :
  (type = kGLFilterYUV2RGB \/ type = kGLFilterBicubic -> fragmentPrograms filter ≠ []) ->
  is_Some (select_program s type filter topfieldfirst scan).
Proof.
  intros Hprog. unfold select_program.
  destruct (bool_decide (type = kGLFilterNone)) eqn:E1; cbn [negb andb]; [eauto|].
  destruct (bool_decide (type = kGLFilterResize)) eqn:E2; cbn [negb andb]; [eauto|].
  apply bool_decide_eq_false in E1, E2.
  assert (Hne : fragmentPrograms filter ≠ []) by (apply Hprog; destruct type; tauto).
  apply lookup_lt_is_Some.
  destruct (_ && _ && (length (fragmentPrograms filter) =? 3)%nat && _) eqn:E.
  - apply andb_true_iff in E as [E _]. apply andb_true_iff in E as [_ E].
    apply Nat.eqb_eq in E. rewrite E.
    destruct (bool_decide (scan = kScan_Interlaced)),
      (bool_decide (scan = kScan_Intr2ndField)), topfieldfirst; cbn; lia.
  - destruct (fragmentPrograms filter); [done|cbn; lia].
Qed.

(** What the stages need to be drawn: no null entry, at most one
    intermediate texture each, a program where one is used, and room in the
    texture array. *)
Definition drawable (s : OpenGLVideo) : Prop :=
  (forall k o, filters s !! k = Some o ->
     exists f, o = Some f /\ (length (frameBufferTextures f) <= 1)%nat /\
               (k = kGLFilterYUV2RGB \/ k = kGLFilterBicubic -> fragmentPrograms f ≠ [])) /\
  (1 <= length (inputTextures s))%nat /\
  (length (inputTextures s) + length (referenceTextures s) <= 3)%nat.

(** The textures that the stage at position [i] of [its] is given. *)
Definition inputs_at (s : OpenGLVideo) (its : list OpenGLFilterType) (inputs : list GLuint)
    (i : nat) : list GLuint :=
  match i with
  | O => inputs
  | S j => match its !! j with
           | Some k => stage_fbt (filters s) k
           | None => []
           end
  end.

Lemma pipeline_draws_defined s its topfieldfirst scan gray :
  drawable s -> (forall k, k ∈ its -> is_Some (filters s !! k)) ->
  forall inputs,
    (length inputs + length (referenceTextures s) <= 3)%nat ->
    exists ds,
      pipeline_draws s its inputs topfieldfirst scan gray = Some ds /\
      length ds = length its /\
      forall i k f,
        its !! i = Some k -> filters s !! k = Some (Some f) ->
        exists textures program,
          ds !! i = Some (textures, (bind_target s f gray).2, program) /\
          inputs_at s its inputs i `prefix_of` textures /\
          select_program s k f topfieldfirst scan = Some program.
Proof.
  intros (Hstages & Hin & Hroom) Hits.
  induction its as [|type rest IH]; intros inputs Hlen.
  { exists []. split; [reflexivity|]. split; [reflexivity|]. intros i k f Hi. done. }
  cbn [pipeline_draws].
  destruct (Hits type ltac:(left)) as [o Ho].
  destruct (Hstages _ _ Ho) as (filter & -> & Hfbt & Hprog). rewrite Ho.
  unfold stage_draw.
  destruct (bind_textures_defined s type inputs Hlen) as [textures Ht].
  destruct (select_program_defined s type filter topfieldfirst scan Hprog) as [program Hp].
  rewrite Ht, Hp. cbn.
  destruct (IH ltac:(intros k Hk; apply Hits; by right) (frameBufferTextures filter)
              ltac:(lia)) as (ds & -> & Hds & Hlookup).
  cbn. eexists. split; [reflexivity|]. split; [cbn; by rewrite Hds|].
  intros [|i] k f Hi Hk.
  - injection Hi as <-. rewrite Ho in Hk. injection Hk as <-.
    exists textures, program. split; [reflexivity|].
    split; [by eapply bind_textures_prefix|exact Hp].
  - cbn in Hi. destruct (Hlookup i k f Hi Hk) as (textures' & program' & Hd & Hpre & Hsel).
    exists textures', program'. split; [exact Hd|]. split; [|exact Hsel].
    destruct i as [|j]; [|exact Hpre].
    cbn. unfold stage_fbt. rewrite Ho. exact Hpre.
Qed.


Lemma GetTextureSize_run size s c r :
  GetTextureSize size s = Some (r, s) ->
  GetTextureSize size (set_gl_context c s) = Some (r, set_gl_context c s).
Proof.
  unfold GetTextureSize, mbind, M_bind, get, mret, M_ret, undefined. st_simpl.
  destruct (textureRects s); [by intros [= ->]|].
  destruct (double_until 32 64 (width size)), (double_until 32 64 (height size));
    try discriminate; by intros [= ->].
Qed.

Lemma PrepareFrame_loop_context c s its :
  forall first inputs inputsize realsize softwarebob topfieldfirst scan draw_border gray,
    PrepareFrame_loop (set_gl_context c s) its first inputs inputsize realsize softwarebob
      topfieldfirst scan draw_border gray =
    PrepareFrame_loop s its first inputs inputsize realsize softwarebob
      topfieldfirst scan draw_border gray.
Proof.
  induction its as [|type rest IH]; intros; [reflexivity|].
  cbn [PrepareFrame_loop]. st_simpl.
  destruct (filters s !! type) as [[filter|]|]; [|reflexivity..].
  rewrite IH. reflexivity.
Qed.

Lemma PrepareFrame_run topfieldfirst scan softwareDeinterlacing frame draw_border gray s :
  drawable s -> sizes_ok s -> filters s ≠ ∅ ->
  exists calls,
    PrepareFrame topfieldfirst scan softwareDeinterlacing frame draw_border gray s =
      Some (calls, set_inputUpdated false (set_currentFrameNum frame s)) /\
    length (draws calls) = length (pipeline (filters s)) /\
    forall i k f,
      pipeline (filters s) !! i = Some k -> filters s !! k = Some (Some f) ->
      exists textures program,
        draws calls !! i = Some (textures, (bind_target s f gray).2, program) /\
        inputs_at s (pipeline (filters s)) (inputTextures s) i `prefix_of` textures /\
        select_program s k f topfieldfirst scan = Some program.
Proof.
  intros Hdraw Hsz Hne.
  pose proof Hdraw as (_ & Hin & Hroom).
  destruct (pipeline_draws_defined s (pipeline (filters s)) topfieldfirst scan gray Hdraw
              ltac:(intros k Hk; by apply elem_of_pipeline) (inputTextures s) Hroom)
    as (ds & Hds & Hlen & Hlookup).
  destruct (GetTextureSize_defined (video_dim s) s Hsz) as [realsize Hreal].
  set (softwarebob := String.eqb (softwareDeinterlacer s) "bobdeint" && softwareDeinterlacing).
  pose proof (PrepareFrame_loop_draws s (pipeline (filters s)) true (inputTextures s)
                (inputTextureSize s) realsize softwarebob topfieldfirst scan draw_border gray)
    as Hloop.
  destruct (PrepareFrame_loop _ _ _ _ _ _ _ _ _ _ _) as [calls|] eqn:Hcalls;
    [|congruence].
  rewrite Hds in Hloop. injection Hloop as ->.
  exists calls. split; [|split; [exact Hlen|exact Hlookup]].
  apply wp_eq. unfold PrepareFrame. wp_steps.
  assert (Hinputs : bool_decide (inputTextures s = []) = false).
  { apply bool_decide_eq_false. intros E. rewrite E in Hin. cbn in Hin. lia. }
  assert (Hsize : (size (filters s) =? 0)%nat = false).
  { apply Nat.eqb_neq. intros E. by apply map_size_empty_iff in E. }
  rewrite Hinputs, Hsize. cbn [orb]. unfold locked. wp_steps. st_simpl.
  eapply wp_intro.
  { apply (GetTextureSize_run (video_dim s) s _ realsize Hreal). }
  wp_steps.
  eapply wp_intro.
  { unfold reading. st_simpl. fold softwarebob.
    rewrite PrepareFrame_loop_context, Hcalls. reflexivity. }
  wp_steps. st_simpl. f_equal. destruct s as [[]]. reflexivity.
Qed.

(** X22. [PrepareFrame] does nothing at all - no call on the context, no member
    assigned, not even the lock taken - without an input texture or without
    a stage. Otherwise, on a graph that can be drawn, it returns after one
    [DrawBitmap] per stage, and the object is as before but for
    [currentFrameNum], which is the frame number given, and [inputUpdated],
    which is [false]: the loop writes neither past the four entries of
    [textures] nor reads past the programs of a stage. *)
Theorem PrepareFrame_effect (topfieldfirst : bool) (scan : FrameScanType)
    (softwareDeinterlacing : bool) (frame : Z) (draw_border gray : bool) (s : OpenGLVideo) :
  (inputTextures s = [] \/ filters s = ∅ ->
   PrepareFrame topfieldfirst scan softwareDeinterlacing frame draw_border gray s =
   Some ([], s)) /\
  (drawable s -> sizes_ok s -> filters s ≠ ∅ ->
   exists calls,
     PrepareFrame topfieldfirst scan softwareDeinterlacing frame draw_border gray s =
       Some (calls, set_inputUpdated false (set_currentFrameNum frame s)) /\
     length (draws calls) = length (pipeline (filters s))).
Proof.
  split.
  - intros Hidle. apply wp_eq. unfold PrepareFrame. wp_steps.
    assert (Hcond : bool_decide (inputTextures s = []) || (size (filters s) =? 0)%nat = true).
    { destruct Hidle as [E|E]; rewrite E; [reflexivity|].
      rewrite orb_true_iff. right. reflexivity. }
    rewrite Hcond. wp_steps. reflexivity.
  - intros Hdraw Hsz Hne.
    destruct (PrepareFrame_run topfieldfirst scan softwareDeinterlacing frame draw_border
                gray s Hdraw Hsz Hne) as (calls & Hrun & Hlen & _).
    eauto.
Qed.

(** X23. On a reconciled graph each stage is drawn from the output of the one
    before it into its own framebuffer, and the last one onto the screen:
    the quad of the first stage reads the input textures, the quad of a
    later stage reads the intermediate textures of the stage before (each
    possibly followed by the reference textures or the helper texture); the
    target of a stage that has a successor is its one framebuffer, the target
    of the last stage is 0. *)
Theorem PrepareFrame_chain (topfieldfirst : bool) (scan : FrameScanType)
    (softwareDeinterlacing : bool) (frame : Z) (draw_border gray : bool) (s : OpenGLVideo) :
  drawable s -> sizes_ok s -> filters s ≠ ∅ ->
  graph_inv (filters s) -> reconciled (filters s) ->
  exists calls s',
    PrepareFrame topfieldfirst scan softwareDeinterlacing frame draw_border gray s =
      Some (calls, s') /\
    forall i k f,
      pipeline (filters s) !! i = Some k -> filters s !! k = Some (Some f) ->
      exists textures target program,
        draws calls !! i = Some (textures, target, program) /\
        inputs_at s (pipeline (filters s)) (inputTextures s) i `prefix_of` textures /\
        match pipeline (filters s) !! S i with
        | Some _ => frameBuffers f = [target]
        | None => target = 0
        end.
Proof.
  intros Hdraw Hsz Hne [Hsmall _] Hrec.
  destruct (PrepareFrame_run topfieldfirst scan softwareDeinterlacing frame draw_border
              gray s Hdraw Hsz Hne) as (calls & Hrun & _ & Hlookup).
  exists calls, (set_inputUpdated false (set_currentFrameNum frame s)).
  split; [exact Hrun|]. intros i k f Hi Hk.
  destruct (Hlookup i k f Hi Hk) as (textures & program & Hd & Hpre & _).
  exists textures, (bind_target s f gray).2, program.
  split; [exact Hd|]. split; [exact Hpre|].
  specialize (Hrec i k f Hi Hk). unfold bind_target.
  destruct (pipeline (filters s) !! S i) as [k'|].
  - destruct Hrec as (g & Hg & -> & Hcount & _).
    destruct (Hsmall _ _ Hg) as (g' & [= <-] & _ & Hone & _).
    rewrite Hone in Hcount. unfold count in Hcount.
    destruct (frameBuffers f) as [|fb [|? ?]]; cbn in Hcount; try lia. reflexivity.
  - rewrite Hrec. reflexivity.
Qed.

(** X24. The program of the colourspace stage: with three programs, one of the
    two deinterlacing programs is used only when hardware deinterlacing is
    on and no reference frame is wanted any more ([refsNeeded] is 0), chosen
    by the field and its order; in every other case the first program. *)
Theorem PrepareFrame_deinterlacing_program (topfieldfirst : bool) (scan : FrameScanType)
    (softwareDeinterlacing : bool) (frame : Z) (draw_border gray : bool) (s : OpenGLVideo)
    (f : OpenGLFilter) (p0 p1 p2 : GLuint) :
  drawable s -> sizes_ok s ->
  filters s !! kGLFilterYUV2RGB = Some (Some f) ->
  fragmentPrograms f = [p0; p1; p2] ->
  exists calls s' i textures target,
    PrepareFrame topfieldfirst scan softwareDeinterlacing frame draw_border gray s =
      Some (calls, s') /\
    pipeline (filters s) !! i = Some kGLFilterYUV2RGB /\
    draws calls !! i =
      Some (textures, target,
            if hardwareDeinterlacing s && (refsNeeded s =? 0) then
              match scan with
              | kScan_Interlaced => if topfieldfirst then p1 else p2
              | kScan_Intr2ndField => if topfieldfirst then p2 else p1
              | _ => p0
              end
            else p0).
Proof.
  intros Hdraw Hsz Hf Hprogs.
  assert (Hne : filters s ≠ ∅).
  { intros E. rewrite E in Hf. by rewrite lookup_empty in Hf. }
  destruct (PrepareFrame_run topfieldfirst scan softwareDeinterlacing frame draw_border
              gray s Hdraw Hsz Hne) as (calls & Hrun & _ & Hlookup).
  assert (Hin : kGLFilterYUV2RGB ∈ pipeline (filters s)).
  { apply elem_of_pipeline. eauto. }
  apply list_elem_of_lookup in Hin as [i Hi].
  destruct (Hlookup i _ f Hi Hf) as (textures & program & Hd & _ & Hsel).
  exists calls, (set_inputUpdated false (set_currentFrameNum frame s)), i, textures,
    (bind_target s f gray).2.
  split; [exact Hrun|]. split; [exact Hi|].
  assert (Hprogram : program =
            if hardwareDeinterlacing s && (refsNeeded s =? 0) then
              match scan with
              | kScan_Interlaced => if topfieldfirst then p1 else p2
              | kScan_Intr2ndField => if topfieldfirst then p2 else p1
              | _ => p0
              end
            else p0).
  { unfold select_program in Hsel. rewrite Hprogs in Hsel. cbn in Hsel.
    destruct (hardwareDeinterlacing s), (refsNeeded s =? 0); cbn in Hsel;
      [|by injection Hsel..].
    destruct scan, topfieldfirst; cbn in Hsel; by injection Hsel. }
  rewrite <- Hprogram. exact Hd.
Qed.

(** ** Installing a deinterlacer: the outcome *)














End Properties.

(** * The theorems at concrete inputs *)

#[local] Existing Instance upstream_consts.
#[local] Existing Instance Exact.ops.
#[local] Existing Instance rectangle_platform.
#[local] Existing Instance exact_conv.

(** A removed stage leaves its (null) entry in the mapping:
    [filters.count] still finds it after [RemoveFilter]. *)
Lemma RemoveFilter_leaves_entry :
  exists s',
    RemoveFilter kGLFilterYUV2RGB two_stages = Some (true, s') /\
    filters s' !! kGLFilterYUV2RGB = Some None /\
    filters_count kGLFilterYUV2RGB s' = Some (true, s').
Proof.
  eexists. split; [vm_compute; reflexivity|]. split; vm_compute; reflexivity.
Qed.

Lemma RemoveFilter_destroys_and_nulls_witness :
  exists s',
    RemoveFilter kGLFilterYUV2RGB two_stages = Some (true, s') /\
    GL.programs (gl_context s') !! 1 = None /\
    GL.framebuffers (gl_context s') !! 1 = None /\
    GL.textures (gl_context s') !! 101 = None /\
    filters s' !! kGLFilterYUV2RGB = Some None.
Proof.
  destruct (RemoveFilter_destroys_and_nulls kGLFilterYUV2RGB
              (mkOpenGLFilter [1] 1 [1] [101] kFrameBufferObject) two_stages)
    as (s' & Hrun & Hp & Hb & Ht & _ & Hnull & _).
  - vm_compute. reflexivity.
  - exists s'. split; [exact Hrun|].
    split; [apply Hp; left|]. split; [apply Hb; left|]. split; [apply Ht; left|].
    exact Hnull.
Defined.

Lemma UpdateInputFrame_mismatch_no_change_witness :
  UpdateInputFrame (mkVideoFrame 720 576 FMT_YV12 false 7) false video_720x480 =
  Some (tt, video_720x480).
Proof.
  apply UpdateInputFrame_mismatch_no_change.
  right. left. vm_compute. discriminate.
Defined.

(** The program for an unknown deinterlacer name is not the text produced
    when no deinterlacer is requested. *)
Lemma unknown_deinterlacer_text_differs :
  exists text s1 text0 s2,
    GetProgramString kGLFilterYUV2RGB "nosuchdeint" kScan_Interlaced video_720x480 =
      Some (text, s1) /\
    GetProgramString kGLFilterYUV2RGB EmptyString kScan_Interlaced video_720x480 =
      Some (text0, s2) /\
    text <> text0.
Proof.
  eexists _, _, _, _. split; [vm_compute; reflexivity|].
  split; [vm_compute; reflexivity|].
  intros E. apply (f_equal String.length) in E. vm_compute in E. discriminate.
Qed.

Lemma unknown_deinterlacer_program_witness :
  exists text s1,
    GetProgramString kGLFilterYUV2RGB "nosuchdeint" kScan_Interlaced video_720x480 =
      Some (text, s1) /\
    "GLVid: Unrecognised OpenGL deinterlacer" ∈ verbose_log s1.
Proof.
  destruct (unknown_deinterlacer_program "nosuchdeint" kScan_Interlaced video_720x480)
    as (text & s1 & text0 & s2 & tail & Hrun & _ & _ & _ & _ & Hlog).
  - discriminate.
  - reflexivity.
  - right. vm_compute. split; discriminate.
  - exists text, s1. split; [exact Hrun | exact Hlog].
Defined.

(** With the top field first, both fields of a frame are shifted the same
    way: one display row up for a 1080-row display of a 540-row video. *)
Lemma hardware_bob_same_for_both_fields :
  hardware_bob (mkQRect 0 0 1920 1080) (mkQRect 0 0 720 540) true kScan_Interlaced = (-1 # 1)%Q /\
  hardware_bob (mkQRect 0 0 1920 1080) (mkQRect 0 0 720 540) true kScan_Intr2ndField = (-1 # 1)%Q.
Proof. split; vm_compute; reflexivity. Qed.

(** The stage map of a concrete state, looked up at every key. *)
Ltac by_lookup H :=
  match type of H with
  | _ !! ?k = _ => destruct k; vm_compute in H; try discriminate H
  end.








(** One upload after the installation on an input texture that never held
    a frame: the ring holds no frame, where the minimum of the number of
    uploads and the ring capacity is one. *)
Lemma ring_holds_no_frame_after_first_upload :
  exists s0 s',
    content_of 100 (gl_context deinterlacing_on) = Some None /\
    hardwareDeinterlacing deinterlacing_on = true /\
    AddDeinterlacer "opengllinearblend" deinterlacing_on = Some (true, s0) /\
    accepted s0 (frame_720x480 7) /\
    run_operations [DoUpdateInputFrame (frame_720x480 7) false] s0 = Some (tt, s') /\
    length (referenceTextures s') = 2%nat /\
    ring_frames s' = [] /\
    length (ring_frames s') ≠ Nat.min 1 2.
Proof.
  eexists _, _. split; [vm_compute; reflexivity|]. split; [reflexivity|].
  split; [vm_compute; reflexivity|].
  split; [repeat split; vm_compute; congruence|].
  split; [vm_compute; reflexivity|]. split; [vm_compute; reflexivity|].
  split; [vm_compute; reflexivity|]. vm_compute. discriminate.
Qed.

Lemma deinterlacing_on_unowned h : unowned h deinterlacing_on \/ h = 0.
Proof.
  destruct (decide (h = 0)) as [->|Hne]; [by right|left].
  split; [exact Hne|]. intros k f Hk.
  by_lookup Hk. injection Hk as <-. apply not_elem_of_nil.
Defined.

Lemma reference_ring_history_witness :
  exists s',
    run_operations (upload <$> [(frame_720x480 7, false); (frame_720x480 8, false);
                                (frame_720x480 9, false)])
                   linearblend_installed = Some (tt, s') /\
    ring_frames s' = [(GL.PackInterlaced, 8); (GL.PackInterlaced, 7)] /\
    refsNeeded s' = 0.
Proof.
  destruct (reference_ring_history "opengllinearblend" 100 [] None
              [(frame_720x480 7, false); (frame_720x480 8, false); (frame_720x480 9, false)]
              deinterlacing_on linearblend_installed)
    as (s' & Hrun & _ & _ & _ & Hframes & Hn & _).
  - reflexivity.
  - split; [lia|vm_compute; reflexivity].
  - destruct (deinterlacing_on_unowned 100) as [Hu|?]; [exact Hu|discriminate].
  - vm_compute. apply not_elem_of_nil.
  - intros h Hp _. destruct (deinterlacing_on_unowned h) as [Hu|?]; [exact Hu|lia].
  - intros h Hh. vm_compute in Hh. by apply elem_of_nil in Hh.
  - reflexivity.
  - vm_compute. discriminate.
  - reflexivity.
  - vm_compute. reflexivity.
  - repeat constructor; vm_compute; congruence.
  - exists s'. split; [exact Hrun|]. split; [|exact Hn].
    rewrite Hframes. vm_compute. reflexivity.
Defined.

Lemma RotateTextures_conserves_handles_witness :
  exists s' tmp,
    RotateTextures linearblend_installed = Some (tt, s') /\
    inputTextures s' = [tmp] /\
    (tmp :: referenceTextures s') ≡ₚ [100; 101; 102].
Proof.
  destruct (RotateTextures_conserves_handles linearblend_installed) as [Hrotate _].
  destruct (Hrotate 100 []) as (s' & tmp & body & Hrun & _ & Hin & _ & Hperm).
  - vm_compute. lia.
  - vm_compute. reflexivity.
  - exists s', tmp. split; [exact Hrun|]. split; [exact Hin|].
    vm_compute in Hperm. exact Hperm.
Defined.

(** * Further properties at concrete inputs *)

Lemma ParseOptions_no_token_witness :
  ParseOptions "openglbicubic,vsync=1" = 0x3FFF.
Proof.
  change (ParseOptions "openglbicubic,vsync=1" = u32 (kGLMaxFeat - 1)).
  apply (ParseOptions_no_token "openglbicubic,vsync=1").
  intros tok Htok. vm_compute in Htok.
  apply elem_of_cons in Htok as [->|Htok]; [vm_compute; discriminate|].
  apply elem_of_cons in Htok as [->|Htok]; [vm_compute; discriminate|].
  by apply elem_of_nil in Htok.
Defined.

Lemma ParseOptions_stops_at_comma_witness :
  ParseOptions "opengloptions=nopbo,nofbo" = ParseOptions "opengloptions=nopbo".
Proof. apply (ParseOptions_stops_at_comma "nopbo" "nofbo"). reflexivity. Defined.

Lemma ParseOptions_clears_named_bits_witness :
  ParseOptions "opengloptions=NoPBO-nofrag" = 0x3FFF - 0x10 - 0x4.
Proof.
  rewrite (ParseOptions_clears_named_bits 14 [6; 5; 4; 3; 2; 1; 7] "NoPBO-nofrag").
  - vm_compute. reflexivity.
  - lia.
  - reflexivity.
  - repeat constructor; set_solver.
  - repeat constructor; lia.
  - reflexivity.
  - reflexivity.
Defined.

Lemma GetTextureSize_rounds_up_witness :
  GetTextureSize (mkQSize 720 480) video_720x480 = Some (mkQSize 1024 512, video_720x480).
Proof.
  destruct (GetTextureSize_rounds_up (mkQSize 720 480) video_720x480) as (_ & Hround & _).
  destruct Hround as (w & h & i & j & Hrun & _ & _ & Hw & Hw' & _ & _ & _);
    [reflexivity|vm_compute; discriminate|vm_compute; discriminate|].
  vm_compute. reflexivity.
Defined.

Lemma AddFrameBuffer_cleans_up_witness :
  exists r s',
    AddFrameBuffer (mkQSize 720 480) video_720x480 = Some (r, s') /\
    filters s' = filters video_720x480.
Proof.
  destruct (AddFrameBuffer_cleans_up (mkQSize 720 480) video_720x480)
    as (r & s' & Hrun & Hm & _).
  - vm_compute. reflexivity.
  - exists r, s'. split; [exact Hrun | exact Hm].
Defined.



Lemma AddFilter_unsupported_witness :
  exists log,
    AddFilter kGLFilterYUV2RGB (set_gl_features 0 video_720x480) =
      Some (false, set_verbose_log (verbose_log (set_gl_features 0 video_720x480) ++ log)
                     (set_gl_features 0 video_720x480)) /\
    log ≠ [].
Proof.
  apply (AddFilter_unsupported kGLFilterYUV2RGB (set_gl_features 0 video_720x480)).
  - reflexivity.
  - right. right. split; [reflexivity|]. vm_compute. discriminate.
Defined.

Lemma Teardown_releases_everything_witness :
  exists s',
    Teardown linearblend_installed = Some (tt, s') /\
    filters s' = ∅ /\ inputTextures s' = [] /\ referenceTextures s' = [].
Proof.
  destruct (Teardown_releases_everything linearblend_installed)
    as (s' & Hrun & Hm & Hi & Hr & _).
  - intros k Hk. by_lookup Hk.
  - exists s'. split; [exact Hrun|]. split; [exact Hm|]. split; [exact Hi|exact Hr].
Defined.

Lemma RotateTextures_full_turn_witness :
  run_operations (replicate 3 DoRotateTextures) linearblend_installed =
  Some (tt, set_refsNeeded 0 linearblend_installed).
Proof.
  rewrite (RotateTextures_full_turn linearblend_installed 100 []).
  - vm_compute. reflexivity.
  - vm_compute. lia.
  - vm_compute. reflexivity.
Defined.

Lemma UpdateInputFrame_plain_upload_witness :
  exists s',
    UpdateInputFrame (frame_720x480 7) false one_stage = Some (tt, s') /\
    inputUpdated s' = true /\
    content_of 100 (gl_context s') = Some (Some (GL.PackInterlaced, 7)).
Proof.
  eexists. split.
  - apply (UpdateInputFrame_plain_upload (frame_720x480 7) false 100 [] one_stage).
    + reflexivity.
    + repeat split; vm_compute; congruence.
    + vm_compute. reflexivity.
    + vm_compute. eauto.
  - split; vm_compute; reflexivity.
Defined.

(** The deinterlacer installed, but the textures of the ring lost. *)
Lemma UpdateInputFrame_unmapped_witness :
  exists s1,
    UpdateInputFrame (frame_720x480 7) false
      (set_gl_context (GL.set_textures ∅ (gl_context linearblend_installed))
                      linearblend_installed) = Some (tt, s1) /\
    inputUpdated s1 = false /\
    inputTextures s1 = [102].
Proof.
  eexists. split.
  - apply (UpdateInputFrame_unmapped (frame_720x480 7) false
             (set_gl_context (GL.set_textures ∅ (gl_context linearblend_installed))
                             linearblend_installed) _ 102 []).
    + reflexivity.
    + repeat split; vm_compute; congruence.
    + vm_compute. reflexivity.
    + vm_compute. reflexivity.
    + vm_compute. reflexivity.
  - split; vm_compute; reflexivity.
Defined.

Lemma TearDownDeinterlacer_effect_witness :
  exists s',
    TearDownDeinterlacer linearblend_installed = Some (tt, s') /\
    referenceTextures s' = [] /\ refsNeeded s' = 0 /\
    inputTextures s' = inputTextures linearblend_installed.
Proof.
  destruct (TearDownDeinterlacer_effect linearblend_installed) as [_ Hstage].
  destruct (Hstage (mkOpenGLFilter [1; 2; 3] 1 [1] [103] kFrameBufferObject))
    as (s' & Hrun & _ & Hr & Hn & Hi & _).
  - vm_compute. reflexivity.
  - exists s'. split; [exact Hrun|]. split; [exact Hr|]. split; [exact Hn|exact Hi].
Defined.

Lemma AddDeinterlacer_early_returns_witness :
  exists msg,
    AddDeinterlacer "opengllinearblend" video_720x480 =
    Some (false, set_verbose_log (verbose_log video_720x480 ++ [msg]) video_720x480).
Proof.
  destruct (AddDeinterlacer_early_returns "opengllinearblend" video_720x480)
    as (_ & Hstage & _).
  apply Hstage; reflexivity.
Defined.

Lemma two_stages_graph_wf : graph_wf (filters two_stages).
Proof.
  intros k o Hk.
  by_lookup Hk; injection Hk as <-; (eexists; split; [reflexivity|]);
    repeat split; vm_compute; congruence.
Defined.

Lemma two_stages_reconciled : reconciled (filters two_stages).
Proof.
  intros i k f Hi Hk.
  destruct i as [|[|i]]; vm_compute in Hi; [| |discriminate Hi].
  - injection Hi as <-. vm_compute in Hk. injection Hk as <-.
    eexists. split; [vm_compute; reflexivity|]. repeat split; vm_compute; reflexivity.
  - injection Hi as <-. vm_compute in Hk. injection Hk as <-. reflexivity.
Defined.

Lemma OptimiseFilters_idempotent_witness :
  exists s', OptimiseFilters two_stages = Some (true, s') /\ filters s' = filters two_stages.
Proof.
  apply (OptimiseFilters_idempotent two_stages).
  - exact two_stages_graph_wf.
  - exact two_stages_reconciled.
Defined.

Lemma SetFiltering_policy_witness :
  exists c',
    SetFiltering two_stages = Some (tt, set_gl_context c' two_stages) /\
    GL.framebuffers c' = GL.framebuffers (gl_context two_stages) /\
    GL.programs c' = GL.programs (gl_context two_stages).
Proof.
  destruct (SetFiltering_policy two_stages) as (c' & Hrun & _ & Hfb & Hp).
  - intros k Hk. by_lookup Hk.
  - exists c'. split; [exact Hrun|]. split; [exact Hfb|exact Hp].
Defined.

(** A number is written with digits, a sign and a point. *)
Lemma digits_percent_free (n : Z) : percent_free (Exact.digits n) = true.
Proof.
  unfold Exact.digits. generalize (N.to_uint (Z.to_N n)). intros d.
  unfold DecimalString.NilZero.string_of_uint.
  destruct d; try reflexivity;
    cbn [DecimalString.NilEmpty.string_of_uint percent_free];
    (match goal with |- context [DecimalString.NilEmpty.string_of_uint ?d] =>
       induction d; cbn [DecimalString.NilEmpty.string_of_uint percent_free];
         [reflexivity|assumption..]
     end).
Qed.

Lemma percent_free_append (x y : string) :
  percent_free x = true -> percent_free y = true -> percent_free (x +:+ y) = true.
Proof.
  intros Hx Hy. induction x as [|c x IH]; [exact Hy|].
  change (percent_free (String c (x +:+ y)) = true).
  cbn [percent_free] in Hx |- *. apply andb_true_iff in Hx as [Hc Hx].
  rewrite Hc, (IH Hx). reflexivity.
Qed.

Lemma zeros_percent_free (n : nat) : percent_free (Exact.zeros n) = true.
Proof. induction n as [|n IH]; [reflexivity|exact IH]. Qed.

Lemma setNum_percent_free (q : Q) (prec : nat) : percent_free (Exact.setNum q prec) = true.
Proof.
  unfold Exact.setNum. cbv zeta.
  apply percent_free_append; [|apply percent_free_append].
  - by destruct (_ && _).
  - apply digits_percent_free.
  - destruct (prec =? 0)%nat; [reflexivity|].
    apply (percent_free_append "."); [reflexivity|].
    apply percent_free_append; [apply zeros_percent_free|apply digits_percent_free].
Qed.

Lemma GetProgramString_text_witness :
  exists body s',
    GetProgramString kGLFilterYUV2RGB "openglyadif" kScan_Interlaced video_720x480 =
      Some (program_header +:+ body +:+ "END", s') /\
    percent_free (program_header +:+ body +:+ "END") = true.
Proof.
  apply (GetProgramString_text kGLFilterYUV2RGB "openglyadif" kScan_Interlaced video_720x480).
  - right. vm_compute. split; discriminate.
  - exact setNum_percent_free.
Defined.


Lemma Init_full_features_witness :
  exists s',
    Init (Some empty_context) (mkQSize 720 480) (mkQRect 0 0 1920 1080)
         (mkQRect 0 0 1920 1080) (mkQRect 0 0 720 480) true "opengloptions=nopbo" false
         constructed = Some (true, s') /\
    is_Some (filters s' !! kGLFilterYUV2RGB).
Proof.
  apply (Init_full_features empty_context (mkQSize 720 480) (mkQRect 0 0 1920 1080)
           (mkQRect 0 0 1920 1080) (mkQRect 0 0 720 480) true "opengloptions=nopbo"
           constructed).
  - repeat split.
  - vm_compute. discriminate.
  - vm_compute. discriminate.
  - reflexivity.
  - vm_compute. discriminate.
  - vm_compute. discriminate.
Defined.

(** [Init] can return [true] and leave the graph without a stage: the
    colourspace stage cannot be built, the software path puts the
    plain-resize stage in, and the resize decision takes it out again for a
    bicubic stage that cannot be built either. *)
Lemma Init_true_without_a_stage :
  exists s',
    Init (Some (GL.mkContext ∅ ∅ ∅ [false; true; false; false; true] 0x3FFF 0))
         (mkQSize 720 480) (mkQRect 0 0 1920 1080)
         (mkQRect 0 0 1920 1080) (mkQRect 0 0 720 480) true "openglbicubic" false
         constructed = Some (true, s') /\
    filters s' = ∅.
Proof. eexists. split; vm_compute; reflexivity. Qed.



(** A failed [Init] holds nothing, but the context can keep a texture: the
    input texture created before [AddFilter] failed is in no list yet when
    [Teardown] runs. *)
Lemma Init_false_leaves_a_texture :
  exists s',
    Init (Some (GL.mkContext ∅ ∅ ∅ [false; true; true] 0x3FFF 0))
         (mkQSize 720 480) (mkQRect 0 0 1920 1080)
         (mkQRect 0 0 1920 1080) (mkQRect 0 0 720 480) true EmptyString false
         constructed = Some (false, s') /\
    inputTextures s' = [] /\ filters s' = ∅ /\
    is_Some (GL.textures (gl_context s') !! 1).
Proof.
  eexists. split; [vm_compute; reflexivity|].
  split; [reflexivity|]. split; [reflexivity|]. vm_compute. eauto.
Qed.

Lemma two_stages_drawable : drawable two_stages.
Proof.
  split; [|split; vm_compute; lia].
  intros k o Hk.
  by_lookup Hk; injection Hk as <-; (eexists; split; [reflexivity|]);
    (split; [vm_compute; lia|]); intros Hk' Hp; vm_compute in Hp;
    first [discriminate Hp | destruct Hk' as [E|E]; discriminate E].
Defined.

Lemma two_stages_graph_inv : graph_inv (filters two_stages).
Proof.
  split.
  - intros k o Hk.
    by_lookup Hk; injection Hk as <-; (eexists; split; [reflexivity|]);
      repeat split; vm_compute; congruence.
  - intros k k' f Hk [o Hk'] Hlt.
    by_lookup Hk; by_lookup Hk'; try (vm_compute in Hlt; lia).
    injection Hk as <-. reflexivity.
Defined.

Lemma two_stages_not_empty : filters two_stages ≠ ∅.
Proof.
  intros E. apply (f_equal (fun m => m !! kGLFilterResize)) in E.
  vm_compute in E. discriminate.
Defined.

Lemma PrepareFrame_effect_witness :
  exists calls,
    PrepareFrame true kScan_Progressive false 7 false false two_stages =
      Some (calls, set_inputUpdated false (set_currentFrameNum 7 two_stages)) /\
    length (draws calls) = 2%nat.
Proof.
  destruct (PrepareFrame_effect true kScan_Progressive false 7 false false two_stages)
    as [_ Hdraws].
  destruct Hdraws as (calls & Hrun & Hlen).
  - exact two_stages_drawable.
  - right. vm_compute. split; discriminate.
  - exact two_stages_not_empty.
  - exists calls. split; [exact Hrun|]. rewrite Hlen. vm_compute. reflexivity.
Defined.

Lemma PrepareFrame_chain_witness :
  exists calls s' textures program,
    PrepareFrame true kScan_Progressive false 7 false false two_stages =
      Some (calls, s') /\
    draws calls !! 1%nat = Some (textures, 0, program) /\
    [101] `prefix_of` textures.
Proof.
  destruct (PrepareFrame_chain true kScan_Progressive false 7 false false two_stages)
    as (calls & s' & Hrun & Hstages).
  - exact two_stages_drawable.
  - right. vm_compute. split; discriminate.
  - exact two_stages_not_empty.
  - exact two_stages_graph_inv.
  - exact two_stages_reconciled.
  - destruct (Hstages 1%nat kGLFilterResize
                (mkOpenGLFilter [] 1 [] [] kDefaultBuffer))
      as (textures & target & program & Hd & Hpre & Htarget).
    + vm_compute. reflexivity.
    + vm_compute. reflexivity.
    + exists calls, s', textures, program. split; [exact Hrun|].
      vm_compute in Htarget. subst target. split; [exact Hd|].
      vm_compute in Hpre. exact Hpre.
Defined.

Lemma PrepareFrame_deinterlacing_program_witness :
  exists calls s' i textures target,
    PrepareFrame true kScan_Interlaced false 7 false false
      (set_refsNeeded 0 linearblend_installed) = Some (calls, s') /\
    draws calls !! i = Some (textures, target, 2).
Proof.
  destruct (PrepareFrame_deinterlacing_program true kScan_Interlaced false 7 false false
              (set_refsNeeded 0 linearblend_installed)
              (mkOpenGLFilter [1; 2; 3] 1 [1] [103] kFrameBufferObject) 1 2 3)
    as (calls & s' & i & textures & target & Hrun & _ & Hd).
  - split; [|split; vm_compute; lia].
    intros k o Hk.
    by_lookup Hk; injection Hk as <-; (eexists; split; [reflexivity|]);
      (split; [vm_compute; lia|]); intros Hk' Hp; vm_compute in Hp;
    first [discriminate Hp | destruct Hk' as [E|E]; discriminate E].
  - right. vm_compute. split; discriminate.
  - vm_compute. reflexivity.
  - reflexivity.
  - exists calls, s', i, textures, target. split; [exact Hrun|exact Hd].
Defined.


